(** * DiscoPoP graph analyzer: pattern detection on the program execution tree

    A shallow embedding of the pattern detectors of the DiscoPoP graph
    analyzer and of the properties its design document states about them.

    - [Py]: the Python values and control effects the sources rely on
      (exceptions, string slicing, string order, numpy's norm and dot).
    - [PETGraphX]: [graph_analyzer/PETGraphX.py], the networkx based graph
      and its query layer.
    - [GeometricDecomposition]:
      [graph_analyzer/pattern_detectors/geometric_decomposition_detector.py].
    - [GraphTool]: the graph_tool graph the other two sources work on.
    - [PatternDetection]: [pattern_detection.py], the graph_tool based
      detector class [PatternDetector].
    - [TaskParallelism]:
      [graph_analyzer/pattern_detectors/task_parallelism_detector.py].
    - [Examples]: concrete graphs; [Spec]: the notions the statements use.

    A function that recurses or loops without a bound in the source takes a
    [fuel] argument; the properties say which fuel lets it finish.
    Definitions come first, the theorems follow. *)

From Stdlib Require Import ZArith List String Ascii Bool Lia PeanoNat Floats.
From Stdlib Require Import DecimalString.
Import ListNotations.
Open Scope string_scope.
Open Scope list_scope.

Set Implicit Arguments.

(* ===================================================================== *)
(** ** Python values and effects *)
(* ===================================================================== *)

Module Py.

(** The exceptions the modelled code can raise. *)
Inductive Exn : Type :=
| KeyError
| AttributeError
| IndexError
| ValueError.

(** Outcome of a Python call: a value, a raised exception, or a recursion
    (or loop) that the given fuel did not let finish. *)
Inductive result (A : Type) : Type :=
| Ok (a : A)
| Raise (e : Exn)
| OutOfFuel.

Arguments Ok {A} a.
Arguments Raise {A} e.
Arguments OutOfFuel {A}.

Definition bind {A B : Type} (r : result A) (k : A -> result B) : result B :=
  match r with
  | Ok a => k a
  | Raise e => Raise e
  | OutOfFuel => OutOfFuel
  end.

Definition is_ok {A : Type} (r : result A) : bool :=
  match r with Ok _ => true | _ => false end.

(** The call came to an end: it returned or raised. *)
Definition finished {A : Type} (r : result A) : bool :=
  match r with OutOfFuel => false | _ => true end.

(** [for x in l: acc = step acc x], an exception leaving the loop. *)
Fixpoint for_each {A S : Type} (l : list A) (step : S -> A -> result S) (s : S)
  : result S :=
  match l with
  | [] => Ok s
  | x :: l' => bind (step s x) (for_each l' step)
  end.

(** [str(n)] for an integer. *)
Definition str_of_Z (z : Z) : string := NilEmpty.string_of_int (Z.to_int z).

(** [f'{a}:{b}'] *)
Definition position (file line : Z) : string :=
  (str_of_Z file ++ ":" ++ str_of_Z line)%string.

(** [s.index(":")]: position of the first colon, ValueError without one. *)
Fixpoint index_colon (s : string) : result nat :=
  match s with
  | EmptyString => Raise ValueError
  | String c s' =>
      if Ascii.eqb c ":"%char then Ok 0
      else bind (index_colon s') (fun i => Ok (S i))
  end.

(** [s[n:]] *)
Fixpoint drop (n : nat) (s : string) : string :=
  match n, s with
  | 0, _ => s
  | S n', String _ s' => drop n' s'
  | S _, EmptyString => EmptyString
  end.

(** [s[s.index(":") + 1:]] *)
Definition after_colon (s : string) : result string :=
  bind (index_colon s) (fun i => Ok (drop (i + 1) s)).

(** [":" in s] *)
Definition has_colon (s : string) : bool := is_ok (index_colon s).

(** [x in l] for a list of strings. *)
Definition str_in (x : string) (l : list string) : bool :=
  existsb (String.eqb x) l.

(** [a < b] on [str]: the order of the code points, left to right. *)
Definition str_lt (a b : string) : bool := String.ltb a b.
Definition str_le (a b : string) : bool := String.leb a b.
Definition str_gt (a b : string) : bool := String.ltb b a.
Definition str_ge (a b : string) : bool := String.leb b a.

(** A Python number as the detectors produce them: the literal [0] and
    [1] are [int]s, numpy's results are binary64 floats. *)
Inductive num : Type :=
| PyInt (z : Z)
| PyFloat (f : float).

(** [float(z)], exact below 2^53 (the vectors hold 0, 1 and weights). *)
Definition float_of_Z (z : Z) : float :=
  match z with
  | Z0 => 0%float
  | Zpos _ => PrimFloat.of_uint63 (Uint63.of_Z z)
  | Zneg _ => PrimFloat.opp (PrimFloat.of_uint63 (Uint63.of_Z (Z.opp z)))
  end.

Definition to_float (x : num) : float :=
  match x with
  | PyInt z => float_of_Z z
  | PyFloat f => f
  end.

(** [np.dot(v1, v2)] on two lists of one length, accumulated left to
    right in binary64. *)
Fixpoint dot_from (acc : float) (v1 v2 : list num) : float :=
  match v1, v2 with
  | x :: v1', y :: v2' =>
      dot_from (PrimFloat.add acc (PrimFloat.mul (to_float x) (to_float y))) v1' v2'
  | _, _ => acc
  end.

Definition dot (v1 v2 : list num) : float := dot_from 0%float v1 v2.

(** [np.linalg.norm(v)]: the square root of [dot(v, v)]. *)
Definition norm (v : list num) : float := PrimFloat.sqrt (dot v v).

End Py.

Notation "x <- c1 ;; c2" := (Py.bind c1 (fun x => c2))
  (at level 61, c1 at next level, right associativity).

(** An entry of the reduction table: [{'loop_line': .., 'name': ..,
    'operation': ..}]. *)
Record ReductionVar : Type := mkReductionVar {
  loop_line : string;
  rv_name : string;
  operation : string
}.

(* ===================================================================== *)
(** ** graph_analyzer/PETGraphX.py *)
(* ===================================================================== *)

Module PETGraphX.
Import Py.

Inductive EdgeType : Type := CHILD | SUCCESSOR | DATA.
Inductive DepType : Type := RAW | WAR | WAW.
Inductive CuType : Type := CU | FUNC | LOOP | DUMMY.

Definition EdgeType_eqb (a b : EdgeType) : bool :=
  match a, b with
  | CHILD, CHILD | SUCCESSOR, SUCCESSOR | DATA, DATA => true
  | _, _ => false
  end.

Definition DepType_eqb (a b : DepType) : bool :=
  match a, b with
  | RAW, RAW | WAR, WAR | WAW, WAW => true
  | _, _ => false
  end.

Definition CuType_eqb (a b : CuType) : bool :=
  match a, b with
  | CU, CU | FUNC, FUNC | LOOP, LOOP | DUMMY, DUMMY => true
  | _, _ => false
  end.

(** [==] on attributes that start as [None]. *)
Definition opt_str_eqb (a b : option string) : bool :=
  match a, b with
  | Some x, Some y => String.eqb x y
  | None, None => true
  | _, _ => false
  end.

Definition opt_dtype_is (a : option DepType) (t : DepType) : bool :=
  match a with
  | Some x => DepType_eqb x t
  | None => false
  end.

(** [a in l] for an attribute that may be [None] and a list of strings. *)
Definition opt_str_in (a : option string) (l : list string) : bool :=
  match a with
  | Some x => str_in x l
  | None => false
  end.

(** class Dependency: [__init__] sets the edge type and leaves the rest
    [None]. *)
Record Dependency : Type := mkDependency {
  etype : EdgeType;
  dtype : option DepType;
  var_name : option string;
  source : option string;
  sink : option string
}.

Definition Dependency_init (t : EdgeType) : Dependency :=
  mkDependency t None None None None.

(** [Variable(type, name)] of the variable module. *)
Record Variable_ : Type := mkVariable {
  vtype : string;
  vname : string
}.

(** class CuNode. *)
Record CuNode : Type := mkCuNode {
  id : string;
  file_id : Z;
  node_id : Z;
  source_file : Z;
  start_line : Z;
  end_line : Z;
  type : CuType;
  name : string;
  instructions_count : Z;
  loop_iterations : Z;
  reduction : bool;
  do_all : bool;
  geometric_decomposition : bool;
  pipeline : float;
  local_vars : list Variable_;
  global_vars : list Variable_
}.

Definition start_position (n : CuNode) : string :=
  position (source_file n) (start_line n).

Definition end_position (n : CuNode) : string :=
  position (source_file n) (end_line n).

(** [CuNode.__eq__]: two nodes are equal when their ids are. *)
Definition CuNode_eq (a b : CuNode) : bool := String.eqb (id b) (id a).

(** [n in l] for a list of nodes. *)
Definition node_in (n : CuNode) (l : list CuNode) : bool :=
  existsb (fun c => CuNode_eq c n) l.

(** [s.add(n)] for a set of nodes: an equal element already there stays. *)
Definition set_add (s : list CuNode) (n : CuNode) : list CuNode :=
  if node_in n s then s else s ++ [n].

Definition Edge : Type := (string * string * Dependency)%type.
Definition e_src (e : Edge) : string := fst (fst e).
Definition e_tgt (e : Edge) : string := snd (fst e).
Definition e_data (e : Edge) : Dependency := snd e.

(** networkx.MultiDiGraph as the class uses it: the nodes in insertion
    order, each with its ['data'] attribute when [add_node] gave one (a node
    that only [add_edge] created has none), and the edges in insertion
    order. *)
Record MultiDiGraph : Type := mkGraph {
  nodes : list (string * option CuNode);
  edges : list Edge
}.

Record PETGraphX : Type := mkPET {
  g : MultiDiGraph;
  reduction_vars : list ReductionVar
}.

Definition has_node (ns : list (string * option CuNode)) (i : string) : bool :=
  existsb (fun p => String.eqb (fst p) i) ns.

(** [g.add_node(i, data=n)]: a new node goes last, a known one has its
    attribute replaced. *)
Definition add_node (gr : MultiDiGraph) (i : string) (n : CuNode) : MultiDiGraph :=
  if has_node (nodes gr) i
  then mkGraph (map (fun p => if String.eqb (fst p) i then (i, Some n) else p) (nodes gr))
               (edges gr)
  else mkGraph (nodes gr ++ [(i, Some n)]) (edges gr).

Definition touch_node (ns : list (string * option CuNode)) (i : string)
  : list (string * option CuNode) :=
  if has_node ns i then ns else ns ++ [(i, None)].

(** [g.add_edge(u, v, data=d)]: both ends become nodes if they were not. *)
Definition add_edge (gr : MultiDiGraph) (u v : string) (d : Dependency) : MultiDiGraph :=
  mkGraph (touch_node (touch_node (nodes gr) u) v) (edges gr ++ [(u, v, d)]).

(** The distinct elements of a list in the order of their first occurrence
    (the key order of a dict filled from the list). *)
Fixpoint uniq (l : list string) : list string :=
  match l with
  | [] => []
  | x :: l' => x :: filter (fun y => negb (String.eqb y x)) (uniq l')
  end.

(** [g.out_edges(n, data='data')]: the edges leaving [n], grouped by target
    in the order the targets became neighbours, parallel edges in insertion
    order. *)
Definition nx_out_edges (gr : MultiDiGraph) (n : string) : list Edge :=
  let es := filter (fun e => String.eqb (e_src e) n) (edges gr) in
  flat_map (fun t => filter (fun e => String.eqb (e_tgt e) t) es) (uniq (map e_tgt es)).

(** [g.in_edges(n, data='data')], grouped by source. *)
Definition nx_in_edges (gr : MultiDiGraph) (n : string) : list Edge :=
  let es := filter (fun e => String.eqb (e_tgt e) n) (edges gr) in
  flat_map (fun s => filter (fun e => String.eqb (e_src e) s) es) (uniq (map e_src es)).

Definition etype_ok (et : option EdgeType) (e : Edge) : bool :=
  match et with
  | None => true
  | Some t => EdgeType_eqb (etype (e_data e)) t
  end.

Definition out_edges (pet : PETGraphX) (node_id : string) (et : option EdgeType)
  : list Edge :=
  filter (etype_ok et) (nx_out_edges (g pet) node_id).

Definition in_edges (pet : PETGraphX) (node_id : string) (et : option EdgeType)
  : list Edge :=
  filter (etype_ok et) (nx_in_edges (g pet) node_id).

(** [self.g.nodes[node_id]['data']] *)
Fixpoint lookup_node (ns : list (string * option CuNode)) (i : string)
  : result CuNode :=
  match ns with
  | [] => Raise KeyError
  | (k, d) :: ns' =>
      if String.eqb k i
      then match d with Some n => Ok n | None => Raise KeyError end
      else lookup_node ns' i
  end.

Definition node_at (pet : PETGraphX) (node_id : string) : result CuNode :=
  lookup_node (nodes (g pet)) node_id.

(** [all_nodes(type)] with a type given: the test [n[1].type == type] needs
    every node to carry its data. *)
Fixpoint all_nodes_of (ns : list (string * option CuNode)) (ty : CuType)
  : result (list CuNode) :=
  match ns with
  | [] => Ok []
  | (_, None) :: _ => Raise AttributeError
  | (_, Some n) :: ns' =>
      rest <- all_nodes_of ns' ty ;;
      Ok (if CuType_eqb (type n) ty then n :: rest else rest)
  end.

Definition all_nodes (pet : PETGraphX) (ty : CuType) : result (list CuNode) :=
  all_nodes_of (nodes (g pet)) ty.

(** [subtree_of_type]: the recursion follows CHILD edges; [fuel] bounds its
    depth. *)
Fixpoint subtree_of_type (fuel : nat) (pet : PETGraphX) (root : CuNode) (ty : CuType)
  : result (list CuNode) :=
  match fuel with
  | 0 => OutOfFuel
  | S fuel' =>
      for_each (out_edges pet (id root) (Some CHILD))
        (fun res e =>
           n <- node_at pet (e_tgt e) ;;
           sub <- subtree_of_type fuel' pet n ty ;;
           Ok (res ++ sub))
        (if CuType_eqb (type root) ty then [root] else [])
  end.

(** [direct_children_of_type]: the comprehension calls [node_at] on every
    CHILD target. *)
Definition direct_children_of_type (pet : PETGraphX) (root : CuNode) (ty : CuType)
  : result (list CuNode) :=
  for_each (out_edges pet (id root) (Some CHILD))
    (fun res e =>
       n <- node_at pet (e_tgt e) ;;
       Ok (if CuType_eqb (type n) ty then res ++ [n] else res))
    [].

Definition is_reduction_var (pet : PETGraphX) (line name_ : string) : bool :=
  existsb (fun rv => String.eqb (loop_line rv) line && String.eqb (rv_name rv) name_)
          (reduction_vars pet).

(** The RAW data edges leaving a node: [(t, d) for s, t, d in
    out_edges(c.id, DATA) if d.dtype == RAW]. *)
Definition raw_out (pet : PETGraphX) (c : CuNode) : list Edge :=
  filter (fun e => opt_dtype_is (dtype (e_data e)) RAW) (out_edges pet (id c) (Some DATA)).

(** The inner loop of [is_loop_index] over the edges of one child; [true]
    is the early [return True]. *)
Fixpoint loop_index_edges (pet : PETGraphX) (loops_start_lines : list string)
  (children : list CuNode) (es : list Edge) : result bool :=
  match es with
  | [] => Ok false
  | e :: es' =>
      let d := e_data e in
      if opt_str_eqb (sink d) (source d) && opt_str_in (source d) loops_start_lines
      then
        n <- node_at pet (e_tgt e) ;;
        if node_in n children then Ok true
        else loop_index_edges pet loops_start_lines children es'
      else loop_index_edges pet loops_start_lines children es'
  end.

Fixpoint loop_index_children (pet : PETGraphX) (var : option string)
  (loops_start_lines : list string) (children cs : list CuNode) : result bool :=
  match cs with
  | [] => Ok false
  | c :: cs' =>
      found <- loop_index_edges pet loops_start_lines children
                 (filter (fun e => opt_str_eqb (var_name (e_data e)) var) (raw_out pet c)) ;;
      if found then Ok true
      else loop_index_children pet var loops_start_lines children cs'
  end.

Definition is_loop_index (pet : PETGraphX) (var : option string)
  (loops_start_lines : list string) (children : list CuNode) : result bool :=
  loop_index_children pet var loops_start_lines children children.

(** One child of the loop in [is_readonly_inside_loop_body]: [true] when
    one of its edges makes the function return False. *)
Definition written_at (pet : PETGraphX) (dep : Dependency)
  (loops_start_lines : list string) (v : CuNode) : bool :=
  existsb (fun e =>
             let d := e_data e in
             (opt_dtype_is (dtype d) WAR || opt_dtype_is (dtype d) WAW)
             && opt_str_eqb (var_name dep) (var_name d)
             && negb (opt_str_in (sink d) loops_start_lines))
          (out_edges pet (id v) (Some DATA))
  || existsb (fun e =>
                let d := e_data e in
                opt_dtype_is (dtype d) RAW
                && opt_str_eqb (var_name dep) (var_name d)
                && negb (opt_str_in (source d) loops_start_lines))
             (in_edges pet (id v) (Some DATA)).

Definition is_readonly_inside_loop_body (fuel : nat) (pet : PETGraphX)
  (dep : Dependency) (root_loop : CuNode) : result bool :=
  loops <- subtree_of_type fuel pet root_loop LOOP ;;
  children <- subtree_of_type fuel pet root_loop CU ;;
  Ok (negb (existsb (written_at pet dep (map start_position loops)) children)).

(** The body of the inner loop of [get_all_dependencies] for one RAW edge:
    [None] is the [continue], [Some n] the node added to the set. *)
Definition dependency_of_edge (fuel : nat) (pet : PETGraphX)
  (loops_start_lines : list string) (root_loop : CuNode) (e : Edge)
  : result (option CuNode) :=
  cus <- subtree_of_type fuel pet root_loop CU ;;
  idx <- is_loop_index pet (var_name (e_data e)) loops_start_lines cus ;;
  if idx then Ok None
  else
    ro <- is_readonly_inside_loop_body fuel pet (e_data e) root_loop ;;
    if ro then Ok None
    else n <- node_at pet (e_tgt e) ;; Ok (Some n).

Definition get_all_dependencies (fuel : nat) (pet : PETGraphX)
  (node root_loop : CuNode) : result (list CuNode) :=
  children <- subtree_of_type fuel pet node CU ;;
  loops <- subtree_of_type fuel pet root_loop LOOP ;;
  let loops_start_lines := map start_position loops in
  for_each children
    (fun dep_set v =>
       for_each (raw_out pet v)
         (fun dep_set e =>
            r <- dependency_of_edge fuel pet loops_start_lines root_loop e ;;
            Ok (match r with Some n => set_add dep_set n | None => dep_set end))
         dep_set)
    [].

Definition depends_ignore_readonly (fuel : nat) (pet : PETGraphX)
  (source_ target root_loop : CuNode) : result bool :=
  children <- subtree_of_type fuel pet target CU ;;
  deps <- get_all_dependencies fuel pet source_ root_loop ;;
  Ok (existsb (fun dep => node_in dep children) deps).

(** *** Construction: [PETGraphX.__init__] *)

(** What [__init__] reads of one entry of [cu_dict]: the node [parse_cu]
    builds from the XML element, and the element's [childrenNodes] and
    [successors.CU] lists when it has them. *)
Record CuElement : Type := mkCuElement {
  parsed : CuNode;
  childrenNodes : option (list string);
  successors : option (list string)
}.

(** [parser.DependenceItem]. *)
Record DependenceItem : Type := mkDependenceItem {
  dep_sink : string;
  dep_source : string;
  dep_type : string;
  dep_var_name : string
}.

(** [DepType[name]] *)
Definition DepType_of_name (s : string) : result DepType :=
  if String.eqb s "RAW" then Ok RAW
  else if String.eqb s "WAR" then Ok WAR
  else if String.eqb s "WAW" then Ok WAW
  else Raise KeyError.

Definition parse_dependency (dep : DependenceItem) : result Dependency :=
  t <- DepType_of_name (dep_type dep) ;;
  Ok (mkDependency DATA (Some t) (Some (dep_var_name dep))
                   (Some (dep_source dep)) (Some (dep_sink dep))).

(** [loop_data.get(key, 0)] *)
Fixpoint dict_get (d : list (string * Z)) (key : string) (default : Z) : Z :=
  match d with
  | [] => default
  | (k, v) :: d' => if String.eqb k key then v else dict_get d' key default
  end.

(** Truth value of a string. *)
Definition truthy (s : string) : bool := negb (String.eqb s "").

Section Construction.

(** The two line-to-CU tables of the parser module, read by subscript. *)
Variable readlineToCUIdMap : string -> list string.
Variable writelineToCUIdMap : string -> list string.

Definition add_nodes (cu_dict : list (string * CuElement)) (gr : MultiDiGraph)
  : MultiDiGraph :=
  fold_left (fun gr kv => add_node gr (fst kv) (parsed (snd kv))) cu_dict gr.

(** [for node in all_nodes(LOOP): node.loop_iterations = loop_data.get(..)] *)
Definition set_loop_iterations (loop_data : list (string * Z)) (gr : MultiDiGraph)
  : MultiDiGraph :=
  mkGraph
    (map (fun p =>
            match snd p with
            | Some n =>
                if CuType_eqb (type n) LOOP
                then (fst p,
                      Some (mkCuNode (id n) (file_id n) (node_id n) (source_file n)
                              (start_line n) (end_line n) (type n) (name n)
                              (instructions_count n)
                              (dict_get loop_data (start_position n) 0%Z)
                              (reduction n) (do_all n) (geometric_decomposition n)
                              (pipeline n) (local_vars n) (global_vars n)))
                else p
            | None => p
            end)
         (nodes gr))
    (edges gr).

Definition opt_list (o : option (list string)) : list string :=
  match o with Some l => l | None => [] end.

(** The CHILD and SUCCESSOR edges of one entry; a missing end node is only
    reported. *)
Definition add_structure_of (gr : MultiDiGraph) (kv : string * CuElement)
  : MultiDiGraph :=
  let gr1 :=
    fold_left (fun gr child => add_edge gr (fst kv) child (Dependency_init CHILD))
              (opt_list (childrenNodes (snd kv))) gr in
  fold_left (fun gr succ => add_edge gr (fst kv) succ (Dependency_init SUCCESSOR))
            (opt_list (successors (snd kv))) gr1.

Definition add_structure (cu_dict : list (string * CuElement)) (gr : MultiDiGraph)
  : MultiDiGraph :=
  fold_left add_structure_of cu_dict gr.

(** The body of the two inner loops for one pair of CU ids. *)
Definition add_dependence_pair (dep : DependenceItem) (sink_cu_id source_cu_id : string)
  (gr : MultiDiGraph) : result MultiDiGraph :=
  if String.eqb sink_cu_id source_cu_id
     && (String.eqb (dep_type dep) "WAR" || String.eqb (dep_type dep) "WAW")
  then Ok gr
  else if truthy sink_cu_id && truthy source_cu_id
  then d <- parse_dependency dep ;; Ok (add_edge gr sink_cu_id source_cu_id d)
  else Ok gr.

Definition add_dependence (gr : MultiDiGraph) (dep : DependenceItem)
  : result MultiDiGraph :=
  if String.eqb (dep_type dep) "INIT" then Ok gr
  else
    for_each (readlineToCUIdMap (dep_sink dep))
      (fun gr sink_cu_id =>
         for_each (writelineToCUIdMap (dep_source dep))
           (fun gr source_cu_id => add_dependence_pair dep sink_cu_id source_cu_id gr)
           gr)
      gr.

Definition add_dependencies (dependencies_list : list DependenceItem) (gr : MultiDiGraph)
  : result MultiDiGraph :=
  for_each dependencies_list add_dependence gr.

(** The graph before the dependence records are read. *)
Definition structure_graph (cu_dict : list (string * CuElement))
  (loop_data : list (string * Z)) : MultiDiGraph :=
  add_structure cu_dict (set_loop_iterations loop_data (add_nodes cu_dict (mkGraph [] []))).

(** [PETGraphX(cu_dict, dependencies_list, loop_data, reduction_vars)]. The
    layout computed for plotting between the two edge loops is no part of
    the model. *)
Definition init (cu_dict : list (string * CuElement))
  (dependencies_list : list DependenceItem) (loop_data : list (string * Z))
  (rvs : list ReductionVar) : result PETGraphX :=
  gr <- add_dependencies dependencies_list (structure_graph cu_dict loop_data) ;;
  Ok (mkPET gr rvs).

End Construction.

End PETGraphX.

(* ===================================================================== *)
(** ** graph_analyzer/pattern_detectors/geometric_decomposition_detector.py *)
(* ===================================================================== *)

Module GeometricDecomposition.
Import Py PETGraphX.

(** The test of both loops of [__detect_geometric_decomposition]:
    [child.reduction or child.do_all]. *)
Definition flagged (child : CuNode) : bool := reduction child || do_all child.

(** The second loop: the LOOP children of each FUNC child, looked up one
    FUNC child at a time; [false] is the early [return False]. *)
Fixpoint scan_func_children (pet : PETGraphX) (funcs : list CuNode) : result bool :=
  match funcs with
  | [] => Ok true
  | child :: funcs' =>
      loops <- direct_children_of_type pet child LOOP ;;
      if existsb flagged loops then Ok false
      else scan_func_children pet funcs'
  end.

Definition detect_geometric_decomposition (fuel : nat) (pet : PETGraphX) (root : CuNode)
  : result bool :=
  loops <- subtree_of_type fuel pet root LOOP ;;
  if existsb flagged loops then Ok false
  else
    funcs <- direct_children_of_type pet root FUNC ;;
    scan_func_children pet funcs.

(** [node.geometric_decomposition = True] on the node object the graph
    holds under [i]. *)
Definition mark (pet : PETGraphX) (i : string) : PETGraphX :=
  mkPET
    (mkGraph
       (map (fun p =>
               match snd p with
               | Some n =>
                   if String.eqb (fst p) i
                   then (fst p,
                         Some (mkCuNode (id n) (file_id n) (node_id n) (source_file n)
                                 (start_line n) (end_line n) (type n) (name n)
                                 (instructions_count n) (loop_iterations n)
                                 (reduction n) (do_all n) true
                                 (pipeline n) (local_vars n) (global_vars n)))
                   else p
               | None => p
               end)
            (nodes (g pet)))
       (edges (g pet)))
    (reduction_vars pet).

(** The head of the loop body of [run_detection] for one LOOP node: the
    test, and the flag written when it answers True. The rest of the body
    (chunk limit, pattern record) goes through the graph_tool interface and
    the utils module and is no part of the model. *)
Definition run_detection_step (fuel : nat) (pet : PETGraphX) (node : CuNode)
  : result PETGraphX :=
  q <- detect_geometric_decomposition fuel pet node ;;
  Ok (if q then mark pet (id node) else pet).

End GeometricDecomposition.

(* ===================================================================== *)
(** ** The graph_tool program execution tree *)
(* ===================================================================== *)

Module GraphTool.
Import Py.

(** Modelled from the spec: the PETGraph class and its graph_tool graph are
    not among the sources. The graph is the data model of the design: the
    vertices are 0 .. n-1, an edge carries the five edge properties (type,
    dtype, var, source, sink), and the vertex properties are the ones the
    detectors read and write, with the types of the property table
    ([node_props] of PETGraphX.py): the flags do_all, reduction and
    geometric decomposition are booleans, the pipeline score a float, the
    role and the three viz marks strings. *)
Definition Vertex : Type := nat.

Record Edge : Type := mkEdge {
  e_source : Vertex;
  e_target : Vertex;
  ep_type : string;
  ep_dtype : string;
  ep_var : string;
  ep_source : string;
  ep_sink : string
}.

Record Graph : Type := mkGraph {
  num_vertices : nat;
  edges : list Edge;
  vp_id : Vertex -> string;
  vp_type : Vertex -> string;
  vp_name : Vertex -> string;
  vp_startsAtLine : Vertex -> string;
  vp_endsAtLine : Vertex -> string;
  vp_localVars : Vertex -> list string;
  vp_globalVars : Vertex -> list string;
  vp_pipeline : Vertex -> float;
  vp_doAll : Vertex -> bool;
  vp_geomDecomp : Vertex -> bool;
  vp_reduction : Vertex -> bool;
  vp_mwType : Vertex -> string;
  vp_viz_omittable : Vertex -> string;
  vp_viz_contains_task : Vertex -> string;
  vp_viz_contains_taskwait : Vertex -> string
}.

Definition set_edges (gr : Graph) (x : list Edge) : Graph :=
  mkGraph (num_vertices gr) x (vp_id gr) (vp_type gr) (vp_name gr)
    (vp_startsAtLine gr) (vp_endsAtLine gr) (vp_localVars gr) (vp_globalVars
    gr) (vp_pipeline gr) (vp_doAll gr) (vp_geomDecomp gr) (vp_reduction gr)
    (vp_mwType gr) (vp_viz_omittable gr) (vp_viz_contains_task gr)
    (vp_viz_contains_taskwait gr).

Definition set_vp_pipeline (gr : Graph) (x : Vertex -> float) : Graph :=
  mkGraph (num_vertices gr) (edges gr) (vp_id gr) (vp_type gr) (vp_name gr)
    (vp_startsAtLine gr) (vp_endsAtLine gr) (vp_localVars gr) (vp_globalVars
    gr) x (vp_doAll gr) (vp_geomDecomp gr) (vp_reduction gr) (vp_mwType gr)
    (vp_viz_omittable gr) (vp_viz_contains_task gr) (vp_viz_contains_taskwait
    gr).

Definition set_vp_doAll (gr : Graph) (x : Vertex -> bool) : Graph :=
  mkGraph (num_vertices gr) (edges gr) (vp_id gr) (vp_type gr) (vp_name gr)
    (vp_startsAtLine gr) (vp_endsAtLine gr) (vp_localVars gr) (vp_globalVars
    gr) (vp_pipeline gr) x (vp_geomDecomp gr) (vp_reduction gr) (vp_mwType gr)
    (vp_viz_omittable gr) (vp_viz_contains_task gr) (vp_viz_contains_taskwait
    gr).

Definition set_vp_geomDecomp (gr : Graph) (x : Vertex -> bool) : Graph :=
  mkGraph (num_vertices gr) (edges gr) (vp_id gr) (vp_type gr) (vp_name gr)
    (vp_startsAtLine gr) (vp_endsAtLine gr) (vp_localVars gr) (vp_globalVars
    gr) (vp_pipeline gr) (vp_doAll gr) x (vp_reduction gr) (vp_mwType gr)
    (vp_viz_omittable gr) (vp_viz_contains_task gr) (vp_viz_contains_taskwait
    gr).

Definition set_vp_reduction (gr : Graph) (x : Vertex -> bool) : Graph :=
  mkGraph (num_vertices gr) (edges gr) (vp_id gr) (vp_type gr) (vp_name gr)
    (vp_startsAtLine gr) (vp_endsAtLine gr) (vp_localVars gr) (vp_globalVars
    gr) (vp_pipeline gr) (vp_doAll gr) (vp_geomDecomp gr) x (vp_mwType gr)
    (vp_viz_omittable gr) (vp_viz_contains_task gr) (vp_viz_contains_taskwait
    gr).

Definition set_vp_mwType (gr : Graph) (x : Vertex -> string) : Graph :=
  mkGraph (num_vertices gr) (edges gr) (vp_id gr) (vp_type gr) (vp_name gr)
    (vp_startsAtLine gr) (vp_endsAtLine gr) (vp_localVars gr) (vp_globalVars
    gr) (vp_pipeline gr) (vp_doAll gr) (vp_geomDecomp gr) (vp_reduction gr) x
    (vp_viz_omittable gr) (vp_viz_contains_task gr) (vp_viz_contains_taskwait
    gr).

Definition set_vp_viz_omittable (gr : Graph) (x : Vertex -> string) : Graph :=
  mkGraph (num_vertices gr) (edges gr) (vp_id gr) (vp_type gr) (vp_name gr)
    (vp_startsAtLine gr) (vp_endsAtLine gr) (vp_localVars gr) (vp_globalVars
    gr) (vp_pipeline gr) (vp_doAll gr) (vp_geomDecomp gr) (vp_reduction gr)
    (vp_mwType gr) x (vp_viz_contains_task gr) (vp_viz_contains_taskwait gr).

Definition set_vp_viz_contains_task (gr : Graph) (x : Vertex -> string) : Graph :=
  mkGraph (num_vertices gr) (edges gr) (vp_id gr) (vp_type gr) (vp_name gr)
    (vp_startsAtLine gr) (vp_endsAtLine gr) (vp_localVars gr) (vp_globalVars
    gr) (vp_pipeline gr) (vp_doAll gr) (vp_geomDecomp gr) (vp_reduction gr)
    (vp_mwType gr) (vp_viz_omittable gr) x (vp_viz_contains_taskwait gr).

Definition set_vp_viz_contains_taskwait (gr : Graph) (x : Vertex -> string) : Graph :=
  mkGraph (num_vertices gr) (edges gr) (vp_id gr) (vp_type gr) (vp_name gr)
    (vp_startsAtLine gr) (vp_endsAtLine gr) (vp_localVars gr) (vp_globalVars
    gr) (vp_pipeline gr) (vp_doAll gr) (vp_geomDecomp gr) (vp_reduction gr)
    (vp_mwType gr) (vp_viz_omittable gr) (vp_viz_contains_task gr) x.

(** [prop[v] = x] *)
Definition upd {A : Type} (m : Vertex -> A) (v : Vertex) (x : A) : Vertex -> A :=
  fun u => if Nat.eqb u v then x else m u.

(** [graph.vertices()] *)
Definition vertices (gr : Graph) : list Vertex := seq 0 (num_vertices gr).

(** [v.out_edges()] and [v.in_edges()], in insertion order. *)
Definition out_edges (gr : Graph) (v : Vertex) : list Edge :=
  filter (fun e => Nat.eqb (e_source e) v) (edges gr).

Definition in_edges (gr : Graph) (v : Vertex) : list Edge :=
  filter (fun e => Nat.eqb (e_target e) v) (edges gr).

(** [find_vertex(graph, prop, val)] *)
Definition find_vertex (gr : Graph) (prop : Vertex -> string) (val : string)
  : list Vertex :=
  filter (fun v => String.eqb (prop v) val) (vertices gr).

(** [v in l] for a list of vertices. *)
Definition vertex_in (v : Vertex) (l : list Vertex) : bool := existsb (Nat.eqb v) l.

(** [s.add(v)] for a set of vertices. *)
Definition vset_add (s : list Vertex) (v : Vertex) : list Vertex :=
  if vertex_in v s then s else s ++ [v].

(** [l.remove(v)]: the first occurrence goes. *)
Fixpoint list_remove (v : Vertex) (l : list Vertex) : list Vertex :=
  match l with
  | [] => []
  | x :: l' => if Nat.eqb x v then l' else x :: list_remove v l'
  end.

(** [find_subnodes(graph, node, criteria)] of pattern_detection.py: the
    targets of the out-edges of one type. *)
Definition find_subnodes (gr : Graph) (node : Vertex) (criteria : string)
  : list Vertex :=
  map e_target (filter (fun e => String.eqb (ep_type e) criteria) (out_edges gr node)).

(** [n2 in [e.target() for e in n1.out_edges()] or
     n2 in [e.source() for e in n1.in_edges()]] *)
Definition linked (gr : Graph) (n1 n2 : Vertex) : bool :=
  vertex_in n2 (map e_target (out_edges gr n1))
  || vertex_in n2 (map e_source (in_edges gr n1)).

(** The search for BARRIER_WORKER pairs that ends both
    [PatternDetector.detect_task_parallelism] and [__detect_mw_types] (the
    two loops have the same text). The state is the role map and the list
    of pairs. The inner loop for one [n1]: the [break] ends it. *)
Fixpoint barrier_pairs_inner (gr : Graph) (n1 : Vertex) (l : list Vertex)
  (st : (Vertex -> string) * list (Vertex * Vertex))
  : (Vertex -> string) * list (Vertex * Vertex) :=
  match l with
  | [] => st
  | n2 :: l' =>
      if String.eqb (fst st n2) "BARRIER" && negb (Nat.eqb n1 n2)
      then
        if linked gr n1 n2 then st
        else barrier_pairs_inner gr n1 l'
               (upd (upd (fst st) n1 "BARRIER_WORKER") n2 "BARRIER_WORKER",
                snd st ++ [(n1, n2)])
      else barrier_pairs_inner gr n1 l' st
  end.

Definition barrier_pairs (gr : Graph) (direct_subnodes : list Vertex)
  (mw : Vertex -> string) : (Vertex -> string) * list (Vertex * Vertex) :=
  fold_left
    (fun st n1 =>
       if String.eqb (fst st n1) "BARRIER"
       then barrier_pairs_inner gr n1 direct_subnodes st
       else st)
    direct_subnodes (mw, []).

End GraphTool.

(* ===================================================================== *)
(** ** pattern_detection.py *)
(* ===================================================================== *)

Module PatternDetection.
Import Py GraphTool.

(** [correlation_coefficient], with the division as a parameter so that a
    statement can say whether the division takes part in a result. *)
Definition correlation_coefficient_with (divide : float -> float -> float)
  (v1 v2 : list num) : num :=
  let norm_product := PrimFloat.mul (norm v1) (norm v2) in
  if PrimFloat.eqb norm_product 0%float then PyInt 0
  else PyFloat (divide (dot v1 v2) norm_product).

Definition correlation_coefficient (v1 v2 : list num) : num :=
  correlation_coefficient_with PrimFloat.div v1 v2.

(** class PatternDetector: the graph of [self.pet] and the tables
    [__init__] fills. *)
Record PatternDetector : Type := mkDetector {
  pet : Graph;
  do_all_threshold : float;
  loop_iterations : list (Vertex * Z);
  reduction_vars : list ReductionVar;
  loop_data : list (string * Z)
}.

Definition with_pet (self : PatternDetector) (gr : Graph) : PatternDetector :=
  mkDetector gr (do_all_threshold self) (loop_iterations self)
             (reduction_vars self) (loop_data self).

Definition with_loop_iterations (self : PatternDetector) (c : list (Vertex * Z))
  : PatternDetector :=
  mkDetector (pet self) (do_all_threshold self) c (reduction_vars self) (loop_data self).

(** [get_subtree_of_type]; [fuel] bounds the depth of the recursion. *)
Fixpoint get_subtree_of_type (fuel : nat) (gr : Graph) (root : Vertex) (ty : string)
  : result (list Vertex) :=
  match fuel with
  | 0 => OutOfFuel
  | S fuel' =>
      for_each (out_edges gr root)
        (fun res e =>
           if String.eqb (ep_type e) "child"
           then sub <- get_subtree_of_type fuel' gr (e_target e) ty ;; Ok (res ++ sub)
           else Ok res)
        (if String.eqb (vp_type gr root) ty || String.eqb ty "*" then [root] else [])
  end.

Definition depends (fuel : nat) (gr : Graph) (source target : Vertex) : result bool :=
  if Nat.eqb source target then Ok false
  else
    target_nodes <- get_subtree_of_type fuel gr target "*" ;;
    source_nodes <- get_subtree_of_type fuel gr source "*" ;;
    Ok (existsb
          (fun node =>
             existsb (fun e => String.eqb (ep_dtype e) "RAW"
                               && vertex_in (e_target e) target_nodes)
                     (out_edges gr node))
          source_nodes).

Definition is_loop_index (e : Edge) (loops_start_lines : list string)
  (children : list Vertex) : bool :=
  String.eqb (ep_source e) (ep_sink e)
  && str_in (ep_source e) loops_start_lines
  && vertex_in (e_target e) children.

(** One child of the loop in [is_readonly_inside_loop_body]: [true] when
    one of its edges makes the function return False. *)
Definition written_at (gr : Graph) (dep : Edge) (loops_start_lines : list string)
  (v : Vertex) : bool :=
  existsb (fun e =>
             (String.eqb (ep_dtype e) "WAR" || String.eqb (ep_dtype e) "WAW")
             && String.eqb (ep_var dep) (ep_var e)
             && negb (str_in (ep_sink e) loops_start_lines))
          (out_edges gr v)
  || existsb (fun e =>
                String.eqb (ep_dtype e) "RAW"
                && String.eqb (ep_var dep) (ep_var e)
                && negb (str_in (ep_source e) loops_start_lines))
             (in_edges gr v).

Definition is_readonly_inside_loop_body (fuel : nat) (gr : Graph) (dep : Edge)
  (root_loop : Vertex) : result bool :=
  loops <- get_subtree_of_type fuel gr root_loop "2" ;;
  children <- get_subtree_of_type fuel gr root_loop "0" ;;
  Ok (negb (existsb (written_at gr dep (map (vp_startsAtLine gr) loops)) children)).

(** The test of [get_all_dependencies] on one out-edge: [true] when the
    target joins the set. *)
Definition counts_as_dependency (fuel : nat) (gr : Graph)
  (loops_start_lines : list string) (root_loop : Vertex) (e : Edge) : result bool :=
  if String.eqb (ep_type e) "dependence" && String.eqb (ep_dtype e) "RAW"
  then
    cus <- get_subtree_of_type fuel gr root_loop "0" ;;
    if is_loop_index e loops_start_lines cus
    then ro <- is_readonly_inside_loop_body fuel gr e root_loop ;; Ok (negb ro)
    else Ok true
  else Ok false.

Definition get_all_dependencies (fuel : nat) (gr : Graph) (node root_loop : Vertex)
  : result (list Vertex) :=
  children <- get_subtree_of_type fuel gr node "0" ;;
  loops <- get_subtree_of_type fuel gr root_loop "2" ;;
  let loops_start_lines := map (vp_startsAtLine gr) loops in
  for_each children
    (fun dep_set v =>
       for_each (out_edges gr v)
         (fun dep_set e =>
            c <- counts_as_dependency fuel gr loops_start_lines root_loop e ;;
            Ok (if c then vset_add dep_set (e_target e) else dep_set))
         dep_set)
    [].

Definition is_depending (fuel : nat) (gr : Graph) (v_source v_target root_loop : Vertex)
  : result bool :=
  sub <- get_subtree_of_type fuel gr v_target "0" ;;
  let children := sub ++ [v_target] in
  deps <- get_all_dependencies fuel gr v_source root_loop ;;
  Ok (existsb (fun dep => vertex_in dep children) deps).

Definition is_pipeline_subnode (gr : Graph) (root current : Vertex)
  (children_start_lines : list string) : bool :=
  let r_start := vp_startsAtLine gr root in
  let r_end := vp_endsAtLine gr root in
  let c_start := vp_startsAtLine gr current in
  let c_end := vp_endsAtLine gr current in
  negb (String.eqb c_start r_start && String.eqb c_end r_start
        || String.eqb c_start r_end && String.eqb c_end r_end
        || String.eqb c_start c_end && str_in c_start children_start_lines).

(** [a > b] and [a == b] on numbers. *)
Definition num_gt (a b : num) : bool := PrimFloat.ltb (to_float b) (to_float a).
Definition num_eq (a b : num) : bool := PrimFloat.eqb (to_float a) (to_float b).

(** [1 - (j - i) / (n - 1)] *)
Definition node_weight (i j n : nat) : num :=
  PyFloat (PrimFloat.sub 1%float
             (PrimFloat.div (float_of_Z (Z.of_nat j - Z.of_nat i))
                            (float_of_Z (Z.of_nat n - 1)))).

(** [__detect_pipeline]: the graph comes back too, the function writes the
    score -1 when it finds no chain of stages. *)
Definition detect_pipeline (fuel : nat) (gr : Graph) (root : Vertex)
  : result (Graph * num) :=
  let children_start_lines :=
    map (vp_startsAtLine gr)
        (filter (fun v => String.eqb (vp_type gr v) "2") (find_subnodes gr root "child")) in
  let loop_subnodes :=
    filter (fun v => is_pipeline_subnode gr root v children_start_lines)
           (find_subnodes gr root "child") in
  let n := List.length loop_subnodes in
  if Nat.ltb n 2
  then Ok (set_vp_pipeline gr (upd (vp_pipeline gr) root (-1)%float), PyInt 0)
  else
    graph_vector <-
      for_each (seq 0 (n - 1))
        (fun vec i =>
           d <- is_depending fuel gr (nth (i + 1) loop_subnodes 0) (nth i loop_subnodes 0) root ;;
           Ok (vec ++ [PyInt (if d then 1 else 0)]))
        [] ;;
    let pipeline_vector := map (fun _ => PyInt 1) (seq 0 (n - 1)) in
    min_weight <-
      for_each (seq 0 (n - 1))
        (fun mw i =>
           for_each (seq (i + 1) (n - (i + 1)))
             (fun mw j =>
                d <- is_depending fuel gr (nth i loop_subnodes 0) (nth j loop_subnodes 0) root ;;
                Ok (if d
                    then if num_gt mw (node_weight i j n) && num_gt (node_weight i j n) (PyInt 0)
                         then node_weight i j n else mw
                    else mw))
             mw)
        (PyInt 1) ;;
    if num_eq min_weight (PyInt 1)
    then Ok (gr, correlation_coefficient (graph_vector ++ [PyInt 0]) (pipeline_vector ++ [PyInt 0]))
    else Ok (gr, correlation_coefficient (graph_vector ++ [PyInt 1]) (pipeline_vector ++ [min_weight])).

Definition detect_pipeline_loop (fuel : nat) (self : PatternDetector)
  : result PatternDetector :=
  for_each (find_vertex (pet self) (vp_type (pet self)) "2")
    (fun self node =>
       r <- detect_pipeline fuel (pet self) node ;;
       Ok (with_pet self
             (set_vp_pipeline (fst r) (upd (vp_pipeline (fst r)) node (to_float (snd r))))))
    self.

(** The tail of [__detect_do_all], from the observed vector on. *)
Definition do_all_score (graph_vector : list num) : num :=
  let pattern_vector := map (fun _ => PyInt 1) graph_vector in
  if PrimFloat.eqb (norm graph_vector) 0%float then PyInt 0
  else correlation_coefficient graph_vector pattern_vector.

(** The observed vector of [__detect_do_all]: 0 for a pair that depends,
    1 for one that does not. *)
Definition do_all_vector (fuel : nat) (gr : Graph) (root : Vertex)
  : result (list num) :=
  let subnodes := find_subnodes gr root "child" in
  let n := List.length subnodes in
  for_each (seq 0 n)
    (fun vec i =>
       for_each (seq i (n - i))
         (fun vec j =>
            d <- is_depending fuel gr (nth i subnodes 0) (nth j subnodes 0) root ;;
            Ok (vec ++ [PyInt (if d then 0 else 1)]))
         vec)
    [].

Definition detect_do_all (fuel : nat) (gr : Graph) (root : Vertex) : result num :=
  graph_vector <- do_all_vector fuel gr root ;;
  Ok (do_all_score graph_vector).

(** Truth value of a float stored in a boolean property. *)
Definition float_truth (f : float) : bool := negb (PrimFloat.eqb f 0%float).

Definition detect_do_all_loop (fuel : nat) (self : PatternDetector)
  : result PatternDetector :=
  for_each (find_vertex (pet self) (vp_type (pet self)) "2")
    (fun self node =>
       val <- detect_do_all fuel (pet self) node ;;
       Ok (if PrimFloat.ltb (do_all_threshold self) (to_float val)
           then with_pet self
                  (set_vp_doAll (pet self)
                     (upd (vp_doAll (pet self)) node (float_truth (to_float val))))
           else self))
    self.

(** The first loop of [detect_task_parallelism] for one child [node]. *)
Definition classify_against (fuel : nat) (gr : Graph) (main_node node : Vertex)
  (mw : Vertex -> string) : result (Vertex -> string) :=
  let mw1 :=
    if String.eqb (mw node) "NONE" || String.eqb (mw node) "ROOT"
    then upd mw node "FORK" else mw in
  for_each (list_remove node (find_subnodes gr main_node "child"))
    (fun mw other_node =>
       d <- depends fuel gr other_node node ;;
       Ok (if d
           then if String.eqb (mw other_node) "WORKER"
                then upd mw other_node "BARRIER"
                else upd mw other_node "WORKER"
           else mw))
    mw1.

(** [detect_task_parallelism]: the graph with the new roles, and the
    BARRIER_WORKER pairs returned. *)
Definition detect_task_parallelism (fuel : nat) (gr : Graph) (main_node : Vertex)
  : result (Graph * list (Vertex * Vertex)) :=
  mw <- for_each (find_subnodes gr main_node "child")
          (fun mw node => classify_against fuel gr main_node node mw)
          (vp_mwType gr) ;;
  let r := barrier_pairs gr (find_subnodes gr main_node "child") mw in
  Ok (set_vp_mwType gr (fst r), snd r).

Definition detect_task_parallelism_loop (fuel : nat) (self : PatternDetector)
  : result PatternDetector :=
  for_each (vertices (pet self))
    (fun self node =>
       if String.eqb (vp_type (pet self) node) "3" then Ok self
       else
         gr1 <- match find_subnodes (pet self) node "child" with
                | [] => Ok (pet self)
                | _ :: _ => r <- detect_task_parallelism fuel (pet self) node ;; Ok (fst r)
                end ;;
         Ok (with_pet self
               (if String.eqb (vp_mwType gr1 node) "NONE"
                then set_vp_mwType gr1 (upd (vp_mwType gr1) node "ROOT")
                else gr1)))
    self.

(** [__merge]: the CHILD edges of [node] that lead to a dummy are removed
    from the graph. Every such edge is taken to go, also when it follows
    another removed edge in the sequence being walked. *)
Definition merge_node (loop_type remove_dummies : bool) (gr : Graph) (node : Vertex)
  : Graph :=
  if negb loop_type || String.eqb (vp_type gr node) "2"
  then
    if remove_dummies && String.eqb (vp_type gr node) "3" then gr
    else
      set_edges gr
        (filter (fun e =>
                   negb (Nat.eqb (e_source e) node
                         && String.eqb (ep_type e) "child"
                         && (remove_dummies && String.eqb (vp_type gr (e_target e)) "3")))
                (edges gr))
  else gr.

Definition merge (self : PatternDetector) (loop_type remove_dummies : bool)
  : PatternDetector :=
  with_pet self
    (fold_left (merge_node loop_type remove_dummies) (vertices (pet self)) (pet self)).

Definition is_reduction_var (self : PatternDetector) (line name_ : string) : bool :=
  existsb (fun rv => String.eqb (loop_line rv) line && String.eqb (rv_name rv) name_)
          (reduction_vars self).

(** [__detect_reduction] *)
Definition detect_reduction (fuel : nat) (self : PatternDetector) (root : Vertex)
  : result bool :=
  if negb (String.eqb (vp_type (pet self) root) "2") then Ok false
  else
    cus <- get_subtree_of_type fuel (pet self) root "0" ;;
    let vars :=
      flat_map (fun node => vp_localVars (pet self) node ++ vp_globalVars (pet self) node)
               cus in
    Ok (existsb (fun v => is_reduction_var self (vp_startsAtLine (pet self) root) v) vars).

Definition detect_reduction_loop (fuel : nat) (self : PatternDetector)
  : result PatternDetector :=
  for_each (find_vertex (pet self) (vp_type (pet self)) "2")
    (fun self node =>
       r <- detect_reduction fuel self node ;;
       Ok (if r
           then with_pet self
                  (set_vp_reduction (pet self) (upd (vp_reduction (pet self)) node true))
           else self))
    self.

(** [__get_loop_iterations] *)
Definition get_loop_iterations (self : PatternDetector) (line : string) : Z :=
  PETGraphX.dict_get (loop_data self) line 0%Z.

(** The [while parent] loop of [__get_parent_iterations]; [fuel] bounds the
    number of rounds. *)
Fixpoint parent_iterations_from (fuel : nat) (self : PatternDetector)
  (parent : list Vertex) : result Z :=
  match fuel with
  | 0 => OutOfFuel
  | S fuel' =>
      match parent with
      | [] => Ok 1%Z
      | node :: _ =>
          if String.eqb (vp_type (pet self) node) "2"
          then Ok (Z.max 1 (get_loop_iterations self (vp_startsAtLine (pet self) node)))
          else parent_iterations_from fuel' self
                 (map e_source
                      (filter (fun e => String.eqb (ep_type e) "child")
                              (in_edges (pet self) node)))
      end
  end.

Definition get_parent_iterations (fuel : nat) (self : PatternDetector) (node : Vertex)
  : result Z :=
  parent_iterations_from fuel self
    (map e_source
         (filter (fun e => String.eqb (ep_type e) "child") (in_edges (pet self) node))).

(** [node in self.loop_iterations] and [self.loop_iterations[node]] *)
Fixpoint cache_get (c : list (Vertex * Z)) (node : Vertex) : option Z :=
  match c with
  | [] => None
  | (k, v) :: c' => if Nat.eqb k node then Some v else cache_get c' node
  end.

(** [__iterations_count]: the count, and the detector with its cache
    filled. *)
Definition iterations_count (fuel : nat) (self : PatternDetector) (node : Vertex)
  : result (PatternDetector * Z) :=
  match cache_get (loop_iterations self) node with
  | Some n => Ok (self, n)
  | None =>
      let loop_iter := get_loop_iterations self (vp_startsAtLine (pet self) node) in
      parent_iter <- get_parent_iterations fuel self node ;;
      let n :=
        if Z.ltb loop_iter parent_iter then loop_iter
        else if Z.eqb loop_iter 0 || Z.eqb parent_iter 0 then 0%Z
        else Z.div loop_iter parent_iter in
      Ok (with_loop_iterations self ((node, n) :: loop_iterations self), n)
  end.

(** The LOOP children of a node. *)
Definition loop_children (gr : Graph) (node : Vertex) : list Vertex :=
  map e_target
      (filter (fun e => String.eqb (ep_type e) "child"
                        && String.eqb (vp_type gr (e_target e)) "2")
              (out_edges gr node)).

Definition func_children (gr : Graph) (node : Vertex) : list Vertex :=
  map e_target
      (filter (fun e => String.eqb (ep_type e) "child"
                        && String.eqb (vp_type gr (e_target e)) "1")
              (out_edges gr node)).

(** [d[k] = v] on a dict kept in insertion order. *)
Fixpoint dict_set (d : list (string * Z)) (k : string) (v : Z) : list (string * Z) :=
  match d with
  | [] => [(k, v)]
  | (k', v') :: d' => if String.eqb k' k then (k, v) :: d' else (k', v') :: dict_set d' k v
  end.

(** [__test_chunk_limit]: the minimum starts at 9999999999999. *)
Definition test_chunk_limit (fuel : nat) (self : PatternDetector) (node : Vertex)
  : result (PatternDetector * bool) :=
  let gr := pet self in
  let children :=
    loop_children gr node ++ flat_map (loop_children gr) (func_children gr node) in
  r <- for_each children
         (fun st child =>
            c <- iterations_count fuel (fst st) child ;;
            Ok (fst c, dict_set (snd st) (vp_startsAtLine gr child) (snd c)))
         (self, []) ;;
  let min_iterations_count :=
    fold_left (fun m kv => Z.min m (snd kv)) (snd r) 9999999999999%Z in
  Ok (fst r,
      match snd r with
      | [] => false
      | _ :: _ => Z.ltb 0 min_iterations_count
      end).

(** [doAll[child] < self.do_all_threshold] on the boolean flag. *)
Definition below_threshold (self : PatternDetector) (b : bool) : bool :=
  PrimFloat.ltb (if b then 1%float else 0%float) (do_all_threshold self).

Definition not_parallel (self : PatternDetector) (child : Vertex) : bool :=
  below_threshold self (vp_doAll (pet self) child)
  && negb (vp_reduction (pet self) child).

(** [__detect_geometric_decomposition] *)
Definition detect_geometric_decomposition (fuel : nat) (self : PatternDetector)
  (root : Vertex) : result bool :=
  loops <- get_subtree_of_type fuel (pet self) root "2" ;;
  if existsb (not_parallel self) loops then Ok false
  else
    Ok (negb (existsb
                (fun child =>
                   existsb (not_parallel self) (find_subnodes (pet self) child "2"))
                (find_subnodes (pet self) root "1"))).

Definition detect_geometric_decomposition_loop (fuel : nat) (self : PatternDetector)
  : result PatternDetector :=
  for_each (find_vertex (pet self) (vp_type (pet self)) "1")
    (fun self node =>
       val <- detect_geometric_decomposition fuel self node ;;
       if val
       then
         let self1 :=
           with_pet self
             (set_vp_geomDecomp (pet self) (upd (vp_geomDecomp (pet self)) node true)) in
         r <- test_chunk_limit fuel self1 node ;;
         Ok (fst r)
       else Ok self)
    self.

Definition detect_patterns (fuel : nat) (self : PatternDetector)
  : result PatternDetector :=
  let self0 := merge self false true in
  self1 <- detect_pipeline_loop fuel self0 ;;
  self2 <- detect_reduction_loop fuel self1 ;;
  self3 <- detect_do_all_loop fuel self2 ;;
  self4 <- detect_task_parallelism_loop fuel self3 ;;
  detect_geometric_decomposition_loop fuel self4.

End PatternDetection.

(* ===================================================================== *)
(** ** graph_analyzer/pattern_detectors/task_parallelism_detector.py *)
(* ===================================================================== *)

Module TaskParallelism.
Import Py GraphTool.

(** class Task. *)
#[warnings="-register-all"]
Inductive Task : Type := mkTask {
  node_id : string;
  nodes : list Vertex;
  start_line : string;
  region_start_line : string;
  region_end_line : option string;
  end_line : string;
  mw_type : string;
  instruction_count : Z;
  workload : Z;
  child_tasks : list Task
}.

(** [Task.aggregate]: the task [self] after [self.aggregate(other)]. *)
Definition aggregate (self other : Task) : Task :=
  mkTask (node_id self)
         (nodes self ++ nodes other)
         (start_line self)
         (region_start_line self)
         (region_end_line self)
         (end_line other)
         (if String.eqb (mw_type other) "BARRIER_WORKER" then "BARRIER_WORKER" else "WORKER")
         (instruction_count self + instruction_count other)%Z
         (workload self + workload other)%Z
         (child_tasks self).

(** class TaskParallelismInfo, with the vertex its base class keeps as
    [_node]. *)
Record TaskParallelismInfo : Type := mkTaskInfo {
  tp_node : Vertex;
  pragma : list string;
  pragma_line : string;
  tp_region_start_line : string;
  tp_region_end_line : option string;
  first_private : list string;
  private : list string;
  shared : list string
}.

(** [TaskParallelismInfo.__init__] *)
Definition TaskParallelismInfo_init (node : Vertex) (pragma_ : list string)
  (pragma_line_ : string) (fp p s : list string) : result TaskParallelismInfo :=
  region <- (if has_colon pragma_line_ then after_colon pragma_line_ else Ok pragma_line_) ;;
  Ok (mkTaskInfo node pragma_ pragma_line_ region None fp p s).

(** class ParallelRegionInfo. *)
Record ParallelRegionInfo : Type := mkRegionInfo {
  pr_node : Vertex;
  pr_region_start_line : string;
  pr_region_end_line : string
}.

(** An entry of the list of suggestions. *)
Inductive Suggestion : Type :=
| TaskInfo (t : TaskParallelismInfo)
| RegionInfo (r : ParallelRegionInfo).

(** *** The taskwait part of [__detect_task_suggestions] *)

(** The line a taskwait is suggested at for the barrier [v]: the loop over
    the out-edges of [v]. *)
Definition first_dependency_line (gr : Graph) (v : Vertex) : result string :=
  let first_dependency_line := vp_endsAtLine gr v in
  first_dependency_line_number <- after_colon first_dependency_line ;;
  for_each (out_edges gr v)
    (fun first_dependency_line e =>
       if String.eqb (ep_type e) "dependence"
       then
         dep_line_number <- after_colon (ep_sink e) ;;
         Ok (if str_lt dep_line_number first_dependency_line_number
             then ep_sink e else first_dependency_line)
       else Ok first_dependency_line)
    first_dependency_line.

(** [suggestions[k].append(x)], the key created when it is new. *)
Fixpoint dict_append (d : list (string * list TaskParallelismInfo)) (k : string)
  (x : TaskParallelismInfo) : list (string * list TaskParallelismInfo) :=
  match d with
  | [] => [(k, [x])]
  | (k', l) :: d' =>
      if String.eqb k' k then (k', l ++ [x]) :: d' else (k', l) :: dict_append d' k x
  end.

Definition barrier_cus (gr : Graph) : list Vertex :=
  filter (fun v => String.eqb (vp_mwType gr v) "BARRIER") (vertices gr).

(** The dict [suggestions] after the loop SUGGEST TASKWAIT. *)
Definition suggest_taskwait (gr : Graph)
  : result (list (string * list TaskParallelismInfo)) :=
  for_each (barrier_cus gr)
    (fun suggestions v =>
       line <- first_dependency_line gr v ;;
       tmp_suggestion <- TaskParallelismInfo_init v ["taskwait"] line [] [] [] ;;
       Ok (dict_append suggestions (vp_startsAtLine gr v) tmp_suggestion))
    [].

(** *** [__detect_mw_types] *)

Section MWTypes.

(** [utils.depends(pet, source, target)]: the utils module is not among
    the sources. [utils.find_subnodes] is taken to be the function of that
    name in pattern_detection.py. *)
Variable depends : Graph -> Vertex -> Vertex -> result bool.

(** The ids collected in [raw_targets] for [other_node] and [node], and
    those that occur more than once. *)
Definition raw_targets (gr : Graph) (other_node node : Vertex) : list string :=
  map (fun e => vp_id gr (e_target e))
      (filter (fun e => Nat.eqb (e_target e) node && String.eqb (ep_dtype e) "RAW")
              (out_edges gr other_node)).

Definition repeated (l : list string) : list string :=
  filter (fun t => Nat.ltb 1 (count_occ string_dec l t)) l.

(** The first loop of [__detect_mw_types] for one child [node]. *)
Definition classify_against (gr : Graph) (main_node node : Vertex)
  (mw : Vertex -> string) : result (Vertex -> string) :=
  let mw1 :=
    if String.eqb (mw node) "NONE" || String.eqb (mw node) "ROOT"
    then upd mw node "FORK" else mw in
  for_each (list_remove node (find_subnodes gr main_node "child"))
    (fun mw other_node =>
       d <- depends gr other_node node ;;
       Ok (if d
           then if String.eqb (mw other_node) "WORKER"
                then upd mw other_node "BARRIER"
                else match repeated (raw_targets gr other_node node) with
                     | [] => upd mw other_node "WORKER"
                     | _ :: _ => upd mw other_node "BARRIER"
                     end
           else mw))
    mw1.

(** The roles after the first loop. *)
Definition classify_children (gr : Graph) (main_node : Vertex)
  : result (Vertex -> string) :=
  for_each (find_subnodes gr main_node "child")
    (fun mw node => classify_against gr main_node node mw)
    (vp_mwType gr).

Definition detect_mw_types (gr : Graph) (main_node : Vertex) : result Graph :=
  mw <- classify_children gr main_node ;;
  Ok (set_vp_mwType gr
        (fst (barrier_pairs gr (find_subnodes gr main_node "child") mw))).

End MWTypes.

(** *** [__detect_barrier_suggestions] *)

(** What the loop changes: the graph (its viz marks), the list
    [barrier_nodes], the list of suggestions, and the flag
    [transformation_happened]. *)
Record BarrierState : Type := mkBarrierState {
  graph : Graph;
  barrier_nodes : list Vertex;
  suggestions : list Suggestion;
  transformation_happened : bool
}.

(** The split of the suggestions into taskwaits and tasks; [pragma[0]] needs
    a pragma. *)
Fixpoint split_suggestions (l : list Suggestion)
  : result (list TaskParallelismInfo * list TaskParallelismInfo) :=
  match l with
  | [] => Ok ([], [])
  | RegionInfo _ :: l' => split_suggestions l'
  | TaskInfo s :: l' =>
      match pragma s with
      | [] => Raise IndexError
      | p0 :: _ =>
          r <- split_suggestions l' ;;
          Ok (if String.eqb p0 "taskwait"
              then (s :: fst r, snd r)
              else (fst r, s :: snd r))
      end
  end.

(** The counts of the out-edges by target: task, barrier, other. *)
Definition count_targets (task_nodes barrier_nodes_ : list Vertex) (es : list Edge)
  : nat * nat * nat :=
  fold_left
    (fun c e =>
       match c with
       | (task_count, barrier_count, normal_count) =>
           if vertex_in (e_target e) task_nodes
           then (task_count + 1, barrier_count, normal_count)
           else if vertex_in (e_target e) barrier_nodes_
                then (task_count, barrier_count + 1, normal_count)
                else (task_count, barrier_count, normal_count + 1)
       end)
    es (0, 0, 0).

(** The two loops that look for a child task no child barrier covers. *)
Definition uncovered_task_exists (gr : Graph) (child_tasks_ child_barriers : list Vertex)
  : result bool :=
  for_each child_tasks_
    (fun uncovered ct =>
       ct_start_line <- after_colon (vp_startsAtLine gr ct) ;;
       ct_end_line <- after_colon (vp_endsAtLine gr ct) ;;
       for_each child_barriers
         (fun uncovered cb =>
            cb_start_line <- after_colon (vp_startsAtLine gr cb) ;;
            cb_end_line <- after_colon (vp_endsAtLine gr cb) ;;
            Ok (if negb (str_gt cb_start_line ct_start_line
                         && str_gt cb_end_line ct_end_line)
                then true else uncovered))
         uncovered)
    false.

(** The "actual change" of the two barrier branches. *)
Definition suggest_barrier (st : BarrierState) (v : Vertex) (v_first_line : string)
  : result BarrierState :=
  if String.eqb (vp_viz_contains_taskwait (graph st) v) "False"
  then
    tmp_suggestion <- TaskParallelismInfo_init v ["taskwait"] v_first_line [] [] [] ;;
    Ok (mkBarrierState
          (set_vp_viz_contains_taskwait (graph st)
             (upd (vp_viz_contains_taskwait (graph st)) v "True"))
          (barrier_nodes st ++ [v])
          (suggestions st ++ [TaskInfo tmp_suggestion])
          true)
  else Ok st.

(** The body of [for v in pet.graph.vertices()]. *)
Definition scan_vertex (task_nodes : list Vertex) (st : BarrierState) (v : Vertex)
  : result BarrierState :=
  let gr := graph st in
  let out_dep_edges :=
    filter (fun e => String.eqb (ep_type e) "dependence") (out_edges gr v) in
  v_first_line <- after_colon (vp_startsAtLine gr v) ;;
  match count_targets task_nodes (barrier_nodes st) out_dep_edges with
  | (task_count, barrier_count, _) =>
      if Nat.eqb task_count 1 && Nat.eqb barrier_count 0
      then
        if String.eqb (vp_viz_omittable gr v) "False"
        then Ok (mkBarrierState
                   (set_vp_viz_omittable gr (upd (vp_viz_omittable gr) v "True"))
                   (barrier_nodes st) (suggestions st) true)
        else Ok st
      else if negb (Nat.eqb barrier_count 0) && negb (Nat.eqb task_count 0)
      then
        let child_barriers :=
          map e_target
              (filter (fun e => String.eqb (vp_viz_contains_taskwait gr (e_target e)) "True")
                      out_dep_edges) in
        let child_tasks_ :=
          map e_target
              (filter (fun e => String.eqb (vp_viz_contains_task gr (e_target e)) "True")
                      out_dep_edges) in
        uncovered <- uncovered_task_exists gr child_tasks_ child_barriers ;;
        if uncovered then suggest_barrier st v v_first_line else Ok st
      else if negb (Nat.eqb task_count 0)
      then suggest_barrier st v v_first_line
      else Ok st
  end.

(** One full scan: [transformation_happened = False], then every vertex. *)
Definition scan (task_nodes : list Vertex) (st : BarrierState) : result BarrierState :=
  for_each (vertices (graph st)) (scan_vertex task_nodes)
    (mkBarrierState (graph st) (barrier_nodes st) (suggestions st) false).

(** [while transformation_happened]; [fuel] bounds the number of scans. *)
Fixpoint barrier_loop (fuel : nat) (task_nodes : list Vertex) (st : BarrierState)
  : result BarrierState :=
  match fuel with
  | 0 => OutOfFuel
  | S fuel' =>
      st' <- scan task_nodes st ;;
      if transformation_happened st' then barrier_loop fuel' task_nodes st'
      else Ok st'
  end.

(** The state the loop starts from: the marks of the suggestions given. *)
Definition barrier_start (gr : Graph) (suggestions_ : list Suggestion)
  (split : list TaskParallelismInfo * list TaskParallelismInfo) : BarrierState :=
  let taskwait_suggestions := fst split in
  let task_suggestions := snd split in
  let gr1 :=
    fold_left (fun gr s => set_vp_viz_contains_task gr
                             (upd (vp_viz_contains_task gr) (tp_node s) "True"))
              task_suggestions gr in
  let gr2 :=
    fold_left (fun gr s => set_vp_viz_contains_taskwait gr
                             (upd (vp_viz_contains_taskwait gr) (tp_node s) "True"))
              taskwait_suggestions gr1 in
  mkBarrierState gr2 (map tp_node taskwait_suggestions) suggestions_ true.

Definition detect_barrier_suggestions (fuel : nat) (gr : Graph)
  (suggestions_ : list Suggestion) : result (Graph * list Suggestion) :=
  split <- split_suggestions suggestions_ ;;
  st <- barrier_loop fuel (map tp_node (snd split)) (barrier_start gr suggestions_ split) ;;
  Ok (graph st, suggestions st).

End TaskParallelism.

(* ===================================================================== *)
(** ** Concrete graphs *)
(* ===================================================================== *)

Module Examples.
Import Py.

(** A node of file 1 with the given id, kind, lines and flags. *)
Definition cu_node (i : string) (k : Z) (ty : PETGraphX.CuType) (first last : Z)
  (red doall : bool) : PETGraphX.CuNode :=
  PETGraphX.mkCuNode i 1 k 1 first last ty "" 0 0 red doall false (-1)%float [] [].

Definition child_edge (s t : string) : PETGraphX.Edge :=
  (s, t, PETGraphX.Dependency_init PETGraphX.CHILD).

(** A loop nest: the loop 1:1 (lines 1-9) holds the loop 1:2 (lines 2-8),
    which holds the CU 1:3. Both loops carry the given do-all flag. *)
Definition loop_nest (doall : bool) : PETGraphX.PETGraphX :=
  PETGraphX.mkPET
    (PETGraphX.mkGraph
       [("1:1", Some (cu_node "1:1" 1 PETGraphX.LOOP 1 9 false doall));
        ("1:2", Some (cu_node "1:2" 2 PETGraphX.LOOP 2 8 false doall));
        ("1:3", Some (cu_node "1:3" 3 PETGraphX.CU 3 7 false false))]
       [child_edge "1:1" "1:2"; child_edge "1:2" "1:3"])
    [].

Definition outer_loop (doall : bool) : PETGraphX.CuNode :=
  cu_node "1:1" 1 PETGraphX.LOOP 1 9 false doall.

(** A graph_tool graph from lists: the k-th entry of a list is the property
    of vertex k. The flags start False, the scores at 0, the viz marks at
    'False'. *)
Definition gt_graph (n : nat) (es : list GraphTool.Edge)
  (types starts ends roles : list string) : GraphTool.Graph :=
  GraphTool.mkGraph n es
    (fun v => "") (fun v => nth v types "") (fun v => "")
    (fun v => nth v starts "") (fun v => nth v ends "")
    (fun v => []) (fun v => [])
    (fun v => 0%float) (fun v => false) (fun v => false) (fun v => false)
    (fun v => nth v roles "NONE")
    (fun v => "False") (fun v => "False") (fun v => "False").

Definition gt_child (s t : nat) : GraphTool.Edge :=
  GraphTool.mkEdge s t "child" "" "" "" "".

Definition gt_dep (s t : nat) (dt var src snk : string) : GraphTool.Edge :=
  GraphTool.mkEdge s t "dependence" dt var src snk.

(** A barrier CU (vertex 0, lines 1-30) with two dependences on vertex 1,
    the first read at line 10, the second at line 20. *)
Definition barrier_two_deps : GraphTool.Graph :=
  gt_graph 2
    [gt_dep 0 1 "RAW" "a" "1:40" "1:10"; gt_dep 0 1 "RAW" "b" "1:41" "1:20"]
    ["cu"; "cu"] ["1:1"; "1:40"] ["1:30"; "1:45"] ["BARRIER"; "WORKER"].

(** Two tasks for [Task.aggregate]. *)
Definition task_of (i : string) (v : nat) (first last role : string) : TaskParallelism.Task :=
  TaskParallelism.mkTask i [v] first
    (match after_colon first with Ok l => l | _ => first end)
    None last role 10 100 [].

(** Two CUs, 1:1 reading line 1:5 and 1:2 writing line 1:6 (1:1 writes line
    1:5 too), and four dependence records: an INIT record, a WAW of 1:1 on
    itself, a RAW of 1:1 on itself, and a WAR from 1:1 to 1:2. *)
Definition two_cus : list (string * PETGraphX.CuElement) :=
  [("1:1", PETGraphX.mkCuElement (cu_node "1:1" 1 PETGraphX.CU 5 5 false false) None (Some ["1:2"]));
   ("1:2", PETGraphX.mkCuElement (cu_node "1:2" 2 PETGraphX.CU 6 6 false false) None None)].

Definition readline_map (line : string) : list string :=
  if String.eqb line "1:5" then ["1:1"] else [].

Definition writeline_map (line : string) : list string :=
  if String.eqb line "1:5" then ["1:1"]
  else if String.eqb line "1:6" then ["1:2"] else [].

Definition four_records : list PETGraphX.DependenceItem :=
  [PETGraphX.mkDependenceItem "1:5" "1:5" "INIT" "x";
   PETGraphX.mkDependenceItem "1:5" "1:5" "WAW" "x";
   PETGraphX.mkDependenceItem "1:5" "1:5" "RAW" "x";
   PETGraphX.mkDependenceItem "1:5" "1:6" "WAR" "y"].

Definition data_edge (s t : string) (dt : PETGraphX.DepType) (var src snk : string)
  : PETGraphX.Edge :=
  (s, t, PETGraphX.mkDependency PETGraphX.DATA (Some dt) (Some var) (Some src) (Some snk)).

(** The loop 1:1 (lines 1-9) with the CUs 1:2 and 1:3 in its body, and the
    CU 1:9 before the loop. The CU 1:3 reads the loop index i (written in
    the header, line 1), the variable c that 1:2 writes at line 2, and the
    variable n written before the loop. *)
Definition loop_with_reads : PETGraphX.PETGraphX :=
  PETGraphX.mkPET
    (PETGraphX.mkGraph
       [("1:1", Some (cu_node "1:1" 1 PETGraphX.LOOP 1 9 false false));
        ("1:2", Some (cu_node "1:2" 2 PETGraphX.CU 2 3 false false));
        ("1:3", Some (cu_node "1:3" 3 PETGraphX.CU 4 5 false false));
        ("1:9", Some (cu_node "1:9" 9 PETGraphX.CU 0 0 false false))]
       [child_edge "1:1" "1:2"; child_edge "1:1" "1:3";
        data_edge "1:3" "1:2" PETGraphX.RAW "i" "1:1" "1:1";
        data_edge "1:3" "1:2" PETGraphX.RAW "c" "1:2" "1:4";
        data_edge "1:3" "1:9" PETGraphX.RAW "n" "1:0" "1:4"])
    [].

Definition loop_with_reads_rank (i : string) : nat :=
  if String.eqb i "1:1" then 1 else 0.

(** The threshold 0.9 of [PatternDetector.__init__], as the binary64 value
    the literal denotes. *)
Definition threshold_0_9 : float := 0x1.ccccccccccccdp-1%float.

(** Two loops with one CU each: the loop at line 1:1 (vertex 0) holds
    the CU 1, which lists the variable sum; the loop at line 1:10 (vertex 2)
    holds the CU 3, which lists x. The reduction table has sum for the loop
    at 1:1. *)
Definition two_loops : GraphTool.Graph :=
  GraphTool.mkGraph 4 [gt_child 0 1; gt_child 2 3]
    (fun v => "") (fun v => nth v ["2"; "0"; "2"; "0"] "") (fun v => "")
    (fun v => nth v ["1:1"; "1:2"; "1:10"; "1:11"] "")
    (fun v => nth v ["1:5"; "1:4"; "1:15"; "1:14"] "")
    (fun v => nth v [[]; ["sum"]; []; ["x"]] []) (fun v => [])
    (fun v => 0%float) (fun v => false) (fun v => false) (fun v => false)
    (fun v => "NONE")
    (fun v => "False") (fun v => "False") (fun v => "False").

Definition two_loops_detector : PatternDetection.PatternDetector :=
  PatternDetection.mkDetector two_loops threshold_0_9 []
    [mkReductionVar "1:1" "sum" "+"] [].

Definition two_loops_rank (v : nat) : nat := nth v [1; 0; 1; 0] 0.

(** A parent (vertex 0) with five children. Child 1 reads from 2 and 3,
    children 2 and 3 both read from 4 and 5: the classification makes 1, 2
    and 3 barriers. No edge joins 2 and 3. *)
Definition star_barriers : GraphTool.Graph :=
  gt_graph 6
    [gt_child 0 1; gt_child 0 2; gt_child 0 3; gt_child 0 4; gt_child 0 5;
     gt_dep 1 2 "RAW" "a" "1:2" "1:1"; gt_dep 1 3 "RAW" "b" "1:3" "1:1";
     gt_dep 2 4 "RAW" "c" "1:4" "1:2"; gt_dep 2 5 "RAW" "d" "1:5" "1:2";
     gt_dep 3 4 "RAW" "c" "1:4" "1:3"; gt_dep 3 5 "RAW" "d" "1:5" "1:3"]
    ["func"; "cu"; "cu"; "cu"; "cu"; "cu"]
    ["1:0"; "1:1"; "1:2"; "1:3"; "1:4"; "1:5"]
    ["1:9"; "1:1"; "1:2"; "1:3"; "1:4"; "1:5"]
    [].

(** The same parent; child 1 reads from 2 and 4, children 2 and 3 read from
    4 and 5: again 1, 2 and 3 become barriers. An edge joins 1 and 2, none
    joins 3 with 1 or with 2. *)
Definition linked_barriers : GraphTool.Graph :=
  gt_graph 6
    [gt_child 0 1; gt_child 0 2; gt_child 0 3; gt_child 0 4; gt_child 0 5;
     gt_dep 1 2 "RAW" "a" "1:2" "1:1"; gt_dep 1 4 "RAW" "c" "1:4" "1:1";
     gt_dep 2 4 "RAW" "c" "1:4" "1:2"; gt_dep 2 5 "RAW" "d" "1:5" "1:2";
     gt_dep 3 4 "RAW" "c" "1:4" "1:3"; gt_dep 3 5 "RAW" "d" "1:5" "1:3"]
    ["func"; "cu"; "cu"; "cu"; "cu"; "cu"]
    ["1:0"; "1:1"; "1:2"; "1:3"; "1:4"; "1:5"]
    ["1:9"; "1:1"; "1:2"; "1:3"; "1:4"; "1:5"]
    [].

(** A parent with four children; 1 and 2 both read from 3 and 4 and become
    the only two barriers. No edge joins them. *)
Definition two_barriers : GraphTool.Graph :=
  gt_graph 5
    [gt_child 0 1; gt_child 0 2; gt_child 0 3; gt_child 0 4;
     gt_dep 1 3 "RAW" "c" "1:3" "1:1"; gt_dep 1 4 "RAW" "d" "1:4" "1:1";
     gt_dep 2 3 "RAW" "c" "1:3" "1:2"; gt_dep 2 4 "RAW" "d" "1:4" "1:2"]
    ["func"; "cu"; "cu"; "cu"; "cu"]
    ["1:0"; "1:1"; "1:2"; "1:3"; "1:4"]
    ["1:9"; "1:1"; "1:2"; "1:3"; "1:4"]
    [].

(** The roles of the vertices 0 .. n-1. *)
Definition roles (n : nat) (gr : GraphTool.Graph) : list string :=
  map (GraphTool.vp_mwType gr) (seq 0 n).

(** Three CUs whose dependences form a cycle (0 reads from 1, 1 from 2, 2
    from 0); 0 and 1 also read from the CU 3, for which a task is
    suggested. *)
Definition cyclic_deps : GraphTool.Graph :=
  gt_graph 4
    [gt_dep 0 1 "RAW" "a" "1:2" "1:1"; gt_dep 1 2 "RAW" "b" "1:3" "1:2";
     gt_dep 2 0 "RAW" "c" "1:1" "1:3";
     gt_dep 0 3 "RAW" "d" "1:4" "1:1"; gt_dep 1 3 "RAW" "d" "1:4" "1:2"]
    ["cu"; "cu"; "cu"; "cu"]
    ["1:1"; "1:2"; "1:3"; "1:4"]
    ["1:1"; "1:2"; "1:3"; "1:4"]
    [].

Definition task_at_3 : list TaskParallelism.Suggestion :=
  [TaskParallelism.TaskInfo
     (TaskParallelism.mkTaskInfo 3 ["task"] "4" "4" None [] [] [])].

(** A function (vertex 0, type '1') with a CU child (vertex 1) and a dummy
    child (vertex 2, type '3'). *)
Definition func_with_dummy : GraphTool.Graph :=
  gt_graph 3 [gt_child 0 1; gt_child 0 2]
    ["1"; "0"; "3"] ["1:1"; "1:2"; "1:3"] ["1:9"; "1:2"; "1:3"] [].

Definition func_with_dummy_detector : PatternDetection.PatternDetector :=
  PatternDetection.mkDetector func_with_dummy threshold_0_9 [] [] [].

(** The loop nest of [loop_nest] as a graph_tool graph: the loop 0 holds
    the loop 1, which holds the CU 2; both loops carry the given do-all
    flag. *)
Definition gt_loop_nest (doall : bool) : PatternDetection.PatternDetector :=
  PatternDetection.mkDetector
    (GraphTool.mkGraph 3 [gt_child 0 1; gt_child 1 2]
       (fun v => "") (fun v => nth v ["2"; "2"; "0"] "") (fun v => "")
       (fun v => nth v ["1:1"; "1:2"; "1:3"] "") (fun v => nth v ["1:9"; "1:8"; "1:7"] "")
       (fun v => []) (fun v => [])
       (fun v => 0%float) (fun v => doall) (fun v => false) (fun v => false)
       (fun v => "NONE")
       (fun v => "False") (fun v => "False") (fun v => "False"))
    threshold_0_9 [] [] [].

(** [loop_with_reads] as a graph_tool graph: the loop 0 (line 1:1) holds
    the CUs 1 and 2, the CU 3 lies before the loop; 2 reads the loop index
    i, the variable c written by 1, and n written by 3. *)
Definition gt_loop_with_reads : GraphTool.Graph :=
  gt_graph 4
    [gt_child 0 1; gt_child 0 2;
     gt_dep 2 1 "RAW" "i" "1:1" "1:1";
     gt_dep 2 1 "RAW" "c" "1:2" "1:4";
     gt_dep 2 3 "RAW" "n" "1:0" "1:4"]
    ["2"; "0"; "0"; "0"]
    ["1:1"; "1:2"; "1:4"; "1:0"]
    ["1:9"; "1:3"; "1:5"; "1:0"]
    [].

End Examples.

(* ===================================================================== *)
(** ** Notions the statements use *)
(* ===================================================================== *)

Module Spec.
Import Py.

(** *** Graph construction *)

(** The edge [e] was inserted for a dependence record of the list that is
    no INIT record, between a CU of the record's sink line and a CU of its
    source line. *)
Definition from_record (readline writeline : string -> list string)
  (deps : list PETGraphX.DependenceItem) (e : PETGraphX.Edge) : Prop :=
  exists dep,
    In dep deps
    /\ PETGraphX.dep_type dep <> "INIT"
    /\ PETGraphX.parse_dependency dep = Ok (PETGraphX.e_data e)
    /\ In (PETGraphX.e_src e) (readline (PETGraphX.dep_sink dep))
    /\ In (PETGraphX.e_tgt e) (writeline (PETGraphX.dep_source dep)).

Definition is_war_waw (d : PETGraphX.Dependency) : Prop :=
  PETGraphX.dtype d = Some PETGraphX.WAR \/ PETGraphX.dtype d = Some PETGraphX.WAW.

(** No edge of the graph is a DATA edge. *)
Definition structural (gr : PETGraphX.MultiDiGraph) : Prop :=
  forall e, In e (PETGraphX.edges gr) -> PETGraphX.etype (PETGraphX.e_data e) <> PETGraphX.DATA.

(** What the dependence loop keeps true of the DATA edges. *)
Definition data_edges_ok (readline writeline : string -> list string)
  (deps : list PETGraphX.DependenceItem) (gr : PETGraphX.MultiDiGraph) : Prop :=
  forall e, In e (PETGraphX.edges gr) ->
    PETGraphX.etype (PETGraphX.e_data e) = PETGraphX.DATA ->
    from_record readline writeline deps e
    /\ (is_war_waw (PETGraphX.e_data e) -> PETGraphX.e_src e <> PETGraphX.e_tgt e).

(** *** The CHILD hierarchy of a PETGraphX *)

(** [child_of pet a c]: a CHILD edge leaves the node [a] and the graph
    holds the node [c] under the edge's target. *)
Definition child_of (pet : PETGraphX.PETGraphX) (a c : PETGraphX.CuNode) : Prop :=
  exists e,
    In e (PETGraphX.edges (PETGraphX.g pet))
    /\ PETGraphX.e_src e = PETGraphX.id a
    /\ PETGraphX.etype (PETGraphX.e_data e) = PETGraphX.CHILD
    /\ PETGraphX.node_at pet (PETGraphX.e_tgt e) = Ok c.

(** [reach pet a b]: [b] is [a] or lies below it along CHILD edges. *)
Inductive reach (pet : PETGraphX.PETGraphX) : PETGraphX.CuNode -> PETGraphX.CuNode -> Prop :=
| reach_self (a : PETGraphX.CuNode) : reach pet a a
| reach_child (a c b : PETGraphX.CuNode) :
    child_of pet a c -> reach pet c b -> reach pet a b.

(** The nodes of one kind in the CHILD-subtree of [root]. *)
Definition in_subtree (pet : PETGraphX.PETGraphX) (root : PETGraphX.CuNode)
  (ty : PETGraphX.CuType) (n : PETGraphX.CuNode) : Prop :=
  reach pet root n /\ PETGraphX.type n = ty.

(** Every edge leads to a node that carries its data. *)
Definition targets_have_data (pet : PETGraphX.PETGraphX) : Prop :=
  forall e, In e (PETGraphX.edges (PETGraphX.g pet)) ->
    exists n, PETGraphX.node_at pet (PETGraphX.e_tgt e) = Ok n.

(** The CHILD edges go down a rank: the hierarchy has no cycle. *)
Definition child_ranked (pet : PETGraphX.PETGraphX) (rank : string -> nat) : Prop :=
  forall a c, child_of pet a c -> rank (PETGraphX.id c) < rank (PETGraphX.id a).

(** A set of nodes holds a node of id [i]. *)
Definition has_id (i : string) (s : list PETGraphX.CuNode) : Prop :=
  exists m, In m s /\ PETGraphX.id m = i.

(** A RAW data edge leaves [v]. *)
Definition raw_edge_of (pet : PETGraphX.PETGraphX) (v : PETGraphX.CuNode)
  (e : PETGraphX.Edge) : Prop :=
  In e (PETGraphX.edges (PETGraphX.g pet))
  /\ PETGraphX.e_src e = PETGraphX.id v
  /\ PETGraphX.etype (PETGraphX.e_data e) = PETGraphX.DATA
  /\ PETGraphX.dtype (PETGraphX.e_data e) = Some PETGraphX.RAW.

(** The exclusion as the design states it: the variable of the dependence
    is (a) a loop index of the loops below [root_loop], or (b) read-only in
    the body of [root_loop]; both tests are made. *)
Definition excluded (fuel : nat) (pet : PETGraphX.PETGraphX)
  (root_loop : PETGraphX.CuNode) (d : PETGraphX.Dependency) : result bool :=
  loops <- PETGraphX.subtree_of_type fuel pet root_loop PETGraphX.LOOP ;;
  cus <- PETGraphX.subtree_of_type fuel pet root_loop PETGraphX.CU ;;
  a <- PETGraphX.is_loop_index pet (PETGraphX.var_name d)
         (map PETGraphX.start_position loops) cus ;;
  b <- PETGraphX.is_readonly_inside_loop_body fuel pet d root_loop ;;
  Ok (a || b).

(** *** The CHILD hierarchy of a graph_tool graph *)

(** [gt_reach gr a b]: [b] is [a] or lies below it along child edges. *)
Inductive gt_reach (gr : GraphTool.Graph) : GraphTool.Vertex -> GraphTool.Vertex -> Prop :=
| gt_reach_self (a : GraphTool.Vertex) : gt_reach gr a a
| gt_reach_child (a b : GraphTool.Vertex) (e : GraphTool.Edge) :
    In e (GraphTool.edges gr) ->
    GraphTool.e_source e = a ->
    GraphTool.ep_type e = "child" ->
    gt_reach gr (GraphTool.e_target e) b ->
    gt_reach gr a b.

(** The child edges go down a rank. *)
Definition gt_child_ranked (gr : GraphTool.Graph) (rank : GraphTool.Vertex -> nat) : Prop :=
  forall e, In e (GraphTool.edges gr) -> GraphTool.ep_type e = "child" ->
    rank (GraphTool.e_target e) < rank (GraphTool.e_source e).

(** A variable listed by a CU (type '0') below the loop [v] stands in the
    reduction table with the start line of [v]. *)
Definition reduction_variable_below (self : PatternDetection.PatternDetector)
  (v : GraphTool.Vertex) : Prop :=
  exists c name_ rv,
    gt_reach (PatternDetection.pet self) v c
    /\ GraphTool.vp_type (PatternDetection.pet self) c = "0"
    /\ In name_ (GraphTool.vp_localVars (PatternDetection.pet self) c
                 ++ GraphTool.vp_globalVars (PatternDetection.pet self) c)
    /\ In rv (PatternDetection.reduction_vars self)
    /\ loop_line rv = GraphTool.vp_startsAtLine (PatternDetection.pet self) v
    /\ rv_name rv = name_.

(** What the reduction test reads of the detector. *)
Definition same_reduction_inputs (a b : PatternDetection.PatternDetector) : Prop :=
  GraphTool.num_vertices (PatternDetection.pet b) = GraphTool.num_vertices (PatternDetection.pet a)
  /\ GraphTool.edges (PatternDetection.pet b) = GraphTool.edges (PatternDetection.pet a)
  /\ GraphTool.vp_type (PatternDetection.pet b) = GraphTool.vp_type (PatternDetection.pet a)
  /\ GraphTool.vp_startsAtLine (PatternDetection.pet b)
     = GraphTool.vp_startsAtLine (PatternDetection.pet a)
  /\ GraphTool.vp_localVars (PatternDetection.pet b)
     = GraphTool.vp_localVars (PatternDetection.pet a)
  /\ GraphTool.vp_globalVars (PatternDetection.pet b)
     = GraphTool.vp_globalVars (PatternDetection.pet a)
  /\ PatternDetection.reduction_vars b = PatternDetection.reduction_vars a.

(** *** Barrier pairs *)

(** An edge of the graph, of any type, joins [a] and [b] in one direction
    or the other. *)
Definition joined (gr : GraphTool.Graph) (a b : GraphTool.Vertex) : Prop :=
  exists e,
    In e (GraphTool.edges gr)
    /\ ((GraphTool.e_source e = a /\ GraphTool.e_target e = b)
        \/ (GraphTool.e_source e = b /\ GraphTool.e_target e = a)).

(** The only children classified BARRIER are [a] and [b]. *)
Definition only_barriers (subs : list GraphTool.Vertex) (mw : GraphTool.Vertex -> string)
  (a b : GraphTool.Vertex) : Prop :=
  In a subs /\ In b subs /\ a <> b
  /\ mw a = "BARRIER" /\ mw b = "BARRIER"
  /\ forall x, In x subs -> x <> a -> x <> b -> mw x <> "BARRIER".

(** The roles after the pair search, against the roles [mw0] before it:
    a role differs only where a BARRIER became a BARRIER_WORKER, and that
    child has no edge with some other child that was a BARRIER. *)
Definition pairs_sound (gr : GraphTool.Graph) (subs : list GraphTool.Vertex)
  (mw0 mw : GraphTool.Vertex -> string) : Prop :=
  forall v,
    mw v = mw0 v
    \/ (mw0 v = "BARRIER" /\ mw v = "BARRIER_WORKER"
        /\ exists u, In u subs /\ u <> v /\ mw0 u = "BARRIER"
                     /\ GraphTool.linked gr v u = false).

(** The roles in which [p] and [q] are BARRIER_WORKER and every other
    vertex has its role of [mw0]. *)
Definition paired (mw0 mw : GraphTool.Vertex -> string) (p q : GraphTool.Vertex) : Prop :=
  forall v,
    mw v = if Nat.eqb v p || Nat.eqb v q then "BARRIER_WORKER" else mw0 v.

(** *** The barrier suggestion loop *)

(** The number of vertices below [n] whose mark is 'False'. *)
Definition count_false (m : GraphTool.Vertex -> string) (n : nat) : nat :=
  List.length (filter (fun v => String.eqb (m v) "False") (seq 0 n)).

(** The marks the loop can still set. *)
Definition unset_flags (gr : GraphTool.Graph) : nat :=
  count_false (GraphTool.vp_viz_omittable gr) (GraphTool.num_vertices gr)
  + count_false (GraphTool.vp_viz_contains_taskwait gr) (GraphTool.num_vertices gr).

(** No mark that is 'True' in [gr] is anything else in [gr']. *)
Definition flags_kept (gr gr' : GraphTool.Graph) : Prop :=
  forall v,
    (GraphTool.vp_viz_omittable gr v = "True" -> GraphTool.vp_viz_omittable gr' v = "True")
    /\ (GraphTool.vp_viz_contains_taskwait gr v = "True" ->
        GraphTool.vp_viz_contains_taskwait gr' v = "True")
    /\ (GraphTool.vp_viz_contains_task gr v = "True" ->
        GraphTool.vp_viz_contains_task gr' v = "True").

(** A mark of [v] is 'False' in [gr] and 'True' in [gr']. *)
Definition flipped (gr gr' : GraphTool.Graph) (v : GraphTool.Vertex) : Prop :=
  (GraphTool.vp_viz_omittable gr v = "False" /\ GraphTool.vp_viz_omittable gr' v = "True")
  \/ (GraphTool.vp_viz_contains_taskwait gr v = "False"
      /\ GraphTool.vp_viz_contains_taskwait gr' v = "True").

(** The list [l'] is [l] with elements added at its end. *)
Definition grows {A : Type} (l l' : list A) : Prop := exists more, l' = l ++ more.

(** What part of a scan does to the state: nothing at all, or it raises
    [transformation_happened], sets marks and adds barrier nodes. *)
Definition progress (st st' : TaskParallelism.BarrierState) : Prop :=
  st' = st
  \/ (TaskParallelism.transformation_happened st' = true
      /\ GraphTool.num_vertices (TaskParallelism.graph st')
         = GraphTool.num_vertices (TaskParallelism.graph st)
      /\ flags_kept (TaskParallelism.graph st) (TaskParallelism.graph st')
      /\ grows (TaskParallelism.barrier_nodes st) (TaskParallelism.barrier_nodes st')
      /\ unset_flags (TaskParallelism.graph st') < unset_flags (TaskParallelism.graph st)
      /\ exists v,
           v < GraphTool.num_vertices (TaskParallelism.graph st)
           /\ flipped (TaskParallelism.graph st) (TaskParallelism.graph st') v).

(** *** What a detector pass may write *)

(** The vertices and everything of them no detector of
    pattern_detection.py writes. *)
Definition static_eq (g g' : GraphTool.Graph) : Prop :=
  GraphTool.num_vertices g' = GraphTool.num_vertices g
  /\ GraphTool.vp_id g' = GraphTool.vp_id g
  /\ GraphTool.vp_type g' = GraphTool.vp_type g
  /\ GraphTool.vp_name g' = GraphTool.vp_name g
  /\ GraphTool.vp_startsAtLine g' = GraphTool.vp_startsAtLine g
  /\ GraphTool.vp_endsAtLine g' = GraphTool.vp_endsAtLine g
  /\ GraphTool.vp_localVars g' = GraphTool.vp_localVars g
  /\ GraphTool.vp_globalVars g' = GraphTool.vp_globalVars g
  /\ GraphTool.vp_viz_omittable g' = GraphTool.vp_viz_omittable g
  /\ GraphTool.vp_viz_contains_task g' = GraphTool.vp_viz_contains_task g
  /\ GraphTool.vp_viz_contains_taskwait g' = GraphTool.vp_viz_contains_taskwait g.

(** The loop-count table, the reduction table and the threshold. *)
Definition tables_eq (a b : PatternDetection.PatternDetector) : Prop :=
  PatternDetection.loop_data b = PatternDetection.loop_data a
  /\ PatternDetection.reduction_vars b = PatternDetection.reduction_vars a
  /\ PatternDetection.do_all_threshold b = PatternDetection.do_all_threshold a.

(** The analysis flags of a vertex. *)
Inductive Flag : Type := Pipeline | Reduction | DoAll | MwType | GeomDecomp.

Definition flag_eq (f : Flag) (g g' : GraphTool.Graph) : Prop :=
  match f with
  | Pipeline => GraphTool.vp_pipeline g' = GraphTool.vp_pipeline g
  | Reduction => GraphTool.vp_reduction g' = GraphTool.vp_reduction g
  | DoAll => GraphTool.vp_doAll g' = GraphTool.vp_doAll g
  | MwType => GraphTool.vp_mwType g' = GraphTool.vp_mwType g
  | GeomDecomp => GraphTool.vp_geomDecomp g' = GraphTool.vp_geomDecomp g
  end.

(** From [a] to [b] nothing changed but, at most, the flag [f] of some
    vertices (and the detector's cache of iteration counts, which only the
    pass that owns [GeomDecomp] fills). *)
Definition writes_at_most (f : Flag) (a b : PatternDetection.PatternDetector) : Prop :=
  static_eq (PatternDetection.pet a) (PatternDetection.pet b)
  /\ GraphTool.edges (PatternDetection.pet b) = GraphTool.edges (PatternDetection.pet a)
  /\ tables_eq a b
  /\ (f <> GeomDecomp ->
      PatternDetection.loop_iterations b = PatternDetection.loop_iterations a)
  /\ forall f', f' <> f -> flag_eq f' (PatternDetection.pet a) (PatternDetection.pet b).

(** A CHILD edge that leads from a vertex of the graph that is no dummy to
    a dummy: what [__merge(False, True)] removes. *)
Definition child_to_dummy (g : GraphTool.Graph) (e : GraphTool.Edge) : bool :=
  Nat.ltb (GraphTool.e_source e) (GraphTool.num_vertices g)
  && negb (String.eqb (GraphTool.vp_type g (GraphTool.e_source e)) "3")
  && String.eqb (GraphTool.ep_type e) "child"
  && String.eqb (GraphTool.vp_type g (GraphTool.e_target e)) "3".

(** The same, for the sources in a list of vertices. *)
Definition child_to_dummy_from (ty : GraphTool.Vertex -> string) (l : list GraphTool.Vertex)
  (e : GraphTool.Edge) : bool :=
  GraphTool.vertex_in (GraphTool.e_source e) l
  && negb (String.eqb (ty (GraphTool.e_source e)) "3")
  && String.eqb (GraphTool.ep_type e) "child"
  && String.eqb (ty (GraphTool.e_target e)) "3".

(** Every start and end line of the graph has the form file:line, and
    every suggestion that is no parallel region has a pragma. *)
Definition lined (gr : GraphTool.Graph) (v : GraphTool.Vertex) : Prop :=
  has_colon (GraphTool.vp_startsAtLine gr v) = true
  /\ has_colon (GraphTool.vp_endsAtLine gr v) = true.

Definition well_positioned (gr : GraphTool.Graph) : Prop :=
  forall v,
    v < GraphTool.num_vertices gr
    \/ (exists e, In e (GraphTool.edges gr) /\ GraphTool.e_target e = v) ->
    lined gr v.

Definition with_pragmas (l : list TaskParallelism.Suggestion) : Prop :=
  forall s, In (TaskParallelism.TaskInfo s) l -> TaskParallelism.pragma s <> [].

(** The vertices, edges and lines of the state are those of [gr]. *)
Definition lines_of (gr : GraphTool.Graph) (st : TaskParallelism.BarrierState) : Prop :=
  GraphTool.num_vertices (TaskParallelism.graph st) = GraphTool.num_vertices gr
  /\ GraphTool.edges (TaskParallelism.graph st) = GraphTool.edges gr
  /\ GraphTool.vp_startsAtLine (TaskParallelism.graph st) = GraphTool.vp_startsAtLine gr
  /\ GraphTool.vp_endsAtLine (TaskParallelism.graph st) = GraphTool.vp_endsAtLine gr.

(** *** Geometric decomposition *)

(** No loop below [root], and no loop directly under a FUNC directly under
    [root], has its reduction or do-all flag set. *)
Definition no_loop_flagged (pet : PETGraphX.PETGraphX) (root : PETGraphX.CuNode) : Prop :=
  (forall l, in_subtree pet root PETGraphX.LOOP l -> GeometricDecomposition.flagged l = false)
  /\ (forall f l,
        child_of pet root f -> PETGraphX.type f = PETGraphX.FUNC ->
        child_of pet f l -> PETGraphX.type l = PETGraphX.LOOP ->
        GeometricDecomposition.flagged l = false).

(** Every loop below [root], and every loop directly under a FUNC directly
    under [root], has its reduction or do-all flag set: what the design
    asks of a node that qualifies. *)
Definition all_loops_flagged (pet : PETGraphX.PETGraphX) (root : PETGraphX.CuNode) : Prop :=
  (forall l, in_subtree pet root PETGraphX.LOOP l -> GeometricDecomposition.flagged l = true)
  /\ (forall f l,
        child_of pet root f -> PETGraphX.type f = PETGraphX.FUNC ->
        child_of pet f l -> PETGraphX.type l = PETGraphX.LOOP ->
        GeometricDecomposition.flagged l = true).

End Spec.

(* ===================================================================== *)
(** ** task_parallelism_detector.py: roles, searches and the barrier filter *)
(* ===================================================================== *)

From Stdlib Require Import Permutation.

Module TaskSearch.
Import Py GraphTool TaskParallelism.

(** *** The first loop of [run_detection] *)

(** [for node in pet.graph.vertices()]: the roles of the children of every
    vertex that is no dummy, and ROOT for a vertex left with NONE.
    [depends] is [utils.depends], as in [__detect_mw_types]. *)
Definition assign_roles (depends : Graph -> Vertex -> Vertex -> result bool)
  (gr : Graph) : result Graph :=
  for_each (vertices gr)
    (fun gr node =>
       if String.eqb (vp_type gr node) "dummy" then Ok gr
       else
         gr1 <- match find_subnodes gr node "child" with
                | [] => Ok gr
                | _ :: _ => detect_mw_types depends gr node
                end ;;
         Ok (if String.eqb (vp_mwType gr1 node) "NONE"
             then set_vp_mwType gr1 (upd (vp_mwType gr1) node "ROOT")
             else gr1))
    gr.

(** *** [__check_reachability] *)

(** [tmpList]: the in-edges of the node just taken from the queue that
    have the wanted type and a source not yet in [visited]. *)
Definition unvisited_in_edges (gr : Graph) (edge_type : string) (visited : list Vertex)
  (cur_node : Vertex) : list Edge :=
  filter (fun e => negb (vertex_in (e_source e) visited)
                   && String.eqb (ep_type e) edge_type)
         (in_edges gr cur_node).

(** [for e in tmpList] of [__check_reachability]: [None] is the
    [return True], [Some queue] the queue after the loop. *)
Fixpoint reach_scan (source : Vertex) (visited : list Vertex) (tmpList : list Edge)
  (queue : list Vertex) : option (list Vertex) :=
  match tmpList with
  | [] => Some queue
  | e :: tmpList' =>
      if Nat.eqb (e_source e) source then None
      else reach_scan source visited tmpList'
             (if vertex_in (e_source e) visited then queue
              else queue ++ [e_source e])
  end.

(** [while len(queue) > 0]; [fuel] bounds the number of rounds. *)
Fixpoint reach_loop (fuel : nat) (gr : Graph) (source : Vertex) (edge_type : string)
  (visited queue : list Vertex) : result bool :=
  match fuel with
  | 0 => OutOfFuel
  | S fuel' =>
      match queue with
      | [] => Ok false
      | cur_node :: queue' =>
          let visited' := visited ++ [cur_node] in
          match reach_scan source visited'
                  (unvisited_in_edges gr edge_type visited' cur_node) queue' with
          | None => Ok true
          | Some queue'' => reach_loop fuel' gr source edge_type visited' queue''
          end
      end
  end.

Definition check_reachability (fuel : nat) (gr : Graph) (target source : Vertex)
  (edge_type : string) : result bool :=
  reach_loop fuel gr source edge_type [] [target].

(** *** [__get_parent_of_type] *)

(** What the loop over [tmpList] leaves: the early [return] of the first
    parent, or the three lists it works on. *)
Inductive ParentScan : Type :=
| Found (r : Vertex * Vertex)
| Continue (visited : list Vertex) (queue : list (Vertex * option Vertex))
           (res : list (Vertex * Vertex)).

Fixpoint parent_scan (gr : Graph) (parent_type : string) (only_first : bool)
  (last_node : Vertex) (tmpList : list Edge) (visited : list Vertex)
  (queue : list (Vertex * option Vertex)) (res : list (Vertex * Vertex)) : ParentScan :=
  match tmpList with
  | [] => Continue visited queue res
  | e :: tmpList' =>
      if String.eqb (vp_type gr (e_source e)) parent_type
      then
        if only_first then Found (e_source e, last_node)
        else parent_scan gr parent_type only_first last_node tmpList'
               (visited ++ [e_source e]) queue (res ++ [(e_source e, last_node)])
      else
        parent_scan gr parent_type only_first last_node tmpList' visited
          (if vertex_in (e_source e) visited then queue
           else queue ++ [(e_source e, Some last_node)])
          res
  end.

(** [while len(queue) > 0]; an entry of the queue is a node and the node it
    was reached from ([None] for the start). *)
Fixpoint parent_loop (fuel : nat) (gr : Graph) (parent_type edge_type : string)
  (only_first : bool) (visited : list Vertex) (queue : list (Vertex * option Vertex))
  (res : list (Vertex * Vertex)) : result (list (Vertex * Vertex)) :=
  match fuel with
  | 0 => OutOfFuel
  | S fuel' =>
      match queue with
      | [] => Ok res
      | (cur_node, _) :: queue' =>
          let last_node := cur_node in
          let visited' := visited ++ [cur_node] in
          match parent_scan gr parent_type only_first last_node
                  (unvisited_in_edges gr edge_type visited' cur_node)
                  visited' queue' res with
          | Found r => Ok [r]
          | Continue visited'' queue'' res' =>
              parent_loop fuel' gr parent_type edge_type only_first visited'' queue'' res'
          end
      end
  end.

Definition get_parent_of_type (fuel : nat) (gr : Graph) (node : Vertex)
  (parent_type edge_type : string) (only_first : bool)
  : result (list (Vertex * Vertex)) :=
  parent_loop fuel gr parent_type edge_type only_first [] [(node, None)] [].

(** *** [__remove_useless_barrier_suggestions] *)

(** The split of the suggestions by [pragma[0]]. *)
Fixpoint split_by_pragma (l : list TaskParallelismInfo)
  : result (list TaskParallelismInfo * list TaskParallelismInfo) :=
  match l with
  | [] => Ok ([], [])
  | s :: l' =>
      match pragma s with
      | [] => Raise IndexError
      | p0 :: _ =>
          r <- split_by_pragma l' ;;
          Ok (if String.eqb p0 "taskwait"
              then (s :: fst r, snd r)
              else (fst r, s :: snd r))
      end
  end.

(** [relevant_function_bodies[parent].append(line)], the key created when
    it is new. *)
Fixpoint bodies_add (d : list (Vertex * list string)) (parent : Vertex) (line : string)
  : list (Vertex * list string) :=
  match d with
  | [] => [(parent, [line])]
  | (k, l) :: d' =>
      if Nat.eqb k parent then (k, l ++ [line]) :: d'
      else (k, l) :: bodies_add d' parent line
  end.

(** The dict [relevant_function_bodies]: [parent[0][0]] needs a parent. *)
Definition relevant_function_bodies (fuel : nat) (gr : Graph)
  (task_suggestions : list TaskParallelismInfo) : result (list (Vertex * list string)) :=
  for_each task_suggestions
    (fun d ts =>
       parent <- get_parent_of_type fuel gr (tp_node ts) "func" "child" true ;;
       match parent with
       | [] => Raise IndexError
       | (p, _) :: _ => Ok (bodies_add d p (pragma_line ts))
       end)
    [].

(** The body of [for tws in taskwait_suggestions]. *)
Definition keep_taskwait (fuel : nat) (gr : Graph) (bodies : list (Vertex * list string))
  (suggestions_ : list TaskParallelismInfo) (tws : TaskParallelismInfo)
  : result (list TaskParallelismInfo) :=
  tws_line_number <- after_colon (pragma_line tws) ;;
  for_each bodies
    (fun suggestions_ body =>
       r <- check_reachability fuel gr (tp_node tws) (fst body) "child" ;;
       Ok (if r
           then if existsb (fun line_number => str_le line_number tws_line_number)
                           (snd body)
                then suggestions_ ++ [tws]
                else suggestions_
           else suggestions_))
    suggestions_.

Definition remove_useless_barrier_suggestions (fuel : nat) (gr : Graph)
  (suggestions_ : list TaskParallelismInfo) : result (list TaskParallelismInfo) :=
  split <- split_by_pragma suggestions_ ;;
  bodies <- relevant_function_bodies fuel gr (snd split) ;;
  for_each (fst split) (keep_taskwait fuel gr bodies) (snd split).

End TaskSearch.

(* ===================================================================== *)
(** ** Further notions and graphs *)
(* ===================================================================== *)

Module Notions.
Import Py.

(** *** Graph construction *)

(** [cu_dict[i]], when the dict has the key. *)
Fixpoint entry_of (cu_dict : list (string * PETGraphX.CuElement)) (i : string)
  : option PETGraphX.CuElement :=
  match cu_dict with
  | [] => None
  | (k, el) :: cu_dict' => if String.eqb k i then Some el else entry_of cu_dict' i
  end.

(** The node as the graph holds it once the loop counts are read: a LOOP
    node carries the count recorded for its start position, 0 without a
    record; any other node is as parsed. *)
Definition stored (loop_data : list (string * Z)) (n : PETGraphX.CuNode)
  : PETGraphX.CuNode :=
  if PETGraphX.CuType_eqb (PETGraphX.type n) PETGraphX.LOOP
  then PETGraphX.mkCuNode (PETGraphX.id n) (PETGraphX.file_id n) (PETGraphX.node_id n)
         (PETGraphX.source_file n) (PETGraphX.start_line n) (PETGraphX.end_line n)
         (PETGraphX.type n) (PETGraphX.name n) (PETGraphX.instructions_count n)
         (PETGraphX.dict_get loop_data (PETGraphX.start_position n) 0%Z)
         (PETGraphX.reduction n) (PETGraphX.do_all n)
         (PETGraphX.geometric_decomposition n) (PETGraphX.pipeline n)
         (PETGraphX.local_vars n) (PETGraphX.global_vars n)
  else n.

(** The edge [e] is the CHILD edge of a listed child, or the SUCCESSOR edge
    of a listed successor, of an entry of [cu_dict]. *)
Definition structure_edge (cu_dict : list (string * PETGraphX.CuElement))
  (e : PETGraphX.Edge) : Prop :=
  exists k el,
    In (k, el) cu_dict
    /\ ((exists c, In c (PETGraphX.opt_list (PETGraphX.childrenNodes el))
                   /\ e = (k, c, PETGraphX.Dependency_init PETGraphX.CHILD))
        \/ (exists s, In s (PETGraphX.opt_list (PETGraphX.successors el))
                      /\ e = (k, s, PETGraphX.Dependency_init PETGraphX.SUCCESSOR))).


(** What the dependence loop does to a graph: it adds DATA edges at the
    end of the edge list, touches nodes, and changes the data of no node. *)
Definition extends_with_data (gr gr' : PETGraphX.MultiDiGraph) : Prop :=
  (forall j, PETGraphX.lookup_node (PETGraphX.nodes gr') j
             = PETGraphX.lookup_node (PETGraphX.nodes gr) j)
  /\ (forall j, PETGraphX.has_node (PETGraphX.nodes gr) j = true ->
                PETGraphX.has_node (PETGraphX.nodes gr') j = true)
  /\ exists more,
       PETGraphX.edges gr' = PETGraphX.edges gr ++ more
       /\ forall e, In e more ->
            PETGraphX.etype (PETGraphX.e_data e) = PETGraphX.DATA.

(** *** The query layer *)

(** The test of one edge in [is_loop_index]: sink and source are one line,
    a loop start line, and the target is the node [n], one of the
    children. *)
Definition header_edge (pet : PETGraphX.PETGraphX) (lsl : list string)
  (children : list PETGraphX.CuNode) (e : PETGraphX.Edge) (n : PETGraphX.CuNode) : Prop :=
  (exists s, PETGraphX.sink (PETGraphX.e_data e) = Some s
             /\ PETGraphX.source (PETGraphX.e_data e) = Some s /\ In s lsl)
  /\ PETGraphX.node_at pet (PETGraphX.e_tgt e) = Ok n
  /\ Spec.has_id (PETGraphX.id n) children.

(** The line [o] is the start position of a loop below [root_loop]. *)
Definition loop_line_below (pet : PETGraphX.PETGraphX) (root_loop : PETGraphX.CuNode)
  (o : option string) : Prop :=
  exists s l,
    o = Some s
    /\ Spec.in_subtree pet root_loop PETGraphX.LOOP l
    /\ PETGraphX.start_position l = s.

(** A DATA edge on the variable of [dep] tells that the CU [v] takes part
    in a write of it outside the loop headers: a WAR or WAW edge leaving
    [v] whose sink is no loop line, or a RAW edge entering [v] whose source
    is no loop line. *)
Definition written_by (pet : PETGraphX.PETGraphX) (root_loop : PETGraphX.CuNode)
  (dep : PETGraphX.Dependency) (v : PETGraphX.CuNode) (e : PETGraphX.Edge) : Prop :=
  In e (PETGraphX.edges (PETGraphX.g pet))
  /\ PETGraphX.etype (PETGraphX.e_data e) = PETGraphX.DATA
  /\ PETGraphX.var_name dep = PETGraphX.var_name (PETGraphX.e_data e)
  /\ ((PETGraphX.e_src e = PETGraphX.id v
       /\ Spec.is_war_waw (PETGraphX.e_data e)
       /\ ~ loop_line_below pet root_loop (PETGraphX.sink (PETGraphX.e_data e)))
      \/ (PETGraphX.e_tgt e = PETGraphX.id v
          /\ PETGraphX.dtype (PETGraphX.e_data e) = Some PETGraphX.RAW
          /\ ~ loop_line_below pet root_loop (PETGraphX.source (PETGraphX.e_data e)))).

(** *** The chunk limit of pattern_detection.py *)

(** The loops [__test_chunk_limit] looks at: the LOOP children of the node
    and the LOOP children of its FUNC children. *)
Definition inner_loops (gr : GraphTool.Graph) (node : GraphTool.Vertex)
  : list GraphTool.Vertex :=
  PatternDetection.loop_children gr node
  ++ flat_map (PatternDetection.loop_children gr) (PatternDetection.func_children gr node).

(** The count [loop_data] records for the start line of a vertex, 0
    without a record. *)
Definition recorded (self : PatternDetection.PatternDetector) (v : GraphTool.Vertex) : Z :=
  PatternDetection.get_loop_iterations self
    (GraphTool.vp_startsAtLine (PatternDetection.pet self) v).

(** Every cached count is positive exactly when the recorded count of its
    loop is: what the cache holds when [__iterations_count] filled it. *)
Definition cache_sound (self : PatternDetection.PatternDetector) : Prop :=
  forall k v,
    PatternDetection.cache_get (PatternDetection.loop_iterations self) k = Some v ->
    (0 < v <-> 0 < recorded self k)%Z.

(** *** Roles *)

(** A role the classification of the children writes. *)
Definition assigned (r : string) : Prop :=
  r = "FORK" \/ r = "WORKER" \/ r = "BARRIER" \/ r = "BARRIER_WORKER".

(** A role other than the two a vertex has before it is classified as a
    child. *)
Definition classified (r : string) : Prop := r <> "NONE" /\ r <> "ROOT".

(** What one classification step does to the roles [mw]: it writes
    assigned roles to children only, and leaves [node] classified. *)
Definition classifies (subs : list GraphTool.Vertex) (node : GraphTool.Vertex)
  (mw mw' : GraphTool.Vertex -> string) : Prop :=
  (forall v, mw' v = mw v \/ (In v subs /\ assigned (mw' v)))
  /\ classified (mw' node).

(** The state of the pair search against the roles [mw0] it started from:
    a role differs only where a BARRIER became a BARRIER_WORKER; every
    recorded pair is made of two different children that were BARRIER, have
    no edge between them and are BARRIER_WORKER now; and every vertex whose
    role differs is in a recorded pair. *)
Definition pairs_recorded (gr : GraphTool.Graph) (subs : list GraphTool.Vertex)
  (mw0 : GraphTool.Vertex -> string)
  (st : (GraphTool.Vertex -> string) * list (GraphTool.Vertex * GraphTool.Vertex)) : Prop :=
  (forall v, fst st v = mw0 v \/ (mw0 v = "BARRIER" /\ fst st v = "BARRIER_WORKER"))
  /\ (forall a b,
        In (a, b) (snd st) ->
        In a subs /\ In b subs /\ a <> b
        /\ mw0 a = "BARRIER" /\ mw0 b = "BARRIER"
        /\ GraphTool.linked gr a b = false
        /\ fst st a = "BARRIER_WORKER" /\ fst st b = "BARRIER_WORKER")
  /\ (forall v, fst st v <> mw0 v -> exists u, In (v, u) (snd st) \/ In (u, v) (snd st)).

(** What the role pass keeps from one graph to a later one: the vertices,
    the edges and the types, and every role that is not NONE stays
    different from NONE. *)
Definition roles_kept (not_none : string) (gr gr' : GraphTool.Graph) : Prop :=
  GraphTool.num_vertices gr' = GraphTool.num_vertices gr
  /\ GraphTool.edges gr' = GraphTool.edges gr
  /\ GraphTool.vp_type gr' = GraphTool.vp_type gr
  /\ forall v, GraphTool.vp_mwType gr v <> not_none -> GraphTool.vp_mwType gr' v <> not_none.

(** *** Taskwait suggestions *)

(** Every dependence edge has a sink of the form file:line. *)
Definition sinks_lined (gr : GraphTool.Graph) : Prop :=
  forall e, In e (GraphTool.edges gr) -> GraphTool.ep_type e = "dependence" ->
    has_colon (GraphTool.ep_sink e) = true.

(** The suggestion [s], filed under the key [k], is the taskwait of a
    BARRIER vertex that starts at line [k], placed at the line the loop over
    its out-edges gives, with no variable lists. *)
Definition taskwait_of (gr : GraphTool.Graph) (k : string)
  (s : TaskParallelism.TaskParallelismInfo) : Prop :=
  TaskParallelism.pragma s = ["taskwait"]
  /\ GraphTool.vp_mwType gr (TaskParallelism.tp_node s) = "BARRIER"
  /\ GraphTool.vp_startsAtLine gr (TaskParallelism.tp_node s) = k
  /\ TaskParallelism.first_dependency_line gr (TaskParallelism.tp_node s)
     = Ok (TaskParallelism.pragma_line s)
  /\ TaskParallelism.first_private s = []
  /\ TaskParallelism.private s = []
  /\ TaskParallelism.shared s = [].

(** The dict of suggestions holds one taskwait for each vertex of [done],
    and nothing else, under distinct keys. *)
Definition taskwaits_for (gr : GraphTool.Graph) (done : list GraphTool.Vertex)
  (d : list (string * list TaskParallelism.TaskParallelismInfo)) : Prop :=
  Permutation (map TaskParallelism.tp_node (flat_map snd d)) done
  /\ (forall k l s, In (k, l) d -> In s l -> taskwait_of gr k s)
  /\ NoDup (map fst d).



(** *** Searches against the edges *)

(** An edge of type [edge_type] leads from [u] to [v]. *)
Definition typed_edge (gr : GraphTool.Graph) (edge_type : string)
  (u v : GraphTool.Vertex) : Prop :=
  exists e,
    In e (GraphTool.edges gr) /\ GraphTool.e_source e = u /\ GraphTool.e_target e = v
    /\ GraphTool.ep_type e = edge_type.

(** [typed_reach gr edge_type u v]: [v] is [u], or edges of type
    [edge_type] lead from [u] to [v]. *)
Inductive typed_reach (gr : GraphTool.Graph) (edge_type : string)
  : GraphTool.Vertex -> GraphTool.Vertex -> Prop :=
| typed_reach_here (v : GraphTool.Vertex) : typed_reach gr edge_type v v
| typed_reach_edge (u w v : GraphTool.Vertex) :
    typed_edge gr edge_type u w -> typed_reach gr edge_type w v ->
    typed_reach gr edge_type u v.

(** The vertices a search against the edges can meet. *)
Definition search_space (gr : GraphTool.Graph) (start : GraphTool.Vertex)
  : list GraphTool.Vertex :=
  start :: map GraphTool.e_source (GraphTool.edges gr).

(** The two quantities that go down, in this order, with every round of
    such a search: the vertices not yet visited, and the entries of the
    queue that are visited already. *)
Definition unvisited (universe visited : list GraphTool.Vertex) : nat :=
  List.length (filter (fun v => negb (GraphTool.vertex_in v visited)) universe).

Definition stale (visited queue : list GraphTool.Vertex) : nat :=
  List.length (filter (fun v => GraphTool.vertex_in v visited) queue).

(** What holds of [visited] and [queue] in [__check_reachability] when
    [source] is not [target]: the source is in neither, every vertex of
    them reaches the target, the vertices that lead to a visited one are
    visited or queued, and the target is among them. *)
Definition reach_state (gr : GraphTool.Graph) (edge_type : string)
  (source target : GraphTool.Vertex) (visited queue : list GraphTool.Vertex) : Prop :=
  ~ In source visited /\ ~ In source queue
  /\ (forall v, In v visited \/ In v queue -> typed_reach gr edge_type v target)
  /\ (forall v u, In v visited -> typed_edge gr edge_type u v -> In u visited \/ In u queue)
  /\ (In target visited \/ In target queue).

(** What [__get_parent_of_type] returns: every pair is a vertex of the
    wanted type other than the start, with the vertex an edge leads to from
    it on the way to the start; the list is empty exactly when no vertex of
    the wanted type other than the start reaches the start; with
    [only_first] there is at most one pair. *)
Definition parents_found (gr : GraphTool.Graph) (node : GraphTool.Vertex)
  (parent_type edge_type : string) (only_first : bool)
  (res : list (GraphTool.Vertex * GraphTool.Vertex)) : Prop :=
  (forall p last,
     In (p, last) res ->
     GraphTool.vp_type gr p = parent_type /\ p <> node
     /\ typed_edge gr edge_type p last /\ typed_reach gr edge_type last node)
  /\ (res = [] <->
      forall p, typed_reach gr edge_type p node -> GraphTool.vp_type gr p = parent_type ->
                p = node)
  /\ (only_first = true -> List.length res <= 1).

(** What holds of [visited], [queue] and [res] in [__get_parent_of_type]. *)
Definition parent_state (gr : GraphTool.Graph) (node : GraphTool.Vertex)
  (parent_type edge_type : string) (only_first : bool)
  (visited : list GraphTool.Vertex)
  (queue : list (GraphTool.Vertex * option GraphTool.Vertex))
  (res : list (GraphTool.Vertex * GraphTool.Vertex)) : Prop :=
  (In node visited \/ exists o q, queue = (node, o) :: q)
  /\ (forall v, In v visited \/ In v (map fst queue) -> typed_reach gr edge_type v node)
  /\ (forall p last,
        In (p, last) res ->
        GraphTool.vp_type gr p = parent_type /\ p <> node
        /\ typed_edge gr edge_type p last /\ typed_reach gr edge_type last node)
  /\ (res = [] ->
      (forall v u, In v visited -> typed_edge gr edge_type u v ->
                   In u visited \/ In u (map fst queue))
      /\ (forall v, In v visited \/ In v (map fst queue) ->
                    v = node \/ GraphTool.vp_type gr v <> parent_type))
  /\ (only_first = true -> res = []).

(** [pragma[0] == "taskwait"], for a suggestion with a pragma. *)
Definition taskwait_pragma (s : TaskParallelism.TaskParallelismInfo) : bool :=
  match TaskParallelism.pragma s with
  | [] => false
  | p0 :: _ => String.eqb p0 "taskwait"
  end.

(** The dict [relevant_function_bodies] against the tasks read so far: a
    line stands under a key exactly when it is the pragma line of a task
    for which the search for a parent function gave this key. *)
Definition bodies_of (fuel : nat) (gr : GraphTool.Graph)
  (tasks : list TaskParallelism.TaskParallelismInfo)
  (d : list (GraphTool.Vertex * list string)) : Prop :=
  forall f line,
    (exists lines, In (f, lines) d /\ In line lines)
    <-> exists t last,
          In t tasks /\ TaskParallelism.pragma_line t = line
          /\ TaskSearch.get_parent_of_type fuel gr (TaskParallelism.tp_node t)
               "func" "child" true = Ok [(f, last)].

(** No function other than the vertex itself lies above the vertex. *)
Definition no_function_above (gr : GraphTool.Graph) (v : GraphTool.Vertex) : Prop :=
  forall p, typed_reach gr "child" p v -> GraphTool.vp_type gr p = "func" -> p = v.

(** *** The dependences of pattern_detection.py *)

(** [o] is the start line of a loop (type '2') that is [root_loop] or lies
    below it. *)
Definition gt_loop_line (gr : GraphTool.Graph) (root_loop : GraphTool.Vertex)
  (o : string) : Prop :=
  exists l,
    Spec.gt_reach gr root_loop l /\ GraphTool.vp_type gr l = "2"
    /\ GraphTool.vp_startsAtLine gr l = o.

(** The edge [e] passes for an edge on a loop index: its source line is
    its sink line, the line of a loop, and its target is a CU (type '0') of
    the loop. *)
Definition gt_header_edge (gr : GraphTool.Graph) (root_loop : GraphTool.Vertex)
  (e : GraphTool.Edge) : Prop :=
  GraphTool.ep_source e = GraphTool.ep_sink e
  /\ gt_loop_line gr root_loop (GraphTool.ep_source e)
  /\ Spec.gt_reach gr root_loop (GraphTool.e_target e)
  /\ GraphTool.vp_type gr (GraphTool.e_target e) = "0".

(** The variable of [dep] is written in the loop: a CU of the loop has an
    out-edge WAR or WAW on it whose sink is no loop line, or an in-edge RAW
    on it whose source is no loop line. *)
Definition gt_written (gr : GraphTool.Graph) (root_loop : GraphTool.Vertex)
  (dep : GraphTool.Edge) : Prop :=
  exists v e,
    Spec.gt_reach gr root_loop v /\ GraphTool.vp_type gr v = "0"
    /\ In e (GraphTool.edges gr) /\ GraphTool.ep_var dep = GraphTool.ep_var e
    /\ ((GraphTool.e_source e = v
         /\ (GraphTool.ep_dtype e = "WAR" \/ GraphTool.ep_dtype e = "WAW")
         /\ ~ gt_loop_line gr root_loop (GraphTool.ep_sink e))
        \/ (GraphTool.e_target e = v /\ GraphTool.ep_dtype e = "RAW"
            /\ ~ gt_loop_line gr root_loop (GraphTool.ep_source e))).

(** The edge counts as a dependence: a RAW dependence edge, unless it is
    both an edge on a loop index and on a variable not written in the
    loop. *)
Definition gt_dependency (gr : GraphTool.Graph) (root_loop : GraphTool.Vertex)
  (e : GraphTool.Edge) : Prop :=
  GraphTool.ep_type e = "dependence" /\ GraphTool.ep_dtype e = "RAW"
  /\ ~ (gt_header_edge gr root_loop e /\ ~ gt_written gr root_loop e).

(** *** The passes of pattern_detection.py *)

(** The two graphs have the same edges, types and lines: what the
    dependence tests read. *)
Definition same_structure (gr gr' : GraphTool.Graph) : Prop :=
  GraphTool.edges gr' = GraphTool.edges gr
  /\ GraphTool.vp_type gr' = GraphTool.vp_type gr
  /\ GraphTool.vp_startsAtLine gr' = GraphTool.vp_startsAtLine gr
  /\ GraphTool.vp_endsAtLine gr' = GraphTool.vp_endsAtLine gr.

(** [loop_subnodes] of [__detect_pipeline]: the children of [root] that
    can be stages of a pipeline. *)
Definition stages (gr : GraphTool.Graph) (root : GraphTool.Vertex)
  : list GraphTool.Vertex :=
  filter
    (fun v =>
       PatternDetection.is_pipeline_subnode gr root v
         (map (GraphTool.vp_startsAtLine gr)
            (filter (fun v => String.eqb (GraphTool.vp_type gr v) "2")
               (GraphTool.find_subnodes gr root "child"))))
    (GraphTool.find_subnodes gr root "child").

End Notions.

Module Cases.
Import Py.

(** A dict whose entry 1:1 lists the child 1:7, for which there is no
    entry. *)
Definition dangling_child : list (string * PETGraphX.CuElement) :=
  [("1:1", PETGraphX.mkCuElement
             (Examples.cu_node "1:1" 1 PETGraphX.FUNC 1 9 false false)
             (Some ["1:2"; "1:7"]) None);
   ("1:2", PETGraphX.mkCuElement
             (Examples.cu_node "1:2" 2 PETGraphX.LOOP 2 8 false false)
             None None)].

(** A function (vertex 0) with the loops 1 and 2 as children; the loop 1
    holds the loop 3. The k-th entry of [counts] is the recorded count of
    the loop k+1 (start lines 1:2, 1:5 and 1:3). *)
Definition nest_graph : GraphTool.Graph :=
  Examples.gt_graph 4
    [Examples.gt_child 0 1; Examples.gt_child 0 2; Examples.gt_child 1 3]
    ["1"; "2"; "2"; "2"]
    ["1:1"; "1:2"; "1:5"; "1:3"]
    ["1:9"; "1:4"; "1:8"; "1:3"]
    [].

Definition nest (c1 c2 c3 : Z) : PatternDetection.PatternDetector :=
  PatternDetection.mkDetector nest_graph Examples.threshold_0_9 [] []
    [("1:2", c1); ("1:5", c2); ("1:3", c3)].

Definition nest_rank (v : nat) : nat := nth v [2; 1; 0; 0] 0.

Definition star_rank (v : nat) : nat := nth v [1] 0.

(** A function (vertex 0) with two CUs (1 and 2), and a CU (3) outside of
    it. *)
Definition func_two_cus : GraphTool.Graph :=
  Examples.gt_graph 4 [Examples.gt_child 0 1; Examples.gt_child 0 2]
    ["func"; "cu"; "cu"; "cu"] ["1:1"; "1:5"; "1:9"; "1:20"]
    ["1:12"; "1:5"; "1:9"; "1:20"] [].

(** A task for the CU 1 at line 5, and taskwaits at line 9 for the CU 2,
    for the function itself and for the CU outside. *)
Definition task_and_taskwaits : list TaskParallelism.TaskParallelismInfo :=
  [TaskParallelism.mkTaskInfo 0 ["taskwait"] "1:9" "9" None [] [] [];
   TaskParallelism.mkTaskInfo 1 ["task"] "1:5" "5" None [] [] [];
   TaskParallelism.mkTaskInfo 2 ["taskwait"] "1:9" "9" None [] [] [];
   TaskParallelism.mkTaskInfo 3 ["taskwait"] "1:9" "9" None [] [] []].

(** Two CUs on a cycle of child edges. *)
Definition child_cycle : GraphTool.Graph :=
  Examples.gt_graph 2 [Examples.gt_child 0 1; Examples.gt_child 1 0]
    ["cu"; "cu"] ["1:1"; "1:2"] ["1:1"; "1:2"] [].

(** A task for the CU outside of the function. *)
Definition task_outside : list TaskParallelism.TaskParallelismInfo :=
  [TaskParallelism.mkTaskInfo 2 ["taskwait"] "1:9" "9" None [] [] [];
   TaskParallelism.mkTaskInfo 3 ["task"] "1:20" "20" None [] [] []].

End Cases.

(* ===================================================================== *)
(** * Properties *)
(* ===================================================================== *)

Import Py.

Unset Implicit Arguments.

(** ** The loop combinator *)

Section ForEach.

Context {A S : Type}.
Variable step : S -> A -> result S.

Lemma bind_ok {X Y : Type} (r : result X) (k : X -> result Y) (y : Y) :
  Py.bind r k = Ok y -> exists x, r = Ok x /\ k x = Ok y.
Proof.
  destruct r as [x | e |]; simpl; intros H; try discriminate.
  exists x. split; [reflexivity | exact H].
Qed.

Lemma for_each_cons (x : A) (l : list A) (s : S) :
  for_each (x :: l) step s = Py.bind (step s x) (for_each l step).
Proof. reflexivity. Qed.

Lemma for_each_app (l1 l2 : list A) (s : S) :
  for_each (l1 ++ l2) step s = Py.bind (for_each l1 step s) (for_each l2 step).
Proof.
  revert s. induction l1 as [| x l1 IH]; intros s; simpl.
  - reflexivity.
  - destruct (step s x) as [s' | e |]; simpl; auto.
Qed.

(** A property the body of a loop keeps holds after the loop. *)
Lemma for_each_invariant (P : S -> Prop) (l : list A) :
  (forall s x s', In x l -> P s -> step s x = Ok s' -> P s') ->
  forall s r, P s -> for_each l step s = Ok r -> P r.
Proof.
  induction l as [| x l IH]; intros Hstep s r Hs Hr; simpl in Hr.
  - inversion Hr. subst. exact Hs.
  - apply bind_ok in Hr. destruct Hr as [s' [Hx Hr]].
    apply IH with (s := s'); auto.
    + intros s0 y s1 Hy. apply Hstep. right. exact Hy.
    + apply (Hstep s x s'); auto. left. reflexivity.
Qed.

(** A loop whose body never fails on a state of the invariant finishes. *)
Lemma for_each_total (P : S -> Prop) (l : list A) :
  (forall s x, In x l -> P s -> exists s', step s x = Ok s' /\ P s') ->
  forall s, P s -> exists r, for_each l step s = Ok r /\ P r.
Proof.
  induction l as [| x l IH]; intros Hstep s Hs; simpl.
  - exists s. auto.
  - destruct (Hstep s x) as [s' [Hx Hs']]; auto. { left. reflexivity. }
    rewrite Hx. simpl. apply IH; auto.
    intros s0 y Hy. apply Hstep. right. exact Hy.
Qed.

End ForEach.

(** ** Task.aggregate (C5) *)

Section Aggregate.
Import TaskParallelism Examples.

(** C5, counterexample: a task whose role is BARRIER_WORKER absorbs a
    WORKER task and ends as WORKER, although one of the two roles was
    BARRIER_WORKER before the merge. *)
Lemma C5_absorbing_role_is_lost :
  mw_type (task_of "1:4" 4 "1:10" "1:12" "BARRIER_WORKER") = "BARRIER_WORKER"
  /\ mw_type (task_of "1:5" 5 "1:13" "1:15" "WORKER") = "WORKER"
  /\ mw_type (aggregate (task_of "1:4" 4 "1:10" "1:12" "BARRIER_WORKER")
                        (task_of "1:5" 5 "1:13" "1:15" "WORKER")) = "WORKER".
Proof. repeat split. Qed.

(** C5, amended: after [self.aggregate(other)] the role of [self] is
    BARRIER_WORKER when the role of [other], the task merged in, was
    BARRIER_WORKER, and WORKER otherwise; the earlier role of [self] plays
    no part. The nodes, workload and instruction count are those of both
    tasks, the end line that of [other]. *)
Theorem C5_aggregate_role (self other : Task) :
  mw_type (aggregate self other)
  = (if String.eqb (mw_type other) "BARRIER_WORKER" then "BARRIER_WORKER" else "WORKER")
  /\ (forall self' : Task,
        mw_type (aggregate self' other) = mw_type (aggregate self other))
  /\ nodes (aggregate self other) = nodes self ++ nodes other
  /\ end_line (aggregate self other) = end_line other
  /\ workload (aggregate self other) = (workload self + workload other)%Z
  /\ instruction_count (aggregate self other)
     = (instruction_count self + instruction_count other)%Z.
Proof. repeat split. Qed.

End Aggregate.

(** ** Cosine similarity (C7) *)

Section Cosine.
Import PatternDetection.

Lemma dot_from_zeros (n : nat) :
  dot_from 0%float (repeat (PyInt 0) n) (repeat (PyInt 0) n) = 0%float.
Proof.
  induction n as [| n IH]; simpl.
  - reflexivity.
  - exact IH.
Qed.

Lemma norm_zeros (n : nat) : norm (repeat (PyInt 0) n) = 0%float.
Proof.
  unfold norm, dot. rewrite dot_from_zeros. reflexivity.
Qed.

(** C7: the score of do-all detection on an observed vector of zeros, of
    any length, is the integer 0; [correlation_coefficient] answers the
    integer 0 whenever the product of the two norms equals 0, whatever the
    division would do (it is not reached), and the quotient of the dot
    product by the norm product when the product is not 0. The functions
    are total: no call raises. *)
Theorem C7_cosine_zero_vector (n : nat) (divide : float -> float -> float)
  (v1 v2 : list num) :
  do_all_score (repeat (PyInt 0) n) = PyInt 0
  /\ (PrimFloat.eqb (PrimFloat.mul (norm v1) (norm v2)) 0%float = true ->
      correlation_coefficient_with divide v1 v2 = PyInt 0)
  /\ (PrimFloat.eqb (PrimFloat.mul (norm v1) (norm v2)) 0%float = false ->
      correlation_coefficient_with divide v1 v2
      = PyFloat (divide (dot v1 v2) (PrimFloat.mul (norm v1) (norm v2)))).
Proof.
  split; [| split].
  - unfold do_all_score. rewrite norm_zeros. reflexivity.
  - intros H. unfold correlation_coefficient_with. rewrite H. reflexivity.
  - intros H. unfold correlation_coefficient_with. rewrite H. reflexivity.
Qed.

(** The vector of zeros of length 3 against the vector of ones: the product
    of the norms is 0 and the coefficient is the integer 0. *)
Lemma C7_cosine_zero_vector_witness :
  PrimFloat.eqb
    (PrimFloat.mul (norm [PyInt 0; PyInt 0; PyInt 0]) (norm [PyInt 1; PyInt 1; PyInt 1]))
    0%float = true
  /\ correlation_coefficient [PyInt 0; PyInt 0; PyInt 0] [PyInt 1; PyInt 1; PyInt 1]
     = PyInt 0.
Proof.
  split; [reflexivity |].
  apply (C7_cosine_zero_vector 3 PrimFloat.div
           [PyInt 0; PyInt 0; PyInt 0] [PyInt 1; PyInt 1; PyInt 1]).
  reflexivity.
Defined.

End Cosine.

(** ** Geometric decomposition (C1) *)

Section GeometricDecompositionFacts.
Import PETGraphX GeometricDecomposition Examples.

(** C1: on the loop nest whose two loops are both do-all, the test rejects
    the outer loop and its flag stays unset; on the same nest with no loop
    flagged the test accepts it and the flag is set. The claim asks for the
    opposite in both cases. *)
Theorem C1_geometric_decomposition_inverted :
  (subtree_of_type 3 (loop_nest true) (outer_loop true) LOOP
   = Ok [cu_node "1:1" 1 LOOP 1 9 false true; cu_node "1:2" 2 LOOP 2 8 false true]
   /\ detect_geometric_decomposition 3 (loop_nest true) (outer_loop true) = Ok false
   /\ run_detection_step 3 (loop_nest true) (outer_loop true) = Ok (loop_nest true))
  /\
  (subtree_of_type 3 (loop_nest false) (outer_loop false) LOOP
   = Ok [cu_node "1:1" 1 LOOP 1 9 false false; cu_node "1:2" 2 LOOP 2 8 false false]
   /\ detect_geometric_decomposition 3 (loop_nest false) (outer_loop false) = Ok true
   /\ (r <- run_detection_step 3 (loop_nest false) (outer_loop false) ;;
       n <- node_at r "1:1" ;; Ok (geometric_decomposition n)) = Ok true).
Proof. repeat split. Qed.

End GeometricDecompositionFacts.

(** ** Taskwait suggestions (C3) *)

Section TaskwaitFacts.
Import GraphTool TaskParallelism Examples.

(** C3: the barrier of [barrier_two_deps] ends at line 30 and has two
    dependences, read at lines 10 and 20. One taskwait is suggested for it,
    at line 20: each sink line is compared with the end line of the node,
    never with the line kept so far, so the last edge below the end line
    wins and not the earliest. *)
Theorem C3_taskwait_line_is_last_not_earliest :
  barrier_cus barrier_two_deps = [0]
  /\ map ep_sink (out_edges barrier_two_deps 0) = ["1:10"; "1:20"]
  /\ first_dependency_line barrier_two_deps 0 = Ok "1:20"
  /\ suggest_taskwait barrier_two_deps
     = Ok [("1:1", [mkTaskInfo 0 ["taskwait"] "1:20" "20" None [] [] []])].
Proof. repeat split. Qed.

End TaskwaitFacts.

(** ** Graph construction (C10) *)

Section ConstructionFacts.
Import PETGraphX Spec Examples.

Variables readline writeline : string -> list string.

Lemma edges_add_node (gr : MultiDiGraph) (i : string) (n : CuNode) :
  edges (add_node gr i n) = edges gr.
Proof. unfold add_node. destruct (has_node (nodes gr) i); reflexivity. Qed.

Lemma edges_add_edge (gr : MultiDiGraph) (u v : string) (d : Dependency) :
  edges (add_edge gr u v d) = edges gr ++ [(u, v, d)].
Proof. reflexivity. Qed.

Lemma edges_add_nodes (cu_dict : list (string * CuElement)) (gr : MultiDiGraph) :
  edges (add_nodes cu_dict gr) = edges gr.
Proof.
  unfold add_nodes. revert gr.
  induction cu_dict as [| kv l IH]; intros gr; simpl.
  - reflexivity.
  - rewrite IH. apply edges_add_node.
Qed.

Lemma structural_add_edges (k : string) (t : EdgeType) (l : list string)
  (gr : MultiDiGraph) :
  t <> DATA -> structural gr ->
  structural (fold_left (fun gr c => add_edge gr k c (Dependency_init t)) l gr).
Proof.
  intros Ht. revert gr. induction l as [| c l IH]; intros gr Hgr; simpl.
  - exact Hgr.
  - apply IH. intros e He. rewrite edges_add_edge in He.
    apply in_app_or in He. destruct He as [He | [He | []]].
    + apply Hgr. exact He.
    + subst e. exact Ht.
Qed.

Lemma structural_structure_graph (cu_dict : list (string * CuElement))
  (loop_data : list (string * Z)) :
  structural (structure_graph cu_dict loop_data).
Proof.
  unfold structure_graph, add_structure.
  assert (H0 : structural (set_loop_iterations loop_data (add_nodes cu_dict (mkGraph [] [])))).
  { intros e He. simpl in He. rewrite edges_add_nodes in He. destruct He. }
  revert H0. generalize (set_loop_iterations loop_data (add_nodes cu_dict (mkGraph [] []))).
  induction cu_dict as [| kv l IH]; intros gr Hgr; simpl.
  - exact Hgr.
  - apply IH. unfold add_structure_of.
    apply structural_add_edges; [discriminate |].
    apply structural_add_edges; [discriminate | exact Hgr].
Qed.

Lemma parse_dependency_dtype (dep : DependenceItem) (d : Dependency) :
  parse_dependency dep = Ok d ->
  is_war_waw d -> String.eqb (dep_type dep) "WAR" || String.eqb (dep_type dep) "WAW" = true.
Proof.
  unfold parse_dependency, DepType_of_name. intros H Hw.
  destruct (String.eqb (dep_type dep) "RAW") eqn:E1.
  - simpl in H. inversion H. subst d. destruct Hw as [Hw | Hw]; discriminate.
  - destruct (String.eqb (dep_type dep) "WAR") eqn:E2; [reflexivity |].
    destruct (String.eqb (dep_type dep) "WAW") eqn:E3; [reflexivity |].
    discriminate.
Qed.

Lemma add_dependence_pair_ok (deps : list DependenceItem) (dep : DependenceItem)
  (s t : string) (gr gr' : MultiDiGraph) :
  In dep deps -> dep_type dep <> "INIT" ->
  In s (readline (dep_sink dep)) -> In t (writeline (dep_source dep)) ->
  data_edges_ok readline writeline deps gr ->
  add_dependence_pair dep s t gr = Ok gr' ->
  data_edges_ok readline writeline deps gr'.
Proof.
  intros Hdep Hinit Hs Ht Hgr H. unfold add_dependence_pair in H.
  destruct (String.eqb s t
            && (String.eqb (dep_type dep) "WAR" || String.eqb (dep_type dep) "WAW")) eqn:Eself.
  - inversion H. subst. exact Hgr.
  - destruct (truthy s && truthy t).
    + apply bind_ok in H. destruct H as [d [Hd H]]. inversion H. subst gr'.
      intros e He Hdata. rewrite edges_add_edge in He.
      apply in_app_or in He. destruct He as [He | [He | []]].
      * apply Hgr; assumption.
      * subst e. split.
        -- exists dep. repeat split; assumption.
        -- intros Hw Heq. cbn in Hw, Heq.
           rewrite (parse_dependency_dtype dep d Hd Hw) in Eself.
           apply String.eqb_eq in Heq. rewrite Heq in Eself. discriminate.
    + inversion H. subst. exact Hgr.
Qed.

Lemma add_dependence_ok (deps : list DependenceItem) (dep : DependenceItem)
  (gr gr' : MultiDiGraph) :
  In dep deps ->
  data_edges_ok readline writeline deps gr ->
  add_dependence readline writeline gr dep = Ok gr' ->
  data_edges_ok readline writeline deps gr'.
Proof.
  intros Hdep Hgr H. unfold add_dependence in H.
  destruct (String.eqb (dep_type dep) "INIT") eqn:Einit.
  - inversion H. subst. exact Hgr.
  - assert (Hinit : dep_type dep <> "INIT") by (apply String.eqb_neq; exact Einit).
    revert H. apply for_each_invariant; [| exact Hgr].
    intros g1 s g2 Hs Hg1. apply for_each_invariant; [| exact Hg1].
    intros g3 t g4 Ht Hg3. apply add_dependence_pair_ok; assumption.
Qed.

(** C10: in the graph [PETGraphX.__init__] builds, every DATA edge was
    inserted for a dependence record that is no INIT record, from a CU of
    the record's sink line to a CU of its source line, and a DATA edge of
    type WAR or WAW never joins a node to itself. *)
Theorem C10_no_init_no_self_war_waw
  (cu_dict : list (string * CuElement)) (deps : list DependenceItem)
  (loop_data : list (string * Z)) (rvs : list ReductionVar) (pet : PETGraphX)
  (e : Edge) :
  init readline writeline cu_dict deps loop_data rvs = Ok pet ->
  In e (edges (g pet)) ->
  etype (e_data e) = DATA ->
  from_record readline writeline deps e
  /\ (is_war_waw (e_data e) -> e_src e <> e_tgt e).
Proof.
  unfold init. intros H He Hdata.
  apply bind_ok in H. destruct H as [gr [Hgr H]]. inversion H. subst pet. simpl in He.
  assert (Hok : data_edges_ok readline writeline deps gr).
  { revert Hgr. unfold add_dependencies. apply for_each_invariant.
    - intros g1 dep g2 Hdep Hg1. apply add_dependence_ok; assumption.
    - intros e0 He0 Hd0. exfalso.
      exact (structural_structure_graph cu_dict loop_data e0 He0 Hd0). }
  apply Hok; assumption.
Qed.

End ConstructionFacts.

(** The four records of [four_records] leave two DATA edges: the RAW of 1:1
    on itself and the WAR from 1:1 to 1:2. The INIT record and the WAW of
    1:1 on itself leave none. *)
Lemma C10_no_init_no_self_war_waw_witness :
  (r <- PETGraphX.init Examples.readline_map Examples.writeline_map
          Examples.two_cus Examples.four_records [] [] ;;
   Ok (map (fun e => (PETGraphX.e_src e, PETGraphX.e_tgt e, PETGraphX.dtype (PETGraphX.e_data e)))
           (PETGraphX.edges (PETGraphX.g r))))
  = Ok [("1:1", "1:2", None);
        ("1:1", "1:1", Some PETGraphX.RAW);
        ("1:1", "1:2", Some PETGraphX.WAR)]
  /\ (Spec.from_record Examples.readline_map Examples.writeline_map Examples.four_records
        ("1:1", "1:2", PETGraphX.mkDependency PETGraphX.DATA (Some PETGraphX.WAR)
                         (Some "y") (Some "1:6") (Some "1:5"))
      /\ (Spec.is_war_waw (PETGraphX.mkDependency PETGraphX.DATA (Some PETGraphX.WAR)
                             (Some "y") (Some "1:6") (Some "1:5")) ->
          "1:1" <> "1:2")).
Proof.
  split; [reflexivity |].
  eapply (@C10_no_init_no_self_war_waw Examples.readline_map Examples.writeline_map
            Examples.two_cus Examples.four_records [] [] _
            ("1:1", "1:2", PETGraphX.mkDependency PETGraphX.DATA (Some PETGraphX.WAR)
                             (Some "y") (Some "1:6") (Some "1:5"))).
  - reflexivity.
  - simpl. right. right. left. reflexivity.
  - reflexivity.
Defined.

(** ** The query layer of PETGraphX (C2) *)

Section QueryFacts.
Import PETGraphX Spec.

Lemma in_uniq (x : string) (l : list string) : In x (uniq l) <-> In x l.
Proof.
  induction l as [| y l IH]; simpl.
  - tauto.
  - rewrite filter_In, IH. split.
    + intros [H | [H _]]; auto.
    + intros [H | H]; auto.
      destruct (String.eqb x y) eqn:E.
      * left. symmetry. apply String.eqb_eq. exact E.
      * right. split; [exact H | reflexivity].
Qed.

Lemma in_nx_out_edges (gr : MultiDiGraph) (n : string) (e : Edge) :
  In e (nx_out_edges gr n) <-> In e (edges gr) /\ e_src e = n.
Proof.
  unfold nx_out_edges. rewrite in_flat_map. split.
  - intros [t [_ H]]. apply filter_In in H. destruct H as [H _].
    apply filter_In in H. destruct H as [H1 H2].
    split; [exact H1 | apply String.eqb_eq; exact H2].
  - intros [H1 H2]. exists (e_tgt e).
    assert (He : In e (filter (fun e0 => String.eqb (e_src e0) n) (edges gr))).
    { apply filter_In. split; [exact H1 | apply String.eqb_eq; exact H2]. }
    split.
    + apply in_uniq. apply in_map. exact He.
    + apply filter_In. split; [exact He | apply String.eqb_refl].
Qed.

Lemma EdgeType_eqb_eq (a b : EdgeType) : EdgeType_eqb a b = true <-> a = b.
Proof. destruct a, b; simpl; split; intros H; try reflexivity; discriminate. Qed.

Lemma CuType_eqb_eq (a b : CuType) : CuType_eqb a b = true <-> a = b.
Proof. destruct a, b; simpl; split; intros H; try reflexivity; discriminate. Qed.

Lemma opt_dtype_is_eq (a : option DepType) (t : DepType) :
  opt_dtype_is a t = true <-> a = Some t.
Proof.
  destruct a as [x |]; simpl.
  - destruct x, t; simpl; split; intros H; try reflexivity; discriminate.
  - split; discriminate.
Qed.

Lemma in_out_edges (pet : PETGraphX) (n : string) (t : EdgeType) (e : Edge) :
  In e (out_edges pet n (Some t))
  <-> In e (edges (g pet)) /\ e_src e = n /\ etype (e_data e) = t.
Proof.
  unfold out_edges. rewrite filter_In, in_nx_out_edges. simpl.
  rewrite EdgeType_eqb_eq. tauto.
Qed.

Lemma in_raw_out (pet : PETGraphX) (v : CuNode) (e : Edge) :
  In e (raw_out pet v) <-> raw_edge_of pet v e.
Proof.
  unfold raw_out, raw_edge_of. rewrite filter_In, in_out_edges, opt_dtype_is_eq. tauto.
Qed.

(** *** [subtree_of_type] computes the subtree *)

(** The loop that gathers the subtrees of the children. *)
Lemma gather_spec (pet : PETGraphX) (F : CuNode -> result (list CuNode))
  (es : list Edge) (base l : list CuNode) :
  for_each es
    (fun res e => n <- node_at pet (e_tgt e) ;; sub <- F n ;; Ok (res ++ sub)) base
  = Ok l ->
  (forall e, In e es -> exists n sub, node_at pet (e_tgt e) = Ok n /\ F n = Ok sub)
  /\ (forall x, In x l <->
        In x base
        \/ exists e n sub,
             In e es /\ node_at pet (e_tgt e) = Ok n /\ F n = Ok sub /\ In x sub).
Proof.
  revert base. induction es as [| e es IH]; intros base H.
  - simpl in H. inversion H. subst l. split.
    + intros e [].
    + intros x. split; [auto |]. intros [Hx | [e [n [sub [[] _]]]]]. exact Hx.
  - rewrite for_each_cons in H. apply bind_ok in H. destruct H as [res [Hstep H]].
    apply bind_ok in Hstep. destruct Hstep as [n [Hn Hstep]].
    apply bind_ok in Hstep. destruct Hstep as [sub [Hsub Hstep]].
    inversion Hstep. subst res. clear Hstep.
    destruct (IH _ H) as [IH1 IH2]. split.
    + intros e0 [He0 | He0].
      * subst e0. exists n, sub. auto.
      * apply IH1. exact He0.
    + intros x. rewrite IH2, in_app_iff. split.
      * intros [[Hx | Hx] | [e0 [n0 [sub0 [He0 Hrest]]]]].
        -- left. exact Hx.
        -- right. exists e, n, sub. repeat split; auto. left. reflexivity.
        -- right. exists e0, n0, sub0. split; [right; exact He0 | exact Hrest].
      * intros [Hx | [e0 [n0 [sub0 [[He0 | He0] [Hn0 [Hs0 Hx]]]]]]].
        -- left. left. exact Hx.
        -- subst e0. rewrite Hn in Hn0. inversion Hn0. subst n0.
           rewrite Hsub in Hs0. inversion Hs0. subst sub0. left. right. exact Hx.
        -- right. exists e0, n0, sub0. auto.
Qed.

Lemma subtree_of_type_spec (fuel : nat) (pet : PETGraphX) (ty : CuType) :
  forall (root : CuNode) (l : list CuNode),
    subtree_of_type fuel pet root ty = Ok l ->
    forall n, In n l <-> in_subtree pet root ty n.
Proof.
  induction fuel as [| fuel IH]; intros root l H n; simpl in H.
  - discriminate.
  - apply gather_spec in H. destruct H as [Hall Hmem].
    rewrite Hmem. unfold in_subtree. split.
    + intros [Hbase | [e [c [sub [He [Hc [Hsub Hn]]]]]]].
      * destruct (CuType_eqb (type root) ty) eqn:E; simpl in Hbase.
        -- destruct Hbase as [Hbase | []]. subst n. split.
           ++ apply reach_self.
           ++ apply CuType_eqb_eq. exact E.
        -- destruct Hbase.
      * apply in_out_edges in He. destruct He as [He1 [He2 He3]].
        apply (IH c sub Hsub) in Hn. destruct Hn as [Hr Ht]. split; [| exact Ht].
        apply reach_child with (c := c); [| exact Hr].
        exists e. auto.
    + intros [Hr Ht]. inversion Hr as [a | a c b Hchild Hcb]; subst.
      * left. rewrite (proj2 (CuType_eqb_eq (type n) (type n)) eq_refl).
        left. reflexivity.
      * right. destruct Hchild as [e [He1 [He2 [He3 He4]]]].
        assert (He : In e (out_edges pet (id root) (Some CHILD))).
        { apply in_out_edges. auto. }
        destruct (Hall e He) as [c' [sub [Hc' Hsub]]].
        rewrite He4 in Hc'. inversion Hc'. subst c'.
        exists e, c, sub. repeat split; auto.
        apply (IH c sub Hsub). split; [exact Hcb | reflexivity].
Qed.

(** With more fuel than the rank of the root, the recursion finishes. *)
Lemma subtree_of_type_total (pet : PETGraphX) (rank : string -> nat) (ty : CuType) :
  targets_have_data pet -> child_ranked pet rank ->
  forall (fuel : nat) (root : CuNode),
    rank (id root) < fuel -> exists l, subtree_of_type fuel pet root ty = Ok l.
Proof.
  intros Hdata Hrank. induction fuel as [| fuel IH]; intros root Hlt.
  - lia.
  - simpl.
    generalize (if CuType_eqb (type root) ty then [root] else []).
    assert (Hes : forall e, In e (out_edges pet (id root) (Some CHILD)) ->
                   exists n sub, node_at pet (e_tgt e) = Ok n
                                 /\ subtree_of_type fuel pet n ty = Ok sub).
    { intros e He. apply in_out_edges in He. destruct He as [He1 [He2 He3]].
      destruct (Hdata e He1) as [c Hc]. exists c.
      assert (Hlt' : rank (id c) < fuel).
      { assert (rank (id c) < rank (id root)) by (apply Hrank; exists e; auto). lia. }
      destruct (IH c Hlt') as [sub Hsub]. exists sub. auto. }
    revert Hes. generalize (out_edges pet (id root) (Some CHILD)).
    induction l as [| e es IHes]; intros Hes base; simpl.
    + exists base. reflexivity.
    + destruct (Hes e) as [c [sub [Hc Hsub]]]; [left; reflexivity |].
      rewrite Hc. simpl. rewrite Hsub. simpl. apply IHes.
      intros e0 He0. apply Hes. right. exact He0.
Qed.

End QueryFacts.

Section DependencyFacts.
Import PETGraphX Spec Examples.

Lemma node_in_has_id (n : CuNode) (s : list CuNode) :
  node_in n s = true <-> has_id (id n) s.
Proof.
  unfold node_in, has_id, CuNode_eq. rewrite existsb_exists. split.
  - intros [c [Hc E]]. exists c. split; [exact Hc |].
    symmetry. apply String.eqb_eq. exact E.
  - intros [c [Hc E]]. exists c. split; [exact Hc |].
    apply String.eqb_eq. symmetry. exact E.
Qed.

Lemma has_id_set_add (i : string) (s : list CuNode) (n : CuNode) :
  has_id i (set_add s n) <-> has_id i s \/ id n = i.
Proof.
  unfold set_add. destruct (node_in n s) eqn:E.
  - split; [auto |]. intros [H | H]; [exact H |].
    subst i. apply node_in_has_id. exact E.
  - unfold has_id. split.
    + intros [m [Hm Hi]]. apply in_app_or in Hm. destruct Hm as [Hm | [Hm | []]].
      * left. exists m. auto.
      * subst m. right. exact Hi.
    + intros [[m [Hm Hi]] | H].
      * exists m. split; [apply in_or_app; left; exact Hm | exact Hi].
      * exists n. split; [apply in_or_app; right; left; reflexivity | exact H].
Qed.

Lemma for_each_flat_map {A B S : Type} (f : A -> list B) (step : S -> B -> result S)
  (l : list A) (s : S) :
  for_each l (fun s v => for_each (f v) step s) s = for_each (flat_map f l) step s.
Proof.
  revert s. induction l as [| v l IH]; intros s; simpl.
  - reflexivity.
  - rewrite for_each_app. destruct (for_each (f v) step s); simpl; auto.
Qed.

(** A loop that adds to a set the nodes a test lets through. *)
Lemma collect_set_spec {A : Type} (f : A -> result (option CuNode)) (l : list A)
  (s r : list CuNode) :
  for_each l
    (fun s x => o <- f x ;; Ok (match o with Some n => set_add s n | None => s end)) s
  = Ok r ->
  forall i, has_id i r <->
            has_id i s \/ exists x n, In x l /\ f x = Ok (Some n) /\ id n = i.
Proof.
  revert s. induction l as [| x l IH]; intros s H i.
  - simpl in H. inversion H. subst r. split; [auto |].
    intros [Hs | [x [n [[] _]]]]. exact Hs.
  - rewrite for_each_cons in H. apply bind_ok in H. destruct H as [s' [Hx H]].
    apply bind_ok in Hx. destruct Hx as [o [Ho Hx]]. inversion Hx. subst s'. clear Hx.
    rewrite (IH _ H i). destruct o as [n |].
    + rewrite has_id_set_add. split.
      * intros [[Hs | Hn] | [y [m [Hy Hrest]]]].
        -- left. exact Hs.
        -- right. exists x, n. split; [left; reflexivity | auto].
        -- right. exists y, m. split; [right; exact Hy | exact Hrest].
      * intros [Hs | [y [m [[Hy | Hy] [Hf Hm]]]]].
        -- left. left. exact Hs.
        -- subst y. rewrite Ho in Hf. inversion Hf. subst m. left. right. exact Hm.
        -- right. exists y, m. auto.
    + split.
      * intros [Hs | [y [m [Hy Hrest]]]].
        -- left. exact Hs.
        -- right. exists y, m. split; [right; exact Hy | exact Hrest].
      * intros [Hs | [y [m [[Hy | Hy] [Hf Hm]]]]].
        -- left. exact Hs.
        -- subst y. rewrite Ho in Hf. discriminate.
        -- right. exists y, m. auto.
Qed.

Lemma collect_set_total {A : Type} (f : A -> result (option CuNode)) (l : list A) :
  (forall x, In x l -> exists o, f x = Ok o) ->
  forall s, exists r,
    for_each l
      (fun s x => o <- f x ;; Ok (match o with Some n => set_add s n | None => s end)) s
    = Ok r.
Proof.
  induction l as [| x l IH]; intros Hf s; simpl.
  - exists s. reflexivity.
  - destruct (Hf x) as [o Ho]; [left; reflexivity |]. rewrite Ho. simpl.
    apply IH. intros y Hy. apply Hf. right. exact Hy.
Qed.

(** On a graph whose edges lead to nodes with data, [is_loop_index]
    answers. *)
Lemma loop_index_edges_total (pet : PETGraphX) (lsl : list string)
  (children : list CuNode) (es : list Edge) :
  (forall e, In e es -> exists n, node_at pet (e_tgt e) = Ok n) ->
  exists b, loop_index_edges pet lsl children es = Ok b.
Proof.
  induction es as [| e es IH]; intros H; simpl.
  - exists false. reflexivity.
  - assert (IH' : exists b, loop_index_edges pet lsl children es = Ok b).
    { apply IH. intros e0 He0. apply H. right. exact He0. }
    destruct (opt_str_eqb (sink (e_data e)) (source (e_data e))
              && opt_str_in (source (e_data e)) lsl); [| exact IH'].
    destruct (H e) as [n Hn]; [left; reflexivity |]. rewrite Hn. simpl.
    destruct (node_in n children); [exists true; reflexivity | exact IH'].
Qed.

Lemma is_loop_index_total (pet : PETGraphX) (var : option string) (lsl : list string)
  (children : list CuNode) :
  targets_have_data pet ->
  exists b, is_loop_index pet var lsl children = Ok b.
Proof.
  intros Hdata. unfold is_loop_index. generalize children at 2.
  intros cs. induction cs as [| c cs IH]; simpl.
  - exists false. reflexivity.
  - destruct (loop_index_edges_total pet lsl children
                (filter (fun e => opt_str_eqb (var_name (e_data e)) var) (raw_out pet c)))
      as [b Hb].
    { intros e He. apply filter_In in He. destruct He as [He _].
      apply in_raw_out in He. destruct He as [He _]. apply Hdata. exact He. }
    rewrite Hb. simpl. destruct b; [exists true; reflexivity | exact IH].
Qed.

(** The test of one edge in [get_all_dependencies] lets the target through
    exactly when the dependence is not excluded. *)
Lemma dependency_of_edge_spec (fuel : nat) (pet : PETGraphX) (root_loop : CuNode)
  (loops cus : list CuNode) (e : Edge) :
  targets_have_data pet ->
  In e (edges (g pet)) ->
  subtree_of_type fuel pet root_loop LOOP = Ok loops ->
  subtree_of_type fuel pet root_loop CU = Ok cus ->
  (exists o, dependency_of_edge fuel pet (map start_position loops) root_loop e = Ok o)
  /\ forall n,
       dependency_of_edge fuel pet (map start_position loops) root_loop e = Ok (Some n)
       <-> excluded fuel pet root_loop (e_data e) = Ok false
           /\ node_at pet (e_tgt e) = Ok n.
Proof.
  intros Hdata He Hl Hc.
  destruct (is_loop_index_total pet (var_name (e_data e)) (map start_position loops) cus Hdata)
    as [a Ha].
  destruct (Hdata e He) as [m Hm].
  unfold dependency_of_edge, excluded, is_readonly_inside_loop_body.
  rewrite Hl, Hc. simpl. rewrite Ha. simpl. rewrite Hm.
  destruct a; simpl.
  - split; [exists None; reflexivity |].
    intros n. split; [discriminate | intros [H _]; discriminate].
  - destruct (existsb (written_at pet (e_data e) (map start_position loops)) cus); simpl.
    + split; [exists (Some m); reflexivity |].
      intros n. split.
      * intros H. inversion H. subst. auto.
      * intros [_ H]. inversion H. subst. reflexivity.
    + split; [exists None; reflexivity |].
      intros n. split; [discriminate | intros [H _]; discriminate].
Qed.


(** The three reads of [loop_with_reads]: the read of the loop index i and
    the read of n, which is read-only in the loop, are left out; the read
    of c is a dependency on the CU 1:2. *)
Example get_all_dependencies_loop_with_reads :
  get_all_dependencies 2 loop_with_reads
    (cu_node "1:3" 3 CU 4 5 false false) (cu_node "1:1" 1 LOOP 1 9 false false)
  = Ok [cu_node "1:2" 2 CU 2 3 false false].
Proof. reflexivity. Qed.

End DependencyFacts.


(** ** Reduction detection (C8) *)

Section ReductionFacts.
Import GraphTool PatternDetection Spec.

Lemma in_gt_out_edges (gr : Graph) (v : Vertex) (e : Edge) :
  In e (GraphTool.out_edges gr v) <-> In e (GraphTool.edges gr) /\ e_source e = v.
Proof.
  unfold GraphTool.out_edges. rewrite filter_In, Nat.eqb_eq. tauto.
Qed.

(** The loop of [get_subtree_of_type] over the out-edges. *)
Lemma gt_gather_spec (F : Vertex -> result (list Vertex)) (es : list Edge)
  (base l : list Vertex) :
  for_each es
    (fun res e =>
       if String.eqb (ep_type e) "child"
       then sub <- F (e_target e) ;; Ok (res ++ sub)
       else Ok res) base
  = Ok l ->
  (forall e, In e es -> ep_type e = "child" -> exists sub, F (e_target e) = Ok sub)
  /\ (forall x, In x l <->
        In x base
        \/ exists e sub,
             In e es /\ ep_type e = "child" /\ F (e_target e) = Ok sub /\ In x sub).
Proof.
  revert base. induction es as [| e es IH]; intros base H.
  - simpl in H. inversion H. subst l. split.
    + intros e [].
    + intros x. split; [auto |]. intros [Hx | [e [sub [[] _]]]]. exact Hx.
  - rewrite for_each_cons in H. apply bind_ok in H. destruct H as [res [Hstep H]].
    destruct (IH _ H) as [IH1 IH2].
    destruct (String.eqb (ep_type e) "child") eqn:E.
    + apply bind_ok in Hstep. destruct Hstep as [sub [Hsub Hstep]].
      inversion Hstep. subst res. clear Hstep.
      apply String.eqb_eq in E. split.
      * intros e0 [He0 | He0] Hty.
        -- subst e0. exists sub. exact Hsub.
        -- apply IH1; assumption.
      * intros x. rewrite IH2, in_app_iff. split.
        -- intros [[Hx | Hx] | [e0 [sub0 [He0 Hrest]]]].
           ++ left. exact Hx.
           ++ right. exists e, sub. repeat split; auto. left. reflexivity.
           ++ right. exists e0, sub0. split; [right; exact He0 | exact Hrest].
        -- intros [Hx | [e0 [sub0 [[He0 | He0] [Hty [Hs0 Hx]]]]]].
           ++ left. left. exact Hx.
           ++ subst e0. rewrite Hsub in Hs0. inversion Hs0. subst sub0.
              left. right. exact Hx.
           ++ right. exists e0, sub0. auto.
    + inversion Hstep. subst res. clear Hstep.
      apply String.eqb_neq in E. split.
      * intros e0 [He0 | He0] Hty.
        -- subst e0. contradiction.
        -- apply IH1; assumption.
      * intros x. rewrite IH2. split.
        -- intros [Hx | [e0 [sub0 [He0 Hrest]]]].
           ++ left. exact Hx.
           ++ right. exists e0, sub0. split; [right; exact He0 | exact Hrest].
        -- intros [Hx | [e0 [sub0 [[He0 | He0] [Hty [Hs0 Hx]]]]]].
           ++ left. exact Hx.
           ++ subst e0. contradiction.
           ++ right. exists e0, sub0. auto.
Qed.

Lemma get_subtree_of_type_spec (fuel : nat) (gr : Graph) (ty : string) :
  forall (root : Vertex) (l : list Vertex),
    get_subtree_of_type fuel gr root ty = Ok l ->
    forall n, In n l <-> gt_reach gr root n /\ (vp_type gr n = ty \/ ty = "*").
Proof.
  induction fuel as [| fuel IH]; intros root l H n; simpl in H.
  - discriminate.
  - apply (gt_gather_spec (fun v => get_subtree_of_type fuel gr v ty)) in H.
    destruct H as [Hall Hmem].
    rewrite Hmem. split.
    + intros [Hbase | [e [sub [He [Hty [Hsub Hn]]]]]].
      * destruct (String.eqb (vp_type gr root) ty || String.eqb ty "*") eqn:E;
          simpl in Hbase; [| destruct Hbase].
        destruct Hbase as [Hbase | []]. subst n. split; [apply gt_reach_self |].
        apply orb_true_iff in E. destruct E as [E | E]; apply String.eqb_eq in E; auto.
      * apply in_gt_out_edges in He. destruct He as [He1 He2].
        apply (IH _ _ Hsub) in Hn. destruct Hn as [Hr Ht]. split; [| exact Ht].
        apply gt_reach_child with (e := e); assumption.
    + intros [Hr Ht]. inversion Hr as [a | a b e He1 He2 He3 Hcb]; subst.
      * left.
        assert (E : String.eqb (vp_type gr n) ty || String.eqb ty "*" = true).
        { apply orb_true_iff. destruct Ht as [Ht | Ht]; [left | right];
            apply String.eqb_eq; exact Ht. }
        rewrite E. left. reflexivity.
      * right.
        assert (He : In e (GraphTool.out_edges gr (e_source e))).
        { apply in_gt_out_edges. auto. }
        destruct (Hall e He He3) as [sub Hsub].
        exists e, sub. repeat split; auto.
        apply (IH _ _ Hsub). auto.
Qed.

Lemma get_subtree_of_type_total (gr : Graph) (rank : Vertex -> nat) (ty : string) :
  gt_child_ranked gr rank ->
  forall (fuel : nat) (root : Vertex),
    rank root < fuel -> exists l, get_subtree_of_type fuel gr root ty = Ok l.
Proof.
  intros Hrank. induction fuel as [| fuel IH]; intros root Hlt.
  - lia.
  - simpl.
    generalize (if String.eqb (vp_type gr root) ty || String.eqb ty "*"
                then [root] else []).
    assert (Hes : forall e, In e (GraphTool.out_edges gr root) -> ep_type e = "child" ->
                   exists sub, get_subtree_of_type fuel gr (e_target e) ty = Ok sub).
    { intros e He Hty. apply in_gt_out_edges in He. destruct He as [He1 He2].
      apply IH. assert (Hlt' : rank (e_target e) < rank (e_source e))
        by (apply Hrank; assumption).
      rewrite He2 in Hlt'. lia. }
    revert Hes. generalize (GraphTool.out_edges gr root).
    induction l as [| e es IHes]; intros Hes base; simpl.
    + exists base. reflexivity.
    + destruct (String.eqb (ep_type e) "child") eqn:E.
      * destruct (Hes e) as [sub Hsub]; [left; reflexivity | apply String.eqb_eq; exact E |].
        rewrite Hsub. simpl. apply IHes. intros e0 He0. apply Hes. right. exact He0.
      * simpl. apply IHes. intros e0 He0. apply Hes. right. exact He0.
Qed.

(** The subtree depends on the edges and the types only. *)
Lemma get_subtree_of_type_ext (gr gr' : Graph) (ty : string) :
  GraphTool.edges gr' = GraphTool.edges gr -> vp_type gr' = vp_type gr ->
  forall (fuel : nat) (root : Vertex),
    get_subtree_of_type fuel gr' root ty = get_subtree_of_type fuel gr root ty.
Proof.
  intros He Ht. induction fuel as [| fuel IH]; intros root; simpl.
  - reflexivity.
  - unfold GraphTool.out_edges. rewrite He, Ht.
    generalize (if String.eqb (vp_type gr root) ty || String.eqb ty "*"
                then [root] else []).
    generalize (filter (fun e => Nat.eqb (e_source e) root) (GraphTool.edges gr)).
    induction l as [| e es IHes]; intros base; simpl.
    + reflexivity.
    + destruct (String.eqb (ep_type e) "child"); simpl.
      * rewrite IH. destruct (get_subtree_of_type fuel gr (e_target e) ty); simpl; auto.
      * apply IHes.
Qed.

Lemma detect_reduction_ext (fuel : nat) (a b : PatternDetector) (root : Vertex) :
  same_reduction_inputs a b ->
  detect_reduction fuel b root = detect_reduction fuel a root.
Proof.
  intros [Hn [He [Ht [Hs [Hl [Hg Hr]]]]]].
  unfold detect_reduction, PatternDetection.is_reduction_var.
  rewrite (get_subtree_of_type_ext (pet a) (pet b) "0" He Ht), Ht, Hs, Hl, Hg, Hr.
  reflexivity.
Qed.

(** [__detect_reduction] answers True exactly for a loop with a reduction
    variable below it. *)
Lemma detect_reduction_spec (fuel : nat) (self : PatternDetector) (root : Vertex) (b : bool) :
  detect_reduction fuel self root = Ok b ->
  vp_type (pet self) root = "2" ->
  (b = true <-> reduction_variable_below self root).
Proof.
  unfold detect_reduction. intros H Hty.
  rewrite Hty in H. simpl in H.
  apply bind_ok in H. destruct H as [cus [Hcus H]]. inversion H. clear H.
  rewrite existsb_exists. unfold reduction_variable_below. split.
  - intros [name_ [Hname Hrv]]. apply in_flat_map in Hname.
    destruct Hname as [c [Hc Hname]].
    apply (get_subtree_of_type_spec _ _ _ _ _ Hcus) in Hc. destruct Hc as [Hreach Hc].
    unfold PatternDetection.is_reduction_var in Hrv. apply existsb_exists in Hrv.
    destruct Hrv as [rv [Hin Hrv]]. apply andb_true_iff in Hrv. destruct Hrv as [Hline Hnm].
    apply String.eqb_eq in Hline. apply String.eqb_eq in Hnm.
    exists c, name_, rv. repeat split; auto.
    destruct Hc as [Hc | Hc]; [exact Hc | discriminate].
  - intros [c [name_ [rv [Hreach [Hc [Hname [Hin [Hline Hnm]]]]]]]].
    exists name_. split.
    + apply in_flat_map. exists c. split; [| exact Hname].
      apply (get_subtree_of_type_spec _ _ _ _ _ Hcus). auto.
    + unfold PatternDetection.is_reduction_var. apply existsb_exists.
      exists rv. split; [exact Hin |].
      apply andb_true_iff. split; apply String.eqb_eq; assumption.
Qed.

Lemma detect_reduction_total (fuel : nat) (self : PatternDetector) (rank : Vertex -> nat)
  (root : Vertex) :
  gt_child_ranked (pet self) rank -> rank root < fuel ->
  exists b, detect_reduction fuel self root = Ok b.
Proof.
  intros Hrank Hlt. unfold detect_reduction.
  destruct (negb (String.eqb (vp_type (pet self) root) "2")); [exists false; reflexivity |].
  destruct (get_subtree_of_type_total (pet self) rank "0" Hrank fuel root Hlt) as [cus Hcus].
  rewrite Hcus. simpl. eexists. reflexivity.
Qed.

(** The pass over a list of loops: the inputs of the test stay, and a flag
    is set after the pass when it was set before or the test answered True
    for its node. *)
Lemma reduction_pass_spec (fuel : nat) (l : list Vertex) :
  forall self0 self self',
    same_reduction_inputs self0 self ->
    for_each l
      (fun self node =>
         r <- detect_reduction fuel self node ;;
         Ok (if r
             then with_pet self
                    (set_vp_reduction (pet self) (upd (vp_reduction (pet self)) node true))
             else self))
      self = Ok self' ->
    same_reduction_inputs self0 self'
    /\ forall v, vp_reduction (pet self') v = true <->
                 vp_reduction (pet self) v = true
                 \/ (In v l /\ detect_reduction fuel self0 v = Ok true).
Proof.
  induction l as [| node l IH]; intros self0 self self' Hsame H.
  - simpl in H. inversion H. subst self'. split; [exact Hsame |].
    intros v. split; [auto |]. intros [Hv | [[] _]]. exact Hv.
  - rewrite for_each_cons in H. apply bind_ok in H. destruct H as [self1 [Hstep H]].
    apply bind_ok in Hstep. destruct Hstep as [r [Hr Hstep]].
    rewrite (detect_reduction_ext fuel self0 self node Hsame) in Hr.
    assert (Hsame1 : same_reduction_inputs self0 self1).
    { destruct r; inversion Hstep; subst self1; [| exact Hsame].
      destruct Hsame as [Hn [He [Ht [Hs [Hl [Hg Hrv]]]]]].
      repeat split; simpl; assumption. }
    destruct (IH self0 self1 self' Hsame1 H) as [Hsame' Hflags].
    split; [exact Hsame' |].
    intros v. rewrite Hflags. clear Hflags IH H.
    destruct r; inversion Hstep; subst self1; clear Hstep.
    + simpl. unfold upd. destruct (Nat.eqb v node) eqn:E.
      * apply Nat.eqb_eq in E. subst v. split.
        -- intros _. right. split; [left; reflexivity | exact Hr].
        -- intros _. left. reflexivity.
      * apply Nat.eqb_neq in E. split.
        -- intros [Hv | [Hin Hd]]; [left; exact Hv | right; split; [right; exact Hin | exact Hd]].
        -- intros [Hv | [[Hin | Hin] Hd]]; [left; exact Hv | | right; auto].
           subst v. contradiction E. reflexivity.
    + split.
      * intros [Hv | [Hin Hd]]; [left; exact Hv | right; split; [right; exact Hin | exact Hd]].
      * intros [Hv | [[Hin | Hin] Hd]]; [left; exact Hv | | right; auto].
        subst v. rewrite Hr in Hd. discriminate.
Qed.

Lemma same_reduction_inputs_refl (self : PatternDetector) : same_reduction_inputs self self.
Proof. repeat split. Qed.

Lemma reduction_pass_total (fuel : nat) (rank : Vertex -> nat) (self0 : PatternDetector)
  (l : list Vertex) :
  gt_child_ranked (pet self0) rank -> (forall v, rank v < fuel) ->
  forall self, same_reduction_inputs self0 self ->
  exists self',
    for_each l
      (fun self node =>
         r <- detect_reduction fuel self node ;;
         Ok (if r
             then with_pet self
                    (set_vp_reduction (pet self) (upd (vp_reduction (pet self)) node true))
             else self))
      self = Ok self'.
Proof.
  intros Hrank Hfuel. induction l as [| node l IH]; intros self Hsame.
  - exists self. reflexivity.
  - rewrite for_each_cons.
    destruct (detect_reduction_total fuel self0 rank node Hrank (Hfuel node)) as [r Hr].
    rewrite (detect_reduction_ext fuel self0 self node Hsame), Hr. simpl.
    apply IH. destruct r; [| exact Hsame].
    destruct Hsame as [Hn [He [Ht [Hs [Hl [Hg Hrv]]]]]].
    repeat split; simpl; assumption.
Qed.

(** C8: on a graph whose child edges form no cycle, reduction detection
    returns, and for every LOOP vertex whose flag was unset when the pass
    started (the flag's default), the flag is set after the pass if and only
    if a variable in the local or global list of a CU of the loop's subtree
    stands in the reduction table with the loop's start line. *)
Theorem C8_reduction_flag (fuel : nat) (self : PatternDetector) (rank : Vertex -> nat) :
  gt_child_ranked (pet self) rank ->
  (forall v, rank v < fuel) ->
  exists self',
    detect_reduction_loop fuel self = Ok self'
    /\ forall v,
         v < num_vertices (pet self) ->
         vp_type (pet self) v = "2" ->
         vp_reduction (pet self) v = false ->
         (vp_reduction (pet self') v = true <-> reduction_variable_below self v).
Proof.
  intros Hrank Hfuel. unfold detect_reduction_loop.
  destruct (reduction_pass_total fuel rank self
              (find_vertex (pet self) (vp_type (pet self)) "2") Hrank Hfuel self
              (same_reduction_inputs_refl self)) as [self' Hpass].
  exists self'. split; [exact Hpass |].
  intros v Hv Hty Hflag.
  destruct (reduction_pass_spec fuel _ self self self' (same_reduction_inputs_refl self) Hpass)
    as [_ Hflags].
  rewrite Hflags, Hflag.
  destruct (detect_reduction_total fuel self rank v Hrank (Hfuel v)) as [b Hb].
  rewrite <- (detect_reduction_spec fuel self v b Hb Hty). split.
  - intros [H | [_ H]]; [discriminate |]. rewrite Hb in H. inversion H. reflexivity.
  - intros H. subst b. right. split; [| exact Hb].
    unfold find_vertex. apply filter_In. split.
    + unfold vertices. apply in_seq. lia.
    + apply String.eqb_eq. exact Hty.
Qed.

End ReductionFacts.

(** On [two_loops_detector] the loop at 1:1 has the reduction variable sum
    below it. *)
Lemma C8_reduction_flag_witness :
  exists self',
    PatternDetection.detect_reduction_loop 2 Examples.two_loops_detector = Ok self'
    /\ forall v,
         v < GraphTool.num_vertices (PatternDetection.pet Examples.two_loops_detector) ->
         GraphTool.vp_type (PatternDetection.pet Examples.two_loops_detector) v = "2" ->
         GraphTool.vp_reduction (PatternDetection.pet Examples.two_loops_detector) v = false ->
         (GraphTool.vp_reduction (PatternDetection.pet self') v = true
          <-> Spec.reduction_variable_below Examples.two_loops_detector v).
Proof.
  apply (C8_reduction_flag 2 Examples.two_loops_detector Examples.two_loops_rank).
  - intros e He Hty. simpl in He.
    destruct He as [He | [He | []]]; subst e; simpl;
      unfold Examples.two_loops_rank; simpl; lia.
  - intros v. unfold Examples.two_loops_rank.
    do 4 (destruct v as [| v]; [simpl; lia |]). simpl. destruct v; lia.
Defined.

(** The flags of the two loops of [two_loops_detector] after the pass. *)
Example reduction_flags_two_loops :
  (self' <- PatternDetection.detect_reduction_loop 2 Examples.two_loops_detector ;;
   Ok (map (GraphTool.vp_reduction (PatternDetection.pet self')) [0; 1; 2; 3]))
  = Ok [true; false; false; false].
Proof. reflexivity. Qed.

(** ** Barrier pairs (C4) *)

Section BarrierPairFacts.
Import GraphTool Spec Examples.

(** C4, counterexample. In [star_barriers] the classification makes the
    children 1, 2 and 3 barriers; no edge joins 2 and 3, yet both are still
    BARRIER after the pass: the search for the partners of 2 and of 3 stops
    at child 1, which has an edge with each. In [linked_barriers] an edge
    joins the barriers 1 and 2, yet both end as BARRIER_WORKER, each paired
    with child 3. Both hold for [__detect_mw_types] (with the [depends] of
    pattern_detection.py) and for [PatternDetector.detect_task_parallelism]. *)
Lemma C4_barrier_pairs_counterexample :
  ((mw <- TaskParallelism.classify_children (PatternDetection.depends 3) star_barriers 0 ;;
    Ok (map mw [1; 2; 3]))
   = Ok ["BARRIER"; "BARRIER"; "BARRIER"]
   /\ linked star_barriers 2 3 = false
   /\ linked star_barriers 3 2 = false
   /\ (gr <- TaskParallelism.detect_mw_types (PatternDetection.depends 3) star_barriers 0 ;;
       Ok (roles 6 gr))
      = Ok ["NONE"; "BARRIER"; "BARRIER"; "BARRIER"; "FORK"; "FORK"]
   /\ (r <- PatternDetection.detect_task_parallelism 3 star_barriers 0 ;;
       Ok (roles 6 (fst r)))
      = Ok ["NONE"; "BARRIER"; "BARRIER"; "BARRIER"; "FORK"; "FORK"])
  /\
  ((mw <- TaskParallelism.classify_children (PatternDetection.depends 3) linked_barriers 0 ;;
    Ok (map mw [1; 2; 3]))
   = Ok ["BARRIER"; "BARRIER"; "BARRIER"]
   /\ linked linked_barriers 1 2 = true
   /\ (gr <- TaskParallelism.detect_mw_types (PatternDetection.depends 3) linked_barriers 0 ;;
       Ok (roles 6 gr))
      = Ok ["NONE"; "BARRIER_WORKER"; "BARRIER_WORKER"; "BARRIER_WORKER"; "FORK"; "FORK"]
   /\ (r <- PatternDetection.detect_task_parallelism 3 linked_barriers 0 ;;
       Ok (roles 6 (fst r)))
      = Ok ["NONE"; "BARRIER_WORKER"; "BARRIER_WORKER"; "BARRIER_WORKER"; "FORK"; "FORK"]).
Proof. repeat split. Qed.

Lemma vertex_in_spec (v : Vertex) (l : list Vertex) : vertex_in v l = true <-> In v l.
Proof.
  unfold vertex_in. rewrite existsb_exists. split.
  - intros [x [Hx E]]. apply Nat.eqb_eq in E. subst x. exact Hx.
  - intros H. exists v. split; [exact H | apply Nat.eqb_refl].
Qed.

Lemma linked_spec (gr : Graph) (a b : Vertex) : linked gr a b = true <-> joined gr a b.
Proof.
  unfold linked, joined. rewrite orb_true_iff, !vertex_in_spec, !in_map_iff. split.
  - intros [[e [Ht He]] | [e [Hs He]]].
    + unfold out_edges in He. apply filter_In in He. destruct He as [He E].
      apply Nat.eqb_eq in E. exists e. split; [exact He | left; auto].
    + unfold in_edges in He. apply filter_In in He. destruct He as [He E].
      apply Nat.eqb_eq in E. exists e. split; [exact He | right; auto].
  - intros [e [He [[Hs Ht] | [Hs Ht]]]].
    + left. exists e. split; [exact Ht |].
      unfold out_edges. apply filter_In. split; [exact He | apply Nat.eqb_eq; exact Hs].
    + right. exists e. split; [exact Hs |].
      unfold in_edges. apply filter_In. split; [exact He | apply Nat.eqb_eq; exact Ht].
Qed.

Lemma joined_sym (gr : Graph) (a b : Vertex) : joined gr a b -> joined gr b a.
Proof. intros [e [He H]]. exists e. split; [exact He | tauto]. Qed.

Lemma linked_sym (gr : Graph) (a b : Vertex) : linked gr a b = linked gr b a.
Proof.
  destruct (linked gr a b) eqn:E1, (linked gr b a) eqn:E2; try reflexivity.
  - apply linked_spec, joined_sym, linked_spec in E1. congruence.
  - apply linked_spec, joined_sym, linked_spec in E2. congruence.
Qed.

Lemma upd_same {A : Type} (m : Vertex -> A) (v : Vertex) (x : A) : upd m v x v = x.
Proof. unfold upd. rewrite Nat.eqb_refl. reflexivity. Qed.

Lemma upd_other {A : Type} (m : Vertex -> A) (v u : Vertex) (x : A) :
  u <> v -> upd m v x u = m u.
Proof. intros H. unfold upd. apply Nat.eqb_neq in H. rewrite H. reflexivity. Qed.

(** *** Soundness of the pairs *)

Lemma pairs_sound_barrier (gr : Graph) (subs : list Vertex) (mw0 mw : Vertex -> string)
  (v : Vertex) :
  pairs_sound gr subs mw0 mw -> mw v = "BARRIER" -> mw0 v = "BARRIER".
Proof.
  intros H Hv. destruct (H v) as [E | [_ [E _]]].
  - rewrite <- E. exact Hv.
  - rewrite E in Hv. discriminate.
Qed.

Lemma barrier_pairs_inner_sound (gr : Graph) (subs : list Vertex) (mw0 : Vertex -> string)
  (n1 : Vertex) :
  In n1 subs -> mw0 n1 = "BARRIER" ->
  forall l st,
    (forall x, In x l -> In x subs) ->
    pairs_sound gr subs mw0 (fst st) ->
    pairs_sound gr subs mw0 (fst (barrier_pairs_inner gr n1 l st)).
Proof.
  intros Hn1 Hb1. induction l as [| n2 l IH]; intros st Hl Hst; simpl.
  - exact Hst.
  - assert (Hl' : forall x, In x l -> In x subs) by (intros x Hx; apply Hl; right; exact Hx).
    destruct (String.eqb (fst st n2) "BARRIER" && negb (Nat.eqb n1 n2)) eqn:E.
    + apply andb_true_iff in E. destruct E as [E2 Ene].
      apply String.eqb_eq in E2. apply negb_true_iff, Nat.eqb_neq in Ene.
      destruct (linked gr n1 n2) eqn:El; [exact Hst |].
      apply IH; [exact Hl' |]. simpl.
      assert (Hb2 : mw0 n2 = "BARRIER") by (apply (pairs_sound_barrier gr subs mw0 (fst st)); assumption).
      intros v. destruct (Nat.eq_dec v n2) as [-> | Hv2].
      * right. rewrite upd_same. repeat split; [exact Hb2 |].
        exists n1. repeat split; auto. rewrite linked_sym. exact El.
      * rewrite upd_other by exact Hv2.
        destruct (Nat.eq_dec v n1) as [-> | Hv1].
        -- right. rewrite upd_same. repeat split; [exact Hb1 |].
           exists n2. repeat split; auto. apply Hl. left. reflexivity.
        -- rewrite upd_other by exact Hv1. apply Hst.
    + apply IH; assumption.
Qed.

Lemma barrier_pairs_outer_sound (gr : Graph) (subs : list Vertex) (mw0 : Vertex -> string) :
  forall l st,
    (forall x, In x l -> In x subs) ->
    pairs_sound gr subs mw0 (fst st) ->
    pairs_sound gr subs mw0
      (fst (fold_left
              (fun st n1 =>
                 if String.eqb (fst st n1) "BARRIER"
                 then barrier_pairs_inner gr n1 subs st
                 else st)
              l st)).
Proof.
  induction l as [| n1 l IH]; intros st Hl Hst; simpl.
  - exact Hst.
  - apply IH; [intros x Hx; apply Hl; right; exact Hx |].
    destruct (String.eqb (fst st n1) "BARRIER") eqn:E; [| exact Hst].
    apply String.eqb_eq in E.
    apply barrier_pairs_inner_sound; auto.
    + apply Hl. left. reflexivity.
    + apply (pairs_sound_barrier gr subs mw0 (fst st)); assumption.
Qed.

Lemma barrier_pairs_sound (gr : Graph) (subs : list Vertex) (mw : Vertex -> string) :
  pairs_sound gr subs mw (fst (barrier_pairs gr subs mw)).
Proof.
  unfold barrier_pairs. apply barrier_pairs_outer_sound; [auto |].
  intros v. left. reflexivity.
Qed.

(** *** Exactly two barriers *)

Lemma only_barriers_sym (subs : list Vertex) (mw : Vertex -> string) (a b : Vertex) :
  only_barriers subs mw a b -> only_barriers subs mw b a.
Proof.
  intros [Ha [Hb [Hne [Hma [Hmb Hrest]]]]].
  repeat split; auto.
Qed.

Lemma paired_sym (mw0 mw : Vertex -> string) (p q : Vertex) :
  paired mw0 mw p q -> paired mw0 mw q p.
Proof. intros H v. rewrite (H v), orb_comm. reflexivity. Qed.

Lemma paired_not_barrier (subs : list Vertex) (mw0 mw : Vertex -> string) (p q x : Vertex) :
  only_barriers subs mw0 p q -> paired mw0 mw p q -> In x subs ->
  String.eqb (mw x) "BARRIER" = false.
Proof.
  intros [_ [_ [_ [_ [_ Hrest]]]]] Hp Hx. rewrite (Hp x).
  destruct (Nat.eqb x p) eqn:E1; [reflexivity |].
  destruct (Nat.eqb x q) eqn:E2; [reflexivity |]. simpl.
  apply String.eqb_neq. apply Hrest; [exact Hx | |]; apply Nat.eqb_neq; assumption.
Qed.

(** Once the two are paired the search for [n1] changes no role. *)
Lemma barrier_pairs_inner_paired (gr : Graph) (subs : list Vertex) (mw0 : Vertex -> string)
  (p q n1 : Vertex) :
  only_barriers subs mw0 p q ->
  forall l st,
    (forall x, In x l -> In x subs) ->
    paired mw0 (fst st) p q ->
    paired mw0 (fst (barrier_pairs_inner gr n1 l st)) p q.
Proof.
  intros Hob. induction l as [| n2 l IH]; intros st Hl Hst; simpl.
  - exact Hst.
  - rewrite (paired_not_barrier subs mw0 (fst st) p q n2 Hob Hst) by (apply Hl; left; reflexivity).
    simpl. apply IH; [intros x Hx; apply Hl; right; exact Hx | exact Hst].
Qed.

(** The search for the partners of [p] from the roles of the
    classification: it pairs [p] with [q] when it meets [q]. *)
Lemma barrier_pairs_inner_first (gr : Graph) (subs : list Vertex) (mw0 : Vertex -> string)
  (p q : Vertex) :
  only_barriers subs mw0 p q -> linked gr p q = false ->
  forall l st,
    (forall x, In x l -> In x subs) ->
    (forall v, fst st v = mw0 v) ->
    (In q l -> paired mw0 (fst (barrier_pairs_inner gr p l st)) p q)
    /\ (~ In q l -> forall v, fst (barrier_pairs_inner gr p l st) v = mw0 v).
Proof.
  intros Hob Hlk. pose proof Hob as [Hp [Hq [Hne [Hmp [Hmq Hrest]]]]].
  induction l as [| n2 l IH]; intros st Hl Hst.
  - simpl. split; [intros [] | intros _; exact Hst].
  - assert (Hl' : forall x, In x l -> In x subs) by (intros x Hx; apply Hl; right; exact Hx).
    simpl. rewrite (Hst n2).
    destruct (Nat.eq_dec n2 q) as [-> | Hn2q].
    + rewrite Hmq. simpl.
      assert (E : Nat.eqb p q = false) by (apply Nat.eqb_neq; exact Hne).
      rewrite E, Hlk. simpl. split.
      * intros _. apply barrier_pairs_inner_paired with (subs := subs); auto.
        simpl. intros v. unfold upd.
        destruct (Nat.eqb v q) eqn:E2; [rewrite orb_true_r; reflexivity |].
        destruct (Nat.eqb v p) eqn:E1; [reflexivity |]. simpl. apply Hst.
      * intros H. contradiction H. left. reflexivity.
    + assert (E : String.eqb (mw0 n2) "BARRIER" && negb (Nat.eqb p n2) = false).
      { destruct (Nat.eq_dec n2 p) as [-> | Hn2p].
        - rewrite Nat.eqb_refl. apply andb_false_r.
        - apply andb_false_iff. left. apply String.eqb_neq. apply Hrest; auto.
          apply Hl. left. reflexivity. }
      rewrite E. destruct (IH st Hl' Hst) as [IH1 IH2]. split.
      * intros [H | H]; [contradiction | apply IH1; exact H].
      * intros H. apply IH2. intros H'. apply H. right. exact H'.
Qed.

Lemma barrier_pairs_outer_paired (gr : Graph) (subs : list Vertex) (mw0 : Vertex -> string)
  (p q : Vertex) :
  only_barriers subs mw0 p q ->
  forall l st,
    (forall x, In x l -> In x subs) ->
    paired mw0 (fst st) p q ->
    paired mw0
      (fst (fold_left
              (fun st n1 =>
                 if String.eqb (fst st n1) "BARRIER"
                 then barrier_pairs_inner gr n1 subs st
                 else st)
              l st)) p q.
Proof.
  intros Hob. induction l as [| n1 l IH]; intros st Hl Hst; simpl.
  - exact Hst.
  - apply IH; [intros x Hx; apply Hl; right; exact Hx |].
    rewrite (paired_not_barrier subs mw0 (fst st) p q n1 Hob Hst) by (apply Hl; left; reflexivity).
    exact Hst.
Qed.

Lemma barrier_pairs_outer_first (gr : Graph) (subs : list Vertex) (mw0 : Vertex -> string)
  (p q : Vertex) :
  only_barriers subs mw0 p q -> linked gr p q = false ->
  forall l st,
    (forall x, In x l -> In x subs) ->
    (forall v, fst st v = mw0 v) ->
    In p l \/ In q l ->
    paired mw0
      (fst (fold_left
              (fun st n1 =>
                 if String.eqb (fst st n1) "BARRIER"
                 then barrier_pairs_inner gr n1 subs st
                 else st)
              l st)) p q.
Proof.
  intros Hob Hlk. pose proof Hob as [Hp [Hq [Hne [Hmp [Hmq Hrest]]]]].
  induction l as [| n1 l IH]; intros st Hl Hst Hin.
  - destruct Hin as [[] | []].
  - assert (Hl' : forall x, In x l -> In x subs) by (intros x Hx; apply Hl; right; exact Hx).
    simpl. rewrite (Hst n1).
    destruct (Nat.eq_dec n1 p) as [-> | Hn1p].
    + rewrite Hmp. simpl.
      apply barrier_pairs_outer_paired with (subs := subs); auto.
      apply (proj1 (barrier_pairs_inner_first gr subs mw0 p q Hob Hlk subs st
                      (fun x Hx => Hx) Hst)).
      exact Hq.
    + destruct (Nat.eq_dec n1 q) as [-> | Hn1q].
      * rewrite Hmq. simpl.
        apply barrier_pairs_outer_paired with (subs := subs); auto.
        apply paired_sym.
        apply (proj1 (barrier_pairs_inner_first gr subs mw0 q p (only_barriers_sym _ _ _ _ Hob)
                        (eq_trans (linked_sym gr q p) Hlk) subs st (fun x Hx => Hx) Hst)).
        exact Hp.
      * assert (E : String.eqb (mw0 n1) "BARRIER" = false).
        { apply String.eqb_neq. apply Hrest; auto. apply Hl. left. reflexivity. }
        rewrite E. apply IH; auto.
        destruct Hin as [[H | H] | [H | H]]; auto; contradiction.
Qed.

(** Two barriers with an edge between them: the search changes nothing. *)
Lemma barrier_pairs_inner_linked (gr : Graph) (subs : list Vertex) (mw0 : Vertex -> string)
  (p q : Vertex) :
  only_barriers subs mw0 p q -> linked gr p q = true ->
  forall l st,
    (forall x, In x l -> In x subs) ->
    (forall v, fst st v = mw0 v) ->
    barrier_pairs_inner gr p l st = st.
Proof.
  intros Hob Hlk. pose proof Hob as [Hp [Hq [Hne [Hmp [Hmq Hrest]]]]].
  induction l as [| n2 l IH]; intros st Hl Hst; simpl.
  - reflexivity.
  - rewrite (Hst n2).
    destruct (Nat.eq_dec n2 q) as [-> | Hn2q].
    + rewrite Hmq. simpl.
      assert (E : Nat.eqb p q = false) by (apply Nat.eqb_neq; exact Hne).
      rewrite E, Hlk. reflexivity.
    + assert (E : String.eqb (mw0 n2) "BARRIER" && negb (Nat.eqb p n2) = false).
      { destruct (Nat.eq_dec n2 p) as [-> | Hn2p].
        - rewrite Nat.eqb_refl. apply andb_false_r.
        - apply andb_false_iff. left. apply String.eqb_neq. apply Hrest; auto.
          apply Hl. left. reflexivity. }
      rewrite E. apply IH; auto. intros x Hx. apply Hl. right. exact Hx.
Qed.

Lemma barrier_pairs_outer_linked (gr : Graph) (subs : list Vertex) (mw0 : Vertex -> string)
  (p q : Vertex) :
  only_barriers subs mw0 p q -> linked gr p q = true ->
  forall l st,
    (forall x, In x l -> In x subs) ->
    (forall v, fst st v = mw0 v) ->
    fold_left
      (fun st n1 =>
         if String.eqb (fst st n1) "BARRIER"
         then barrier_pairs_inner gr n1 subs st
         else st)
      l st = st.
Proof.
  intros Hob Hlk. pose proof Hob as [Hp [Hq [Hne [Hmp [Hmq Hrest]]]]].
  induction l as [| n1 l IH]; intros st Hl Hst; simpl.
  - reflexivity.
  - assert (Hl' : forall x, In x l -> In x subs) by (intros x Hx; apply Hl; right; exact Hx).
    assert (Hstep : (if String.eqb (fst st n1) "BARRIER"
                     then barrier_pairs_inner gr n1 subs st else st) = st).
    { rewrite (Hst n1).
      destruct (Nat.eq_dec n1 p) as [-> | Hn1p].
      - rewrite Hmp. simpl.
        apply (barrier_pairs_inner_linked gr subs mw0 p q Hob Hlk); auto.
      - destruct (Nat.eq_dec n1 q) as [-> | Hn1q].
        + rewrite Hmq. simpl.
          apply (barrier_pairs_inner_linked gr subs mw0 q p (only_barriers_sym _ _ _ _ Hob)
                   (eq_trans (linked_sym gr q p) Hlk)); auto.
        + assert (E : String.eqb (mw0 n1) "BARRIER" = false).
          { apply String.eqb_neq. apply Hrest; auto. apply Hl. left. reflexivity. }
          rewrite E. reflexivity. }
    rewrite Hstep. apply IH; auto.
Qed.

(** C4, amended. After the classification pass of [__detect_mw_types] over
    the children of [main_node], with roles [mw]: the pair search changes a
    role only from BARRIER to BARRIER_WORKER, and only for a child that has
    no edge, of any type and in either direction, with some other child
    classified BARRIER. When exactly two children [a] and [b] are
    classified BARRIER, both become BARRIER_WORKER if no edge joins them and
    both remain BARRIER if one does. *)
Theorem C4_barrier_pairs (depends : Graph -> Vertex -> Vertex -> result bool)
  (gr : Graph) (main_node : Vertex) (mw : Vertex -> string) :
  TaskParallelism.classify_children depends gr main_node = Ok mw ->
  exists gr',
    TaskParallelism.detect_mw_types depends gr main_node = Ok gr'
    /\ pairs_sound gr (find_subnodes gr main_node "child") mw (vp_mwType gr')
    /\ forall a b,
         only_barriers (find_subnodes gr main_node "child") mw a b ->
         (~ joined gr a b ->
          vp_mwType gr' a = "BARRIER_WORKER" /\ vp_mwType gr' b = "BARRIER_WORKER")
         /\ (joined gr a b ->
             vp_mwType gr' a = "BARRIER" /\ vp_mwType gr' b = "BARRIER").
Proof.
  intros Hcls. unfold TaskParallelism.detect_mw_types. rewrite Hcls. simpl.
  eexists. split; [reflexivity |]. simpl. split.
  - apply barrier_pairs_sound.
  - intros a b Hob. pose proof Hob as [Ha [Hb [Hne [Hma [Hmb Hrest]]]]]. split.
    + intros Hnj.
      assert (Hlk : linked gr a b = false).
      { destruct (linked gr a b) eqn:E; [| reflexivity].
        apply linked_spec in E. contradiction. }
      pose proof (barrier_pairs_outer_first gr _ mw a b Hob Hlk
                    (find_subnodes gr main_node "child") (mw, [])
                    (fun x Hx => Hx) (fun v => eq_refl) (or_introl Ha)) as Hp.
      unfold barrier_pairs. split.
      * rewrite (Hp a), Nat.eqb_refl. reflexivity.
      * rewrite (Hp b), Nat.eqb_refl, orb_true_r. reflexivity.
    + intros Hj. apply linked_spec in Hj.
      unfold barrier_pairs.
      rewrite (barrier_pairs_outer_linked gr _ mw a b Hob Hj
                 (find_subnodes gr main_node "child") (mw, [])
                 (fun x Hx => Hx) (fun v => eq_refl)).
      simpl. auto.
Qed.

End BarrierPairFacts.

(** In [two_barriers] the children 1 and 2 are the only barriers and no
    edge joins them: both end as BARRIER_WORKER. *)
Lemma C4_barrier_pairs_witness :
  exists gr',
    TaskParallelism.detect_mw_types (PatternDetection.depends 3) Examples.two_barriers 0 = Ok gr'
    /\ GraphTool.vp_mwType gr' 1 = "BARRIER_WORKER"
    /\ GraphTool.vp_mwType gr' 2 = "BARRIER_WORKER".
Proof.
  destruct (TaskParallelism.classify_children (PatternDetection.depends 3)
              Examples.two_barriers 0) as [mw | e |] eqn:E;
    [| vm_compute in E; discriminate E | vm_compute in E; discriminate E].
  destruct (C4_barrier_pairs (PatternDetection.depends 3) Examples.two_barriers 0 mw E)
    as [gr' [Hd [_ Htwo]]].
  exists gr'. split; [exact Hd |].
  vm_compute in E. injection E as E. subst mw.
  apply (Htwo 1 2).
  - unfold Spec.only_barriers.
    split; [vm_compute; tauto |].
    split; [vm_compute; tauto |].
    split; [discriminate |].
    split; [vm_compute; reflexivity |].
    split; [vm_compute; reflexivity |].
    intros x Hx Hx1 Hx2. vm_compute in Hx.
    destruct Hx as [Hx | [Hx | [Hx | [Hx | []]]]]; subst x.
    + contradiction Hx1. reflexivity.
    + contradiction Hx2. reflexivity.
    + vm_compute. discriminate.
    + vm_compute. discriminate.
  - intros Hj. apply linked_spec in Hj. vm_compute in Hj. discriminate Hj.
Defined.

(** ** The barrier suggestion loop (C9) *)

Section BarrierLoopFacts.
Import GraphTool TaskParallelism Spec Examples.

Lemma finished_bind {A B : Type} (r : result A) (k : A -> result B) :
  finished r = true -> (forall a, r = Ok a -> finished (k a) = true) ->
  finished (Py.bind r k) = true.
Proof.
  destruct r as [a | e |]; simpl; intros H Hk.
  - apply Hk. reflexivity.
  - reflexivity.
  - discriminate.
Qed.

Lemma finished_for_each {A S : Type} (step : S -> A -> result S) (l : list A) :
  (forall s x, finished (step s x) = true) ->
  forall s, finished (for_each l step s) = true.
Proof.
  intros Hstep. induction l as [| x l IH]; intros s; simpl.
  - reflexivity.
  - apply finished_bind; [apply Hstep | intros a _; apply IH].
Qed.

Lemma finished_after_colon (s : string) : finished (after_colon s) = true.
Proof.
  unfold after_colon. apply finished_bind; [| reflexivity].
  induction s as [| c s IH]; simpl.
  - reflexivity.
  - destruct (Ascii.eqb c ":"); [reflexivity |].
    apply finished_bind; [exact IH | reflexivity].
Qed.

Lemma finished_TaskParallelismInfo_init (v : Vertex) (p : list string) (line : string)
  (a b c : list string) :
  finished (TaskParallelismInfo_init v p line a b c) = true.
Proof.
  unfold TaskParallelismInfo_init. apply finished_bind; [| reflexivity].
  destruct (has_colon line); [apply finished_after_colon | reflexivity].
Qed.

Lemma finished_uncovered (gr : Graph) (cts cbs : list Vertex) :
  finished (uncovered_task_exists gr cts cbs) = true.
Proof.
  unfold uncovered_task_exists. apply finished_for_each. intros u ct.
  apply finished_bind; [apply finished_after_colon | intros x _].
  apply finished_bind; [apply finished_after_colon | intros y _].
  apply finished_for_each. intros u' cb.
  apply finished_bind; [apply finished_after_colon | intros z _].
  apply finished_bind; [apply finished_after_colon | intros w _].
  reflexivity.
Qed.

Lemma finished_suggest_barrier (st : BarrierState) (v : Vertex) (line : string) :
  finished (suggest_barrier st v line) = true.
Proof.
  unfold suggest_barrier.
  destruct (String.eqb (vp_viz_contains_taskwait (graph st) v) "False"); [| reflexivity].
  apply finished_bind; [apply finished_TaskParallelismInfo_init | reflexivity].
Qed.

Lemma finished_scan_vertex (task_nodes : list Vertex) (st : BarrierState) (v : Vertex) :
  finished (scan_vertex task_nodes st v) = true.
Proof.
  unfold scan_vertex.
  apply finished_bind; [apply finished_after_colon | intros line _].
  destruct (count_targets task_nodes (barrier_nodes st) _) as [[tc bc] nc].
  destruct (Nat.eqb tc 1 && Nat.eqb bc 0).
  - destruct (String.eqb (vp_viz_omittable (graph st) v) "False"); reflexivity.
  - destruct (negb (Nat.eqb bc 0) && negb (Nat.eqb tc 0)).
    + apply finished_bind; [apply finished_uncovered | intros u _].
      destruct u; [apply finished_suggest_barrier | reflexivity].
    + destruct (negb (Nat.eqb tc 0)); [apply finished_suggest_barrier | reflexivity].
Qed.

Lemma finished_scan (task_nodes : list Vertex) (st : BarrierState) :
  finished (scan task_nodes st) = true.
Proof.
  unfold scan. apply finished_for_each. intros s x. apply finished_scan_vertex.
Qed.

(** *** The marks only go from 'False' to 'True' *)

Lemma count_upd_outside (m : Vertex -> string) (v : nat) (l : list Vertex) :
  ~ In v l ->
  filter (fun u => String.eqb (upd m v "True" u) "False") l
  = filter (fun u => String.eqb (m u) "False") l.
Proof.
  intros Hl. apply filter_ext_in. intros u Hu.
  rewrite upd_other; [reflexivity |]. intros ->. contradiction.
Qed.

Lemma count_upd_inside (m : Vertex -> string) (v : nat) :
  m v = "False" ->
  forall n a, a <= v < a + n ->
    List.length (filter (fun u => String.eqb (upd m v "True" u) "False") (seq a n)) + 1
    = List.length (filter (fun u => String.eqb (m u) "False") (seq a n)).
Proof.
  intros Hm. induction n as [| n IH]; intros a Hv.
  - lia.
  - simpl. destruct (Nat.eq_dec a v) as [-> | Hne].
    + rewrite upd_same, Hm. simpl.
      rewrite count_upd_outside by (rewrite in_seq; lia). lia.
    + rewrite upd_other by exact Hne.
      destruct (String.eqb (m a) "False"); simpl; rewrite <- (IH (S a)) by lia; lia.
Qed.

Lemma count_false_upd (m : Vertex -> string) (v n : nat) :
  m v = "False" -> v < n -> count_false (upd m v "True") n + 1 = count_false m n.
Proof.
  intros Hm Hv. unfold count_false. apply count_upd_inside; [exact Hm | lia].
Qed.

Lemma count_false_le (m : Vertex -> string) (n : nat) : count_false m n <= n.
Proof.
  unfold count_false.
  pose proof (filter_length_le (fun v => String.eqb (m v) "False") (seq 0 n)) as H.
  rewrite length_seq in H. exact H.
Qed.

Lemma flags_kept_refl (gr : Graph) : flags_kept gr gr.
Proof. intros v. auto. Qed.

Lemma flags_kept_trans (a b c : Graph) : flags_kept a b -> flags_kept b c -> flags_kept a c.
Proof.
  intros H1 H2 v. destruct (H1 v) as [A1 [A2 A3]]. destruct (H2 v) as [B1 [B2 B3]]. auto.
Qed.

Lemma grows_trans {A : Type} (a b c : list A) : grows a b -> grows b c -> grows a c.
Proof.
  intros [x Hx] [y Hy]. exists (x ++ y). rewrite Hy, Hx, app_assoc. reflexivity.
Qed.

Lemma progress_trans (a b c : BarrierState) : progress a b -> progress b c -> progress a c.
Proof.
  intros [-> | [Hf1 [Hn1 [Hk1 [Hg1 [Hu1 [v [Hv Hfl]]]]]]]] H2; [exact H2 |].
  destruct H2 as [-> | [Hf2 [Hn2 [Hk2 [Hg2 [Hu2 _]]]]]].
  - right. exact (conj Hf1 (conj Hn1 (conj Hk1 (conj Hg1 (conj Hu1
                   (ex_intro _ v (conj Hv Hfl))))))).
  - right. split; [exact Hf2 |]. split; [congruence |].
    split; [apply flags_kept_trans with (b := graph b); assumption |].
    split; [apply grows_trans with (b := barrier_nodes b); assumption |].
    split; [lia |].
    exists v. split; [exact Hv |].
    destruct (Hk2 v) as [K1 [K2 _]].
    destruct Hfl as [[F1 F2] | [F1 F2]]; [left | right]; auto.
Qed.

Lemma progress_omittable (st : BarrierState) (v : Vertex) :
  v < num_vertices (graph st) ->
  vp_viz_omittable (graph st) v = "False" ->
  progress st
    (mkBarrierState
       (set_vp_viz_omittable (graph st) (upd (vp_viz_omittable (graph st)) v "True"))
       (barrier_nodes st) (suggestions st) true).
Proof.
  intros Hv Hm. right. simpl.
  split; [reflexivity |]. split; [reflexivity |]. split; [| split; [| split]].
  - intros u. split; [| split]; auto.
    intros H. simpl. unfold upd. destruct (Nat.eqb u v); [reflexivity | exact H].
  - exists []. rewrite app_nil_r. reflexivity.
  - unfold unset_flags. simpl.
    pose proof (count_false_upd (vp_viz_omittable (graph st)) v _ Hm Hv). lia.
  - exists v. split; [exact Hv |]. left. split; [exact Hm | apply upd_same].
Qed.

Lemma progress_suggest_barrier (st st' : BarrierState) (v : Vertex) (line : string) :
  v < num_vertices (graph st) ->
  suggest_barrier st v line = Ok st' -> progress st st'.
Proof.
  intros Hv H. unfold suggest_barrier in H.
  destruct (String.eqb (vp_viz_contains_taskwait (graph st) v) "False") eqn:E.
  - apply String.eqb_eq in E. apply bind_ok in H. destruct H as [t [_ H]].
    inversion H. subst st'. clear H. right. simpl.
    split; [reflexivity |]. split; [reflexivity |]. split; [| split; [| split]].
    + intros u. split; [| split]; auto.
      intros H. simpl. unfold upd. destruct (Nat.eqb u v); [reflexivity | exact H].
    + exists [v]. reflexivity.
    + unfold unset_flags. simpl.
      pose proof (count_false_upd (vp_viz_contains_taskwait (graph st)) v _ E Hv). lia.
    + exists v. split; [exact Hv |]. right. split; [exact E | apply upd_same].
  - inversion H. left. reflexivity.
Qed.

Lemma progress_scan_vertex (task_nodes : list Vertex) (st st' : BarrierState) (v : Vertex) :
  v < num_vertices (graph st) ->
  scan_vertex task_nodes st v = Ok st' -> progress st st'.
Proof.
  intros Hv H. unfold scan_vertex in H.
  apply bind_ok in H. destruct H as [line [_ H]].
  destruct (count_targets task_nodes (barrier_nodes st) _) as [[tc bc] nc].
  destruct (Nat.eqb tc 1 && Nat.eqb bc 0).
  - destruct (String.eqb (vp_viz_omittable (graph st) v) "False") eqn:E.
    + apply String.eqb_eq in E. inversion H. apply progress_omittable; assumption.
    + inversion H. left. reflexivity.
  - destruct (negb (Nat.eqb bc 0) && negb (Nat.eqb tc 0)).
    + apply bind_ok in H. destruct H as [u [_ H]]. destruct u.
      * apply progress_suggest_barrier with (v := v) (line := line); assumption.
      * inversion H. left. reflexivity.
    + destruct (negb (Nat.eqb tc 0)).
      * apply progress_suggest_barrier with (v := v) (line := line); assumption.
      * inversion H. left. reflexivity.
Qed.

Lemma progress_num_vertices (a b : BarrierState) :
  progress a b -> num_vertices (graph b) = num_vertices (graph a).
Proof. intros [-> | [_ [H _]]]; [reflexivity | exact H]. Qed.

(** A full scan, from the state with [transformation_happened] lowered. *)
Lemma progress_scan (task_nodes : list Vertex) (st st' : BarrierState) :
  scan task_nodes st = Ok st' ->
  progress (mkBarrierState (graph st) (barrier_nodes st) (suggestions st) false) st'.
Proof.
  unfold scan.
  set (st0 := mkBarrierState (graph st) (barrier_nodes st) (suggestions st) false).
  apply (for_each_invariant (scan_vertex task_nodes) (progress st0)).
  - intros s v s' Hv Hs Hstep.
    apply progress_trans with (b := s); [exact Hs |].
    apply (progress_scan_vertex task_nodes s s' v); [| exact Hstep].
    rewrite (progress_num_vertices st0 s Hs). simpl.
    unfold vertices in Hv. apply in_seq in Hv. simpl in Hv. lia.
  - left. reflexivity.
Qed.

(** With more fuel than marks left to set, the loop comes to an end. *)
Lemma barrier_loop_finishes (task_nodes : list Vertex) :
  forall (fuel : nat) (st : BarrierState),
    unset_flags (graph st) < fuel ->
    finished (barrier_loop fuel task_nodes st) = true.
Proof.
  induction fuel as [| fuel IH]; intros st Hlt.
  - lia.
  - simpl. apply finished_bind; [apply finished_scan |].
    intros st' Hscan. destruct (transformation_happened st') eqn:E; [| reflexivity].
    apply IH. apply progress_scan in Hscan.
    destruct Hscan as [-> | [_ [_ [_ [_ [Hu _]]]]]].
    + simpl in E. discriminate.
    + simpl in Hu. lia.
Qed.

Lemma finished_split_suggestions (l : list Suggestion) :
  finished (split_suggestions l) = true.
Proof.
  induction l as [| [s | r] l IH]; simpl.
  - reflexivity.
  - destruct (pragma s); [reflexivity |].
    apply finished_bind; [exact IH | reflexivity].
  - exact IH.
Qed.

Lemma num_vertices_barrier_start (gr : Graph) (l : list Suggestion)
  (sp : list TaskParallelismInfo * list TaskParallelismInfo) :
  num_vertices (graph (barrier_start gr l sp)) = num_vertices gr.
Proof.
  unfold barrier_start. simpl.
  assert (H1 : forall ts g0,
            num_vertices
              (fold_left (fun g1 s => set_vp_viz_contains_task g1
                                        (upd (vp_viz_contains_task g1) (tp_node s) "True"))
                         ts g0) = num_vertices g0).
  { induction ts as [| t ts IH]; intros g0; simpl; [reflexivity | rewrite IH; reflexivity]. }
  assert (H2 : forall ts g0,
            num_vertices
              (fold_left (fun g1 s => set_vp_viz_contains_taskwait g1
                                        (upd (vp_viz_contains_taskwait g1) (tp_node s) "True"))
                         ts g0) = num_vertices g0).
  { induction ts as [| t ts IH]; intros g0; simpl; [reflexivity | rewrite IH; reflexivity]. }
  rewrite H2, H1. reflexivity.
Qed.

(** *** On well-formed lines the loop returns *)

Lemma after_colon_ok (s : string) :
  has_colon s = true -> exists r, after_colon s = Ok r.
Proof.
  unfold has_colon, after_colon. destruct (index_colon s) as [i | e |]; simpl.
  - intros _. eexists. reflexivity.
  - discriminate.
  - discriminate.
Qed.

Lemma TaskParallelismInfo_init_ok (v : Vertex) (p : list string) (line : string)
  (a b c : list string) :
  exists t, TaskParallelismInfo_init v p line a b c = Ok t.
Proof.
  unfold TaskParallelismInfo_init. destruct (has_colon line) eqn:E.
  - destruct (after_colon_ok line E) as [r Hr]. rewrite Hr. simpl. eexists. reflexivity.
  - simpl. eexists. reflexivity.
Qed.

Lemma uncovered_task_exists_ok (gr : Graph) (cts cbs : list Vertex) :
  (forall v, In v cts -> lined gr v) -> (forall v, In v cbs -> lined gr v) ->
  exists b, uncovered_task_exists gr cts cbs = Ok b.
Proof.
  intros Hcts Hcbs. unfold uncovered_task_exists.
  destruct (for_each_total
              (fun uncovered ct =>
                 ct_start_line <- after_colon (vp_startsAtLine gr ct) ;;
                 ct_end_line <- after_colon (vp_endsAtLine gr ct) ;;
                 for_each cbs
                   (fun uncovered cb =>
                      cb_start_line <- after_colon (vp_startsAtLine gr cb) ;;
                      cb_end_line <- after_colon (vp_endsAtLine gr cb) ;;
                      Ok (if negb (str_gt cb_start_line ct_start_line
                                   && str_gt cb_end_line ct_end_line)
                          then true else uncovered))
                   uncovered)
              (fun _ => True) cts) with (s := false) as [r [Hr _]]; auto.
  - intros u ct Hct _.
    destruct (after_colon_ok _ (proj1 (Hcts ct Hct))) as [x Hx]. rewrite Hx.
    destruct (after_colon_ok _ (proj2 (Hcts ct Hct))) as [y Hy]. rewrite Hy. simpl.
    destruct (for_each_total
                (fun uncovered cb =>
                   cb_start_line <- after_colon (vp_startsAtLine gr cb) ;;
                   cb_end_line <- after_colon (vp_endsAtLine gr cb) ;;
                   Ok (if negb (str_gt cb_start_line x && str_gt cb_end_line y)
                       then true else uncovered))
                (fun _ => True) cbs) with (s := u) as [r [Hr _]]; auto.
    + intros u' cb Hcb _.
      destruct (after_colon_ok _ (proj1 (Hcbs cb Hcb))) as [z Hz]. rewrite Hz.
      destruct (after_colon_ok _ (proj2 (Hcbs cb Hcb))) as [w Hw]. rewrite Hw. simpl.
      eexists. split; [reflexivity | exact I].
    + exists r. split; [exact Hr | exact I].
  - exists r. exact Hr.
Qed.

Lemma suggest_barrier_ok (gr : Graph) (st : BarrierState) (v : Vertex) (line : string) :
  lines_of gr st ->
  exists st', suggest_barrier st v line = Ok st' /\ lines_of gr st'.
Proof.
  intros Hl. unfold suggest_barrier.
  destruct (String.eqb (vp_viz_contains_taskwait (graph st) v) "False").
  - destruct (TaskParallelismInfo_init_ok v ["taskwait"] line [] [] []) as [t Ht].
    rewrite Ht. simpl. eexists. split; [reflexivity | exact Hl].
  - exists st. split; [reflexivity | exact Hl].
Qed.

Lemma lined_targets (gr : Graph) (v : Vertex) (f : Edge -> bool) :
  well_positioned gr ->
  forall u,
    In u (map e_target
              (filter f (filter (fun e => String.eqb (ep_type e) "dependence")
                                (out_edges gr v)))) ->
    lined gr u.
Proof.
  intros Hwp u Hu. apply in_map_iff in Hu. destruct Hu as [e [Ht He]].
  apply filter_In in He. destruct He as [He _].
  apply filter_In in He. destruct He as [He _].
  unfold out_edges in He. apply filter_In in He. destruct He as [He _].
  apply Hwp. right. exists e. auto.
Qed.

Lemma scan_vertex_ok (gr : Graph) (task_nodes : list Vertex) (st : BarrierState) (v : Vertex) :
  well_positioned gr -> lines_of gr st -> v < num_vertices gr ->
  exists st', scan_vertex task_nodes st v = Ok st' /\ lines_of gr st'.
Proof.
  intros Hwp Hl Hv. unfold scan_vertex.
  assert (Hwp' : well_positioned (graph st)).
  { destruct Hl as [H0 [H1 [H2 H3]]]. intros u. unfold lined.
    rewrite H0, H1, H2, H3. apply Hwp. }
  assert (Hv' : v < num_vertices (graph st)) by (destruct Hl as [H0 _]; rewrite H0; exact Hv).
  destruct (after_colon_ok _ (proj1 (Hwp' v (or_introl Hv')))) as [line Hline].
  rewrite Hline. simpl.
  destruct (count_targets task_nodes (barrier_nodes st) _) as [[tc bc] nc].
  destruct (Nat.eqb tc 1 && Nat.eqb bc 0).
  - destruct (String.eqb (vp_viz_omittable (graph st) v) "False").
    + eexists. split; [reflexivity | exact Hl].
    + exists st. split; [reflexivity | exact Hl].
  - destruct (negb (Nat.eqb bc 0) && negb (Nat.eqb tc 0)).
    + match goal with
      | |- context [uncovered_task_exists ?g ?a ?b] =>
          destruct (uncovered_task_exists_ok g a b
                      (lined_targets (graph st) v _ Hwp')
                      (lined_targets (graph st) v _ Hwp')) as [u Hu];
          rewrite Hu
      end.
      simpl. destruct u; [apply suggest_barrier_ok; exact Hl |].
      exists st. split; [reflexivity | exact Hl].
    + destruct (negb (Nat.eqb tc 0)); [apply suggest_barrier_ok; exact Hl |].
      exists st. split; [reflexivity | exact Hl].
Qed.

Lemma scan_ok (gr : Graph) (task_nodes : list Vertex) (st : BarrierState) :
  well_positioned gr -> lines_of gr st ->
  exists st', scan task_nodes st = Ok st' /\ lines_of gr st'.
Proof.
  intros Hwp Hl. unfold scan.
  apply (for_each_total (scan_vertex task_nodes) (lines_of gr)).
  - intros s v Hv Hs. apply scan_vertex_ok; try assumption.
    unfold vertices in Hv. apply in_seq in Hv. destruct Hl as [H0 _]. simpl in Hv. lia.
  - destruct Hl as [H0 [H1 [H2 H3]]]. repeat split; assumption.
Qed.

Lemma barrier_loop_ok (gr : Graph) (task_nodes : list Vertex) :
  well_positioned gr ->
  forall (fuel : nat) (st : BarrierState),
    lines_of gr st ->
    unset_flags (graph st) < fuel ->
    exists st', barrier_loop fuel task_nodes st = Ok st'.
Proof.
  intros Hwp. induction fuel as [| fuel IH]; intros st Hl Hlt.
  - lia.
  - simpl. destruct (scan_ok gr task_nodes st Hwp Hl) as [st' [Hscan Hl']].
    rewrite Hscan. simpl.
    destruct (transformation_happened st') eqn:E; [| exists st'; reflexivity].
    apply IH; [exact Hl' |].
    apply progress_scan in Hscan.
    destruct Hscan as [-> | [_ [_ [_ [_ [Hu _]]]]]].
    + simpl in E. discriminate.
    + simpl in Hu. lia.
Qed.

Lemma split_suggestions_ok (l : list Suggestion) :
  with_pragmas l -> exists sp, split_suggestions l = Ok sp.
Proof.
  induction l as [| [s | r] l IH]; intros H; simpl.
  - eexists. reflexivity.
  - destruct (pragma s) as [| p0 ps] eqn:E.
    + exfalso. apply (H s); [left; reflexivity | exact E].
    + destruct IH as [sp Hsp]; [intros s' Hs'; apply H; right; exact Hs' |].
      rewrite Hsp. simpl. eexists. reflexivity.
  - apply IH. intros s' Hs'. apply H. right. exact Hs'.
Qed.

Lemma lines_of_barrier_start (gr : Graph) (l : list Suggestion)
  (sp : list TaskParallelismInfo * list TaskParallelismInfo) :
  lines_of gr (barrier_start gr l sp).
Proof.
  unfold barrier_start, lines_of. simpl.
  assert (H1 : forall ts g0,
            lines_of g0
              (mkBarrierState
                 (fold_left
                    (fun g1 s => set_vp_viz_contains_task g1
                                   (upd (vp_viz_contains_task g1) (tp_node s) "True"))
                    ts g0) [] [] true)).
  { induction ts as [| t ts IH]; intros g0; simpl; [repeat split |].
    destruct (IH (set_vp_viz_contains_task g0
                    (upd (vp_viz_contains_task g0) (tp_node t) "True")))
      as [A [B [C D]]].
    repeat split; assumption. }
  assert (H2 : forall ts g0,
            lines_of g0
              (mkBarrierState
                 (fold_left
                    (fun g1 s => set_vp_viz_contains_taskwait g1
                                   (upd (vp_viz_contains_taskwait g1) (tp_node s) "True"))
                    ts g0) [] [] true)).
  { induction ts as [| t ts IH]; intros g0; simpl; [repeat split |].
    destruct (IH (set_vp_viz_contains_taskwait g0
                    (upd (vp_viz_contains_taskwait g0) (tp_node t) "True")))
      as [A [B [C D]]].
    repeat split; assumption. }
  destruct (H2 (fst sp)
              (fold_left
                 (fun g1 s => set_vp_viz_contains_task g1
                                (upd (vp_viz_contains_task g1) (tp_node s) "True"))
                 (snd sp) gr)) as [A [B [C D]]].
  destruct (H1 (snd sp) gr) as [A' [B' [C' D']]].
  simpl in *. repeat split; congruence.
Qed.

(** C9: [__detect_barrier_suggestions] comes to an end on every graph and
    every list of suggestions, cyclic dependences or not, within
    2 * |V| + 1 scans, and it returns (no exception) when every line has the
    form file:line and every suggestion has a pragma. Every scan comes to an
    end; when it returns, no mark that was 'True' has changed and the
    barrier nodes are the earlier ones with new ones added; if it raised
    [transformation_happened], a mark of some vertex went from 'False' to
    'True'; if it did not, the graph, the barrier nodes and the suggestions
    are as before the scan and the loop returns. *)
Theorem C9_barrier_loop_terminates (gr : Graph) (suggestions_ : list Suggestion)
  (more_fuel : nat) (task_nodes : list Vertex) (st : BarrierState) :
  finished (detect_barrier_suggestions (2 * num_vertices gr + 1 + more_fuel) gr suggestions_)
  = true
  /\ (well_positioned gr -> with_pragmas suggestions_ ->
      is_ok (detect_barrier_suggestions (2 * num_vertices gr + 1 + more_fuel) gr suggestions_)
      = true)
  /\ finished (scan task_nodes st) = true
  /\ forall st',
       scan task_nodes st = Ok st' ->
       flags_kept (graph st) (graph st')
       /\ grows (barrier_nodes st) (barrier_nodes st')
       /\ (transformation_happened st' = true ->
           unset_flags (graph st') < unset_flags (graph st)
           /\ exists v, v < num_vertices (graph st) /\ flipped (graph st) (graph st') v)
       /\ (transformation_happened st' = false ->
           graph st' = graph st
           /\ barrier_nodes st' = barrier_nodes st
           /\ suggestions st' = suggestions st
           /\ forall fuel, barrier_loop (S fuel) task_nodes st = Ok st').
Proof.
  assert (Hfuel : forall sp,
            unset_flags (graph (barrier_start gr suggestions_ sp))
            < 2 * num_vertices gr + 1 + more_fuel).
  { intros sp. unfold unset_flags. rewrite num_vertices_barrier_start.
    pose proof (count_false_le (vp_viz_omittable (graph (barrier_start gr suggestions_ sp)))
                  (num_vertices gr)).
    pose proof (count_false_le
                  (vp_viz_contains_taskwait (graph (barrier_start gr suggestions_ sp)))
                  (num_vertices gr)).
    lia. }
  split; [| split; [| split]].
  - unfold detect_barrier_suggestions.
    apply finished_bind; [apply finished_split_suggestions | intros sp _].
    apply finished_bind; [| reflexivity].
    apply barrier_loop_finishes. apply Hfuel.
  - intros Hwp Hpr. unfold detect_barrier_suggestions.
    destruct (split_suggestions_ok suggestions_ Hpr) as [sp Hsp]. rewrite Hsp.
    cbv beta iota delta [Py.bind].
    destruct (barrier_loop_ok gr (map tp_node (snd sp)) Hwp
                (2 * num_vertices gr + 1 + more_fuel) (barrier_start gr suggestions_ sp)
                (lines_of_barrier_start gr suggestions_ sp) (Hfuel sp)) as [st1 Hst1].
    rewrite Hst1. reflexivity.
  - apply finished_scan.
  - intros st' Hscan. pose proof (progress_scan task_nodes st st' Hscan) as Hp.
    destruct Hp as [-> | [Hf [Hn [Hk [Hg [Hu Hv]]]]]]; simpl.
    + split; [apply flags_kept_refl |].
      split; [exists []; rewrite app_nil_r; reflexivity |].
      split; [discriminate |].
      intros _. repeat split. intros fuel. simpl. rewrite Hscan. reflexivity.
    + simpl in *. split; [exact Hk |]. split; [exact Hg |].
      split; [intros _; split; assumption |].
      intros H. rewrite H in Hf. discriminate.
Qed.

(** The loop on the cyclic graph [cyclic_deps] with the task suggested at
    vertex 3: two scans; the vertices 0 and 1 become omittable, no taskwait
    is added. *)
Example barrier_loop_cyclic_deps :
  (r <- detect_barrier_suggestions 9 cyclic_deps task_at_3 ;;
   Ok (map (vp_viz_omittable (fst r)) [0; 1; 2; 3],
       map (vp_viz_contains_taskwait (fst r)) [0; 1; 2; 3],
       List.length (snd r)))
  = Ok (["True"; "True"; "False"; "False"], ["False"; "False"; "False"; "False"], 1).
Proof. reflexivity. Qed.

End BarrierLoopFacts.

(** The loop on [cyclic_deps] comes to an end with the fuel of the bound,
    and returns. *)
Lemma C9_barrier_loop_terminates_witness :
  finished (TaskParallelism.detect_barrier_suggestions 9 Examples.cyclic_deps Examples.task_at_3)
  = true
  /\ is_ok (TaskParallelism.detect_barrier_suggestions 9 Examples.cyclic_deps Examples.task_at_3)
     = true.
Proof.
  pose proof (C9_barrier_loop_terminates Examples.cyclic_deps Examples.task_at_3 0 []
                (TaskParallelism.mkBarrierState Examples.cyclic_deps [] [] true))
    as [Hfin [Hok _]].
  split; [exact Hfin |].
  apply Hok.
  - intros v [Hv | [e [He Ht]]].
    + simpl in Hv. do 4 (destruct v as [| v]; [split; reflexivity |]). lia.
    + simpl in He.
      repeat (destruct He as [He | He]; [subst e; subst v; split; reflexivity |]).
      destruct He.
  - intros s [Hs | []]. inversion Hs. discriminate.
Defined.

(** ** What the passes of [detect_patterns] write (C6) *)

Section FrameFacts.
Import GraphTool PatternDetection Spec Examples.

(** C6, counterexample: [detect_patterns] on the function with a CU child
    and a dummy child returns a graph without the CHILD edge to the dummy:
    the edge set has changed. *)
Lemma C6_merge_removes_edges :
  edges (pet func_with_dummy_detector) = [gt_child 0 1; gt_child 0 2]
  /\ (r <- detect_patterns 2 func_with_dummy_detector ;; Ok (edges (pet r)))
     = Ok [gt_child 0 1].
Proof. split; reflexivity. Qed.

Lemma static_eq_refl (g0 : Graph) : static_eq g0 g0.
Proof. repeat split. Qed.

Lemma static_eq_trans (a b c : Graph) : static_eq a b -> static_eq b c -> static_eq a c.
Proof.
  unfold static_eq. intros H1 H2.
  destruct H1 as [A1 [A2 [A3 [A4 [A5 [A6 [A7 [A8 [A9 [A10 A11]]]]]]]]]].
  destruct H2 as [B1 [B2 [B3 [B4 [B5 [B6 [B7 [B8 [B9 [B10 B11]]]]]]]]]].
  repeat split; congruence.
Qed.

Lemma writes_at_most_refl (f : Flag) (a : PatternDetector) : writes_at_most f a a.
Proof.
  split; [apply static_eq_refl |]. split; [reflexivity |].
  split; [repeat split |]. split; [reflexivity |].
  intros f' _. destruct f'; reflexivity.
Qed.

(** Writing the flag [f] of the graph keeps [writes_at_most f]. *)
Ltac frame_after_write :=
  match goal with
  | H : writes_at_most _ _ _ |- writes_at_most _ _ _ =>
      destruct H as [Hs [He [Ht [Hc Hf]]]];
      split; [exact Hs |]; split; [exact He |]; split; [exact Ht |];
      split; [exact Hc |];
      let f' := fresh "f'" in
      let Hne := fresh "Hne" in
      intros f' Hne; specialize (Hf f' Hne);
      destruct f'; simpl in *; try exact Hf; contradiction Hne; reflexivity
  end.

Lemma write_pipeline (a s : PatternDetector) (m : Vertex -> float) :
  writes_at_most Pipeline a s ->
  writes_at_most Pipeline a (with_pet s (set_vp_pipeline (pet s) m)).
Proof. intros H. frame_after_write. Qed.

Lemma write_reduction (a s : PatternDetector) (m : Vertex -> bool) :
  writes_at_most Reduction a s ->
  writes_at_most Reduction a (with_pet s (set_vp_reduction (pet s) m)).
Proof. intros H. frame_after_write. Qed.

Lemma write_doAll (a s : PatternDetector) (m : Vertex -> bool) :
  writes_at_most DoAll a s ->
  writes_at_most DoAll a (with_pet s (set_vp_doAll (pet s) m)).
Proof. intros H. frame_after_write. Qed.

Lemma write_mwType (a s : PatternDetector) (m : Vertex -> string) :
  writes_at_most MwType a s ->
  writes_at_most MwType a (with_pet s (set_vp_mwType (pet s) m)).
Proof. intros H. frame_after_write. Qed.

Lemma write_geomDecomp (a s : PatternDetector) (m : Vertex -> bool) :
  writes_at_most GeomDecomp a s ->
  writes_at_most GeomDecomp a (with_pet s (set_vp_geomDecomp (pet s) m)).
Proof. intros H. frame_after_write. Qed.

Lemma write_cache (a s : PatternDetector) (c : list (Vertex * Z)) :
  writes_at_most GeomDecomp a s ->
  writes_at_most GeomDecomp a (with_loop_iterations s c).
Proof.
  intros [Hs [He [Ht [Hc Hf]]]].
  split; [exact Hs |]. split; [exact He |]. split; [exact Ht |].
  split; [intros H; contradiction H; reflexivity | exact Hf].
Qed.

(** *** The five passes *)

Lemma detect_pipeline_graph (fuel : nat) (gr : Graph) (root : Vertex) (r : Graph * num) :
  detect_pipeline fuel gr root = Ok r ->
  fst r = gr \/ exists m, fst r = set_vp_pipeline gr m.
Proof.
  unfold detect_pipeline. intros H.
  match type of H with
  | (if ?c then _ else _) = _ => destruct c
  end.
  - inversion H. right. eexists. reflexivity.
  - apply bind_ok in H. destruct H as [gv [_ H]].
    apply bind_ok in H. destruct H as [mw [_ H]].
    destruct (num_eq mw (PyInt 1)); inversion H; left; reflexivity.
Qed.

Lemma frame_pipeline (fuel : nat) (a b : PatternDetector) :
  detect_pipeline_loop fuel a = Ok b -> writes_at_most Pipeline a b.
Proof.
  unfold detect_pipeline_loop.
  apply (for_each_invariant _ (writes_at_most Pipeline a)); [| apply writes_at_most_refl].
  intros s node s' _ Hs H.
  apply bind_ok in H. destruct H as [r [Hr H]]. inversion H. clear H.
  destruct (detect_pipeline_graph fuel (pet s) node r Hr) as [E | [m E]]; rewrite E.
  - apply write_pipeline. exact Hs.
  - apply (write_pipeline a (with_pet s (set_vp_pipeline (pet s) m))).
    apply write_pipeline. exact Hs.
Qed.

Lemma frame_reduction (fuel : nat) (a b : PatternDetector) :
  detect_reduction_loop fuel a = Ok b -> writes_at_most Reduction a b.
Proof.
  unfold detect_reduction_loop.
  apply (for_each_invariant _ (writes_at_most Reduction a)); [| apply writes_at_most_refl].
  intros s node s' _ Hs H.
  apply bind_ok in H. destruct H as [r [_ H]]. inversion H. clear H.
  destruct r; [apply write_reduction |]; exact Hs.
Qed.

Lemma frame_do_all (fuel : nat) (a b : PatternDetector) :
  detect_do_all_loop fuel a = Ok b -> writes_at_most DoAll a b.
Proof.
  unfold detect_do_all_loop.
  apply (for_each_invariant _ (writes_at_most DoAll a)); [| apply writes_at_most_refl].
  intros s node s' _ Hs H.
  apply bind_ok in H. destruct H as [r [_ H]]. inversion H. clear H.
  destruct (PrimFloat.ltb (do_all_threshold s) (to_float r)); [apply write_doAll |]; exact Hs.
Qed.

Lemma frame_task_parallelism (fuel : nat) (a b : PatternDetector) :
  detect_task_parallelism_loop fuel a = Ok b -> writes_at_most MwType a b.
Proof.
  unfold detect_task_parallelism_loop.
  apply (for_each_invariant _ (writes_at_most MwType a)); [| apply writes_at_most_refl].
  intros s node s' _ Hs H.
  destruct (String.eqb (vp_type (pet s) node) "3"); [inversion H; subst; exact Hs |].
  apply bind_ok in H. destruct H as [gr1 [Hg H]]. inversion H. clear H.
  assert (Hgr1 : gr1 = pet s \/ exists m, gr1 = set_vp_mwType (pet s) m).
  { destruct (find_subnodes (pet s) node "child").
    - inversion Hg. left. reflexivity.
    - apply bind_ok in Hg. destruct Hg as [r [Hr Hg]]. inversion Hg.
      unfold detect_task_parallelism in Hr.
      apply bind_ok in Hr. destruct Hr as [mw [_ Hr]]. inversion Hr.
      right. eexists. reflexivity. }
  destruct Hgr1 as [E | [m E]]; rewrite E.
  - destruct (String.eqb (vp_mwType (pet s) node) "NONE").
    + apply write_mwType. exact Hs.
    + destruct s; exact Hs.
  - destruct (String.eqb (vp_mwType (set_vp_mwType (pet s) m) node) "NONE").
    + apply (write_mwType a (with_pet s (set_vp_mwType (pet s) m))).
      apply write_mwType. exact Hs.
    + apply write_mwType. exact Hs.
Qed.

Lemma iterations_count_frame (fuel : nat) (a s : PatternDetector) (node : Vertex)
  (r : PatternDetector * Z) :
  writes_at_most GeomDecomp a s ->
  iterations_count fuel s node = Ok r -> writes_at_most GeomDecomp a (fst r).
Proof.
  intros Hs H. unfold iterations_count in H.
  destruct (cache_get (loop_iterations s) node).
  - inversion H. exact Hs.
  - apply bind_ok in H. destruct H as [p [_ H]]. inversion H. simpl.
    apply write_cache. exact Hs.
Qed.

Lemma test_chunk_limit_frame (fuel : nat) (a s : PatternDetector) (node : Vertex)
  (r : PatternDetector * bool) :
  writes_at_most GeomDecomp a s ->
  test_chunk_limit fuel s node = Ok r -> writes_at_most GeomDecomp a (fst r).
Proof.
  intros Hs H. unfold test_chunk_limit in H.
  apply bind_ok in H. destruct H as [st [Hst H]]. inversion H. simpl. clear H.
  revert Hst.
  apply (for_each_invariant _ (fun st => writes_at_most GeomDecomp a (fst st))); [| exact Hs].
  intros st0 child st1 _ H0 Hstep.
  apply bind_ok in Hstep. destruct Hstep as [c [Hc Hstep]]. inversion Hstep. simpl.
  apply (iterations_count_frame fuel a (fst st0) child c H0 Hc).
Qed.

Lemma frame_geometric_decomposition (fuel : nat) (a b : PatternDetector) :
  detect_geometric_decomposition_loop fuel a = Ok b -> writes_at_most GeomDecomp a b.
Proof.
  unfold detect_geometric_decomposition_loop.
  apply (for_each_invariant _ (writes_at_most GeomDecomp a)); [| apply writes_at_most_refl].
  intros s node s' _ Hs H.
  apply bind_ok in H. destruct H as [val [_ H]]. destruct val.
  - apply bind_ok in H. destruct H as [r [Hr H]]. inversion H.
    apply (test_chunk_limit_frame fuel a _ node r (write_geomDecomp a s _ Hs) Hr).
  - inversion H. subst. exact Hs.
Qed.

(** *** The merge step *)

Lemma filter_twice {A : Type} (f h : A -> bool) (l : list A) :
  filter f (filter h l) = filter (fun x => h x && f x) l.
Proof.
  induction l as [| x l IH]; simpl.
  - reflexivity.
  - destruct (h x); simpl; [destruct (f x) |]; rewrite IH; reflexivity.
Qed.

Lemma filter_all {A : Type} (f : A -> bool) (l : list A) :
  (forall x, In x l -> f x = true) -> filter f l = l.
Proof.
  induction l as [| x l IH]; intros H; simpl.
  - reflexivity.
  - rewrite (H x) by (left; reflexivity). rewrite IH; [reflexivity |].
    intros y Hy. apply H. right. exact Hy.
Qed.

Lemma merge_node_graph (gr : Graph) (node : Vertex) :
  exists es,
    merge_node false true gr node = set_edges gr es
    /\ es = filter (fun e => negb (child_to_dummy_from (vp_type gr) [node] e)) (edges gr).
Proof.
  unfold merge_node. simpl.
  destruct (String.eqb (vp_type gr node) "3") eqn:E.
  - exists (edges gr). split; [destruct gr; reflexivity |].
    symmetry. apply filter_all.
    intros e _. unfold child_to_dummy_from, vertex_in. simpl.
    destruct (Nat.eqb (e_source e) node) eqn:En; [| reflexivity].
    apply Nat.eqb_eq in En. rewrite En, E. reflexivity.
  - eexists. split; [reflexivity |].
    apply filter_ext. intros e. unfold child_to_dummy_from, vertex_in. simpl.
    destruct (Nat.eqb (e_source e) node) eqn:En; [| reflexivity].
    apply Nat.eqb_eq in En. rewrite En, E. reflexivity.
Qed.

Lemma merge_fold_graph (l : list Vertex) :
  forall gr,
    fold_left (merge_node false true) l gr
    = set_edges gr
        (filter (fun e => negb (child_to_dummy_from (vp_type gr) l e)) (edges gr)).
Proof.
  induction l as [| node l IH]; intros gr; simpl.
  - rewrite filter_all by reflexivity. destruct gr. reflexivity.
  - destruct (merge_node_graph gr node) as [es [Hm Hes]].
    rewrite Hm, IH. unfold set_edges. simpl. f_equal.
    rewrite Hes, filter_twice. apply filter_ext. intros e.
    unfold child_to_dummy_from, vertex_in. simpl.
    destruct (Nat.eqb (e_source e) node); simpl;
      destruct (existsb (Nat.eqb (e_source e)) l),
               (String.eqb (vp_type gr (e_source e)) "3"),
               (String.eqb (ep_type e) "child"),
               (String.eqb (vp_type gr (e_target e)) "3"); reflexivity.
Qed.

Lemma merge_edges (self : PatternDetector) :
  merge self false true
  = with_pet self
      (set_edges (pet self)
         (filter (fun e => negb (child_to_dummy (pet self) e)) (edges (pet self)))).
Proof.
  unfold merge. rewrite merge_fold_graph. f_equal. f_equal.
  apply filter_ext. intros e. f_equal.
  unfold child_to_dummy_from, child_to_dummy. f_equal. f_equal. f_equal.
  unfold vertices.
  destruct (vertex_in (e_source e) (seq 0 (num_vertices (pet self)))) eqn:E.
  - apply vertex_in_spec, in_seq in E. symmetry. apply Nat.ltb_lt. lia.
  - symmetry. apply Nat.ltb_ge.
    destruct (Nat.lt_ge_cases (e_source e) (num_vertices (pet self))) as [H | H]; [| exact H].
    assert (Hin : vertex_in (e_source e) (seq 0 (num_vertices (pet self))) = true).
    { apply vertex_in_spec, in_seq. lia. }
    rewrite Hin in E. discriminate.
Qed.

Lemma writes_at_most_edges (f : Flag) (a b : PatternDetector) :
  writes_at_most f a b -> edges (pet b) = edges (pet a).
Proof. intros [_ [H _]]. exact H. Qed.

Lemma writes_at_most_static (f : Flag) (a b : PatternDetector) :
  writes_at_most f a b -> static_eq (pet a) (pet b) /\ tables_eq a b.
Proof. intros [H1 [_ [H2 _]]]. auto. Qed.

Lemma tables_eq_trans (a b c : PatternDetector) : tables_eq a b -> tables_eq b c -> tables_eq a c.
Proof. unfold tables_eq. intros [A1 [A2 A3]] [B1 [B2 B3]]. repeat split; congruence. Qed.

(** C6, amended. Of the five detector passes of [detect_patterns], each
    leaves the vertices, the edges, the loop-count table and the reduction
    table as they are and writes at most one flag, its own: the pipeline
    score (pipeline detection), the reduction flag (reduction detection),
    the do-all flag (do-all detection), the role (task parallelism) and the
    geometric-decomposition flag (geometric decomposition, which also fills
    the detector's cache of iteration counts). The merge step that opens
    [detect_patterns] writes no flag and removes edges: the CHILD edges
    that lead from a vertex that is no dummy to a dummy. After
    [detect_patterns] the vertices and the two tables are unchanged and the
    edges are the edges before without those CHILD edges. *)
Theorem C6_frame (fuel : nat) (a b : PatternDetector) :
  (detect_pipeline_loop fuel a = Ok b -> writes_at_most Pipeline a b)
  /\ (detect_reduction_loop fuel a = Ok b -> writes_at_most Reduction a b)
  /\ (detect_do_all_loop fuel a = Ok b -> writes_at_most DoAll a b)
  /\ (detect_task_parallelism_loop fuel a = Ok b -> writes_at_most MwType a b)
  /\ (detect_geometric_decomposition_loop fuel a = Ok b -> writes_at_most GeomDecomp a b)
  /\ merge a false true
     = with_pet a
         (set_edges (pet a)
            (filter (fun e => negb (child_to_dummy (pet a) e)) (edges (pet a))))
  /\ (detect_patterns fuel a = Ok b ->
      static_eq (pet a) (pet b)
      /\ tables_eq a b
      /\ edges (pet b) = filter (fun e => negb (child_to_dummy (pet a) e)) (edges (pet a))).
Proof.
  split; [apply frame_pipeline |].
  split; [apply frame_reduction |].
  split; [apply frame_do_all |].
  split; [apply frame_task_parallelism |].
  split; [apply frame_geometric_decomposition |].
  split; [apply merge_edges |].
  unfold detect_patterns. intros H.
  apply bind_ok in H. destruct H as [s1 [H1 H]].
  apply bind_ok in H. destruct H as [s2 [H2 H]].
  apply bind_ok in H. destruct H as [s3 [H3 H]].
  apply bind_ok in H. destruct H as [s4 [H4 H5]].
  apply frame_pipeline in H1. apply frame_reduction in H2. apply frame_do_all in H3.
  apply frame_task_parallelism in H4. apply frame_geometric_decomposition in H5.
  rewrite merge_edges in H1.
  destruct (writes_at_most_static _ _ _ H1) as [S1 T1].
  destruct (writes_at_most_static _ _ _ H2) as [S2 T2].
  destruct (writes_at_most_static _ _ _ H3) as [S3 T3].
  destruct (writes_at_most_static _ _ _ H4) as [S4 T4].
  destruct (writes_at_most_static _ _ _ H5) as [S5 T5].
  split; [| split].
  - apply static_eq_trans with (b := pet s4); [| exact S5].
    apply static_eq_trans with (b := pet s3); [| exact S4].
    apply static_eq_trans with (b := pet s2); [| exact S3].
    apply static_eq_trans with (b := pet s1); [| exact S2].
    exact S1.
  - apply tables_eq_trans with (b := s4); [| exact T5].
    apply tables_eq_trans with (b := s3); [| exact T4].
    apply tables_eq_trans with (b := s2); [| exact T3].
    apply tables_eq_trans with (b := s1); [| exact T2].
    exact T1.
  - rewrite (writes_at_most_edges _ _ _ H5), (writes_at_most_edges _ _ _ H4),
      (writes_at_most_edges _ _ _ H3), (writes_at_most_edges _ _ _ H2),
      (writes_at_most_edges _ _ _ H1).
    reflexivity.
Qed.

End FrameFacts.

(** [detect_patterns] on [two_loops_detector] returns; the frame holds of
    its result. *)
Lemma C6_frame_witness :
  exists b,
    PatternDetection.detect_patterns 2 Examples.two_loops_detector = Ok b
    /\ Spec.static_eq (PatternDetection.pet Examples.two_loops_detector) (PatternDetection.pet b)
    /\ Spec.tables_eq Examples.two_loops_detector b
    /\ GraphTool.edges (PatternDetection.pet b)
       = filter (fun e => negb (Spec.child_to_dummy
                                  (PatternDetection.pet Examples.two_loops_detector) e))
                (GraphTool.edges (PatternDetection.pet Examples.two_loops_detector)).
Proof.
  destruct (PatternDetection.detect_patterns 2 Examples.two_loops_detector) as [b | e |] eqn:E;
    [| vm_compute in E; discriminate E | vm_compute in E; discriminate E].
  exists b. split; [reflexivity |].
  apply (C6_frame 2 Examples.two_loops_detector b). exact E.
Defined.

(** ** The test of geometric decomposition in general *)

Section GeometricDecompositionSpec.
Import PETGraphX GeometricDecomposition Spec Examples.

Lemma direct_children_of_type_spec (pet : PETGraphX) (root : CuNode) (ty : CuType) :
  forall l,
    direct_children_of_type pet root ty = Ok l ->
    forall n, In n l <-> child_of pet root n /\ type n = ty.
Proof.
  unfold direct_children_of_type.
  assert (H : forall es base l,
            for_each es
              (fun res e =>
                 n <- node_at pet (e_tgt e) ;;
                 Ok (if CuType_eqb (type n) ty then res ++ [n] else res)) base = Ok l ->
            forall n, In n l <->
                      In n base
                      \/ exists e, In e es /\ node_at pet (e_tgt e) = Ok n /\ type n = ty).
  { induction es as [| e es IH]; intros base l Hl n.
    - simpl in Hl. inversion Hl. subst l. split; [auto |].
      intros [Hb | [e [[] _]]]. exact Hb.
    - rewrite for_each_cons in Hl. apply bind_ok in Hl. destruct Hl as [res [Hstep Hl]].
      apply bind_ok in Hstep. destruct Hstep as [c [Hc Hstep]]. inversion Hstep. subst res.
      rewrite (IH _ _ Hl n). clear IH Hl Hstep.
      destruct (CuType_eqb (type c) ty) eqn:E.
      + apply CuType_eqb_eq in E. rewrite in_app_iff. split.
        * intros [[Hb | [Hn | []]] | [e0 [He0 Hr]]].
          -- left. exact Hb.
          -- subst n. right. exists e. split; [left; reflexivity | auto].
          -- right. exists e0. split; [right; exact He0 | exact Hr].
        * intros [Hb | [e0 [[He0 | He0] [Hn Ht]]]].
          -- left. left. exact Hb.
          -- subst e0. rewrite Hc in Hn. inversion Hn. left. right. left. reflexivity.
          -- right. exists e0. auto.
      + split.
        * intros [Hb | [e0 [He0 Hr]]].
          -- left. exact Hb.
          -- right. exists e0. split; [right; exact He0 | exact Hr].
        * intros [Hb | [e0 [[He0 | He0] [Hn Ht]]]].
          -- left. exact Hb.
          -- subst e0. rewrite Hc in Hn. inversion Hn. subst n.
             apply CuType_eqb_eq in Ht. rewrite Ht in E. discriminate.
          -- right. exists e0. auto. }
  intros l Hl n. rewrite (H _ _ _ Hl n). unfold child_of. split.
  - intros [[] | [e [He [Hn Ht]]]]. apply in_out_edges in He.
    destruct He as [He1 [He2 He3]]. split; [| exact Ht]. exists e. auto.
  - intros [[e [He1 [He2 [He3 He4]]]] Ht]. right. exists e.
    split; [apply in_out_edges; auto | auto].
Qed.

Lemma scan_func_children_spec (pet : PETGraphX) (funcs : list CuNode) (b : bool) :
  scan_func_children pet funcs = Ok b ->
  (b = true <->
   forall f l, In f funcs -> child_of pet f l -> type l = LOOP -> flagged l = false).
Proof.
  revert b. induction funcs as [| f funcs IH]; intros b H; simpl in H.
  - inversion H. split; [intros _ f l [] | reflexivity].
  - apply bind_ok in H. destruct H as [loops [Hloops H]].
    destruct (existsb flagged loops) eqn:E.
    + inversion H. split; [discriminate |]. intros Hall. exfalso.
      apply existsb_exists in E. destruct E as [l [Hl Hfl]].
      apply (direct_children_of_type_spec pet f LOOP loops Hloops) in Hl.
      destruct Hl as [Hc Ht].
      rewrite (Hall f l (or_introl eq_refl) Hc Ht) in Hfl. discriminate.
    + rewrite (IH b H). split.
      * intros Hall f0 l [Hf0 | Hf0] Hc Ht; [| apply (Hall f0 l Hf0 Hc Ht)].
        subst f0.
        assert (Hl : In l loops)
          by (apply (direct_children_of_type_spec pet f LOOP loops Hloops); auto).
        destruct (flagged l) eqn:Efl; [| reflexivity].
        assert (Hex : existsb flagged loops = true)
          by (apply existsb_exists; exists l; auto).
        rewrite Hex in E. discriminate.
      * intros Hall f0 l Hf0. apply Hall. right. exact Hf0.
Qed.

(** What [__detect_geometric_decomposition] of the graph analyzer decides:
    it answers True exactly when no loop of the nest is flagged. *)
Lemma detect_geometric_decomposition_spec (fuel : nat) (pet : PETGraphX) (root : CuNode)
  (b : bool) :
  detect_geometric_decomposition fuel pet root = Ok b ->
  (b = true <-> no_loop_flagged pet root).
Proof.
  unfold detect_geometric_decomposition, no_loop_flagged. intros H.
  apply bind_ok in H. destruct H as [loops [Hloops H]].
  destruct (existsb flagged loops) eqn:E.
  - inversion H. split; [discriminate |]. intros [Hall _]. exfalso.
    apply existsb_exists in E. destruct E as [l [Hl Hfl]].
    apply (subtree_of_type_spec fuel pet LOOP root loops Hloops) in Hl.
    rewrite (Hall l Hl) in Hfl. discriminate.
  - apply bind_ok in H. destruct H as [funcs [Hfuncs H]].
    rewrite (scan_func_children_spec pet funcs b H). split.
    + intros Hall. split.
      * intros l Hl.
        apply (subtree_of_type_spec fuel pet LOOP root loops Hloops) in Hl.
        destruct (flagged l) eqn:Efl; [| reflexivity].
        assert (Hex : existsb flagged loops = true)
          by (apply existsb_exists; exists l; auto).
        rewrite Hex in E. discriminate.
      * intros f l Hf Hty. apply Hall.
        apply (direct_children_of_type_spec pet root FUNC funcs Hfuncs). auto.
    + intros [_ Hall] f l Hf. 
      apply (direct_children_of_type_spec pet root FUNC funcs Hfuncs) in Hf.
      destruct Hf as [Hf Hty]. apply Hall; assumption.
Qed.

(** A node with a loop below it is never accepted when all its loops are
    do-all or reduction loops: the node of the claim is rejected. *)
Lemma qualifying_node_rejected (fuel : nat) (pet : PETGraphX) (root : CuNode) (b : bool) :
  detect_geometric_decomposition fuel pet root = Ok b ->
  type root = LOOP ->
  all_loops_flagged pet root ->
  b = false.
Proof.
  intros H Hty [Hall _]. destruct b; [| reflexivity].
  destruct (proj1 (detect_geometric_decomposition_spec fuel pet root true H) eq_refl)
    as [Hnone _].
  assert (Hroot : in_subtree pet root LOOP root) by (split; [apply reach_self | exact Hty]).
  pose proof (Hnone root Hroot) as Hf. rewrite (Hall root Hroot) in Hf. discriminate.
Qed.

End GeometricDecompositionSpec.

Section OlderDetector.
Import GraphTool PatternDetection Spec Examples.

(** [PatternDetector.__detect_geometric_decomposition] of
    pattern_detection.py, with the threshold 0.9: when it answers True,
    every loop (type '2') below the root is a do-all or a reduction loop. *)
Lemma older_detector_accepts_parallel_loops (fuel : nat) (self : PatternDetector)
  (root l : Vertex) :
  do_all_threshold self = threshold_0_9 ->
  PatternDetection.detect_geometric_decomposition fuel self root = Ok true ->
  gt_reach (pet self) root l ->
  vp_type (pet self) l = "2" ->
  vp_doAll (pet self) l = true \/ vp_reduction (pet self) l = true.
Proof.
  intros Hthr H Hreach Hty. unfold PatternDetection.detect_geometric_decomposition in H.
  apply bind_ok in H. destruct H as [loops [Hloops H]].
  destruct (existsb (not_parallel self) loops) eqn:E; [discriminate |].
  assert (Hl : In l loops).
  { apply (get_subtree_of_type_spec fuel (pet self) "2" root loops Hloops). auto. }
  assert (Hnp : not_parallel self l = false).
  { destruct (not_parallel self l) eqn:Enp; [| reflexivity].
    assert (Hex : existsb (not_parallel self) loops = true)
      by (apply existsb_exists; exists l; auto).
    rewrite Hex in E. discriminate. }
  unfold not_parallel, below_threshold in Hnp. rewrite Hthr in Hnp.
  destruct (vp_doAll (pet self) l); [left; reflexivity |].
  destruct (vp_reduction (pet self) l); [right; reflexivity |].
  vm_compute in Hnp. discriminate.
Qed.

Lemma older_detector_accepts_parallel_loops_witness :
  vp_doAll (pet (gt_loop_nest true)) 1 = true
  \/ vp_reduction (pet (gt_loop_nest true)) 1 = true.
Proof.
  apply (older_detector_accepts_parallel_loops 3 (gt_loop_nest true) 0 1).
  - reflexivity.
  - reflexivity.
  - apply gt_reach_child with (e := gt_child 0 1).
    + left. reflexivity.
    + reflexivity.
    + reflexivity.
    + apply gt_reach_self.
  - reflexivity.
Defined.

(** On the loop nest the older detector accepts the nest of do-all loops
    and rejects the nest without flags. *)
Example older_detector_on_loop_nest :
  PatternDetection.detect_geometric_decomposition 3 (gt_loop_nest true) 0 = Ok true
  /\ PatternDetection.detect_geometric_decomposition 3 (gt_loop_nest false) 0 = Ok false.
Proof. split; reflexivity. Qed.

(** [PatternDetector.get_all_dependencies] on [gt_loop_with_reads]: an
    edge is left out only when it is a loop-index edge and its variable is
    read-only as well, so the read of n, read-only in the loop but no
    loop-index edge, counts: the CU 2 depends on 1 (through c) and on 3
    (through n), where [PETGraphX.get_all_dependencies] on
    [loop_with_reads] returns the CU 1:2 only. *)
Example older_get_all_dependencies :
  PatternDetection.get_all_dependencies 2 gt_loop_with_reads 2 0 = Ok [1; 3].
Proof. reflexivity. Qed.

End OlderDetector.

(** ** [subtree_of_type] includes its root *)

Section SubtreeRoot.
Import PETGraphX Spec Examples.

(** On a graph whose edges lead to nodes with data and whose CHILD edges
    form no cycle, [subtree_of_type(root, root.type)] returns the nodes of
    the kind of [root] that are [root] or lie below it along CHILD edges;
    [root] is among them. *)
Theorem subtree_of_type_includes_root (pet : PETGraphX) (rank : string -> nat) (fuel : nat)
  (root : CuNode) :
  targets_have_data pet ->
  child_ranked pet rank ->
  rank (id root) < fuel ->
  exists l,
    subtree_of_type fuel pet root (type root) = Ok l
    /\ In root l
    /\ forall n, In n l <-> in_subtree pet root (type root) n.
Proof.
  intros Hdata Hrank Hlt.
  destruct (subtree_of_type_total pet rank (type root) Hdata Hrank fuel root Hlt) as [l Hl].
  exists l. split; [exact Hl |]. split.
  - apply (subtree_of_type_spec fuel pet (type root) root l Hl).
    split; [apply reach_self | reflexivity].
  - apply (subtree_of_type_spec fuel pet (type root) root l Hl).
Qed.

End SubtreeRoot.

Lemma subtree_of_type_includes_root_witness :
  exists l,
    PETGraphX.subtree_of_type 2 Examples.loop_with_reads
      (Examples.cu_node "1:1" 1 PETGraphX.LOOP 1 9 false false) PETGraphX.LOOP = Ok l
    /\ In (Examples.cu_node "1:1" 1 PETGraphX.LOOP 1 9 false false) l
    /\ forall n, In n l <->
                 Spec.in_subtree Examples.loop_with_reads
                   (Examples.cu_node "1:1" 1 PETGraphX.LOOP 1 9 false false)
                   PETGraphX.LOOP n.
Proof.
  apply (subtree_of_type_includes_root Examples.loop_with_reads
           Examples.loop_with_reads_rank 2
           (Examples.cu_node "1:1" 1 PETGraphX.LOOP 1 9 false false)).
  - intros e He. simpl in He.
    repeat (destruct He as [He | He]; [subst e; eexists; reflexivity |]).
    destruct He.
  - intros a c [e [He [Hsrc [Hty Hc]]]]. simpl in He.
    destruct He as [He | He];
      [subst e; simpl in Hsrc, Hc; inversion Hc; subst c; rewrite <- Hsrc;
       simpl; unfold Examples.loop_with_reads_rank; simpl; lia |].
    destruct He as [He | He];
      [subst e; simpl in Hsrc, Hc; inversion Hc; subst c; rewrite <- Hsrc;
       simpl; unfold Examples.loop_with_reads_rank; simpl; lia |].
    repeat (destruct He as [He | He]; [subst e; discriminate Hty |]).
    destruct He.
  - simpl. unfold Examples.loop_with_reads_rank. simpl. lia.
Defined.

(* ===================================================================== *)
(** * Further properties *)
(* ===================================================================== *)

(** ** PETGraphX: the stored edges *)

Section EdgeQueries.
Import PETGraphX Spec Notions.

Lemma uniq_NoDup (l : list string) : NoDup (uniq l).
Proof.
  induction l as [| x l IH]; simpl.
  - constructor.
  - constructor.
    + rewrite filter_In. intros [_ H]. rewrite String.eqb_refl in H. discriminate.
    + apply NoDup_filter. exact IH.
Qed.

Lemma filter_none {A : Type} (f : A -> bool) (l : list A) :
  (forall x, In x l -> f x = false) -> filter f l = [].
Proof.
  induction l as [| x l IH]; intros H; simpl.
  - reflexivity.
  - rewrite (H x (or_introl eq_refl)). apply IH. intros y Hy. apply H. right. exact Hy.
Qed.

Lemma filter_permutation {A : Type} (f : A -> bool) (l l' : list A) :
  Permutation l l' -> Permutation (filter f l) (filter f l').
Proof.
  induction 1 as [| x l l' _ IH | x y l | l l' l'' _ IH1 _ IH2]; simpl.
  - constructor.
  - destruct (f x); [apply perm_skip |]; exact IH.
  - destruct (f x), (f y); try apply Permutation_refl. apply perm_swap.
  - eapply Permutation_trans; eassumption.
Qed.

Lemma flat_map_filter_ext {A B : Type} (p : A -> bool) (F G : A -> list B) (U : list A) :
  (forall t, p t = true -> F t = G t) ->
  flat_map F (filter p U) = flat_map G (filter p U).
Proof.
  intros H. induction U as [| y U IH]; simpl.
  - reflexivity.
  - destruct (p y) eqn:E; simpl.
    + rewrite IH, (H y E). reflexivity.
    + exact IH.
Qed.

(** The groups of the keys other than the key of a new first element do
    not change with it. *)
Lemma group_cons {A : Type} (k : A -> string) (e : A) (es : list A) :
  flat_map (fun t => filter (fun a => String.eqb (k a) t) (e :: es))
           (uniq (map k (e :: es)))
  = e :: filter (fun a => String.eqb (k a) (k e)) es
      ++ flat_map (fun t => filter (fun a => String.eqb (k a) t) es)
           (filter (fun y => negb (String.eqb y (k e))) (uniq (map k es))).
Proof.
  simpl. rewrite String.eqb_refl. simpl. f_equal. f_equal.
  apply flat_map_filter_ext. intros t Ht.
  rewrite String.eqb_sym. apply negb_true_iff in Ht. rewrite Ht. reflexivity.
Qed.

Lemma group_split {A : Type} (F : string -> list A) (x : string) (U : list string) :
  NoDup U -> In x U ->
  Permutation (flat_map F U)
              (F x ++ flat_map F (filter (fun y => negb (String.eqb y x)) U)).
Proof.
  induction 1 as [| y U Hy Hnd IH]; intros Hin.
  - destruct Hin.
  - simpl. destruct (String.eqb y x) eqn:E; simpl.
    + apply String.eqb_eq in E. subst y.
      rewrite filter_all; [apply Permutation_refl |].
      intros z Hz. destruct (String.eqb z x) eqn:Ez; [| reflexivity].
      apply String.eqb_eq in Ez. subst z. contradiction.
    + destruct Hin as [Hin | Hin]; [subst y; rewrite String.eqb_refl in E; discriminate |].
      eapply Permutation_trans.
      * apply Permutation_app_head. exact (IH Hin).
      * apply Permutation_app_swap_app.
Qed.

(** Grouping a list by a key, the groups in the order of the first
    occurrence of their key, keeps every element once. *)
Lemma group_by_key {A : Type} (k : A -> string) (es : list A) :
  Permutation
    (flat_map (fun t => filter (fun a => String.eqb (k a) t) es) (uniq (map k es)))
    es.
Proof.
  induction es as [| e es IH].
  - simpl. constructor.
  - rewrite group_cons. apply perm_skip.
    destruct (in_dec string_dec (k e) (uniq (map k es))) as [Hin | Hout].
    + eapply Permutation_trans; [| exact IH].
      apply Permutation_sym.
      apply (group_split (fun t => filter (fun a => String.eqb (k a) t) es)).
      * apply uniq_NoDup.
      * exact Hin.
    + rewrite (filter_none (fun a => String.eqb (k a) (k e))).
      * simpl. rewrite filter_all; [exact IH |].
        intros y Hy. destruct (String.eqb y (k e)) eqn:E; [| reflexivity].
        apply String.eqb_eq in E. subst y. contradiction.
      * intros a Ha. destruct (String.eqb (k a) (k e)) eqn:E; [| reflexivity].
        apply String.eqb_eq in E. exfalso. apply Hout. rewrite <- E.
        apply in_uniq. apply in_map. exact Ha.
Qed.

Lemma in_nx_in_edges (gr : MultiDiGraph) (n : string) (e : Edge) :
  In e (nx_in_edges gr n) <-> In e (edges gr) /\ e_tgt e = n.
Proof.
  unfold nx_in_edges. split.
  - intros H. apply (Permutation_in e (group_by_key e_src _)) in H.
    apply filter_In in H. destruct H as [H1 H2].
    split; [exact H1 | apply String.eqb_eq; exact H2].
  - intros [H1 H2].
    apply (Permutation_in e (Permutation_sym (group_by_key e_src _))).
    apply filter_In. split; [exact H1 | apply String.eqb_eq; exact H2].
Qed.

Lemma in_in_edges (pet : PETGraphX) (n : string) (t : EdgeType) (e : Edge) :
  In e (in_edges pet n (Some t))
  <-> In e (edges (g pet)) /\ e_tgt e = n /\ etype (e_data e) = t.
Proof.
  unfold in_edges. rewrite filter_In, in_nx_in_edges. simpl.
  rewrite EdgeType_eqb_eq. tauto.
Qed.

(** X3. [out_edges] and [in_edges] return every stored edge with the given
    end (and type, when one is asked for) exactly once, whatever order the
    grouping of networkx gives them; an edge is among the out-edges of its
    source exactly when it is among the in-edges of its target. *)
Theorem edges_by_endpoint (pet : PETGraphX) (n : string) (et : option EdgeType) :
  Permutation (out_edges pet n et)
    (filter (fun e => String.eqb (e_src e) n && etype_ok et e) (edges (g pet)))
  /\ Permutation (in_edges pet n et)
       (filter (fun e => String.eqb (e_tgt e) n && etype_ok et e) (edges (g pet)))
  /\ forall e, In e (out_edges pet (e_src e) et) <-> In e (in_edges pet (e_tgt e) et).
Proof.
  split; [| split].
  - unfold out_edges, nx_out_edges. rewrite <- filter_twice.
    apply filter_permutation. apply (group_by_key e_tgt).
  - unfold in_edges, nx_in_edges. rewrite <- filter_twice.
    apply filter_permutation. apply (group_by_key e_src).
  - intros e. unfold out_edges, in_edges.
    rewrite !filter_In, in_nx_out_edges, in_nx_in_edges. tauto.
Qed.

End EdgeQueries.

(** ** PETGraphX: what [__init__] stores *)

Section ConstructionQueries.
Import PETGraphX Spec Notions.

Variables readline writeline : string -> list string.

Lemma lookup_absent (ns : list (string * option CuNode)) (j : string) :
  has_node ns j = false -> lookup_node ns j = Raise KeyError.
Proof.
  induction ns as [| [k d] ns IH]; simpl; intros H.
  - reflexivity.
  - apply orb_false_iff in H. destruct H as [H1 H2]. rewrite H1. apply IH. exact H2.
Qed.

Lemma lookup_app (ns ms : list (string * option CuNode)) (j : string) :
  lookup_node (ns ++ ms) j
  = if has_node ns j then lookup_node ns j else lookup_node ms j.
Proof.
  induction ns as [| [k d] ns IH]; simpl.
  - reflexivity.
  - destruct (String.eqb k j); simpl; [reflexivity | exact IH].
Qed.

Lemma lookup_replace (ns : list (string * option CuNode)) (i j : string) (n : CuNode) :
  lookup_node (map (fun p => if String.eqb (fst p) i then (i, Some n) else p) ns) j
  = if String.eqb i j && has_node ns i then Ok n else lookup_node ns j.
Proof.
  induction ns as [| [k d] ns IH]; simpl.
  - rewrite andb_false_r. reflexivity.
  - destruct (String.eqb k i) eqn:Eki; simpl.
    + apply String.eqb_eq in Eki. subst k. rewrite andb_true_r.
      destruct (String.eqb i j); [reflexivity | exact IH].
    + destruct (String.eqb k j) eqn:Ekj.
      * apply String.eqb_eq in Ekj. subst k.
        rewrite String.eqb_sym in Eki. rewrite Eki. reflexivity.
      * exact IH.
Qed.

Lemma lookup_add_node (gr : MultiDiGraph) (i j : string) (n : CuNode) :
  lookup_node (nodes (add_node gr i n)) j
  = if String.eqb i j then Ok n else lookup_node (nodes gr) j.
Proof.
  unfold add_node. destruct (has_node (nodes gr) i) eqn:H; simpl.
  - rewrite lookup_replace, H, andb_true_r. reflexivity.
  - rewrite lookup_app. simpl.
    destruct (String.eqb i j) eqn:E.
    + apply String.eqb_eq in E. subst j. rewrite H. reflexivity.
    + destruct (has_node (nodes gr) j) eqn:Hj; [reflexivity |].
      symmetry. apply lookup_absent. exact Hj.
Qed.

Lemma entry_of_none (cu_dict : list (string * CuElement)) (i : string) :
  ~ In i (map fst cu_dict) -> entry_of cu_dict i = None.
Proof.
  induction cu_dict as [| [k el] l IH]; simpl; intros H.
  - reflexivity.
  - destruct (String.eqb k i) eqn:E.
    + apply String.eqb_eq in E. exfalso. apply H. left. exact E.
    + apply IH. intros Hin. apply H. right. exact Hin.
Qed.

Lemma entry_of_some (cu_dict : list (string * CuElement)) (i : string) (el : CuElement) :
  entry_of cu_dict i = Some el -> In (i, el) cu_dict.
Proof.
  induction cu_dict as [| [k el'] l IH]; simpl; intros H.
  - discriminate.
  - destruct (String.eqb k i) eqn:E.
    + apply String.eqb_eq in E. inversion H. subst. left. reflexivity.
    + right. apply IH. exact H.
Qed.

Lemma lookup_add_nodes (cu_dict : list (string * CuElement)) :
  NoDup (map fst cu_dict) ->
  forall (gr : MultiDiGraph) (j : string),
    lookup_node (nodes (add_nodes cu_dict gr)) j
    = match entry_of cu_dict j with
      | Some el => Ok (parsed el)
      | None => lookup_node (nodes gr) j
      end.
Proof.
  induction cu_dict as [| [k el] l IH]; intros Hnd gr j.
  - reflexivity.
  - inversion Hnd as [| x xs Hk Hl]. subst.
    unfold add_nodes. simpl. fold (add_nodes l (add_node gr k (parsed el))).
    rewrite (IH Hl). rewrite lookup_add_node.
    destruct (String.eqb k j) eqn:E.
    + apply String.eqb_eq in E. subst j. rewrite (entry_of_none l k Hk). reflexivity.
    + reflexivity.
Qed.

Lemma lookup_set_loop_iterations (loop_data : list (string * Z)) (gr : MultiDiGraph)
  (j : string) :
  lookup_node (nodes (set_loop_iterations loop_data gr)) j
  = match lookup_node (nodes gr) j with
    | Ok n => Ok (stored loop_data n)
    | r => r
    end.
Proof.
  unfold set_loop_iterations. simpl.
  induction (nodes gr) as [| [k d] ns IH]; simpl.
  - reflexivity.
  - destruct d as [n |]; simpl.
    + destruct (String.eqb k j) eqn:E2; unfold stored;
        destruct (CuType_eqb (type n) LOOP) eqn:E; simpl; rewrite E2;
        try reflexivity; exact IH.
    + destruct (String.eqb k j); [reflexivity | exact IH].
Qed.

Lemma lookup_touch_node (ns : list (string * option CuNode)) (u j : string) :
  lookup_node (touch_node ns u) j = lookup_node ns j.
Proof.
  unfold touch_node. destruct (has_node ns u) eqn:H; [reflexivity |].
  rewrite lookup_app. destruct (has_node ns j) eqn:Hj; [reflexivity |].
  simpl. rewrite (lookup_absent ns j Hj). destruct (String.eqb u j); reflexivity.
Qed.

Lemma lookup_add_edge (gr : MultiDiGraph) (u v j : string) (d : Dependency) :
  lookup_node (nodes (add_edge gr u v d)) j = lookup_node (nodes gr) j.
Proof. unfold add_edge. simpl. rewrite !lookup_touch_node. reflexivity. Qed.

Lemma lookup_add_edges (k : string) (d : Dependency) (l : list string) :
  forall (gr : MultiDiGraph) (j : string),
    lookup_node (nodes (fold_left (fun gr c => add_edge gr k c d) l gr)) j
    = lookup_node (nodes gr) j.
Proof.
  induction l as [| c l IH]; intros gr j; simpl.
  - reflexivity.
  - rewrite IH. apply lookup_add_edge.
Qed.

Lemma lookup_add_structure (cu_dict : list (string * CuElement)) :
  forall (gr : MultiDiGraph) (j : string),
    lookup_node (nodes (add_structure cu_dict gr)) j = lookup_node (nodes gr) j.
Proof.
  induction cu_dict as [| kv l IH]; intros gr j.
  - reflexivity.
  - unfold add_structure. simpl. fold (add_structure l (add_structure_of gr kv)).
    rewrite IH. unfold add_structure_of. rewrite !lookup_add_edges. reflexivity.
Qed.

Lemma extends_refl (gr : MultiDiGraph) : extends_with_data gr gr.
Proof.
  split; [reflexivity |]. split; [auto |].
  exists []. split; [symmetry; apply app_nil_r | intros e []].
Qed.

Lemma extends_trans (a b c : MultiDiGraph) :
  extends_with_data a b -> extends_with_data b c -> extends_with_data a c.
Proof.
  intros [H1 [H2 [m1 [E1 D1]]]] [H3 [H4 [m2 [E2 D2]]]].
  split; [intros j; rewrite H3; apply H1 |].
  split; [intros j Hj; apply H4, H2, Hj |].
  exists (m1 ++ m2). split.
  - rewrite E2, E1, app_assoc. reflexivity.
  - intros e He. apply in_app_or in He. destruct He; auto.
Qed.

Lemma has_node_touch (ns : list (string * option CuNode)) (u j : string) :
  has_node ns j = true -> has_node (touch_node ns u) j = true.
Proof.
  intros H. unfold touch_node. destruct (has_node ns u); [exact H |].
  unfold has_node. rewrite existsb_app. unfold has_node in H. rewrite H. reflexivity.
Qed.

Lemma has_node_touched (ns : list (string * option CuNode)) (u : string) :
  has_node (touch_node ns u) u = true.
Proof.
  unfold touch_node. destruct (has_node ns u) eqn:H; [exact H |].
  unfold has_node. rewrite existsb_app. simpl. rewrite String.eqb_refl.
  rewrite orb_true_r. reflexivity.
Qed.

Lemma extends_add_data_edge (gr : MultiDiGraph) (u v : string) (d : Dependency) :
  etype d = DATA -> extends_with_data gr (add_edge gr u v d).
Proof.
  intros Hd. split; [intros j; apply lookup_add_edge |].
  split; [intros j Hj; simpl; apply has_node_touch, has_node_touch, Hj |].
  exists [(u, v, d)]. split; [reflexivity |].
  intros e [He | []]. subst e. exact Hd.
Qed.

Lemma parse_dependency_data (dep : DependenceItem) (d : Dependency) :
  parse_dependency dep = Ok d -> etype d = DATA.
Proof.
  unfold parse_dependency. intros H. apply bind_ok in H.
  destruct H as [t [_ H]]. inversion H. reflexivity.
Qed.

Lemma extends_add_dependence_pair (dep : DependenceItem) (s t : string)
  (gr gr' : MultiDiGraph) :
  add_dependence_pair dep s t gr = Ok gr' -> extends_with_data gr gr'.
Proof.
  unfold add_dependence_pair.
  destruct (String.eqb s t && (String.eqb (dep_type dep) "WAR" || String.eqb (dep_type dep) "WAW")).
  - intros H. inversion H. apply extends_refl.
  - destruct (truthy s && truthy t).
    + intros H. apply bind_ok in H. destruct H as [d [Hd H]]. inversion H.
      apply extends_add_data_edge. exact (parse_dependency_data dep d Hd).
    + intros H. inversion H. apply extends_refl.
Qed.

Lemma extends_add_dependence (dep : DependenceItem) (gr gr' : MultiDiGraph) :
  add_dependence readline writeline gr dep = Ok gr' -> extends_with_data gr gr'.
Proof.
  unfold add_dependence. destruct (String.eqb (dep_type dep) "INIT").
  - intros H. inversion H. apply extends_refl.
  - apply (for_each_invariant _ (extends_with_data gr)); [| apply extends_refl].
    intros g1 s g2 _ Hg1.
    apply (for_each_invariant _ (extends_with_data gr)); [| exact Hg1].
    intros g3 t g4 _ Hg3 Hp.
    exact (extends_trans _ _ _ Hg3 (extends_add_dependence_pair dep s t g3 g4 Hp)).
Qed.

Lemma extends_add_dependencies (deps : list DependenceItem) (gr gr' : MultiDiGraph) :
  add_dependencies readline writeline deps gr = Ok gr' -> extends_with_data gr gr'.
Proof.
  unfold add_dependencies.
  apply (for_each_invariant _ (extends_with_data gr)); [| apply extends_refl].
  intros g1 dep g2 _ Hg1 Hd.
  exact (extends_trans _ _ _ Hg1 (extends_add_dependence dep g1 g2 Hd)).
Qed.

Lemma lookup_structure_graph (cu_dict : list (string * CuElement))
  (loop_data : list (string * Z)) (j : string) :
  NoDup (map fst cu_dict) ->
  lookup_node (nodes (structure_graph cu_dict loop_data)) j
  = match entry_of cu_dict j with
    | Some el => Ok (stored loop_data (parsed el))
    | None => Raise KeyError
    end.
Proof.
  intros Hnd. unfold structure_graph.
  rewrite lookup_add_structure, lookup_set_loop_iterations, (lookup_add_nodes _ Hnd).
  destruct (entry_of cu_dict j); reflexivity.
Qed.

(** X4. After [PETGraphX(cu_dict, ...)] the graph holds data under exactly
    the keys of [cu_dict]: a LOOP node with the count of
    [loop_data.get(start_position, 0)], any other node as parsed. The edges
    of the childrenNodes, successors and dependence loops change no node,
    and a node that only an edge names has no data: [node_at] raises
    KeyError for it. *)
Theorem init_node_at (cu_dict : list (string * CuElement)) (deps : list DependenceItem)
  (loop_data : list (string * Z)) (rvs : list ReductionVar) (pet : PETGraphX)
  (i : string) :
  NoDup (map fst cu_dict) ->
  init readline writeline cu_dict deps loop_data rvs = Ok pet ->
  node_at pet i
  = match entry_of cu_dict i with
    | Some el => Ok (stored loop_data (parsed el))
    | None => Raise KeyError
    end.
Proof.
  intros Hnd H. unfold init in H. apply bind_ok in H.
  destruct H as [gr [Hgr H]]. inversion H. subst pet. clear H.
  unfold node_at. simpl.
  destruct (extends_add_dependencies _ _ _ Hgr) as [Hl _].
  rewrite Hl. apply lookup_structure_graph. exact Hnd.
Qed.


Lemma in_edges_add_edges (k : string) (d : Dependency) (l : list string) :
  forall (gr : MultiDiGraph) (e : Edge),
    In e (edges (fold_left (fun gr c => add_edge gr k c d) l gr))
    <-> In e (edges gr) \/ exists c, In c l /\ e = (k, c, d).
Proof.
  induction l as [| c l IH]; intros gr e; simpl.
  - split; [auto | intros [H | [c [[] _]]]; exact H].
  - rewrite IH, edges_add_edge, in_app_iff. simpl. split.
    + intros [[H | [H | []]] | [c' [Hc He]]]; auto.
      * right. exists c. auto.
      * right. exists c'. auto.
    + intros [H | [c' [[Hc | Hc] He]]]; auto.
      * subst c'. left. right. left. symmetry. exact He.
      * right. exists c'. auto.
Qed.

Lemma in_edges_add_structure (cu_dict : list (string * CuElement)) :
  forall (gr : MultiDiGraph) (e : Edge),
    In e (edges (add_structure cu_dict gr))
    <-> In e (edges gr) \/ structure_edge cu_dict e.
Proof.
  induction cu_dict as [| [k el] l IH]; intros gr e.
  - simpl. split; [auto | intros [H | [k [el [[] _]]]]; exact H].
  - unfold add_structure. simpl. fold (add_structure l (add_structure_of gr (k, el))).
    rewrite IH. unfold add_structure_of. simpl. rewrite !in_edges_add_edges.
    unfold structure_edge. split.
    + intros [[[H | [c [Hc He]]] | [s [Hs He]]] | [k' [el' [Hin Hk]]]].
      * left. exact H.
      * right. exists k, el. split; [left; reflexivity |]. left. exists c. auto.
      * right. exists k, el. split; [left; reflexivity |]. right. exists s. auto.
      * right. exists k', el'. split; [right; exact Hin | exact Hk].
    + intros [H | [k' [el' [[Hin | Hin] Hk]]]].
      * left. left. left. exact H.
      * inversion Hin. subst k' el'. left.
        destruct Hk as [[c [Hc He]] | [s [Hs He]]].
        -- left. right. exists c. auto.
        -- right. exists s. auto.
      * right. exists k', el'. auto.
Qed.

Lemma in_edges_structure_graph (cu_dict : list (string * CuElement))
  (loop_data : list (string * Z)) (e : Edge) :
  In e (edges (structure_graph cu_dict loop_data)) <-> structure_edge cu_dict e.
Proof.
  unfold structure_graph. rewrite in_edges_add_structure. simpl.
  rewrite edges_add_nodes. simpl. tauto.
Qed.

Lemma structure_edge_not_data (cu_dict : list (string * CuElement)) (e : Edge) :
  structure_edge cu_dict e -> etype (e_data e) <> DATA.
Proof.
  intros [k [el [_ [[c [_ He]] | [s [_ He]]]]]]; subst e; simpl; discriminate.
Qed.

(** X5. The edges of the graph that are no DATA edges are exactly the
    CHILD edges of the childrenNodes lists and the SUCCESSOR edges of the
    successors lists of [cu_dict], whether or not the node they lead to has
    an entry. *)
Theorem init_structure_edges (cu_dict : list (string * CuElement))
  (deps : list DependenceItem) (loop_data : list (string * Z)) (rvs : list ReductionVar)
  (pet : PETGraphX) (e : Edge) :
  init readline writeline cu_dict deps loop_data rvs = Ok pet ->
  (In e (edges (g pet)) /\ etype (e_data e) <> DATA <-> structure_edge cu_dict e).
Proof.
  intros H. unfold init in H. apply bind_ok in H.
  destruct H as [gr [Hgr H]]. inversion H. subst pet. clear H. simpl.
  destruct (extends_add_dependencies _ _ _ Hgr) as [_ [_ [more [Hm Hd]]]].
  rewrite Hm, in_app_iff, in_edges_structure_graph. split.
  - intros [[Hs | Hin] Hne]; [exact Hs |]. exfalso. apply Hne. apply Hd. exact Hin.
  - intros Hs. split; [left; exact Hs | exact (structure_edge_not_data _ _ Hs)].
Qed.




Lemma all_nodes_without_data (ns : list (string * option CuNode)) (ty : CuType) :
  (exists k, In (k, None) ns) -> all_nodes_of ns ty = Raise AttributeError.
Proof.
  induction ns as [| [k d] ns IH]; intros [c Hc].
  - destruct Hc.
  - simpl. destruct d as [n |]; [| reflexivity].
    destruct Hc as [Hc | Hc]; [discriminate |].
    rewrite IH; [reflexivity | exists c; exact Hc].
Qed.

Lemma node_without_data (ns : list (string * option CuNode)) (c : string) :
  has_node ns c = true -> lookup_node ns c = Raise KeyError -> In (c, None) ns.
Proof.
  induction ns as [| [k d] ns IH]; simpl; intros Hh Hl.
  - discriminate.
  - destruct (String.eqb k c) eqn:E.
    + apply String.eqb_eq in E. subst k. destruct d; [discriminate | left; reflexivity].
    + right. apply IH; assumption.
Qed.

Lemma has_node_add_edge (gr : MultiDiGraph) (u v : string) (d : Dependency) :
  has_node (nodes (add_edge gr u v d)) v = true
  /\ forall j, has_node (nodes gr) j = true -> has_node (nodes (add_edge gr u v d)) j = true.
Proof.
  split.
  - simpl. apply has_node_touched.
  - intros j Hj. simpl. apply has_node_touch, has_node_touch, Hj.
Qed.

Lemma has_node_add_edges (k : string) (d : Dependency) (l : list string) :
  forall (gr : MultiDiGraph) (j : string),
    has_node (nodes gr) j = true \/ In j l ->
    has_node (nodes (fold_left (fun gr c => add_edge gr k c d) l gr)) j = true.
Proof.
  induction l as [| c l IH]; intros gr j H; simpl.
  - destruct H as [H | []]. exact H.
  - apply IH. destruct H as [H | [H | H]].
    + left. apply (proj2 (has_node_add_edge gr k c d)). exact H.
    + subst c. left. apply (proj1 (has_node_add_edge gr k j d)).
    + right. exact H.
Qed.

Lemma has_node_add_structure (cu_dict : list (string * CuElement)) :
  forall (gr : MultiDiGraph) (j : string),
    has_node (nodes gr) j = true
    \/ (exists k el, In (k, el) cu_dict /\ In j (opt_list (childrenNodes el))) ->
    has_node (nodes (add_structure cu_dict gr)) j = true.
Proof.
  induction cu_dict as [| [k el] l IH]; intros gr j H.
  - destruct H as [H | [k [el [[] _]]]]. exact H.
  - unfold add_structure. simpl. fold (add_structure l (add_structure_of gr (k, el))).
    apply IH. destruct H as [H | [k' [el' [[Hin | Hin] Hj]]]].
    + left. unfold add_structure_of. apply has_node_add_edges. left.
      apply has_node_add_edges. left. exact H.
    + inversion Hin. subst k' el'. left. unfold add_structure_of. simpl.
      apply has_node_add_edges. left. apply has_node_add_edges. right. exact Hj.
    + right. exists k', el'. auto.
Qed.

Lemma raise_for_each_node_at (pet : PETGraphX) (F : list CuNode -> CuNode -> result (list CuNode))
  (es : list Edge) :
  (forall res n, F res n <> OutOfFuel) ->
  (forall res n e, F res n = Raise e -> e = KeyError) ->
  (exists e, In e es /\ node_at pet (e_tgt e) = Raise KeyError) ->
  forall base,
    for_each es (fun res e => n <- node_at pet (e_tgt e) ;; F res n) base = Raise KeyError.
Proof.
  intros Hfuel Hraise.
  induction es as [| e es IH]; intros [x [Hx Hn]] base.
  - destruct Hx.
  - simpl. destruct Hx as [Hx | Hx].
    + subst x. rewrite Hn. reflexivity.
    + destruct (node_at pet (e_tgt e)) as [n | ex |] eqn:En; simpl.
      * destruct (F base n) as [r | ex |] eqn:EF; simpl.
        -- apply IH. exists x. auto.
        -- rewrite (Hraise _ _ _ EF). reflexivity.
        -- exfalso. exact (Hfuel _ _ EF).
      * assert (Hk : ex = KeyError).
        { unfold node_at in En. clear -En.
          induction (nodes (g pet)) as [| [k d] ns IHn]; simpl in En.
          - inversion En. reflexivity.
          - destruct (String.eqb k (e_tgt e)).
            + destruct d; inversion En. reflexivity.
            + apply IHn. exact En. }
        rewrite Hk. reflexivity.
      * exfalso. unfold node_at in En. clear -En.
        induction (nodes (g pet)) as [| [k d] ns IHn]; simpl in En.
        -- discriminate.
        -- destruct (String.eqb k (e_tgt e)).
           ++ destruct d; discriminate.
           ++ apply IHn. exact En.
Qed.

(** X7. A child listed in childrenNodes without an entry of its own is
    accepted by the constructor (the source only prints a warning), and the
    queries do not survive it: the CHILD edge is in the graph, [node_at]
    of the child raises KeyError, [all_nodes] with a type raises
    AttributeError, and [direct_children_of_type] of the parent raises
    KeyError. *)
Theorem dangling_child_breaks_queries (cu_dict : list (string * CuElement))
  (deps : list DependenceItem) (loop_data : list (string * Z)) (rvs : list ReductionVar)
  (pet : PETGraphX) (parent c : string) (el : CuElement) (root : CuNode) (ty : CuType) :
  NoDup (map fst cu_dict) ->
  init readline writeline cu_dict deps loop_data rvs = Ok pet ->
  In (parent, el) cu_dict ->
  In c (opt_list (childrenNodes el)) ->
  ~ In c (map fst cu_dict) ->
  id root = parent ->
  In (parent, c, Dependency_init CHILD) (edges (g pet))
  /\ node_at pet c = Raise KeyError
  /\ all_nodes pet ty = Raise AttributeError
  /\ direct_children_of_type pet root ty = Raise KeyError.
Proof.
  intros Hnd Hinit Hel Hc Hout Hroot. subst parent.
  unfold init in Hinit. apply bind_ok in Hinit.
  destruct Hinit as [gr [Hgr H]]. inversion H. subst. clear H.
  destruct (extends_add_dependencies _ _ _ Hgr) as [Hl [Hh [more [Hm _]]]].
  assert (Hedge : In (id root, c, Dependency_init CHILD) (edges (g (mkPET gr rvs)))).
  { simpl. rewrite Hm. apply in_or_app. left. apply in_edges_structure_graph.
    exists (id root), el. split; [exact Hel |]. left. exists c. auto. }
  assert (Hnode : node_at (mkPET gr rvs) c = Raise KeyError).
  { unfold node_at. simpl.
    rewrite Hl, (lookup_structure_graph _ _ _ Hnd), (entry_of_none cu_dict c Hout).
    reflexivity. }
  split; [exact Hedge |]. split; [exact Hnode |]. split.
  - unfold all_nodes. apply all_nodes_without_data. exists c.
    apply node_without_data; [| exact Hnode]. simpl.
    apply Hh. unfold structure_graph. apply has_node_add_structure.
    right. exists (id root), el. auto.
  - unfold direct_children_of_type.
    apply (raise_for_each_node_at (mkPET gr rvs)
             (fun res n => Ok (if CuType_eqb (type n) ty then res ++ [n] else res))).
    + intros res n. discriminate.
    + intros res n e. discriminate.
    + exists (id root, c, Dependency_init CHILD). split; [| exact Hnode].
      apply in_out_edges. auto.
Qed.

End ConstructionQueries.

Lemma dangling_child_keys : NoDup (map fst Cases.dangling_child).
Proof.
  simpl. constructor.
  - intros [H | []]. discriminate H.
  - constructor; [intros [] | constructor].
Qed.

Lemma init_node_at_witness :
  exists pet,
    PETGraphX.init Examples.readline_map Examples.writeline_map
      Cases.dangling_child [] [("1:2", 40%Z)] [] = Ok pet
    /\ PETGraphX.node_at pet "1:2"
       = Ok (Notions.stored [("1:2", 40%Z)]
               (Examples.cu_node "1:2" 2 PETGraphX.LOOP 2 8 false false))
    /\ PETGraphX.node_at pet "1:7" = Raise KeyError.
Proof.
  eexists. split; [reflexivity |]. split.
  - apply (init_node_at Examples.readline_map Examples.writeline_map
             Cases.dangling_child [] [("1:2", 40%Z)] [] _ "1:2"
             dangling_child_keys eq_refl).
  - apply (init_node_at Examples.readline_map Examples.writeline_map
             Cases.dangling_child [] [("1:2", 40%Z)] [] _ "1:7"
             dangling_child_keys eq_refl).
Defined.

Lemma init_structure_edges_witness :
  exists pet,
    PETGraphX.init Examples.readline_map Examples.writeline_map
      Examples.two_cus Examples.four_records [] [] = Ok pet
    /\ (In ("1:1", "1:2", PETGraphX.Dependency_init PETGraphX.SUCCESSOR)
           (PETGraphX.edges (PETGraphX.g pet))
        /\ PETGraphX.etype
             (PETGraphX.e_data ("1:1", "1:2", PETGraphX.Dependency_init PETGraphX.SUCCESSOR))
           <> PETGraphX.DATA
        <-> Notions.structure_edge Examples.two_cus
              ("1:1", "1:2", PETGraphX.Dependency_init PETGraphX.SUCCESSOR)).
Proof.
  eexists. split; [reflexivity |].
  apply (init_structure_edges Examples.readline_map Examples.writeline_map
           Examples.two_cus Examples.four_records [] [] _ _ eq_refl).
Defined.



Lemma dangling_child_breaks_queries_witness :
  exists pet,
    PETGraphX.init Examples.readline_map Examples.writeline_map
      Cases.dangling_child [] [] [] = Ok pet
    /\ In ("1:1", "1:7", PETGraphX.Dependency_init PETGraphX.CHILD)
          (PETGraphX.edges (PETGraphX.g pet))
    /\ PETGraphX.node_at pet "1:7" = Raise KeyError
    /\ PETGraphX.all_nodes pet PETGraphX.LOOP = Raise AttributeError
    /\ PETGraphX.direct_children_of_type pet
         (Examples.cu_node "1:1" 1 PETGraphX.FUNC 1 9 false false) PETGraphX.LOOP
       = Raise KeyError.
Proof.
  eexists. split; [reflexivity |].
  apply (dangling_child_breaks_queries Examples.readline_map Examples.writeline_map
           Cases.dangling_child [] [] [] _ "1:1" "1:7"
           (PETGraphX.mkCuElement
              (Examples.cu_node "1:1" 1 PETGraphX.FUNC 1 9 false false)
              (Some ["1:2"; "1:7"]) None)
           (Examples.cu_node "1:1" 1 PETGraphX.FUNC 1 9 false false) PETGraphX.LOOP
           dangling_child_keys eq_refl).
  - left. reflexivity.
  - right. left. reflexivity.
  - simpl. intros [H | [H | []]]; discriminate H.
  - reflexivity.
Defined.

(** ** PETGraphX: loop indices, read-only variables and dependences *)

Section DependencyQueries.
Import PETGraphX Spec Notions.

Lemma opt_str_eqb_eq (a b : option string) : opt_str_eqb a b = true <-> a = b.
Proof.
  destruct a as [x |], b as [y |]; simpl; split; intros H;
    try reflexivity; try discriminate.
  - apply String.eqb_eq in H. subst. reflexivity.
  - inversion H. apply String.eqb_refl.
Qed.

Lemma str_in_spec (x : string) (l : list string) : str_in x l = true <-> In x l.
Proof.
  unfold str_in. rewrite existsb_exists. split.
  - intros [y [Hy H]]. apply String.eqb_eq in H. subst. exact Hy.
  - intros H. exists x. split; [exact H | apply String.eqb_refl].
Qed.

Lemma opt_str_in_spec (o : option string) (l : list string) :
  opt_str_in o l = true <-> exists s, o = Some s /\ In s l.
Proof.
  destruct o as [x |]; simpl.
  - rewrite str_in_spec. split.
    + intros H. exists x. auto.
    + intros [s [Hs H]]. inversion Hs. subst. exact H.
  - split; [discriminate | intros [s [Hs _]]; discriminate].
Qed.

Lemma header_test (e : Edge) (lsl : list string) :
  opt_str_eqb (sink (e_data e)) (source (e_data e))
  && opt_str_in (source (e_data e)) lsl = true
  <-> exists s, sink (e_data e) = Some s /\ source (e_data e) = Some s /\ In s lsl.
Proof.
  rewrite andb_true_iff, opt_str_eqb_eq, opt_str_in_spec. split.
  - intros [H1 [s [H2 H3]]]. exists s. rewrite H1. auto.
  - intros [s [H1 [H2 H3]]]. split; [congruence | exists s; auto].
Qed.

Lemma loop_index_edges_spec (pet : PETGraphX) (lsl : list string)
  (children : list CuNode) (es : list Edge) (b : bool) :
  loop_index_edges pet lsl children es = Ok b ->
  (b = true <-> exists e n, In e es /\ header_edge pet lsl children e n).
Proof.
  revert b. induction es as [| e es IH]; intros b H; simpl in H.
  - inversion H. split; [discriminate | intros [e [n [[] _]]]].
  - destruct (opt_str_eqb (sink (e_data e)) (source (e_data e))
              && opt_str_in (source (e_data e)) lsl) eqn:Et.
    + apply bind_ok in H. destruct H as [n [Hn H]].
      destruct (node_in n children) eqn:Ein.
      * inversion H. split; [| reflexivity]. intros _. exists e, n.
        split; [left; reflexivity |]. split; [apply header_test; exact Et |].
        split; [exact Hn | apply node_in_has_id; exact Ein].
      * rewrite (IH b H). split.
        -- intros [e0 [n0 [He0 Hh]]]. exists e0, n0. split; [right; exact He0 | exact Hh].
        -- intros [e0 [n0 [[He0 | He0] Hh]]].
           ++ subst e0. destruct Hh as [_ [Hn0 Hid]]. rewrite Hn in Hn0.
              inversion Hn0. subst n0. apply node_in_has_id in Hid.
              rewrite Hid in Ein. discriminate.
           ++ exists e0, n0. auto.
    + rewrite (IH b H). split.
      * intros [e0 [n0 [He0 Hh]]]. exists e0, n0. split; [right; exact He0 | exact Hh].
      * intros [e0 [n0 [[He0 | He0] Hh]]].
        -- subst e0. destruct Hh as [Hs _]. apply header_test in Hs.
           rewrite Hs in Et. discriminate.
        -- exists e0, n0. auto.
Qed.

Lemma loop_index_children_spec (pet : PETGraphX) (var : option string)
  (lsl : list string) (children cs : list CuNode) (b : bool) :
  loop_index_children pet var lsl children cs = Ok b ->
  (b = true <->
   exists c e n,
     In c cs /\ raw_edge_of pet c e /\ var_name (e_data e) = var
     /\ header_edge pet lsl children e n).
Proof.
  revert b. induction cs as [| c cs IH]; intros b H; simpl in H.
  - inversion H. split; [discriminate | intros [c [e [n [[] _]]]]].
  - apply bind_ok in H. destruct H as [found [Hf H]].
    pose proof (loop_index_edges_spec _ _ _ _ _ Hf) as Hspec.
    destruct found.
    + inversion H. split; [| reflexivity]. intros _.
      destruct (proj1 Hspec eq_refl) as [e [n [He Hh]]].
      apply filter_In in He. destruct He as [He Hv].
      exists c, e, n. split; [left; reflexivity |].
      split; [apply in_raw_out; exact He |].
      split; [apply opt_str_eqb_eq; exact Hv | exact Hh].
    + rewrite (IH b H). split.
      * intros [c0 [e [n [Hc Hr]]]]. exists c0, e, n. split; [right; exact Hc | exact Hr].
      * intros [c0 [e [n [[Hc | Hc] [Hr [Hv Hh]]]]]].
        -- subst c0. assert (Habs : false = true); [| discriminate Habs].
           apply Hspec. exists e, n. split; [| exact Hh].
           apply filter_In. split; [apply in_raw_out; exact Hr |].
           apply opt_str_eqb_eq. exact Hv.
        -- exists c0, e, n. auto.
Qed.

(** X8. [is_loop_index] returns on a graph whose edges lead to nodes with
    data, and it answers True exactly when one of the given children has a
    RAW dependence on the variable whose sink and source are the same
    line, that line being one of the given loop start lines, and whose
    target is one of the children again. *)
Theorem is_loop_index_spec (pet : PETGraphX) (var : option string) (lsl : list string)
  (children : list CuNode) :
  targets_have_data pet ->
  exists b,
    is_loop_index pet var lsl children = Ok b
    /\ (b = true <->
        exists c e n s,
          In c children /\ raw_edge_of pet c e /\ var_name (e_data e) = var
          /\ sink (e_data e) = Some s /\ source (e_data e) = Some s /\ In s lsl
          /\ node_at pet (e_tgt e) = Ok n /\ has_id (id n) children).
Proof.
  intros Hdata. destruct (is_loop_index_total pet var lsl children Hdata) as [b Hb].
  exists b. split; [exact Hb |].
  unfold is_loop_index in Hb. rewrite (loop_index_children_spec _ _ _ _ _ _ Hb). split.
  - intros [c [e [n [Hc [Hr [Hv [[s [H1 [H2 H3]]] [Hn Hid]]]]]]]].
    exists c, e, n, s. auto 10.
  - intros [c [e [n [s [Hc [Hr [Hv [H1 [H2 [H3 [Hn Hid]]]]]]]]]]].
    exists c, e, n. split; [exact Hc |]. split; [exact Hr |]. split; [exact Hv |].
    split; [exists s; auto | auto].
Qed.

Lemma loop_line_below_spec (fuel : nat) (pet : PETGraphX) (root_loop : CuNode)
  (loops : list CuNode) (o : option string) :
  subtree_of_type fuel pet root_loop LOOP = Ok loops ->
  (opt_str_in o (map start_position loops) = true <-> loop_line_below pet root_loop o).
Proof.
  intros Hl. rewrite opt_str_in_spec. unfold loop_line_below. split.
  - intros [s [Ho Hs]]. apply in_map_iff in Hs. destruct Hs as [l [Hp Hin]].
    exists s, l. split; [exact Ho |]. split; [| exact Hp].
    apply (subtree_of_type_spec _ _ _ _ _ Hl). exact Hin.
  - intros [s [l [Ho [Hin Hp]]]]. exists s. split; [exact Ho |].
    apply in_map_iff. exists l. split; [exact Hp |].
    apply (subtree_of_type_spec _ _ _ _ _ Hl). exact Hin.
Qed.

Lemma war_waw_test (d : Dependency) :
  opt_dtype_is (dtype d) WAR || opt_dtype_is (dtype d) WAW = true <-> is_war_waw d.
Proof.
  unfold is_war_waw. rewrite orb_true_iff, !opt_dtype_is_eq. tauto.
Qed.

Lemma negb_iff (b : bool) (P : Prop) : (b = true <-> P) -> (negb b = true <-> ~ P).
Proof.
  intros H. destruct b; simpl; split; intros H1.
  - discriminate.
  - exfalso. apply H1. apply H. reflexivity.
  - intros HP. apply H in HP. discriminate.
  - reflexivity.
Qed.

Lemma written_at_spec (fuel : nat) (pet : PETGraphX) (dep : Dependency)
  (root_loop v : CuNode) (loops : list CuNode) :
  subtree_of_type fuel pet root_loop LOOP = Ok loops ->
  (written_at pet dep (map start_position loops) v = true
   <-> exists e, written_by pet root_loop dep v e).
Proof.
  intros Hl. unfold written_at, written_by.
  rewrite orb_true_iff, !existsb_exists. split.
  - intros [[e [He Ht]] | [e [He Ht]]].
    + apply in_out_edges in He. destruct He as [He [Hs Hty]].
      apply andb_true_iff in Ht. destruct Ht as [Ht Hn].
      apply andb_true_iff in Ht. destruct Ht as [Hw Hv].
      exists e. split; [exact He |]. split; [exact Hty |].
      split; [apply opt_str_eqb_eq; exact Hv |]. left.
      split; [exact Hs |]. split; [apply war_waw_test; exact Hw |].
      apply (negb_iff _ _ (loop_line_below_spec fuel pet root_loop loops _ Hl)). exact Hn.
    + apply in_in_edges in He. destruct He as [He [Hs Hty]].
      apply andb_true_iff in Ht. destruct Ht as [Ht Hn].
      apply andb_true_iff in Ht. destruct Ht as [Hw Hv].
      exists e. split; [exact He |]. split; [exact Hty |].
      split; [apply opt_str_eqb_eq; exact Hv |]. right.
      split; [exact Hs |]. split; [apply opt_dtype_is_eq; exact Hw |].
      apply (negb_iff _ _ (loop_line_below_spec fuel pet root_loop loops _ Hl)). exact Hn.
  - intros [e [He [Hty [Hv [[Hs [Hw Hn]] | [Hs [Hw Hn]]]]]]].
    + left. exists e. split; [apply in_out_edges; auto |].
      rewrite !andb_true_iff. split; [split |].
      * apply war_waw_test. exact Hw.
      * apply opt_str_eqb_eq. exact Hv.
      * apply (negb_iff _ _ (loop_line_below_spec fuel pet root_loop loops _ Hl)). exact Hn.
    + right. exists e. split; [apply in_in_edges; auto |].
      rewrite !andb_true_iff. split; [split |].
      * apply opt_dtype_is_eq. exact Hw.
      * apply opt_str_eqb_eq. exact Hv.
      * apply (negb_iff _ _ (loop_line_below_spec fuel pet root_loop loops _ Hl)). exact Hn.
Qed.

(** X9. On a graph whose edges lead to nodes with data and whose CHILD
    edges form no cycle, [is_readonly_inside_loop_body] returns, and it
    answers False exactly when a CU below the root loop has, on the
    variable of the dependence, a WAR or WAW edge leaving it whose sink is
    no start line of a loop below the root loop, or a RAW edge entering it
    whose source is no such line. *)
Theorem is_readonly_inside_loop_body_spec (pet : PETGraphX) (rank : string -> nat)
  (fuel : nat) (dep : Dependency) (root_loop : CuNode) :
  targets_have_data pet ->
  child_ranked pet rank ->
  rank (id root_loop) < fuel ->
  exists b,
    is_readonly_inside_loop_body fuel pet dep root_loop = Ok b
    /\ (b = false <->
        exists v e, in_subtree pet root_loop CU v /\ written_by pet root_loop dep v e).
Proof.
  intros Hdata Hrank Hr.
  destruct (subtree_of_type_total pet rank LOOP Hdata Hrank fuel root_loop Hr) as [loops Hl].
  destruct (subtree_of_type_total pet rank CU Hdata Hrank fuel root_loop Hr) as [cus Hc].
  unfold is_readonly_inside_loop_body. rewrite Hl, Hc. simpl.
  eexists. split; [reflexivity |].
  rewrite negb_false_iff, existsb_exists. split.
  - intros [v [Hv Hw]]. exists v.
    apply (written_at_spec fuel pet dep root_loop v loops Hl) in Hw.
    destruct Hw as [e He]. exists e. split; [| exact He].
    apply (subtree_of_type_spec _ _ _ _ _ Hc). exact Hv.
  - intros [v [e [Hv He]]]. exists v. split.
    + apply (subtree_of_type_spec _ _ _ _ _ Hc). exact Hv.
    + apply (written_at_spec fuel pet dep root_loop v loops Hl). exists e. exact He.
Qed.

(** The set [get_all_dependencies] returns, by the ids of its nodes. *)
Lemma dependencies_collected (pet : PETGraphX) (rank : string -> nat) (fuel : nat)
  (node root_loop : CuNode) :
  targets_have_data pet ->
  child_ranked pet rank ->
  rank (id node) < fuel ->
  rank (id root_loop) < fuel ->
  exists deps,
    get_all_dependencies fuel pet node root_loop = Ok deps
    /\ forall i,
         has_id i deps <->
         exists v e n,
           in_subtree pet node CU v
           /\ raw_edge_of pet v e
           /\ excluded fuel pet root_loop (e_data e) = Ok false
           /\ node_at pet (e_tgt e) = Ok n
           /\ id n = i.
Proof.
  intros Hdata Hrank Hn Hr.
  destruct (subtree_of_type_total pet rank CU Hdata Hrank fuel node Hn) as [children Hch].
  destruct (subtree_of_type_total pet rank LOOP Hdata Hrank fuel root_loop Hr) as [loops Hl].
  destruct (subtree_of_type_total pet rank CU Hdata Hrank fuel root_loop Hr) as [cus Hc].
  unfold get_all_dependencies. rewrite Hch, Hl. simpl.
  rewrite (for_each_flat_map (raw_out pet)
             (fun dep_set e =>
                r <- dependency_of_edge fuel pet (map start_position loops) root_loop e ;;
                Ok (match r with Some n => set_add dep_set n | None => dep_set end))).
  assert (Hedge : forall e, In e (flat_map (raw_out pet) children) -> In e (edges (g pet))).
  { intros e He. apply in_flat_map in He. destruct He as [v [_ He]].
    apply in_raw_out in He. destruct He as [He _]. exact He. }
  destruct (collect_set_total
              (dependency_of_edge fuel pet (map start_position loops) root_loop)
              (flat_map (raw_out pet) children)) with (s := @nil CuNode) as [deps Hdeps].
  { intros e He.
    exact (proj1 (dependency_of_edge_spec fuel pet root_loop loops cus e Hdata (Hedge e He) Hl Hc)). }
  exists deps. split; [exact Hdeps |].
  intros i. rewrite (collect_set_spec _ _ _ _ Hdeps i). split.
  - intros [[m [[] _]] | [e [n [He [Hf Hi]]]]].
    apply in_flat_map in He. destruct He as [v [Hv He]].
    exists v, e, n.
    apply (subtree_of_type_spec _ _ _ _ _ Hch) in Hv.
    apply in_raw_out in He.
    apply (proj2 (dependency_of_edge_spec fuel pet root_loop loops cus e Hdata (proj1 He) Hl Hc)) in Hf.
    destruct Hf as [Hex Hnode]. auto.
  - intros [v [e [n [Hv [He [Hex [Hnode Hi]]]]]]]. right. exists e, n.
    split; [| split; [| exact Hi]].
    + apply in_flat_map. exists v. split.
      * apply (subtree_of_type_spec _ _ _ _ _ Hch). exact Hv.
      * apply in_raw_out. exact He.
    + apply (proj2 (dependency_of_edge_spec fuel pet root_loop loops cus e Hdata (proj1 He) Hl Hc)). auto.
Qed.

(** X10. On such a graph [depends_ignore_readonly(source, target,
    root_loop)] returns, and it answers True exactly when a CU that is the
    source or lies below it has a RAW dependence, not excluded as a loop
    index or as read-only, that leads to a node with the id of a CU that
    is the target or lies below it. (A target that is no CU does not count
    itself.) *)
Theorem depends_ignore_readonly_spec (pet : PETGraphX) (rank : string -> nat)
  (fuel : nat) (source_ target root_loop : CuNode) :
  targets_have_data pet ->
  child_ranked pet rank ->
  rank (id source_) < fuel ->
  rank (id target) < fuel ->
  rank (id root_loop) < fuel ->
  exists b,
    depends_ignore_readonly fuel pet source_ target root_loop = Ok b
    /\ (b = true <->
        exists v e n c,
          in_subtree pet source_ CU v
          /\ raw_edge_of pet v e
          /\ excluded fuel pet root_loop (e_data e) = Ok false
          /\ node_at pet (e_tgt e) = Ok n
          /\ in_subtree pet target CU c
          /\ id c = id n).
Proof.
  intros Hdata Hrank Hs Ht Hr.
  destruct (subtree_of_type_total pet rank CU Hdata Hrank fuel target Ht) as [children Hch].
  destruct (dependencies_collected pet rank fuel source_ root_loop Hdata Hrank Hs Hr)
    as [deps [Hdeps Hspec]].
  unfold depends_ignore_readonly. rewrite Hch, Hdeps. simpl.
  eexists. split; [reflexivity |].
  rewrite existsb_exists. split.
  - intros [dep [Hin Hd]]. apply node_in_has_id in Hd. destruct Hd as [c [Hc Hid]].
    assert (Hh : has_id (id dep) deps) by (exists dep; auto).
    apply Hspec in Hh. destruct Hh as [v [e [n [Hv [He [Hex [Hn Hi]]]]]]].
    exists v, e, n, c. repeat (split; [assumption |]). split.
    + apply (subtree_of_type_spec _ _ _ _ _ Hch). exact Hc.
    + congruence.
  - intros [v [e [n [c [Hv [He [Hex [Hn [Hc Hid]]]]]]]]].
    assert (Hh : has_id (id n) deps).
    { apply Hspec. exists v, e, n. auto. }
    destruct Hh as [dep [Hin Hi]]. exists dep. split; [exact Hin |].
    apply node_in_has_id. exists c. split.
    + apply (subtree_of_type_spec _ _ _ _ _ Hch). exact Hc.
    + congruence.
Qed.

End DependencyQueries.

Lemma loop_with_reads_data : Spec.targets_have_data Examples.loop_with_reads.
Proof.
  intros e He. simpl in He.
  repeat (destruct He as [He | He]; [subst e; eexists; reflexivity |]).
  destruct He.
Qed.

Lemma loop_with_reads_ranked :
  Spec.child_ranked Examples.loop_with_reads Examples.loop_with_reads_rank.
Proof.
  intros a c [e [He [Hsrc [Hty Hc]]]]. simpl in He.
  destruct He as [He | He];
    [subst e; simpl in Hsrc, Hc; inversion Hc; subst c; rewrite <- Hsrc;
     simpl; unfold Examples.loop_with_reads_rank; simpl; lia |].
  destruct He as [He | He];
    [subst e; simpl in Hsrc, Hc; inversion Hc; subst c; rewrite <- Hsrc;
     simpl; unfold Examples.loop_with_reads_rank; simpl; lia |].
  repeat (destruct He as [He | He]; [subst e; discriminate Hty |]).
  destruct He.
Qed.

Lemma is_loop_index_spec_witness :
  exists b,
    PETGraphX.is_loop_index Examples.loop_with_reads (Some "i") ["1:1"]
      [Examples.cu_node "1:2" 2 PETGraphX.CU 2 3 false false;
       Examples.cu_node "1:3" 3 PETGraphX.CU 4 5 false false] = Ok b
    /\ (b = true <->
        exists c e n s,
          In c [Examples.cu_node "1:2" 2 PETGraphX.CU 2 3 false false;
                Examples.cu_node "1:3" 3 PETGraphX.CU 4 5 false false]
          /\ Spec.raw_edge_of Examples.loop_with_reads c e
          /\ PETGraphX.var_name (PETGraphX.e_data e) = Some "i"
          /\ PETGraphX.sink (PETGraphX.e_data e) = Some s
          /\ PETGraphX.source (PETGraphX.e_data e) = Some s
          /\ In s ["1:1"]
          /\ PETGraphX.node_at Examples.loop_with_reads (PETGraphX.e_tgt e) = Ok n
          /\ Spec.has_id (PETGraphX.id n)
               [Examples.cu_node "1:2" 2 PETGraphX.CU 2 3 false false;
                Examples.cu_node "1:3" 3 PETGraphX.CU 4 5 false false]).
Proof.
  apply (is_loop_index_spec Examples.loop_with_reads (Some "i") ["1:1"]
           [Examples.cu_node "1:2" 2 PETGraphX.CU 2 3 false false;
            Examples.cu_node "1:3" 3 PETGraphX.CU 4 5 false false]
           loop_with_reads_data).
Defined.

Lemma is_readonly_inside_loop_body_spec_witness :
  exists b,
    PETGraphX.is_readonly_inside_loop_body 2 Examples.loop_with_reads
      (PETGraphX.mkDependency PETGraphX.DATA (Some PETGraphX.RAW) (Some "n")
         (Some "1:0") (Some "1:4"))
      (Examples.cu_node "1:1" 1 PETGraphX.LOOP 1 9 false false) = Ok b
    /\ (b = false <->
        exists v e,
          Spec.in_subtree Examples.loop_with_reads
            (Examples.cu_node "1:1" 1 PETGraphX.LOOP 1 9 false false) PETGraphX.CU v
          /\ Notions.written_by Examples.loop_with_reads
               (Examples.cu_node "1:1" 1 PETGraphX.LOOP 1 9 false false)
               (PETGraphX.mkDependency PETGraphX.DATA (Some PETGraphX.RAW) (Some "n")
                  (Some "1:0") (Some "1:4"))
               v e).
Proof.
  apply (is_readonly_inside_loop_body_spec Examples.loop_with_reads
           Examples.loop_with_reads_rank 2).
  - exact loop_with_reads_data.
  - exact loop_with_reads_ranked.
  - simpl. unfold Examples.loop_with_reads_rank. simpl. lia.
Defined.

Lemma depends_ignore_readonly_spec_witness :
  exists b,
    PETGraphX.depends_ignore_readonly 2 Examples.loop_with_reads
      (Examples.cu_node "1:3" 3 PETGraphX.CU 4 5 false false)
      (Examples.cu_node "1:2" 2 PETGraphX.CU 2 3 false false)
      (Examples.cu_node "1:1" 1 PETGraphX.LOOP 1 9 false false) = Ok b
    /\ (b = true <->
        exists v e n c,
          Spec.in_subtree Examples.loop_with_reads
            (Examples.cu_node "1:3" 3 PETGraphX.CU 4 5 false false) PETGraphX.CU v
          /\ Spec.raw_edge_of Examples.loop_with_reads v e
          /\ Spec.excluded 2 Examples.loop_with_reads
               (Examples.cu_node "1:1" 1 PETGraphX.LOOP 1 9 false false)
               (PETGraphX.e_data e) = Ok false
          /\ PETGraphX.node_at Examples.loop_with_reads (PETGraphX.e_tgt e) = Ok n
          /\ Spec.in_subtree Examples.loop_with_reads
               (Examples.cu_node "1:2" 2 PETGraphX.CU 2 3 false false) PETGraphX.CU c
          /\ PETGraphX.id c = PETGraphX.id n).
Proof.
  apply (depends_ignore_readonly_spec Examples.loop_with_reads
           Examples.loop_with_reads_rank 2).
  - exact loop_with_reads_data.
  - exact loop_with_reads_ranked.
  - simpl. unfold Examples.loop_with_reads_rank. simpl. lia.
  - simpl. unfold Examples.loop_with_reads_rank. simpl. lia.
  - simpl. unfold Examples.loop_with_reads_rank. simpl. lia.
Defined.

Example depends_ignore_readonly_loop_with_reads :
  PETGraphX.depends_ignore_readonly 2 Examples.loop_with_reads
    (Examples.cu_node "1:3" 3 PETGraphX.CU 4 5 false false)
    (Examples.cu_node "1:2" 2 PETGraphX.CU 2 3 false false)
    (Examples.cu_node "1:1" 1 PETGraphX.LOOP 1 9 false false) = Ok true
  /\ PETGraphX.depends_ignore_readonly 2 Examples.loop_with_reads
       (Examples.cu_node "1:3" 3 PETGraphX.CU 4 5 false false)
       (Examples.cu_node "1:1" 1 PETGraphX.LOOP 1 9 false false)
       (Examples.cu_node "1:1" 1 PETGraphX.LOOP 1 9 false false) = Ok true
  /\ PETGraphX.is_loop_index Examples.loop_with_reads (Some "i") ["1:1"]
       [Examples.cu_node "1:2" 2 PETGraphX.CU 2 3 false false;
        Examples.cu_node "1:3" 3 PETGraphX.CU 4 5 false false] = Ok true.
Proof. repeat split. Qed.

(** ** pattern_detection.py: iteration counts and the chunk limit *)

Section ChunkLimit.
Import GraphTool PatternDetection Spec Notions.

Lemma parent_iterations_positive (fuel : nat) (self : PatternDetector) :
  forall parent p, parent_iterations_from fuel self parent = Ok p -> (1 <= p)%Z.
Proof.
  induction fuel as [| fuel IH]; intros parent p H; simpl in H.
  - discriminate.
  - destruct parent as [| node rest].
    + inversion H. lia.
    + destruct (String.eqb (vp_type (pet self) node) "2").
      * inversion H. lia.
      * exact (IH _ _ H).
Qed.

Lemma in_gt_in_edges (gr : Graph) (v : Vertex) (e : Edge) :
  In e (GraphTool.in_edges gr v) <-> In e (GraphTool.edges gr) /\ e_target e = v.
Proof.
  unfold GraphTool.in_edges. rewrite filter_In, Nat.eqb_eq. tauto.
Qed.

Lemma in_child_parents (gr : Graph) (node s : Vertex) :
  In s (map e_source
            (filter (fun e => String.eqb (ep_type e) "child") (GraphTool.in_edges gr node)))
  <-> exists e,
        In e (GraphTool.edges gr) /\ e_source e = s /\ e_target e = node
        /\ ep_type e = "child".
Proof.
  rewrite in_map_iff. split.
  - intros [e [Hs He]]. apply filter_In in He. destruct He as [He Ht].
    apply in_gt_in_edges in He. apply String.eqb_eq in Ht.
    exists e. tauto.
  - intros [e [He [Hs [Ht Hc]]]]. exists e. split; [exact Hs |].
    apply filter_In. split; [apply in_gt_in_edges; auto | apply String.eqb_eq; exact Hc].
Qed.

Lemma parent_iterations_total (self : PatternDetector) (rank : Vertex -> nat) (bound : nat) :
  gt_child_ranked (pet self) rank ->
  (forall v, rank v < bound) ->
  forall (fuel : nat) (parent : list Vertex),
    0 < fuel ->
    (forall v, In v parent -> bound - rank v < fuel) ->
    exists p, parent_iterations_from fuel self parent = Ok p.
Proof.
  intros Hrank Hb. induction fuel as [| fuel IH]; intros parent Hf Hp.
  - lia.
  - simpl. destruct parent as [| node rest]; [eexists; reflexivity |].
    destruct (String.eqb (vp_type (pet self) node) "2"); [eexists; reflexivity |].
    pose proof (Hp node (or_introl eq_refl)) as Hn. pose proof (Hb node) as Hbn.
    apply IH; [lia |].
    intros s Hs. apply in_child_parents in Hs.
    destruct Hs as [e [He [Hs [Ht Hc]]]].
    pose proof (Hrank e He Hc) as Hlt. rewrite Hs, Ht in Hlt.
    pose proof (Hb s). lia.
Qed.

Lemma get_parent_iterations_total (fuel : nat) (self : PatternDetector)
  (rank : Vertex -> nat) (node : Vertex) :
  gt_child_ranked (pet self) rank ->
  (forall v, rank v < fuel) ->
  exists p, get_parent_iterations fuel self node = Ok p /\ (1 <= p)%Z.
Proof.
  intros Hrank Hb.
  destruct (parent_iterations_total self rank fuel Hrank Hb fuel
              (map e_source
                   (filter (fun e => String.eqb (ep_type e) "child")
                           (GraphTool.in_edges (pet self) node)))) as [p Hp].
  - pose proof (Hb node). lia.
  - intros s Hs. apply in_child_parents in Hs.
    destruct Hs as [e [He [Hs [Ht Hc]]]].
    pose proof (Hrank e He Hc) as Hlt. rewrite Hs, Ht in Hlt.
    pose proof (Hb s). lia.
  - exists p. split; [exact Hp |].
    exact (parent_iterations_positive fuel self _ p Hp).
Qed.

(** The count of a loop with the recorded count [li] under a parent of [p]
    iterations. *)
Lemma count_formula (li p : Z) :
  (1 <= p)%Z ->
  (if Z.ltb li p then li
   else if Z.eqb li 0 || Z.eqb p 0 then 0%Z else Z.div li p)
  = (if Z.ltb li p then li else Z.div li p).
Proof.
  intros Hp. destruct (Z.ltb li p) eqn:E; [reflexivity |].
  apply Z.ltb_ge in E.
  destruct (Z.eqb li 0) eqn:E1; [apply Z.eqb_eq in E1; lia |].
  destruct (Z.eqb p 0) eqn:E2; [apply Z.eqb_eq in E2; lia |].
  reflexivity.
Qed.

Lemma count_positive (li p : Z) :
  (1 <= p)%Z ->
  (0 < (if Z.ltb li p then li else Z.div li p) <-> 0 < li)%Z.
Proof.
  intros Hp. destruct (Z.ltb li p) eqn:E; [tauto |].
  apply Z.ltb_ge in E. split; intros H; [lia |].
  apply Z.div_str_pos. lia.
Qed.




(** X12. On a graph whose child edges form no cycle, the count
    [__iterations_count] computes for a loop not yet in the cache is the
    recorded count [li] of the loop when that is below the iterations [p] of
    the enclosing loop, and [li // p] otherwise. [p] is at least 1, so no
    division by zero occurs, the branch for [parent_iter == 0] is never
    the one that decides, and the count is positive exactly when the
    recorded count is. *)
Theorem iterations_count_value (fuel : nat) (self : PatternDetector)
  (rank : Vertex -> nat) (node : Vertex) :
  gt_child_ranked (pet self) rank ->
  (forall v, rank v < fuel) ->
  cache_get (loop_iterations self) node = None ->
  exists s' n p,
    iterations_count fuel self node = Ok (s', n)
    /\ get_parent_iterations fuel self node = Ok p
    /\ (1 <= p)%Z
    /\ n = (if Z.ltb (recorded self node) p then recorded self node
            else Z.div (recorded self node) p)
    /\ (0 < n <-> 0 < recorded self node)%Z.
Proof.
  intros Hrank Hb Hc.
  destruct (get_parent_iterations_total fuel self rank node Hrank Hb) as [p [Hp H1]].
  exists (with_loop_iterations self
            ((node, if Z.ltb (recorded self node) p then recorded self node
                    else Z.div (recorded self node) p) :: loop_iterations self)).
  exists (if Z.ltb (recorded self node) p then recorded self node
          else Z.div (recorded self node) p).
  exists p. split.
  - unfold iterations_count. rewrite Hc, Hp. simpl.
    fold (recorded self node). rewrite (count_formula _ p H1). reflexivity.
  - split; [exact Hp |]. split; [exact H1 |]. split; [reflexivity |].
    apply count_positive. exact H1.
Qed.


(** What a call of [__iterations_count] keeps and gives when the cache is
    sound. *)
Lemma iterations_count_sound (fuel : nat) (self0 self : PatternDetector)
  (rank : Vertex -> nat) (node : Vertex) :
  gt_child_ranked (pet self0) rank ->
  (forall v, rank v < fuel) ->
  pet self = pet self0 -> loop_data self = loop_data self0 -> cache_sound self ->
  exists s' n,
    iterations_count fuel self node = Ok (s', n)
    /\ pet s' = pet self0 /\ loop_data s' = loop_data self0 /\ cache_sound s'
    /\ (0 < n <-> 0 < recorded self0 node)%Z.
Proof.
  intros Hrank Hb Hpet Hld Hs.
  assert (Hrec : forall v, recorded self v = recorded self0 v).
  { intros v. unfold recorded, get_loop_iterations. rewrite Hpet, Hld. reflexivity. }
  destruct (cache_get (loop_iterations self) node) as [c |] eqn:Hc.
  - exists self, c. unfold iterations_count. rewrite Hc.
    split; [reflexivity |]. split; [exact Hpet |]. split; [exact Hld |].
    split; [exact Hs |]. rewrite <- Hrec. exact (Hs node c Hc).
  - rewrite <- Hpet in Hrank.
    destruct (get_parent_iterations_total fuel self rank node Hrank Hb) as [p [Hp H1]].
    pose proof (count_positive (recorded self node) p H1) as Hpos.
    set (n := if Z.ltb (recorded self node) p then recorded self node
              else Z.div (recorded self node) p) in *.
    exists (with_loop_iterations self ((node, n) :: loop_iterations self)), n.
    split.
    + unfold iterations_count. rewrite Hc, Hp. simpl.
      fold (recorded self node). rewrite (count_formula _ p H1). reflexivity.
    + split; [exact Hpet |]. split; [exact Hld |]. split.
      * intros k v Hkv. simpl in Hkv.
        change (recorded (with_loop_iterations self ((node, n) :: loop_iterations self)) k)
          with (recorded self k).
        destruct (Nat.eqb node k) eqn:E.
        -- apply Nat.eqb_eq in E. subst k. inversion Hkv. subst v. exact Hpos.
        -- exact (Hs k v Hkv).
      * rewrite <- Hrec. exact Hpos.
Qed.

Lemma in_dict_set (d : list (string * Z)) (k : string) (v : Z) (kv : string * Z) :
  In kv (dict_set d k v) -> kv = (k, v) \/ In kv d.
Proof.
  induction d as [| [k' v'] d IH]; simpl.
  - intros [H | []]. left. symmetry. exact H.
  - destruct (String.eqb k' k).
    + intros [H | H]; [left; symmetry; exact H | right; right; exact H].
    + intros [H | H]; [right; left; exact H |].
      destruct (IH H) as [H1 | H1]; [left; exact H1 | right; right; exact H1].
Qed.

Lemma dict_set_keys (d : list (string * Z)) (k : string) (v : Z) (k0 : string) :
  (exists v0, In (k0, v0) (dict_set d k v)) <-> k0 = k \/ exists v0, In (k0, v0) d.
Proof.
  induction d as [| [k' v'] d IH]; simpl.
  - split.
    + intros [v0 [H | []]]. inversion H. left. reflexivity.
    + intros [H | [v0 []]]. subst k0. exists v. left. reflexivity.
  - destruct (String.eqb k' k) eqn:E.
    + apply String.eqb_eq in E. subst k'. split.
      * intros [v0 [H | H]]; [inversion H; left; reflexivity |].
        right. exists v0. right. exact H.
      * intros [H | [v0 [H | H]]].
        -- subst k0. exists v. left. reflexivity.
        -- inversion H. subst. exists v. left. reflexivity.
        -- exists v0. right. exact H.
    + split.
      * intros [v0 [H | H]].
        -- inversion H. subst. right. exists v0. left. reflexivity.
        -- destruct (proj1 IH (ex_intro _ v0 H)) as [H1 | [v1 H1]]; [left; exact H1 |].
           right. exists v1. right. exact H1.
      * intros [H | [v0 [H | H]]].
        -- destruct (proj2 IH (or_introl H)) as [v1 H1]. exists v1. right. exact H1.
        -- inversion H. subst. exists v0. left. reflexivity.
        -- destruct (proj2 IH (or_intror (ex_intro _ v0 H))) as [v1 H1].
           exists v1. right. exact H1.
Qed.

Lemma min_positive (d : list (string * Z)) :
  forall m0 : Z,
    (0 < fold_left (fun m kv => Z.min m (snd kv)) d m0)%Z
    <-> (0 < m0)%Z /\ forall kv, In kv d -> (0 < snd kv)%Z.
Proof.
  induction d as [| kv d IH]; intros m0; simpl.
  - split; [intros H; split; [exact H | intros kv []] | intros [H _]; exact H].
  - rewrite IH. split.
    + intros [H1 H2]. split; [lia |]. intros kv' [Hk | Hk]; [subst kv'; lia | auto].
    + intros [H1 H2]. split.
      * pose proof (H2 kv (or_introl eq_refl)). lia.
      * intros kv' Hk. apply H2. right. exact Hk.
Qed.

(** The keys of the dict [inner_loop_iter] after the loop over the
    children. *)
Lemma chunk_keys (fuel : nat) (gr : Graph) (l : list Vertex) :
  forall (st st' : PatternDetector * list (string * Z)),
    for_each l
      (fun st child =>
         c <- iterations_count fuel (fst st) child ;;
         Ok (fst c, dict_set (snd st) (vp_startsAtLine gr child) (snd c)))
      st = Ok st' ->
    forall k,
      (exists v, In (k, v) (snd st'))
      <-> (exists v, In (k, v) (snd st)) \/ exists c, In c l /\ k = vp_startsAtLine gr c.
Proof.
  induction l as [| x l IH]; intros st st' H k; simpl in H.
  - inversion H. split; [auto | intros [Hk | [c [[] _]]]; exact Hk].
  - apply bind_ok in H. destruct H as [st1 [Hst H]].
    apply bind_ok in Hst. destruct Hst as [c [_ Hst]]. inversion Hst. subst st1.
    clear Hst. rewrite (IH _ _ H k). simpl. rewrite dict_set_keys. split.
    + intros [[Hk | Hk] | [c0 [Hc Hk]]].
      * right. exists x. auto.
      * left. exact Hk.
      * right. exists c0. auto.
    + intros [Hk | [c0 [[Hc | Hc] Hk]]].
      * left. right. exact Hk.
      * subst c0. left. left. exact Hk.
      * right. exists c0. auto.
Qed.

(** X13. With a cache that is empty, or filled by [__iterations_count], and
    child edges that form no cycle, [__test_chunk_limit] returns, and it
    answers True exactly when the node has at least one inner loop (a LOOP
    child, or a LOOP child of a FUNC child) and the recorded count of every
    inner loop is positive: an inner loop without a record, or with the
    count 0, makes the answer False, and so does the absence of inner
    loops. The iterations of enclosing loops play no part in the answer. *)
Theorem test_chunk_limit_spec (fuel : nat) (self : PatternDetector)
  (rank : Vertex -> nat) (node : Vertex) :
  gt_child_ranked (pet self) rank ->
  (forall v, rank v < fuel) ->
  cache_sound self ->
  exists s' b,
    test_chunk_limit fuel self node = Ok (s', b)
    /\ cache_sound s'
    /\ (b = true <->
        inner_loops (pet self) node <> []
        /\ forall c, In c (inner_loops (pet self) node) -> (0 < recorded self c)%Z).
Proof.
  intros Hrank Hb Hs. unfold test_chunk_limit. fold (inner_loops (pet self) node).
  set (step := fun (st : PatternDetector * list (string * Z)) (child : Vertex) =>
                 c <- iterations_count fuel (fst st) child ;;
                 Ok (fst c, dict_set (snd st) (vp_startsAtLine (pet self) child) (snd c))).
  destruct (for_each_total step
              (fun st =>
                 pet (fst st) = pet self /\ loop_data (fst st) = loop_data self
                 /\ cache_sound (fst st)
                 /\ forall kv, In kv (snd st) ->
                      exists c, fst kv = vp_startsAtLine (pet self) c
                                /\ (0 < snd kv <-> 0 < recorded self c)%Z)
              (inner_loops (pet self) node)) with (s := (self, @nil (string * Z)))
    as [r [Hr [_ [_ [Hs' Hd]]]]].
  - intros st child _ [Hp [Hl [Hc Hkv]]].
    destruct (iterations_count_sound fuel self (fst st) rank child Hrank Hb Hp Hl Hc)
      as [s1 [n [Hi [Hp1 [Hl1 [Hc1 Hn]]]]]].
    exists (s1, dict_set (snd st) (vp_startsAtLine (pet self) child) n).
    unfold step. rewrite Hi. simpl. split; [reflexivity |].
    split; [exact Hp1 |]. split; [exact Hl1 |]. split; [exact Hc1 |].
    intros kv Hin. apply in_dict_set in Hin. destruct Hin as [Hin | Hin].
    + subst kv. exists child. split; [reflexivity | exact Hn].
    + apply Hkv. exact Hin.
  - simpl. split; [reflexivity |]. split; [reflexivity |]. split; [exact Hs |].
    intros kv [].
  - rewrite Hr. simpl. eexists. eexists. split; [reflexivity |].
    split; [exact Hs' |].
    pose proof (chunk_keys fuel (pet self) _ _ _ Hr) as Hkeys. simpl in Hkeys.
    assert (Hrec : forall c c', vp_startsAtLine (pet self) c = vp_startsAtLine (pet self) c' ->
                                recorded self c = recorded self c').
    { intros c c' E. unfold recorded. rewrite E. reflexivity. }
    destruct (snd r) as [| kv0 d] eqn:Ed.
    + split; [discriminate |]. intros [Hne Hall]. exfalso.
      destruct (inner_loops (pet self) node) as [| c l]; [apply Hne; reflexivity |].
      destruct (proj2 (Hkeys (vp_startsAtLine (pet self) c))) as [v []].
      right. exists c. split; [left; reflexivity | reflexivity].
    + rewrite Z.ltb_lt, min_positive. split.
      * intros [_ Hpos]. split.
        -- intros Hnil. rewrite Hnil in Hkeys.
           destruct (proj1 (Hkeys (fst kv0))) as [[v []] | [c [[] _]]].
           exists (snd kv0). left. destruct kv0; reflexivity.
        -- intros c Hc.
           destruct (proj2 (Hkeys (vp_startsAtLine (pet self) c))) as [v Hv].
           { right. exists c. auto. }
           destruct (Hd _ Hv) as [c' [Hk Hiff]]. simpl in Hk, Hiff.
           rewrite (Hrec c c' Hk). apply Hiff. exact (Hpos _ Hv).
      * intros [_ Hall]. split; [lia |]. intros kv Hkv.
        destruct (Hd _ Hkv) as [c' [Hk Hiff]]. apply Hiff.
        destruct (proj1 (Hkeys (fst kv))) as [[v []] | [c [Hc Hkc]]].
        { exists (snd kv). destruct kv; exact Hkv. }
        rewrite <- (Hrec c c'); [apply Hall; exact Hc | congruence].
Qed.

End ChunkLimit.

Lemma nest_ranked (c1 c2 c3 : Z) :
  Spec.gt_child_ranked (PatternDetection.pet (Cases.nest c1 c2 c3)) Cases.nest_rank.
Proof.
  intros e He _. cbv in He.
  repeat (destruct He as [He | He]; [subst e; cbv; lia |]).
  destruct He.
Qed.

Lemma nest_rank_bound (v : nat) : Cases.nest_rank v < 3.
Proof.
  unfold Cases.nest_rank.
  do 4 (destruct v as [| v]; [simpl; lia |]).
  simpl. destruct v; lia.
Qed.


Lemma iterations_count_value_witness :
  exists s' n p,
    PatternDetection.iterations_count 3 (Cases.nest 10 4 50) 3 = Ok (s', n)
    /\ PatternDetection.get_parent_iterations 3 (Cases.nest 10 4 50) 3 = Ok p
    /\ (1 <= p)%Z
    /\ n = (if Z.ltb (Notions.recorded (Cases.nest 10 4 50) 3) p
            then Notions.recorded (Cases.nest 10 4 50) 3
            else Z.div (Notions.recorded (Cases.nest 10 4 50) 3) p)
    /\ (0 < n <-> 0 < Notions.recorded (Cases.nest 10 4 50) 3%nat)%Z.
Proof.
  apply (iterations_count_value 3 (Cases.nest 10 4 50) Cases.nest_rank 3).
  - apply nest_ranked.
  - exact nest_rank_bound.
  - reflexivity.
Defined.

Lemma test_chunk_limit_spec_witness :
  exists s' b,
    PatternDetection.test_chunk_limit 3 (Cases.nest 10 0 50) 0 = Ok (s', b)
    /\ Notions.cache_sound s'
    /\ (b = true <->
        Notions.inner_loops (PatternDetection.pet (Cases.nest 10 0 50)) 0 <> []
        /\ forall c,
             In c (Notions.inner_loops (PatternDetection.pet (Cases.nest 10 0 50)) 0) ->
             (0 < Notions.recorded (Cases.nest 10 0 50) c)%Z).
Proof.
  apply (test_chunk_limit_spec 3 (Cases.nest 10 0 50) Cases.nest_rank 0).
  - apply nest_ranked.
  - exact nest_rank_bound.
  - intros k v H. discriminate H.
Defined.

(** The loop 3 has 50 recorded iterations under the loop 1 with 10: its
    count is 5. A zero count among the inner loops of the function 0, or a
    loop without a record, rejects the function; positive counts accept
    it. *)
Example chunk_limit_on_nest :
  (r <- PatternDetection.iterations_count 3 (Cases.nest 10 4 50) 3 ;; Ok (snd r)) = Ok 5%Z
  /\ (r <- PatternDetection.test_chunk_limit 3 (Cases.nest 10 0 50) 0 ;; Ok (snd r))
     = Ok false
  /\ (r <- PatternDetection.test_chunk_limit 3 (Cases.nest 10 4 50) 0 ;; Ok (snd r))
     = Ok true
  /\ (r <- PatternDetection.test_chunk_limit 3 (Cases.nest 10 4 50) 2 ;; Ok (snd r))
     = Ok false.
Proof. repeat split. Qed.

(** ** pattern_detection.py: [depends] and the reduction pass *)

Section LegacyFacts.
Import GraphTool PatternDetection Spec Notions.

(** X14. On a graph whose child edges form no cycle, [depends(source,
    target)] returns. A vertex never depends on itself; for two different
    vertices the answer is True exactly when a vertex that is the source or
    lies below it has an out-edge with dtype RAW (of whatever edge type)
    to a vertex that is the target or lies below it. *)
Theorem depends_spec (fuel : nat) (gr : Graph) (rank : Vertex -> nat)
  (source target : Vertex) :
  gt_child_ranked gr rank ->
  rank source < fuel ->
  rank target < fuel ->
  exists b,
    depends fuel gr source target = Ok b
    /\ (b = true <->
        source <> target
        /\ exists node e,
             gt_reach gr source node
             /\ In e (GraphTool.edges gr)
             /\ e_source e = node
             /\ ep_dtype e = "RAW"
             /\ gt_reach gr target (e_target e)).
Proof.
  intros Hrank Hs Ht. unfold depends. destruct (Nat.eqb source target) eqn:E.
  - exists false. split; [reflexivity |]. split; [discriminate |].
    intros [Hne _]. apply Nat.eqb_eq in E. contradiction.
  - apply Nat.eqb_neq in E.
    destruct (get_subtree_of_type_total gr rank "*" Hrank fuel target Ht) as [tn Htn].
    destruct (get_subtree_of_type_total gr rank "*" Hrank fuel source Hs) as [sn Hsn].
    rewrite Htn, Hsn. simpl. eexists. split; [reflexivity |].
    rewrite existsb_exists. split.
    + intros [node [Hn Hex]]. apply existsb_exists in Hex. destruct Hex as [e [He Hc]].
      apply andb_true_iff in Hc. destruct Hc as [Hd Hin].
      split; [exact E |]. exists node, e.
      apply (get_subtree_of_type_spec _ _ _ _ _ Hsn) in Hn.
      apply in_gt_out_edges in He. apply vertex_in_spec in Hin.
      apply (get_subtree_of_type_spec _ _ _ _ _ Htn) in Hin.
      apply String.eqb_eq in Hd. tauto.
    + intros [_ [node [e [Hn [He [Hsrc [Hd Hin]]]]]]]. exists node. split.
      * apply (get_subtree_of_type_spec _ _ _ _ _ Hsn). auto.
      * apply existsb_exists. exists e. split; [apply in_gt_out_edges; auto |].
        apply andb_true_iff. split; [apply String.eqb_eq; exact Hd |].
        apply vertex_in_spec. apply (get_subtree_of_type_spec _ _ _ _ _ Htn). auto.
Qed.

Lemma same_inputs_after_write (a s : PatternDetector) (m : Vertex -> bool) :
  same_reduction_inputs a s ->
  same_reduction_inputs a (with_pet s (set_vp_reduction (pet s) m)).
Proof. unfold same_reduction_inputs. simpl. tauto. Qed.

Lemma reduction_pass_steps (fuel : nat) (l : list Vertex) :
  forall self0 self self',
    same_reduction_inputs self0 self ->
    for_each l
      (fun self node =>
         r <- detect_reduction fuel self node ;;
         Ok (if r
             then with_pet self
                    (set_vp_reduction (pet self) (upd (vp_reduction (pet self)) node true))
             else self))
      self = Ok self' ->
    forall v, In v l -> exists r, detect_reduction fuel self0 v = Ok r.
Proof.
  induction l as [| x l IH]; intros self0 self self' Hsame H v Hv.
  - destruct Hv.
  - simpl in H. apply bind_ok in H. destruct H as [s1 [H1 H]].
    apply bind_ok in H1. destruct H1 as [r [Hr H1]].
    rewrite (detect_reduction_ext fuel self0 self x Hsame) in Hr.
    destruct Hv as [Hv | Hv]; [subst v; exists r; exact Hr |].
    apply (IH self0 s1 self'); [| exact H | exact Hv].
    inversion H1. destruct r; [apply same_inputs_after_write |]; exact Hsame.
Qed.

Lemma reduction_pass_replay (fuel : nat) (l : list Vertex) (a : PatternDetector) :
  (forall v, In v l -> exists r, detect_reduction fuel a v = Ok r) ->
  forall s,
    same_reduction_inputs a s ->
    exists s',
      for_each l
        (fun self node =>
           r <- detect_reduction fuel self node ;;
           Ok (if r
               then with_pet self
                      (set_vp_reduction (pet self) (upd (vp_reduction (pet self)) node true))
               else self))
        s = Ok s'.
Proof.
  intros Hl s Hs.
  destruct (for_each_total
              (fun self node =>
                 r <- detect_reduction fuel self node ;;
                 Ok (if r
                     then with_pet self
                            (set_vp_reduction (pet self)
                               (upd (vp_reduction (pet self)) node true))
                     else self))
              (same_reduction_inputs a) l) with (s := s) as [s' [Hs' _]].
  - intros self x Hx Hsame. destruct (Hl x Hx) as [r Hr].
    rewrite (detect_reduction_ext fuel a self x Hsame), Hr. simpl.
    eexists. split; [reflexivity |].
    destruct r; [apply same_inputs_after_write |]; exact Hsame.
  - exact Hs.
  - exists s'. exact Hs'.
Qed.

Lemma bool_iff_eq (x y : bool) : (x = true <-> y = true) -> x = y.
Proof.
  destruct x, y; intros [H1 H2]; try reflexivity.
  - symmetry. apply H1. reflexivity.
  - apply H2. reflexivity.
Qed.

Lemma find_loops_same (a a' : PatternDetector) :
  same_reduction_inputs a a' ->
  find_vertex (pet a') (vp_type (pet a')) "2" = find_vertex (pet a) (vp_type (pet a)) "2".
Proof.
  intros [Hn [_ [Ht _]]]. unfold find_vertex, vertices. rewrite Hn, Ht. reflexivity.
Qed.

(** The reduction pass on two detectors with the same reduction inputs. *)
Lemma reduction_pass_twice (fuel : nat) (a b a' : PatternDetector) :
  detect_reduction_loop fuel a = Ok b ->
  same_reduction_inputs a a' ->
  exists b',
    detect_reduction_loop fuel a' = Ok b'
    /\ forall v,
         (vp_reduction (pet b) v = true <->
          vp_reduction (pet a) v = true
          \/ (In v (find_vertex (pet a) (vp_type (pet a)) "2")
              /\ detect_reduction fuel a v = Ok true))
         /\ (vp_reduction (pet b') v = true <->
             vp_reduction (pet a') v = true
             \/ (In v (find_vertex (pet a) (vp_type (pet a)) "2")
                 /\ detect_reduction fuel a v = Ok true)).
Proof.
  intros Hb Hsame. unfold detect_reduction_loop in *.
  pose proof (reduction_pass_steps fuel _ a a b (same_reduction_inputs_refl a) Hb) as Hsteps.
  destruct (reduction_pass_replay fuel _ a Hsteps a' Hsame) as [b' Hb'].
  exists b'. rewrite (find_loops_same a a' Hsame). split; [exact Hb' |].
  intros v. split.
  - exact (proj2 (reduction_pass_spec fuel _ a a b (same_reduction_inputs_refl a) Hb) v).
  - exact (proj2 (reduction_pass_spec fuel _ a a' b' Hsame Hb') v).
Qed.

(** X15. The reduction pass is stable. Run again on its own result it
    returns and changes no reduction flag; run on a detector that differs
    from the first one only in what the reduction test does not read
    (do-all flags, pipeline scores, roles, the cache) it sets the same
    reduction flags. *)
Theorem reduction_pass_stable (fuel : nat) (a b : PatternDetector) :
  detect_reduction_loop fuel a = Ok b ->
  (exists c,
     detect_reduction_loop fuel b = Ok c
     /\ forall v, vp_reduction (pet c) v = vp_reduction (pet b) v)
  /\ forall a',
       same_reduction_inputs a a' ->
       (forall v, vp_reduction (pet a') v = vp_reduction (pet a) v) ->
       exists b',
         detect_reduction_loop fuel a' = Ok b'
         /\ forall v, vp_reduction (pet b') v = vp_reduction (pet b) v.
Proof.
  intros Hb. split.
  - assert (Hsame : same_reduction_inputs a b).
    { exact (proj1 (reduction_pass_spec fuel _ a a b (same_reduction_inputs_refl a) Hb)). }
    destruct (reduction_pass_twice fuel a b b Hb Hsame) as [c [Hc Hv]].
    exists c. split; [exact Hc |]. intros v. apply bool_iff_eq.
    destruct (Hv v) as [H1 H2]. rewrite H2, H1. tauto.
  - intros a' Hsame Hred.
    destruct (reduction_pass_twice fuel a b a' Hb Hsame) as [b' [Hb' Hv]].
    exists b'. split; [exact Hb' |]. intros v. apply bool_iff_eq.
    destruct (Hv v) as [H1 H2]. rewrite H2, H1, Hred. tauto.
Qed.

End LegacyFacts.

Lemma star_ranked : Spec.gt_child_ranked Examples.star_barriers Cases.star_rank.
Proof.
  intros e He Hty. cbv in He.
  repeat (destruct He as [He | He];
          [subst e; first [discriminate Hty | cbv; lia] |]).
  destruct He.
Qed.

Lemma depends_spec_witness :
  exists b,
    PatternDetection.depends 3 Examples.star_barriers 1 2 = Ok b
    /\ (b = true <->
        1 <> 2
        /\ exists node e,
             Spec.gt_reach Examples.star_barriers 1 node
             /\ In e (GraphTool.edges Examples.star_barriers)
             /\ GraphTool.e_source e = node
             /\ GraphTool.ep_dtype e = "RAW"
             /\ Spec.gt_reach Examples.star_barriers 2 (GraphTool.e_target e)).
Proof.
  apply (depends_spec 3 Examples.star_barriers Cases.star_rank 1 2).
  - exact star_ranked.
  - cbv. lia.
  - cbv. lia.
Defined.

Lemma reduction_pass_stable_witness :
  exists b,
    PatternDetection.detect_reduction_loop 2 Examples.two_loops_detector = Ok b
    /\ ((exists c,
           PatternDetection.detect_reduction_loop 2 b = Ok c
           /\ forall v,
                GraphTool.vp_reduction (PatternDetection.pet c) v
                = GraphTool.vp_reduction (PatternDetection.pet b) v)
        /\ forall a',
             Spec.same_reduction_inputs Examples.two_loops_detector a' ->
             (forall v,
                GraphTool.vp_reduction (PatternDetection.pet a') v
                = GraphTool.vp_reduction (PatternDetection.pet Examples.two_loops_detector) v) ->
             exists b',
               PatternDetection.detect_reduction_loop 2 a' = Ok b'
               /\ forall v,
                    GraphTool.vp_reduction (PatternDetection.pet b') v
                    = GraphTool.vp_reduction (PatternDetection.pet b) v).
Proof.
  eexists. split; [reflexivity |].
  apply (reduction_pass_stable 2 Examples.two_loops_detector _ eq_refl).
Defined.

(** ** Roles: the classification of children and the role pass *)

Section RoleFacts.
Import GraphTool Spec Notions.

Lemma list_remove_subset (v x : Vertex) (l : list Vertex) :
  In x (list_remove v l) -> In x l.
Proof.
  induction l as [| y l IH]; simpl.
  - auto.
  - destruct (Nat.eqb y v); [auto |]. intros [H | H]; auto.
Qed.

Lemma assigned_classified (r : string) : assigned r -> classified r.
Proof.
  intros [H | [H | [H | H]]]; subst r; split; discriminate.
Qed.

Lemma assigned_not_none (r : string) : assigned r -> r <> "NONE".
Proof. intros H. exact (proj1 (assigned_classified r H)). Qed.

Lemma upd_worker (m : Vertex -> string) (n1 n2 x : Vertex) :
  m x = "BARRIER_WORKER" ->
  upd (upd m n1 "BARRIER_WORKER") n2 "BARRIER_WORKER" x = "BARRIER_WORKER".
Proof.
  intros H. unfold upd. destruct (Nat.eqb x n2); [reflexivity |].
  destruct (Nat.eqb x n1); [reflexivity | exact H].
Qed.

Lemma barrier_pairs_inner_recorded (gr : Graph) (subs : list Vertex)
  (mw0 : Vertex -> string) (n1 : Vertex) :
  In n1 subs -> mw0 n1 = "BARRIER" ->
  forall l st,
    (forall x, In x l -> In x subs) ->
    pairs_recorded gr subs mw0 st ->
    pairs_recorded gr subs mw0 (barrier_pairs_inner gr n1 l st).
Proof.
  intros Hn1 Hb1. induction l as [| n2 l IH]; intros st Hl Hst; simpl.
  - exact Hst.
  - assert (Hl' : forall x, In x l -> In x subs) by (intros x Hx; apply Hl; right; exact Hx).
    destruct (String.eqb (fst st n2) "BARRIER" && negb (Nat.eqb n1 n2)) eqn:E;
      [| apply IH; assumption].
    destruct (linked gr n1 n2) eqn:El; [exact Hst |].
    apply IH; [exact Hl' |].
    apply andb_true_iff in E. destruct E as [E1 E2].
    apply String.eqb_eq in E1. apply negb_true_iff in E2. apply Nat.eqb_neq in E2.
    destruct Hst as [Ha [Hp Hc]].
    assert (Hb2 : mw0 n2 = "BARRIER").
    { destruct (Ha n2) as [H | [H _]]; [congruence | exact H]. }
    split; [| split]; simpl.
    + intros v. unfold upd. destruct (Nat.eqb v n2) eqn:E3.
      * apply Nat.eqb_eq in E3. subst v. right. auto.
      * destruct (Nat.eqb v n1) eqn:E4; [| apply Ha].
        apply Nat.eqb_eq in E4. subst v. right. auto.
    + intros a b Hin. apply in_app_or in Hin. destruct Hin as [Hin | [Hin | []]].
      * destruct (Hp a b Hin) as [H1 [H2 [H3 [H4 [H5 [H6 [H7 H8]]]]]]].
        repeat (split; [assumption |]).
        split; apply upd_worker; assumption.
      * inversion Hin. subst a b.
        split; [exact Hn1 |]. split; [apply Hl; left; reflexivity |].
        split; [exact E2 |]. split; [exact Hb1 |]. split; [exact Hb2 |].
        split; [exact El |].
        split; unfold upd; [| rewrite Nat.eqb_refl; reflexivity].
        destruct (Nat.eqb n1 n2); [reflexivity |]. rewrite Nat.eqb_refl. reflexivity.
    + intros v Hv.
      destruct (Nat.eq_dec v n1) as [E3 | E3].
      { subst v. exists n2. left. apply in_or_app. right. left. reflexivity. }
      destruct (Nat.eq_dec v n2) as [E4 | E4].
      { subst v. exists n1. right. apply in_or_app. right. left. reflexivity. }
      rewrite (upd_other _ n2 v _ E4), (upd_other _ n1 v _ E3) in Hv.
      destruct (Hc v Hv) as [u [H | H]]; exists u; [left | right];
        apply in_or_app; left; exact H.
Qed.

Lemma barrier_pairs_outer_recorded (gr : Graph) (subs : list Vertex)
  (mw0 : Vertex -> string) :
  forall l st,
    (forall x, In x l -> In x subs) ->
    pairs_recorded gr subs mw0 st ->
    pairs_recorded gr subs mw0
      (fold_left
         (fun st n1 =>
            if String.eqb (fst st n1) "BARRIER"
            then barrier_pairs_inner gr n1 subs st
            else st)
         l st).
Proof.
  induction l as [| n1 l IH]; intros st Hl Hst; simpl.
  - exact Hst.
  - apply IH; [intros x Hx; apply Hl; right; exact Hx |].
    destruct (String.eqb (fst st n1) "BARRIER") eqn:E; [| exact Hst].
    apply String.eqb_eq in E.
    apply barrier_pairs_inner_recorded; auto.
    + apply Hl. left. reflexivity.
    + destruct Hst as [Ha _]. destruct (Ha n1) as [H | [H _]]; [congruence | exact H].
Qed.

Lemma barrier_pairs_are_recorded (gr : Graph) (subs : list Vertex) (mw : Vertex -> string) :
  pairs_recorded gr subs mw (barrier_pairs gr subs mw).
Proof.
  unfold barrier_pairs. apply barrier_pairs_outer_recorded; [auto |].
  split; [| split]; simpl.
  - intros v. left. reflexivity.
  - intros a b [].
  - intros v Hv. exfalso. apply Hv. reflexivity.
Qed.

(** X16. The pair search that ends [detect_task_parallelism] and
    [__detect_mw_types]: every pair it records is made of two different
    direct children that the classification left as BARRIER, with no edge
    between them, and both are BARRIER_WORKER in the end; no role changes
    except from BARRIER to BARRIER_WORKER, and a vertex whose role changed
    is a member of a recorded pair. *)
Theorem barrier_pairs_list (gr : Graph) (subs : list Vertex) (mw : Vertex -> string) :
  (forall a b,
     In (a, b) (snd (barrier_pairs gr subs mw)) ->
     In a subs /\ In b subs /\ a <> b
     /\ mw a = "BARRIER" /\ mw b = "BARRIER"
     /\ linked gr a b = false
     /\ fst (barrier_pairs gr subs mw) a = "BARRIER_WORKER"
     /\ fst (barrier_pairs gr subs mw) b = "BARRIER_WORKER")
  /\ (forall v,
        fst (barrier_pairs gr subs mw) v = mw v
        \/ (mw v = "BARRIER" /\ fst (barrier_pairs gr subs mw) v = "BARRIER_WORKER"))
  /\ (forall v,
        fst (barrier_pairs gr subs mw) v <> mw v ->
        exists u,
          In (v, u) (snd (barrier_pairs gr subs mw))
          \/ In (u, v) (snd (barrier_pairs gr subs mw))).
Proof.
  destruct (barrier_pairs_are_recorded gr subs mw) as [Ha [Hp Hc]].
  split; [exact Hp |]. split; [exact Ha | exact Hc].
Qed.

(** The loop over the children, for any classification step. *)
Lemma classify_all (subs : list Vertex)
  (classify : Vertex -> (Vertex -> string) -> result (Vertex -> string)) :
  (forall node mw mw',
     In node subs -> classify node mw = Ok mw' -> classifies subs node mw mw') ->
  forall l mw mw',
    (forall x, In x l -> In x subs) ->
    for_each l (fun mw node => classify node mw) mw = Ok mw' ->
    (forall v, mw' v = mw v \/ (In v subs /\ assigned (mw' v)))
    /\ (forall v, In v l -> classified (mw' v)).
Proof.
  intros Hc. induction l as [| x l IH]; intros mw mw' Hl H; simpl in H.
  - inversion H. split; [intros v; left; reflexivity | intros v []].
  - apply bind_ok in H. destruct H as [m1 [H1 H]].
    destruct (Hc x mw m1 (Hl x (or_introl eq_refl)) H1) as [Hw Hx].
    destruct (IH m1 mw' (fun y Hy => Hl y (or_intror Hy)) H) as [Hw' Hl'].
    split.
    + intros v. destruct (Hw' v) as [E | E]; [| right; exact E].
      rewrite E. apply Hw.
    + intros v [Hv | Hv]; [| apply Hl'; exact Hv]. subst v.
      destruct (Hw' x) as [E | [_ E]]; [rewrite E; exact Hx |].
      apply assigned_classified. exact E.
Qed.

Section NewClassification.

Variable depends : Graph -> Vertex -> Vertex -> result bool.

Lemma classify_against_new (gr : Graph) (main_node node : Vertex)
  (mw mw' : Vertex -> string) :
  In node (find_subnodes gr main_node "child") ->
  TaskParallelism.classify_against depends gr main_node node mw = Ok mw' ->
  classifies (find_subnodes gr main_node "child") node mw mw'.
Proof.
  intros Hin. unfold TaskParallelism.classify_against.
  apply (for_each_invariant _ (classifies (find_subnodes gr main_node "child") node mw)).
  - intros m other m' Hother [Hw Hn] Hstep.
    apply list_remove_subset in Hother.
    apply bind_ok in Hstep. destruct Hstep as [d [_ Hstep]]. inversion Hstep as [Hm].
    clear Hstep. destruct d; [| split; assumption].
    assert (Hcase : exists r, assigned r /\ m' = upd m other r).
    { rewrite <- Hm. destruct (String.eqb (m other) "WORKER").
      - exists "BARRIER". split; [right; right; left; reflexivity | reflexivity].
      - destruct (TaskParallelism.repeated (TaskParallelism.raw_targets gr other node)).
        + exists "WORKER". split; [right; left; reflexivity | reflexivity].
        + exists "BARRIER". split; [right; right; left; reflexivity | reflexivity]. }
    destruct Hcase as [r [Hr Hm']]. rewrite Hm, Hm'. split.
    + intros v. unfold upd. destruct (Nat.eqb v other) eqn:E; [| apply Hw].
      apply Nat.eqb_eq in E. subst v. right. split; assumption.
    + unfold upd. destruct (Nat.eqb node other); [| exact Hn].
      apply assigned_classified. exact Hr.
  - destruct (String.eqb (mw node) "NONE" || String.eqb (mw node) "ROOT") eqn:E.
    + split.
      * intros v. unfold upd. destruct (Nat.eqb v node) eqn:E1; [| left; reflexivity].
        apply Nat.eqb_eq in E1. subst v. right. split; [exact Hin | left; reflexivity].
      * rewrite upd_same. split; discriminate.
    + apply orb_false_iff in E. destruct E as [E1 E2].
      split; [intros v; left; reflexivity |].
      split; intros H; rewrite H in *; discriminate.
Qed.

(** X17. [__detect_mw_types] on the children of a node: when it returns,
    every direct child has a role other than NONE and ROOT, a role that
    changed is one of FORK, WORKER, BARRIER and BARRIER_WORKER, the role of
    a vertex that is no direct child is untouched, and nothing else of the
    graph changes. *)
Theorem detect_mw_types_roles (gr gr' : Graph) (main_node : Vertex) :
  TaskParallelism.detect_mw_types depends gr main_node = Ok gr' ->
  (forall v, In v (find_subnodes gr main_node "child") -> classified (vp_mwType gr' v))
  /\ (forall v, vp_mwType gr' v = vp_mwType gr v \/ assigned (vp_mwType gr' v))
  /\ (forall v, ~ In v (find_subnodes gr main_node "child") ->
                vp_mwType gr' v = vp_mwType gr v)
  /\ gr' = set_vp_mwType gr (vp_mwType gr').
Proof.
  intros H. unfold TaskParallelism.detect_mw_types in H.
  apply bind_ok in H. destruct H as [mw [Hmw H]]. inversion H. clear H. simpl.
  unfold TaskParallelism.classify_children in Hmw.
  destruct (classify_all (find_subnodes gr main_node "child")
              (fun node mw => TaskParallelism.classify_against depends gr main_node node mw)
              (fun node m m' Hn Hc => classify_against_new gr main_node node m m' Hn Hc)
              _ _ _ (fun x Hx => Hx) Hmw) as [Hw Hc].
  destruct (barrier_pairs_are_recorded gr (find_subnodes gr main_node "child") mw)
    as [Ha [Hp Hch]].
  set (r := barrier_pairs gr (find_subnodes gr main_node "child") mw) in *.
  assert (Hsub : forall v, fst r v <> mw v -> In v (find_subnodes gr main_node "child")).
  { intros v Hv. destruct (Hch v Hv) as [u [Hu | Hu]];
      destruct (Hp _ _ Hu) as [Hin1 [Hin2 _]]; assumption. }
  split; [| split; [| split]].
  - intros v Hv. destruct (Ha v) as [E | [_ E]]; rewrite E.
    + apply Hc. exact Hv.
    + split; discriminate.
  - intros v. destruct (Ha v) as [E | [_ E]]; rewrite E.
    + destruct (Hw v) as [E1 | [_ E1]]; [left; exact E1 | right; exact E1].
    + right. right. right. right. reflexivity.
  - intros v Hv. destruct (Ha v) as [E | [E1 E2]].
    + rewrite E. destruct (Hw v) as [E1 | [E1 _]]; [exact E1 | contradiction].
    + exfalso. apply Hv. apply Hsub. rewrite E2, E1. discriminate.
  - reflexivity.
Qed.

Lemma detect_mw_types_kept (gr gr' : Graph) (main_node : Vertex) :
  TaskParallelism.detect_mw_types depends gr main_node = Ok gr' ->
  roles_kept "NONE" gr gr'.
Proof.
  intros H. unfold TaskParallelism.detect_mw_types in H.
  apply bind_ok in H. destruct H as [mw [Hmw H]]. inversion H. clear H.
  unfold TaskParallelism.classify_children in Hmw.
  destruct (classify_all (find_subnodes gr main_node "child")
              (fun node mw => TaskParallelism.classify_against depends gr main_node node mw)
              (fun node m m' Hn Hc => classify_against_new gr main_node node m m' Hn Hc)
              _ _ _ (fun x Hx => Hx) Hmw) as [Hw _].
  destruct (barrier_pairs_are_recorded gr (find_subnodes gr main_node "child") mw)
    as [Ha _].
  split; [reflexivity |]. split; [reflexivity |]. split; [reflexivity |].
  intros v Hv. simpl. destruct (Ha v) as [E | [_ E]]; rewrite E; [| discriminate].
  destruct (Hw v) as [E1 | [_ E1]]; [rewrite E1; exact Hv |].
  apply assigned_not_none. exact E1.
Qed.

Lemma roles_kept_refl (x : string) (gr : Graph) : roles_kept x gr gr.
Proof. unfold roles_kept. auto. Qed.

Lemma roles_kept_trans (x : string) (a b c : Graph) :
  roles_kept x a b -> roles_kept x b c -> roles_kept x a c.
Proof.
  intros [H1 [H2 [H3 H4]]] [H5 [H6 [H7 H8]]].
  split; [congruence |]. split; [congruence |]. split; [congruence |]. auto.
Qed.

Lemma root_if_none (gr : Graph) (node : Vertex) :
  roles_kept "NONE" gr
    (if String.eqb (vp_mwType gr node) "NONE"
     then set_vp_mwType gr (upd (vp_mwType gr) node "ROOT")
     else gr)
  /\ vp_mwType
       (if String.eqb (vp_mwType gr node) "NONE"
        then set_vp_mwType gr (upd (vp_mwType gr) node "ROOT")
        else gr) node <> "NONE".
Proof.
  destruct (String.eqb (vp_mwType gr node) "NONE") eqn:E.
  - split.
    + split; [reflexivity |]. split; [reflexivity |]. split; [reflexivity |].
      intros v Hv. simpl. unfold upd. destruct (Nat.eqb v node); [discriminate | exact Hv].
    + simpl. rewrite upd_same. discriminate.
  - split; [apply roles_kept_refl |]. intros H. rewrite H in E. discriminate.
Qed.

Lemma assign_roles_step (gr g1 : Graph) (node : Vertex) :
  (if String.eqb (vp_type gr node) "dummy" then Ok gr
   else
     gr1 <- match find_subnodes gr node "child" with
            | [] => Ok gr
            | _ :: _ => TaskParallelism.detect_mw_types depends gr node
            end ;;
     Ok (if String.eqb (vp_mwType gr1 node) "NONE"
         then set_vp_mwType gr1 (upd (vp_mwType gr1) node "ROOT")
         else gr1)) = Ok g1 ->
  roles_kept "NONE" gr g1
  /\ (vp_type gr node <> "dummy" -> vp_mwType g1 node <> "NONE").
Proof.
  destruct (String.eqb (vp_type gr node) "dummy") eqn:E.
  - intros H. inversion H. subst g1. split; [apply roles_kept_refl |].
    intros Hne. apply String.eqb_eq in E. contradiction.
  - intros H. apply bind_ok in H. destruct H as [gr1 [H1 H]]. inversion H. clear H.
    assert (Hk : roles_kept "NONE" gr gr1).
    { destruct (find_subnodes gr node "child").
      - inversion H1. apply roles_kept_refl.
      - exact (detect_mw_types_kept _ _ _ H1). }
    destruct (root_if_none gr1 node) as [Hk1 Hn].
    split; [exact (roles_kept_trans _ _ _ _ Hk Hk1) | intros _; exact Hn].
Qed.

Lemma assign_roles_prefix (l : list Vertex) :
  forall gr gr',
    for_each l
      (fun gr node =>
         if String.eqb (vp_type gr node) "dummy" then Ok gr
         else
           gr1 <- match find_subnodes gr node "child" with
                  | [] => Ok gr
                  | _ :: _ => TaskParallelism.detect_mw_types depends gr node
                  end ;;
           Ok (if String.eqb (vp_mwType gr1 node) "NONE"
               then set_vp_mwType gr1 (upd (vp_mwType gr1) node "ROOT")
               else gr1))
      gr = Ok gr' ->
    roles_kept "NONE" gr gr'
    /\ forall v, In v l -> vp_type gr v <> "dummy" -> vp_mwType gr' v <> "NONE".
Proof.
  induction l as [| x l IH]; intros gr gr' H; simpl in H.
  - inversion H. split; [apply roles_kept_refl | intros v []].
  - apply bind_ok in H. destruct H as [g1 [H1 H]].
    destruct (assign_roles_step gr g1 x H1) as [Hk Hx].
    destruct (IH g1 gr' H) as [Hk' Hl].
    split; [exact (roles_kept_trans _ _ _ _ Hk Hk') |].
    intros v [Hv | Hv] Hty.
    + subst v. destruct Hk' as [_ [_ [_ Hm]]]. apply Hm. apply Hx. exact Hty.
    + apply Hl; [exact Hv |]. destruct Hk as [_ [_ [Ht _]]]. rewrite Ht. exact Hty.
Qed.

(** X18. The first loop of [run_detection]: when it returns, no vertex of
    the graph that is not a dummy has the role NONE any more, and the
    vertices, edges and types of the graph are as before. *)
Theorem assign_roles_leaves_no_none (gr gr' : Graph) :
  TaskSearch.assign_roles depends gr = Ok gr' ->
  (forall v, v < num_vertices gr -> vp_type gr v <> "dummy" -> vp_mwType gr' v <> "NONE")
  /\ num_vertices gr' = num_vertices gr
  /\ GraphTool.edges gr' = GraphTool.edges gr
  /\ vp_type gr' = vp_type gr.
Proof.
  intros H. unfold TaskSearch.assign_roles in H.
  destruct (assign_roles_prefix _ _ _ H) as [[Hn [He [Ht _]]] Hl].
  split; [| auto]. intros v Hv Hty. apply Hl; [| exact Hty].
  unfold vertices. apply in_seq. lia.
Qed.

End NewClassification.

End RoleFacts.

Section OlderRoleFacts.
Import GraphTool PatternDetection Spec Notions.

Lemma depends_returns (fuel : nat) (gr : Graph) (rank : Vertex -> nat) (a b : Vertex) :
  gt_child_ranked gr rank -> (forall v, rank v < fuel) ->
  exists r, depends fuel gr a b = Ok r.
Proof.
  intros Hrank Hb. unfold depends. destruct (Nat.eqb a b); [eexists; reflexivity |].
  destruct (get_subtree_of_type_total gr rank "*" Hrank fuel b (Hb b)) as [tn Htn].
  destruct (get_subtree_of_type_total gr rank "*" Hrank fuel a (Hb a)) as [sn Hsn].
  rewrite Htn, Hsn. simpl. eexists. reflexivity.
Qed.

Lemma classify_against_older (fuel : nat) (gr : Graph) (main_node node : Vertex)
  (mw mw' : Vertex -> string) :
  In node (find_subnodes gr main_node "child") ->
  classify_against fuel gr main_node node mw = Ok mw' ->
  classifies (find_subnodes gr main_node "child") node mw mw'.
Proof.
  intros Hin. unfold classify_against.
  apply (for_each_invariant _ (classifies (find_subnodes gr main_node "child") node mw)).
  - intros m other m' Hother [Hw Hn] Hstep.
    apply list_remove_subset in Hother.
    apply bind_ok in Hstep. destruct Hstep as [d [_ Hstep]]. inversion Hstep as [Hm].
    clear Hstep. destruct d; [| split; assumption].
    assert (Hcase : exists r, assigned r /\ m' = upd m other r).
    { rewrite <- Hm. destruct (String.eqb (m other) "WORKER").
      - exists "BARRIER". split; [right; right; left; reflexivity | reflexivity].
      - exists "WORKER". split; [right; left; reflexivity | reflexivity]. }
    destruct Hcase as [r [Hr Hm']]. rewrite Hm, Hm'. split.
    + intros v. unfold upd. destruct (Nat.eqb v other) eqn:E; [| apply Hw].
      apply Nat.eqb_eq in E. subst v. right. split; assumption.
    + unfold upd. destruct (Nat.eqb node other); [| exact Hn].
      apply assigned_classified. exact Hr.
  - destruct (String.eqb (mw node) "NONE" || String.eqb (mw node) "ROOT") eqn:E.
    + split.
      * intros v. unfold upd. destruct (Nat.eqb v node) eqn:E1; [| left; reflexivity].
        apply Nat.eqb_eq in E1. subst v. right. split; [exact Hin | left; reflexivity].
      * rewrite upd_same. split; discriminate.
    + apply orb_false_iff in E. destruct E as [E1 E2].
      split; [intros v; left; reflexivity |].
      split; intros H; rewrite H in *; discriminate.
Qed.

Lemma detect_task_parallelism_kept (fuel : nat) (gr : Graph) (main_node : Vertex)
  (r : Graph * list (Vertex * Vertex)) :
  detect_task_parallelism fuel gr main_node = Ok r -> roles_kept "NONE" gr (fst r).
Proof.
  intros H. unfold detect_task_parallelism in H.
  apply bind_ok in H. destruct H as [mw [Hmw H]]. inversion H. clear H.
  destruct (classify_all (find_subnodes gr main_node "child")
              (fun node mw => classify_against fuel gr main_node node mw)
              (fun node m m' Hn Hc => classify_against_older fuel gr main_node node m m' Hn Hc)
              _ _ _ (fun x Hx => Hx) Hmw) as [Hw _].
  destruct (barrier_pairs_are_recorded gr (find_subnodes gr main_node "child") mw)
    as [Ha _].
  split; [reflexivity |]. split; [reflexivity |]. split; [reflexivity |].
  intros v Hv. simpl. destruct (Ha v) as [E | [_ E]]; rewrite E; [| discriminate].
  destruct (Hw v) as [E1 | [_ E1]]; [rewrite E1; exact Hv |].
  apply assigned_not_none. exact E1.
Qed.

Lemma detect_task_parallelism_returns (fuel : nat) (gr : Graph) (rank : Vertex -> nat)
  (main_node : Vertex) :
  gt_child_ranked gr rank -> (forall v, rank v < fuel) ->
  exists r, detect_task_parallelism fuel gr main_node = Ok r.
Proof.
  intros Hrank Hb. unfold detect_task_parallelism.
  destruct (for_each_total
              (fun mw node => classify_against fuel gr main_node node mw)
              (fun _ => True) (find_subnodes gr main_node "child"))
    with (s := vp_mwType gr) as [mw [Hmw _]].
  - intros m node _ _. unfold classify_against.
    apply for_each_total; [| exact I].
    intros m1 other _ _.
    destruct (depends_returns fuel gr rank other node Hrank Hb) as [d Hd].
    rewrite Hd. simpl. eexists. split; [reflexivity | exact I].
  - exact I.
  - rewrite Hmw. simpl. eexists. reflexivity.
Qed.

Lemma older_roles_step (fuel : nat) (self s1 : PatternDetector) (node : Vertex) :
  (if String.eqb (vp_type (pet self) node) "3" then Ok self
   else
     gr1 <- match find_subnodes (pet self) node "child" with
            | [] => Ok (pet self)
            | _ :: _ => r <- detect_task_parallelism fuel (pet self) node ;; Ok (fst r)
            end ;;
     Ok (with_pet self
           (if String.eqb (vp_mwType gr1 node) "NONE"
            then set_vp_mwType gr1 (upd (vp_mwType gr1) node "ROOT")
            else gr1))) = Ok s1 ->
  roles_kept "NONE" (pet self) (pet s1)
  /\ (vp_type (pet self) node <> "3" -> vp_mwType (pet s1) node <> "NONE").
Proof.
  destruct (String.eqb (vp_type (pet self) node) "3") eqn:E.
  - intros H. inversion H. subst s1. split; [apply roles_kept_refl |].
    intros Hne. apply String.eqb_eq in E. contradiction.
  - intros H. apply bind_ok in H. destruct H as [gr1 [H1 H]]. inversion H. clear H.
    assert (Hk : roles_kept "NONE" (pet self) gr1).
    { destruct (find_subnodes (pet self) node "child").
      - inversion H1. apply roles_kept_refl.
      - apply bind_ok in H1. destruct H1 as [r [Hr H1]]. inversion H1.
        exact (detect_task_parallelism_kept _ _ _ _ Hr). }
    destruct (root_if_none gr1 node) as [Hk1 Hn]. simpl.
    split; [exact (roles_kept_trans _ _ _ _ Hk Hk1) | intros _; exact Hn].
Qed.

Lemma older_roles_prefix (fuel : nat) (rank : Vertex -> nat) (l : list Vertex) :
  (forall v, rank v < fuel) ->
  forall self,
    gt_child_ranked (pet self) rank ->
    exists self',
      for_each l
        (fun self node =>
           if String.eqb (vp_type (pet self) node) "3" then Ok self
           else
             gr1 <- match find_subnodes (pet self) node "child" with
                    | [] => Ok (pet self)
                    | _ :: _ => r <- detect_task_parallelism fuel (pet self) node ;; Ok (fst r)
                    end ;;
             Ok (with_pet self
                   (if String.eqb (vp_mwType gr1 node) "NONE"
                    then set_vp_mwType gr1 (upd (vp_mwType gr1) node "ROOT")
                    else gr1)))
        self = Ok self'
      /\ roles_kept "NONE" (pet self) (pet self')
      /\ forall v, In v l -> vp_type (pet self) v <> "3" -> vp_mwType (pet self') v <> "NONE".
Proof.
  intros Hb. induction l as [| x l IH]; intros self Hrank.
  - exists self. split; [reflexivity |]. split; [apply roles_kept_refl | intros v []].
  - assert (Hstep : exists s1,
              (if String.eqb (vp_type (pet self) x) "3" then Ok self
               else
                 gr1 <- match find_subnodes (pet self) x "child" with
                        | [] => Ok (pet self)
                        | _ :: _ =>
                            r <- detect_task_parallelism fuel (pet self) x ;; Ok (fst r)
                        end ;;
                 Ok (with_pet self
                       (if String.eqb (vp_mwType gr1 x) "NONE"
                        then set_vp_mwType gr1 (upd (vp_mwType gr1) x "ROOT")
                        else gr1))) = Ok s1).
    { destruct (String.eqb (vp_type (pet self) x) "3"); [eexists; reflexivity |].
      destruct (find_subnodes (pet self) x "child"); [eexists; reflexivity |].
      destruct (detect_task_parallelism_returns fuel (pet self) rank x Hrank Hb) as [r Hr].
      rewrite Hr. eexists. reflexivity. }
    destruct Hstep as [s1 Hs1].
    destruct (older_roles_step fuel self s1 x Hs1) as [Hk Hx].
    assert (Hrank1 : gt_child_ranked (pet s1) rank).
    { destruct Hk as [_ [He _]]. unfold gt_child_ranked. rewrite He. exact Hrank. }
    destruct (IH s1 Hrank1) as [self' [Hf [Hk' Hl]]].
    exists self'. split; [simpl; rewrite Hs1; exact Hf |].
    split; [exact (roles_kept_trans _ _ _ _ Hk Hk') |].
    intros v [Hv | Hv] Hty.
    + subst v. destruct Hk' as [_ [_ [_ Hm]]]. apply Hm. apply Hx. exact Hty.
    + apply Hl; [exact Hv |]. destruct Hk as [_ [_ [Ht _]]]. rewrite Ht. exact Hty.
Qed.

(** X19. On a graph whose child edges form no cycle the role pass of
    pattern_detection.py returns, and afterwards no vertex of the graph
    that is not a dummy (type '3') has the role NONE. *)
Theorem older_role_pass (fuel : nat) (self : PatternDetector) (rank : Vertex -> nat) :
  gt_child_ranked (pet self) rank ->
  (forall v, rank v < fuel) ->
  exists self',
    detect_task_parallelism_loop fuel self = Ok self'
    /\ forall v,
         v < num_vertices (pet self) ->
         vp_type (pet self) v <> "3" ->
         vp_mwType (pet self') v <> "NONE".
Proof.
  intros Hrank Hb. unfold detect_task_parallelism_loop.
  destruct (older_roles_prefix fuel rank (vertices (pet self)) Hb self Hrank)
    as [self' [Hf [_ Hl]]].
  exists self'. split; [exact Hf |].
  intros v Hv Hty. apply Hl; [| exact Hty]. unfold vertices. apply in_seq. lia.
Qed.

End OlderRoleFacts.

Lemma detect_mw_types_roles_witness :
  exists gr',
    TaskParallelism.detect_mw_types (PatternDetection.depends 3) Examples.star_barriers 0
    = Ok gr'
    /\ (forall v,
          In v (GraphTool.find_subnodes Examples.star_barriers 0 "child") ->
          Notions.classified (GraphTool.vp_mwType gr' v))
    /\ (forall v,
          GraphTool.vp_mwType gr' v = GraphTool.vp_mwType Examples.star_barriers v
          \/ Notions.assigned (GraphTool.vp_mwType gr' v))
    /\ (forall v,
          ~ In v (GraphTool.find_subnodes Examples.star_barriers 0 "child") ->
          GraphTool.vp_mwType gr' v = GraphTool.vp_mwType Examples.star_barriers v)
    /\ gr' = GraphTool.set_vp_mwType Examples.star_barriers (GraphTool.vp_mwType gr').
Proof.
  destruct (TaskParallelism.detect_mw_types (PatternDetection.depends 3)
              Examples.star_barriers 0) as [gr' | e |] eqn:E.
  - exists gr'. split; [reflexivity |].
    exact (detect_mw_types_roles (PatternDetection.depends 3) Examples.star_barriers gr' 0 E).
  - vm_compute in E. discriminate E.
  - vm_compute in E. discriminate E.
Defined.

Lemma assign_roles_leaves_no_none_witness :
  exists gr',
    TaskSearch.assign_roles (PatternDetection.depends 3) Examples.star_barriers = Ok gr'
    /\ (forall v,
          v < GraphTool.num_vertices Examples.star_barriers ->
          GraphTool.vp_type Examples.star_barriers v <> "dummy" ->
          GraphTool.vp_mwType gr' v <> "NONE")
    /\ GraphTool.num_vertices gr' = GraphTool.num_vertices Examples.star_barriers
    /\ GraphTool.edges gr' = GraphTool.edges Examples.star_barriers
    /\ GraphTool.vp_type gr' = GraphTool.vp_type Examples.star_barriers.
Proof.
  destruct (TaskSearch.assign_roles (PatternDetection.depends 3) Examples.star_barriers)
    as [gr' | e |] eqn:E.
  - exists gr'. split; [reflexivity |].
    exact (assign_roles_leaves_no_none (PatternDetection.depends 3) Examples.star_barriers
             gr' E).
  - vm_compute in E. discriminate E.
  - vm_compute in E. discriminate E.
Defined.

Lemma func_with_dummy_ranked :
  Spec.gt_child_ranked (PatternDetection.pet Examples.func_with_dummy_detector)
    Cases.star_rank.
Proof.
  intros e He _. cbv in He.
  repeat (destruct He as [He | He]; [subst e; cbv; lia |]).
  destruct He.
Qed.

Lemma star_rank_bound (v : nat) : Cases.star_rank v < 2.
Proof.
  unfold Cases.star_rank. destruct v as [| v]; [simpl; lia |].
  simpl. destruct v; lia.
Qed.

Lemma older_role_pass_witness :
  exists self',
    PatternDetection.detect_task_parallelism_loop 2 Examples.func_with_dummy_detector
    = Ok self'
    /\ forall v,
         v < GraphTool.num_vertices (PatternDetection.pet Examples.func_with_dummy_detector) ->
         GraphTool.vp_type (PatternDetection.pet Examples.func_with_dummy_detector) v <> "3" ->
         GraphTool.vp_mwType (PatternDetection.pet self') v <> "NONE".
Proof.
  apply (older_role_pass 2 Examples.func_with_dummy_detector Cases.star_rank).
  - exact func_with_dummy_ranked.
  - exact star_rank_bound.
Defined.

(** The roles of [star_barriers] after the first loop of [run_detection]:
    the parent becomes ROOT, the children 4 and 5 forks, the others
    barriers. *)
Example assign_roles_star_barriers :
  (gr <- TaskSearch.assign_roles (PatternDetection.depends 3) Examples.star_barriers ;;
   Ok (Examples.roles 6 gr))
  = Ok ["ROOT"; "BARRIER"; "BARRIER"; "BARRIER"; "FORK"; "FORK"].
Proof. vm_compute. reflexivity. Qed.

(** ** Taskwait suggestions *)

Section TaskwaitSuggestions.
Import GraphTool TaskParallelism Spec Notions.

Lemma flat_dict_append (d : list (string * list TaskParallelismInfo)) (k : string)
  (x : TaskParallelismInfo) :
  Permutation (flat_map snd (dict_append d k x)) (flat_map snd d ++ [x]).
Proof.
  induction d as [| [k' l] d IH]; simpl.
  - apply Permutation_refl.
  - destruct (String.eqb k' k); simpl.
    + rewrite <- !app_assoc. apply Permutation_app_head. apply Permutation_app_comm.
    + rewrite <- app_assoc. apply Permutation_app_head. exact IH.
Qed.

Lemma in_dict_append (d : list (string * list TaskParallelismInfo)) (k k' : string)
  (x s : TaskParallelismInfo) (l : list TaskParallelismInfo) :
  In (k', l) (dict_append d k x) -> In s l ->
  (s = x /\ k' = k) \/ exists l0, In (k', l0) d /\ In s l0.
Proof.
  induction d as [| [k0 l0] d IH]; simpl.
  - intros [H | []] Hs. inversion H. subst. destruct Hs as [Hs | []]. left. auto.
  - destruct (String.eqb k0 k) eqn:E.
    + apply String.eqb_eq in E. subst k0. intros [H | H] Hs.
      * inversion H. subst. apply in_app_or in Hs. destruct Hs as [Hs | [Hs | []]].
        -- right. exists l0. auto.
        -- left. auto.
      * right. exists l. auto.
    + intros [H | H] Hs.
      * inversion H. subst. right. exists l. auto.
      * destruct (IH H Hs) as [H1 | [l1 [H1 H2]]]; [left; exact H1 |].
        right. exists l1. auto.
Qed.

Lemma in_keys_dict_append (d : list (string * list TaskParallelismInfo)) (k k0 : string)
  (x : TaskParallelismInfo) :
  In k0 (map fst (dict_append d k x)) -> k0 = k \/ In k0 (map fst d).
Proof.
  induction d as [| [k1 l1] d IH]; simpl.
  - intros [H | []]. left. symmetry. exact H.
  - destruct (String.eqb k1 k); simpl.
    + intros [H | H]; auto.
    + intros [H | H]; auto. destruct (IH H); auto.
Qed.

Lemma keys_dict_append (d : list (string * list TaskParallelismInfo)) (k : string)
  (x : TaskParallelismInfo) :
  NoDup (map fst d) -> NoDup (map fst (dict_append d k x)).
Proof.
  induction d as [| [k1 l1] d IH]; simpl; intros Hnd.
  - constructor; [intros [] | constructor].
  - inversion Hnd as [| a b Hk Hd]. subst. destruct (String.eqb k1 k) eqn:E; simpl.
    + constructor; assumption.
    + constructor.
      * intros Hin. destruct (in_keys_dict_append _ _ _ _ Hin) as [Hc | Hc].
        -- subst k1. rewrite String.eqb_refl in E. discriminate.
        -- contradiction.
      * apply IH. exact Hd.
Qed.

Lemma TaskParallelismInfo_init_fields (v : Vertex) (p : list string) (line : string)
  (a b c : list string) (t : TaskParallelismInfo) :
  TaskParallelismInfo_init v p line a b c = Ok t ->
  tp_node t = v /\ pragma t = p /\ pragma_line t = line
  /\ first_private t = a /\ private t = b /\ shared t = c
  /\ tp_region_end_line t = None.
Proof.
  unfold TaskParallelismInfo_init. intros H. apply bind_ok in H.
  destruct H as [region [_ H]]. inversion H. simpl. auto 10.
Qed.

Lemma first_dependency_line_ok (gr : Graph) (v : Vertex) :
  has_colon (vp_endsAtLine gr v) = true -> sinks_lined gr ->
  exists line, first_dependency_line gr v = Ok line.
Proof.
  intros Hend Hsinks. unfold first_dependency_line.
  destruct (after_colon_ok _ Hend) as [n Hn]. rewrite Hn. simpl.
  destruct (for_each_total
              (fun first_dependency_line e =>
                 if String.eqb (ep_type e) "dependence"
                 then
                   dep_line_number <- after_colon (ep_sink e) ;;
                   Ok (if str_lt dep_line_number n
                       then ep_sink e else first_dependency_line)
                 else Ok first_dependency_line)
              (fun _ => True) (GraphTool.out_edges gr v))
    with (s := vp_endsAtLine gr v) as [line [Hline _]].
  - intros s e He _. destruct (String.eqb (ep_type e) "dependence") eqn:E.
    + apply String.eqb_eq in E. apply in_gt_out_edges in He.
      destruct (after_colon_ok _ (Hsinks e (proj1 He) E)) as [m Hm].
      rewrite Hm. simpl. eexists. split; [reflexivity | exact I].
    + eexists. split; [reflexivity | exact I].
  - exact I.
  - exists line. exact Hline.
Qed.

Lemma suggest_taskwait_loop (gr : Graph) :
  well_positioned gr -> sinks_lined gr ->
  forall l done d,
    (forall v, In v l -> v < num_vertices gr /\ vp_mwType gr v = "BARRIER") ->
    taskwaits_for gr done d ->
    exists d',
      for_each l
        (fun suggestions v =>
           line <- first_dependency_line gr v ;;
           tmp_suggestion <- TaskParallelismInfo_init v ["taskwait"] line [] [] [] ;;
           Ok (dict_append suggestions (vp_startsAtLine gr v) tmp_suggestion))
        d = Ok d'
      /\ taskwaits_for gr (done ++ l) d'.
Proof.
  intros Hpos Hsinks. induction l as [| v l IH]; intros done d Hl Hd.
  - exists d. rewrite app_nil_r. split; [reflexivity | exact Hd].
  - destruct (Hl v (or_introl eq_refl)) as [Hv Hb].
    destruct (Hpos v (or_introl Hv)) as [_ Hend].
    destruct (first_dependency_line_ok gr v Hend Hsinks) as [line Hline].
    destruct (TaskParallelismInfo_init_ok v ["taskwait"] line [] [] []) as [t Ht].
    destruct (TaskParallelismInfo_init_fields _ _ _ _ _ _ _ Ht)
      as [F1 [F2 [F3 [F4 [F5 [F6 _]]]]]].
    destruct (IH (done ++ [v]) (dict_append d (vp_startsAtLine gr v) t)) as [d' [Hd' Hfor]].
    + intros x Hx. apply Hl. right. exact Hx.
    + destruct Hd as [Hperm [Hall Hnd]]. split; [| split].
      * eapply Permutation_trans.
        -- apply Permutation_map. apply flat_dict_append.
        -- rewrite map_app. simpl. rewrite F1. apply Permutation_app_tail. exact Hperm.
      * intros k l0 s Hin Hs.
        destruct (in_dict_append _ _ _ _ _ _ Hin Hs) as [[Hsx Hk] | [l1 [H1 H2]]].
        -- subst s k. unfold taskwait_of. rewrite F1, F2, F3, F4, F5, F6. auto 10.
        -- exact (Hall k l1 s H1 H2).
      * apply keys_dict_append. exact Hnd.
    + exists d'. split.
      * simpl. rewrite Hline. simpl. rewrite Ht. simpl. exact Hd'.
      * rewrite <- app_assoc in Hfor. exact Hfor.
Qed.

(** X20. The loop SUGGEST TASKWAIT of [__detect_task_suggestions]: when
    the start and end lines of the vertices and the sinks of the dependence
    edges have the form file:line, the loop returns a dict that holds
    exactly one taskwait suggestion for each vertex whose role is BARRIER
    (none for a BARRIER_WORKER or any other role), filed under the start
    line of its vertex, placed at the line the loop over the out-edges of
    the vertex gives, and with empty variable lists; no key occurs twice. *)
Theorem suggest_taskwait_spec (gr : Graph) :
  well_positioned gr ->
  sinks_lined gr ->
  exists d,
    suggest_taskwait gr = Ok d
    /\ Permutation (map tp_node (flat_map snd d)) (barrier_cus gr)
    /\ (forall k l s, In (k, l) d -> In s l -> taskwait_of gr k s)
    /\ NoDup (map fst d).
Proof.
  intros Hpos Hsinks. unfold suggest_taskwait.
  destruct (suggest_taskwait_loop gr Hpos Hsinks (barrier_cus gr) [] []) as [d [Hd Hfor]].
  - intros v Hv. unfold barrier_cus in Hv. apply filter_In in Hv.
    destruct Hv as [Hv Hb]. unfold vertices in Hv. apply in_seq in Hv.
    split; [lia | apply String.eqb_eq; exact Hb].
  - split; [apply Permutation_refl |]. split; [intros k l s [] | constructor].
  - exists d. split; [exact Hd | exact Hfor].
Qed.

(** *** The barrier loop: what it adds *)

Lemma nodup_snoc (A : Type) (l : list A) (x : A) :
  NoDup l -> ~ In x l -> NoDup (l ++ [x]).
Proof.
  induction l as [| y l IH]; simpl; intros Hnd Hx.
  - constructor; [intros [] | constructor].
  - inversion Hnd as [| a b Hy Hl]. subst. constructor.
    + intros Hin. apply in_app_or in Hin. destruct Hin as [Hin | [Hin | []]].
      * contradiction.
      * apply Hx. left. symmetry. exact Hin.
    + apply IH; [exact Hl |]. intros Hin. apply Hx. right. exact Hin.
Qed.








End TaskwaitSuggestions.

Lemma barrier_two_deps_positioned : Spec.well_positioned Examples.barrier_two_deps.
Proof.
  intros v Hv.
  assert (Hc : v = 0 \/ v = 1).
  { destruct Hv as [Hv | [e [He Ht]]]; [simpl in Hv; lia |].
    cbv in He. destruct He as [He | [He | []]]; subst e; simpl in Ht; lia. }
  destruct Hc; subst v; split; reflexivity.
Qed.

Lemma barrier_two_deps_sinks : Notions.sinks_lined Examples.barrier_two_deps.
Proof.
  intros e He _. cbv in He. destruct He as [He | [He | []]]; subst e; reflexivity.
Qed.

Lemma suggest_taskwait_spec_witness :
  exists d,
    TaskParallelism.suggest_taskwait Examples.barrier_two_deps = Ok d
    /\ Permutation (map TaskParallelism.tp_node (flat_map snd d))
         (TaskParallelism.barrier_cus Examples.barrier_two_deps)
    /\ (forall k l s, In (k, l) d -> In s l ->
          Notions.taskwait_of Examples.barrier_two_deps k s)
    /\ NoDup (map fst d).
Proof.
  apply (suggest_taskwait_spec Examples.barrier_two_deps).
  - exact barrier_two_deps_positioned.
  - exact barrier_two_deps_sinks.
Defined.


(** ** The searches against the edges *)

Section Searches.
Import GraphTool TaskParallelism TaskSearch Notions.

Lemma filter_length_le (A : Type) (f g : A -> bool) (l : list A) :
  (forall x, In x l -> f x = true -> g x = true) ->
  List.length (filter f l) <= List.length (filter g l).
Proof.
  induction l as [| y l IH]; simpl; intros H.
  - lia.
  - assert (IH' : List.length (filter f l) <= List.length (filter g l)).
    { apply IH. intros x Hx. apply H. right. exact Hx. }
    destruct (f y) eqn:Ef.
    + rewrite (H y (or_introl eq_refl) Ef). simpl. lia.
    + destruct (g y); simpl; lia.
Qed.

Lemma filter_length_lt (A : Type) (f g : A -> bool) (l : list A) (x : A) :
  (forall y, In y l -> f y = true -> g y = true) ->
  In x l -> g x = true -> f x = false ->
  List.length (filter f l) < List.length (filter g l).
Proof.
  induction l as [| y l IH]; simpl; intros H Hx Hg Hf.
  - destruct Hx.
  - assert (Hle : List.length (filter f l) <= List.length (filter g l)).
    { apply filter_length_le. intros z Hz. apply H. right. exact Hz. }
    destruct Hx as [Hx | Hx].
    + subst y. rewrite Hf, Hg. simpl. lia.
    + assert (IH' : List.length (filter f l) < List.length (filter g l)).
      { apply IH; auto. }
      destruct (f y) eqn:Ef.
      * rewrite (H y (or_introl eq_refl) Ef). simpl. lia.
      * destruct (g y); simpl; lia.
Qed.

Lemma vertex_in_false (v : Vertex) (l : list Vertex) :
  vertex_in v l = false <-> ~ In v l.
Proof.
  rewrite <- vertex_in_spec. destruct (vertex_in v l); split; intros H;
    try reflexivity; try discriminate; try (intros H'; discriminate).
  exfalso. apply H. reflexivity.
Qed.

Lemma unvisited_le (universe a b : list Vertex) :
  (forall v, In v a -> In v b) -> unvisited universe b <= unvisited universe a.
Proof.
  intros H. unfold unvisited. apply filter_length_le. intros x _ Hx.
  apply negb_true_iff in Hx. apply negb_true_iff.
  apply vertex_in_false. apply vertex_in_false in Hx. intros Ha. apply Hx, H, Ha.
Qed.

Lemma unvisited_lt (universe a b : list Vertex) (x : Vertex) :
  (forall v, In v a -> In v b) -> In x universe -> ~ In x a -> In x b ->
  unvisited universe b < unvisited universe a.
Proof.
  intros H Hu Ha Hb. unfold unvisited. apply (filter_length_lt _ _ _ _ x).
  - intros y _ Hy. apply negb_true_iff in Hy. apply negb_true_iff.
    apply vertex_in_false. apply vertex_in_false in Hy. intros Hya. apply Hy, H, Hya.
  - exact Hu.
  - apply negb_true_iff. apply vertex_in_false. exact Ha.
  - apply negb_false_iff. apply vertex_in_spec. exact Hb.
Qed.

Lemma stale_app (visited a b : list Vertex) :
  stale visited (a ++ b) = stale visited a + stale visited b.
Proof. unfold stale. rewrite filter_app, length_app. reflexivity. Qed.

Lemma stale_none (visited l : list Vertex) :
  (forall v, In v l -> ~ In v visited) -> stale visited l = 0.
Proof.
  intros H. unfold stale. rewrite filter_none; [reflexivity |].
  intros v Hv. apply vertex_in_false. apply H. exact Hv.
Qed.

Lemma stale_same (a b l : list Vertex) :
  (forall v, In v a <-> In v b) -> stale a l = stale b l.
Proof.
  intros H. unfold stale. f_equal. apply filter_ext. intros v.
  apply bool_iff_eq. rewrite !vertex_in_spec. apply H.
Qed.

Lemma in_unvisited_in_edges (gr : Graph) (edge_type : string) (visited : list Vertex)
  (cur_node : Vertex) (e : Edge) :
  In e (unvisited_in_edges gr edge_type visited cur_node)
  <-> In e (GraphTool.edges gr) /\ e_target e = cur_node
      /\ ~ In (e_source e) visited /\ ep_type e = edge_type.
Proof.
  unfold unvisited_in_edges. rewrite filter_In, in_gt_in_edges, andb_true_iff,
    negb_true_iff, vertex_in_false, String.eqb_eq. tauto.
Qed.

(** *** [__check_reachability] *)

Lemma reach_scan_found (source : Vertex) (visited : list Vertex) (tmpList : list Edge) :
  forall queue,
    reach_scan source visited tmpList queue = None ->
    exists e, In e tmpList /\ e_source e = source.
Proof.
  induction tmpList as [| e l IH]; simpl; intros queue H.
  - discriminate.
  - destruct (Nat.eqb (e_source e) source) eqn:E.
    + apply Nat.eqb_eq in E. exists e. auto.
    + destruct (IH _ H) as [e' [He' Hs]]. exists e'. auto.
Qed.

Lemma reach_scan_queue (source : Vertex) (visited : list Vertex) (tmpList : list Edge) :
  (forall e, In e tmpList -> ~ In (e_source e) visited) ->
  forall queue queue',
    reach_scan source visited tmpList queue = Some queue' ->
    queue' = queue ++ map e_source tmpList
    /\ forall e, In e tmpList -> e_source e <> source.
Proof.
  induction tmpList as [| e l IH]; simpl; intros Hv queue queue' H.
  - inversion H. rewrite app_nil_r. split; [reflexivity | intros e []].
  - destruct (Nat.eqb (e_source e) source) eqn:E; [discriminate |].
    apply Nat.eqb_neq in E.
    rewrite (proj2 (vertex_in_false _ _) (Hv e (or_introl eq_refl))) in H.
    destruct (IH (fun e' He' => Hv e' (or_intror He')) _ _ H) as [Hq Hne].
    split.
    + rewrite Hq, <- app_assoc. reflexivity.
    + intros e' [He' | He']; [subst e'; exact E | apply Hne; exact He'].
Qed.

Lemma reach_loop_more (gr : Graph) (source : Vertex) (edge_type : string) :
  forall fuel visited queue b,
    reach_loop fuel gr source edge_type visited queue = Ok b ->
    forall fuel', fuel <= fuel' ->
      reach_loop fuel' gr source edge_type visited queue = Ok b.
Proof.
  induction fuel as [| fuel IH]; intros visited queue b H fuel' Hle; simpl in H.
  - discriminate.
  - destruct fuel' as [| fuel']; [lia |]. simpl.
    destruct queue as [| cur_node queue']; [exact H |].
    destruct (reach_scan source (visited ++ [cur_node])
                (unvisited_in_edges gr edge_type (visited ++ [cur_node]) cur_node) queue')
      as [queue'' |]; [| exact H].
    apply IH; [exact H | lia].
Qed.

(** Every run of the loop comes to an end: a round either visits a new
    vertex, or removes from the queue an entry that was visited already
    and adds only entries that are not. *)
Lemma reach_loop_returns (gr : Graph) (source : Vertex) (edge_type : string)
  (universe : list Vertex) :
  (forall e, In e (GraphTool.edges gr) -> In (e_source e) universe) ->
  forall u s visited queue,
    unvisited universe visited = u ->
    stale visited queue = s ->
    (forall v, In v queue -> In v universe) ->
    exists fuel b, reach_loop fuel gr source edge_type visited queue = Ok b.
Proof.
  intros Huniv u. induction u as [u IHu] using lt_wf_ind.
  intros s. induction s as [s IHs] using lt_wf_ind.
  intros visited queue Hu Hs Hq.
  destruct queue as [| cur_node queue'].
  - exists 1, false. reflexivity.
  - destruct (reach_scan source (visited ++ [cur_node])
                (unvisited_in_edges gr edge_type (visited ++ [cur_node]) cur_node) queue')
      as [queue'' |] eqn:E.
    + destruct (reach_scan_queue source (visited ++ [cur_node]) _
                  (fun e He => proj1 (proj2 (proj2 (proj1
                     (in_unvisited_in_edges gr edge_type _ cur_node e) He))))
                  _ _ E) as [Hq'' _].
      assert (Hnew : forall v,
                 In v (map e_source
                         (unvisited_in_edges gr edge_type (visited ++ [cur_node]) cur_node)) ->
                 In v universe /\ ~ In v (visited ++ [cur_node])).
      { intros v Hv. apply in_map_iff in Hv. destruct Hv as [e [Hev He]]. subst v.
        apply in_unvisited_in_edges in He. split; [apply Huniv |]; tauto. }
      assert (Hin'' : forall v, In v queue'' -> In v universe).
      { intros v Hv. rewrite Hq'' in Hv. apply in_app_or in Hv.
        destruct Hv as [Hv | Hv]; [apply Hq; right; exact Hv | apply Hnew; exact Hv]. }
      assert (Hnext : exists fuel b,
                 reach_loop fuel gr source edge_type (visited ++ [cur_node]) queue'' = Ok b).
      { destruct (vertex_in cur_node visited) eqn:Ec.
        - apply vertex_in_spec in Ec.
          assert (Hsame : forall v, In v (visited ++ [cur_node]) <-> In v visited).
          { intros v. rewrite in_app_iff. simpl. split; [| tauto].
            intros [H | [H | []]]; [exact H | subst v; exact Ec]. }
          apply (IHs (stale (visited ++ [cur_node]) queue'')) with (visited := visited ++ [cur_node]).
          + rewrite Hq'', stale_app, (stale_none _ _ (fun v Hv => proj2 (Hnew v Hv))).
            rewrite (stale_same _ visited _ Hsame). subst s. unfold stale. simpl.
            rewrite (proj2 (vertex_in_spec _ _) Ec). simpl. lia.
          + subst u. apply Nat.le_antisymm; apply unvisited_le; intros v; apply Hsame.
          + reflexivity.
          + exact Hin''.
        - apply vertex_in_false in Ec.
          apply (IHu (unvisited universe (visited ++ [cur_node])))
            with (s := stale (visited ++ [cur_node]) queue'') (visited := visited ++ [cur_node]).
          + subst u. apply (unvisited_lt _ _ _ cur_node).
            * intros v Hv. apply in_or_app. left. exact Hv.
            * apply Hq. left. reflexivity.
            * exact Ec.
            * apply in_or_app. right. left. reflexivity.
          + reflexivity.
          + reflexivity.
          + exact Hin''. }
      destruct Hnext as [fuel [b Hb]]. exists (S fuel), b. simpl. rewrite E. exact Hb.
    + exists 1, true. simpl. rewrite E. reflexivity.
Qed.

Lemma typed_reach_closed (gr : Graph) (edge_type : string) (target : Vertex)
  (visited : list Vertex) :
  In target visited ->
  (forall v u, In v visited -> typed_edge gr edge_type u v -> In u visited) ->
  forall u, typed_reach gr edge_type u target -> In u visited.
Proof.
  intros Ht Hc u Hr. induction Hr as [v | u w v He Hr IH].
  - exact Ht.
  - apply (Hc w u); [apply IH; exact Ht | exact He].
Qed.

Lemma reach_loop_sound (gr : Graph) (source target : Vertex) (edge_type : string) :
  forall fuel visited queue b,
    reach_state gr edge_type source target visited queue ->
    reach_loop fuel gr source edge_type visited queue = Ok b ->
    (b = true <-> typed_reach gr edge_type source target).
Proof.
  induction fuel as [| fuel IH]; intros visited queue b Hst H; simpl in H.
  - discriminate.
  - destruct Hst as [Hsv [Hsq [Hreach [Hclosed Htarget]]]].
    destruct queue as [| cur_node queue'].
    + inversion H. split; [discriminate |]. intros Hr. exfalso. apply Hsv.
      apply (typed_reach_closed gr edge_type target visited).
      * destruct Htarget as [Ht | []]. exact Ht.
      * intros v u Hv He. destruct (Hclosed v u Hv He) as [Hu | []]. exact Hu.
      * exact Hr.
    + destruct (reach_scan source (visited ++ [cur_node])
                  (unvisited_in_edges gr edge_type (visited ++ [cur_node]) cur_node) queue')
        as [queue'' |] eqn:E.
      * destruct (reach_scan_queue source (visited ++ [cur_node]) _
                    (fun e He => proj1 (proj2 (proj2 (proj1
                       (in_unvisited_in_edges gr edge_type _ cur_node e) He))))
                    _ _ E) as [Hq'' Hne].
        apply (IH (visited ++ [cur_node]) queue'' b); [| exact H].
        assert (Hcur : typed_reach gr edge_type cur_node target).
        { apply Hreach. right. left. reflexivity. }
        split; [| split; [| split; [| split]]].
        -- intros Hin. apply in_app_or in Hin. destruct Hin as [Hin | [Hin | []]].
           ++ exact (Hsv Hin).
           ++ apply Hsq. left. exact Hin.
        -- rewrite Hq''. intros Hin. apply in_app_or in Hin. destruct Hin as [Hin | Hin].
           ++ apply Hsq. right. exact Hin.
           ++ apply in_map_iff in Hin. destruct Hin as [e [Hes He]].
              exact (Hne e He Hes).
        -- intros v [Hv | Hv].
           ++ apply in_app_or in Hv. destruct Hv as [Hv | [Hv | []]].
              ** apply Hreach. left. exact Hv.
              ** subst v. exact Hcur.
           ++ rewrite Hq'' in Hv. apply in_app_or in Hv. destruct Hv as [Hv | Hv].
              ** apply Hreach. right. right. exact Hv.
              ** apply in_map_iff in Hv. destruct Hv as [e [Hes He]].
                 apply in_unvisited_in_edges in He.
                 apply typed_reach_edge with (w := cur_node); [| exact Hcur].
                 exists e. tauto.
        -- intros v u Hv He. apply in_app_or in Hv. destruct Hv as [Hv | [Hv | []]].
           ++ destruct (Hclosed v u Hv He) as [Hu | [Hu | Hu]].
              ** left. apply in_or_app. left. exact Hu.
              ** left. apply in_or_app. right. left. exact Hu.
              ** right. rewrite Hq''. apply in_or_app. left. exact Hu.
           ++ subst v. destruct He as [e [He1 [He2 [He3 He4]]]].
              destruct (vertex_in u (visited ++ [cur_node])) eqn:Eu.
              ** left. apply vertex_in_spec. exact Eu.
              ** right. rewrite Hq''. apply in_or_app. right. apply in_map_iff.
                 exists e. split; [exact He2 |]. apply in_unvisited_in_edges.
                 apply vertex_in_false in Eu. rewrite He2. tauto.
        -- destruct Htarget as [Ht | [Ht | Ht]].
           ++ left. apply in_or_app. left. exact Ht.
           ++ left. apply in_or_app. right. left. exact Ht.
           ++ right. rewrite Hq''. apply in_or_app. left. exact Ht.
      * inversion H. split; [| reflexivity]. intros _.
        destruct (reach_scan_found _ _ _ _ E) as [e [He Hes]].
        apply in_unvisited_in_edges in He.
        apply typed_reach_edge with (w := cur_node).
        -- exists e. tauto.
        -- apply Hreach. right. left. reflexivity.
Qed.

Lemma reach_loop_self (gr : Graph) (source : Vertex) (edge_type : string) :
  forall fuel visited queue b,
    In source visited \/ (exists q, queue = source :: q) ->
    reach_loop fuel gr source edge_type visited queue = Ok b ->
    b = false.
Proof.
  induction fuel as [| fuel IH]; intros visited queue b Hs H; simpl in H.
  - discriminate.
  - destruct queue as [| cur_node queue'].
    + inversion H. reflexivity.
    + assert (Hin : In source (visited ++ [cur_node])).
      { apply in_or_app. destruct Hs as [Hs | [q Hq]]; [left; exact Hs |].
        inversion Hq. right. left. reflexivity. }
      destruct (reach_scan source (visited ++ [cur_node])
                  (unvisited_in_edges gr edge_type (visited ++ [cur_node]) cur_node) queue')
        as [queue'' |] eqn:E.
      * apply (IH (visited ++ [cur_node]) queue'' b); [left; exact Hin | exact H].
      * destruct (reach_scan_found _ _ _ _ E) as [e [He Hes]].
        apply in_unvisited_in_edges in He. exfalso.
        rewrite Hes in He. tauto.
Qed.

Lemma check_reachability_sound (fuel : nat) (gr : Graph) (target source : Vertex)
  (edge_type : string) (b : bool) :
  check_reachability fuel gr target source edge_type = Ok b ->
  (b = true <-> source <> target /\ typed_reach gr edge_type source target).
Proof.
  unfold check_reachability. intros H. destruct (Nat.eq_dec source target) as [Heq | Hne].
  - subst target. rewrite (reach_loop_self gr source edge_type fuel [] [source] b).
    + split; [discriminate | intros [Hc _]; exfalso; apply Hc; reflexivity].
    + right. exists []. reflexivity.
    + exact H.
  - rewrite (reach_loop_sound gr source target edge_type fuel [] [target] b).
    + tauto.
    + split; [intros [] |]. split; [intros [Hc | []]; apply Hne; symmetry; exact Hc |].
      split; [| split].
      * intros v [[] | [Hv | []]]. subst v. apply typed_reach_here.
      * intros v u [].
      * right. left. reflexivity.
    + exact H.
Qed.

Lemma check_reachability_returns (gr : Graph) (target source : Vertex)
  (edge_type : string) :
  exists fuel b,
    forall fuel', fuel <= fuel' ->
      check_reachability fuel' gr target source edge_type = Ok b.
Proof.
  destruct (reach_loop_returns gr source edge_type (search_space gr target)) with
    (u := unvisited (search_space gr target) []) (s := stale [] [target])
    (visited := @nil Vertex) (queue := [target]) as [fuel [b Hb]].
  - intros e He. right. apply in_map. exact He.
  - reflexivity.
  - reflexivity.
  - intros v [Hv | []]. left. exact Hv.
  - exists fuel, b. intros fuel' Hle. unfold check_reachability.
    apply (reach_loop_more gr source edge_type fuel); assumption.
Qed.

(** X22. [__check_reachability(pet, target, source, edge_type)] returns on
    every graph, cyclic or not. It is True exactly when [source] is not
    [target] and edges of the given type lead from [source] to [target]: a
    vertex is never reported reachable from itself, not even on a cycle. *)
Theorem check_reachability_spec (gr : Graph) (target source : Vertex)
  (edge_type : string) :
  exists fuel b,
    (forall fuel', fuel <= fuel' ->
       check_reachability fuel' gr target source edge_type = Ok b)
    /\ (b = true <-> source <> target /\ typed_reach gr edge_type source target).
Proof.
  destruct (check_reachability_returns gr target source edge_type) as [fuel [b Hb]].
  exists fuel, b. split; [exact Hb |].
  apply (check_reachability_sound fuel gr target source edge_type b).
  apply Hb. apply Nat.le_refl.
Qed.

(** *** [__get_parent_of_type] *)

Lemma parent_scan_found (gr : Graph) (parent_type : string) (only_first : bool)
  (last_node : Vertex) (tmpList : list Edge) :
  forall visited queue res r,
    parent_scan gr parent_type only_first last_node tmpList visited queue res = Found r ->
    only_first = true
    /\ exists e,
         In e tmpList /\ r = (e_source e, last_node)
         /\ vp_type gr (e_source e) = parent_type.
Proof.
  induction tmpList as [| e l IH]; simpl; intros visited queue res r H.
  - discriminate.
  - destruct (String.eqb (vp_type gr (e_source e)) parent_type) eqn:E.
    + apply String.eqb_eq in E. destruct only_first.
      * inversion H. split; [reflexivity |]. exists e. auto.
      * destruct (IH _ _ _ _ H) as [Hc _]. discriminate.
    + destruct (IH _ _ _ _ H) as [Hof [e' [He' Hr]]].
      split; [exact Hof |]. exists e'. tauto.
Qed.

Lemma parent_scan_continue (gr : Graph) (parent_type : string) (only_first : bool)
  (last_node : Vertex) (tmpList : list Edge) :
  forall visited queue res visited' queue' res',
    parent_scan gr parent_type only_first last_node tmpList visited queue res
    = Continue visited' queue' res' ->
    exists newv newq newr,
      visited' = visited ++ newv /\ queue' = queue ++ newq /\ res' = res ++ newr
      /\ (forall x, In x newv ->
            exists e, In e tmpList /\ e_source e = x /\ vp_type gr x = parent_type)
      /\ (forall x, In x newq ->
            exists e, In e tmpList /\ x = (e_source e, Some last_node)
                      /\ vp_type gr (e_source e) <> parent_type
                      /\ ~ In (e_source e) visited)
      /\ (forall r, In r newr ->
            exists e, In e tmpList /\ r = (e_source e, last_node)
                      /\ vp_type gr (e_source e) = parent_type)
      /\ (forall e, In e tmpList -> vp_type gr (e_source e) = parent_type ->
            In (e_source e, last_node) newr /\ only_first = false)
      /\ (forall e, In e tmpList -> vp_type gr (e_source e) <> parent_type ->
            In (e_source e) visited \/ In (e_source e, Some last_node) newq).
Proof.
  induction tmpList as [| e l IH]; simpl; intros visited queue res visited' queue' res' H.
  - inversion H. subst. exists [], [], []. rewrite !app_nil_r.
    repeat (split; [reflexivity |]).
    split; [intros x [] |]. split; [intros x [] |]. split; [intros x [] |].
    split; intros e0 [].
  - destruct (String.eqb (vp_type gr (e_source e)) parent_type) eqn:E.
    + apply String.eqb_eq in E. destruct only_first; [discriminate |].
      destruct (IH _ _ _ _ _ _ H)
        as [newv [newq [newr [Hv [Hq [Hr [Pv [Pq [Pr [Ppar Pother]]]]]]]]]].
      exists (e_source e :: newv), newq, ((e_source e, last_node) :: newr).
      rewrite <- app_assoc in Hv, Hr. simpl in Hv, Hr.
      split; [exact Hv |]. split; [exact Hq |]. split; [exact Hr |].
      split; [| split; [| split; [| split]]].
      * intros x [Hx | Hx].
        -- subst x. exists e. auto.
        -- destruct (Pv x Hx) as [e' [He' Hrest]]. exists e'. tauto.
      * intros x Hx. destruct (Pq x Hx) as [e' [He' [Hx' [Hty Hnot]]]].
        exists e'. split; [right; exact He' |]. split; [exact Hx' |].
        split; [exact Hty |]. intros Hin. apply Hnot. apply in_or_app. left. exact Hin.
      * intros r [Hx | Hx].
        -- subst r. exists e. auto.
        -- destruct (Pr r Hx) as [e' [He' Hrest]]. exists e'. tauto.
      * intros e' [He' | He'] Hty.
        -- subst e'. split; [left; reflexivity | reflexivity].
        -- destruct (Ppar e' He' Hty) as [Hin Hof]. split; [right; exact Hin | exact Hof].
      * intros e' [He' | He'] Hty.
        -- subst e'. contradiction.
        -- destruct (Pother e' He' Hty) as [Hin | Hin]; [| right; exact Hin].
           apply in_app_or in Hin. destruct Hin as [Hin | [Hin | []]]; [left; exact Hin |].
           rewrite <- Hin in Hty. contradiction.
    + assert (Hne : vp_type gr (e_source e) <> parent_type).
      { intros Hc. apply String.eqb_eq in Hc. rewrite Hc in E. discriminate. }
      destruct (IH _ _ _ _ _ _ H)
        as [newv [newq [newr [Hv [Hq [Hr [Pv [Pq [Pr [Ppar Pother]]]]]]]]]].
      destruct (vertex_in (e_source e) visited) eqn:Ein.
      * apply vertex_in_spec in Ein. exists newv, newq, newr.
        split; [exact Hv |]. split; [exact Hq |]. split; [exact Hr |].
        split; [| split; [| split; [| split]]].
        -- intros x Hx. destruct (Pv x Hx) as [e' [He' Hrest]]. exists e'. tauto.
        -- intros x Hx. destruct (Pq x Hx) as [e' [He' Hrest]]. exists e'. tauto.
        -- intros r Hx. destruct (Pr r Hx) as [e' [He' Hrest]]. exists e'. tauto.
        -- intros e' [He' | He'] Hty; [subst e'; contradiction | exact (Ppar e' He' Hty)].
        -- intros e' [He' | He'] Hty; [subst e'; left; exact Ein | exact (Pother e' He' Hty)].
      * apply vertex_in_false in Ein.
        exists newv, ((e_source e, Some last_node) :: newq), newr.
        rewrite <- app_assoc in Hq. simpl in Hq.
        split; [exact Hv |]. split; [exact Hq |]. split; [exact Hr |].
        split; [| split; [| split; [| split]]].
        -- intros x Hx. destruct (Pv x Hx) as [e' [He' Hrest]]. exists e'. tauto.
        -- intros x [Hx | Hx].
           ++ subst x. exists e. auto.
           ++ destruct (Pq x Hx) as [e' [He' Hrest]]. exists e'. tauto.
        -- intros r Hx. destruct (Pr r Hx) as [e' [He' Hrest]]. exists e'. tauto.
        -- intros e' [He' | He'] Hty; [subst e'; contradiction | exact (Ppar e' He' Hty)].
        -- intros e' [He' | He'] Hty.
           ++ subst e'. right. left. reflexivity.
           ++ destruct (Pother e' He' Hty) as [Hin | Hin]; [left; exact Hin |].
              right. right. exact Hin.
Qed.

Lemma parent_loop_more (gr : Graph) (parent_type edge_type : string) (only_first : bool) :
  forall fuel visited queue res out,
    parent_loop fuel gr parent_type edge_type only_first visited queue res = Ok out ->
    forall fuel', fuel <= fuel' ->
      parent_loop fuel' gr parent_type edge_type only_first visited queue res = Ok out.
Proof.
  induction fuel as [| fuel IH]; intros visited queue res out H fuel' Hle; simpl in H.
  - discriminate.
  - destruct fuel' as [| fuel']; [lia |]. simpl.
    destruct queue as [| [cur_node o] queue']; [exact H |].
    destruct (parent_scan gr parent_type only_first cur_node
                (unvisited_in_edges gr edge_type (visited ++ [cur_node]) cur_node)
                (visited ++ [cur_node]) queue' res) as [r | v'' q'' r'']; [exact H |].
    apply IH; [exact H | lia].
Qed.

(** The loop comes to an end for the same reason as the one of
    [__check_reachability]; a parent that is found is visited as well. *)
Lemma parent_loop_returns (gr : Graph) (parent_type edge_type : string)
  (only_first : bool) (universe : list Vertex) :
  (forall e, In e (GraphTool.edges gr) -> In (e_source e) universe) ->
  forall u s visited queue res,
    unvisited universe visited = u ->
    stale visited (map fst queue) = s ->
    (forall v, In v (map fst queue) -> In v universe) ->
    exists fuel out,
      parent_loop fuel gr parent_type edge_type only_first visited queue res = Ok out.
Proof.
  intros Huniv u. induction u as [u IHu] using lt_wf_ind.
  intros s. induction s as [s IHs] using lt_wf_ind.
  intros visited queue res Hu Hs Hq.
  destruct queue as [| [cur_node o] queue'].
  - exists 1, res. reflexivity.
  - destruct (parent_scan gr parent_type only_first cur_node
                (unvisited_in_edges gr edge_type (visited ++ [cur_node]) cur_node)
                (visited ++ [cur_node]) queue' res) as [r | v'' q'' r''] eqn:E.
    + exists 1, [r]. simpl. rewrite E. reflexivity.
    + destruct (parent_scan_continue _ _ _ _ _ _ _ _ _ _ _ E)
        as [newv [newq [newr [Hv [Hq' [Hr [Pv [Pq [Pr [Ppar Pother]]]]]]]]]].
      assert (Hfresh : forall x, In x newv ->
                 In x universe /\ ~ In x (visited ++ [cur_node])).
      { intros x Hx. destruct (Pv x Hx) as [e [He [Hes _]]].
        apply in_unvisited_in_edges in He. subst x. split; [apply Huniv |]; tauto. }
      assert (Hqueued : forall x, In x (map fst newq) -> In x universe /\ ~ In x v'').
      { intros x Hx. apply in_map_iff in Hx. destruct Hx as [[y o'] [Hy Hx]].
        simpl in Hy. subst y. destruct (Pq _ Hx) as [e [He [Hxe [Hty Hnot]]]].
        inversion Hxe. subst x. apply in_unvisited_in_edges in He.
        split; [apply Huniv; tauto |]. rewrite Hv. intros Hin.
        apply in_app_or in Hin. destruct Hin as [Hin | Hin]; [exact (Hnot Hin) |].
        destruct (Pv _ Hin) as [e' [_ [_ Hty']]]. contradiction. }
      assert (Hin'' : forall v, In v (map fst q'') -> In v universe).
      { intros v Hin. rewrite Hq', map_app in Hin. apply in_app_or in Hin.
        destruct Hin as [Hin | Hin]; [apply Hq; right; exact Hin | apply Hqueued; exact Hin]. }
      assert (Hsub : forall v, In v visited -> In v v'').
      { intros v Hin. rewrite Hv. apply in_or_app. left. apply in_or_app. left. exact Hin. }
      assert (Hnext : exists fuel out,
                 parent_loop fuel gr parent_type edge_type only_first v'' q'' r'' = Ok out).
      { destruct newv as [| x newv].
        - rewrite app_nil_r in Hv. destruct (vertex_in cur_node visited) eqn:Ec.
          + apply vertex_in_spec in Ec.
            assert (Hsame : forall v, In v v'' <-> In v visited).
            { intros v. rewrite Hv, in_app_iff. simpl. split; [| tauto].
              intros [H | [H | []]]; [exact H | subst v; exact Ec]. }
            apply (IHs (stale v'' (map fst q''))) with (visited := v'').
            * rewrite Hq', map_app, stale_app,
                (stale_none _ _ (fun v Hin => proj2 (Hqueued v Hin))).
              rewrite (stale_same _ visited _ Hsame). subst s. unfold stale. simpl.
              rewrite (proj2 (vertex_in_spec _ _) Ec). simpl. lia.
            * subst u. apply Nat.le_antisymm; apply unvisited_le; intros v; apply Hsame.
            * reflexivity.
            * exact Hin''.
          + apply vertex_in_false in Ec.
            apply (IHu (unvisited universe v''))
              with (s := stale v'' (map fst q'')) (visited := v'').
            * subst u. apply (unvisited_lt _ _ _ cur_node).
              -- exact Hsub.
              -- apply Hq. left. reflexivity.
              -- exact Ec.
              -- rewrite Hv. apply in_or_app. right. left. reflexivity.
            * reflexivity.
            * reflexivity.
            * exact Hin''.
        - destruct (Hfresh x (or_introl eq_refl)) as [Hxu Hxv].
          apply (IHu (unvisited universe v''))
            with (s := stale v'' (map fst q'')) (visited := v'').
          + subst u. apply (unvisited_lt _ _ _ x).
            * exact Hsub.
            * exact Hxu.
            * intros Hin. apply Hxv. apply in_or_app. left. exact Hin.
            * rewrite Hv. apply in_or_app. right. left. reflexivity.
          + reflexivity.
          + reflexivity.
          + exact Hin''. }
      destruct Hnext as [fuel [out Hout]]. exists (S fuel), out. simpl. rewrite E.
      exact Hout.
Qed.

Lemma parent_loop_sound (gr : Graph) (node : Vertex) (parent_type edge_type : string)
  (only_first : bool) :
  forall fuel visited queue res out,
    parent_state gr node parent_type edge_type only_first visited queue res ->
    parent_loop fuel gr parent_type edge_type only_first visited queue res = Ok out ->
    parents_found gr node parent_type edge_type only_first out.
Proof.
  induction fuel as [| fuel IH]; intros visited queue res out Hst H; simpl in H.
  - discriminate.
  - destruct Hst as [Hnode [Hreach [Hres [Hempty Hfirst]]]].
    destruct queue as [| [cur_node o] queue'].
    + inversion H. subst out. split; [exact Hres |]. split.
      * split.
        -- intros Hnil p Hp Hty. destruct (Hempty Hnil) as [Hclosed Htypes].
           assert (Hin : In p visited).
           { apply (typed_reach_closed gr edge_type node visited).
             - destruct Hnode as [Hn | [o [q Hq]]]; [exact Hn | discriminate].
             - intros v u Hv He. destruct (Hclosed v u Hv He) as [Hu | []]. exact Hu.
             - exact Hp. }
           destruct (Htypes p (or_introl Hin)) as [Hp' | Hp']; [exact Hp' | contradiction].
        -- intros Hall. destruct res as [| [p last] res']; [reflexivity |].
           destruct (Hres p last (or_introl eq_refl)) as [Hty [Hne [He Hr]]].
           exfalso. apply Hne. apply Hall; [| exact Hty].
           apply typed_reach_edge with (w := last); assumption.
      * intros Hof. rewrite (Hfirst Hof). simpl. lia.
    + assert (Hnode' : In node (visited ++ [cur_node])).
      { apply in_or_app. destruct Hnode as [Hn | [o' [q Hq]]]; [left; exact Hn |].
        inversion Hq. right. left. reflexivity. }
      assert (Hcur : typed_reach gr edge_type cur_node node).
      { apply Hreach. right. left. reflexivity. }
      assert (Hparent : forall e,
                 In e (unvisited_in_edges gr edge_type (visited ++ [cur_node]) cur_node) ->
                 e_source e <> node
                 /\ typed_edge gr edge_type (e_source e) cur_node).
      { intros e He. apply in_unvisited_in_edges in He. split.
        - intros Hc. rewrite Hc in He. tauto.
        - exists e. tauto. }
      destruct (parent_scan gr parent_type only_first cur_node
                  (unvisited_in_edges gr edge_type (visited ++ [cur_node]) cur_node)
                  (visited ++ [cur_node]) queue' res) as [r | v'' q'' r''] eqn:E.
      * inversion H. subst out.
        destruct (parent_scan_found _ _ _ _ _ _ _ _ _ E) as [Hof [e [He [Hr Hty]]]].
        destruct (Hparent e He) as [Hne Hedge]. subst r.
        split; [| split].
        -- intros p last [Hp | []]. inversion Hp. subst p last. auto.
        -- split; [discriminate |]. intros Hall. exfalso. apply Hne.
           apply Hall; [| exact Hty].
           apply typed_reach_edge with (w := cur_node); assumption.
        -- intros _. simpl. lia.
      * destruct (parent_scan_continue _ _ _ _ _ _ _ _ _ _ _ E)
          as [newv [newq [newr [Hv [Hq' [Hr [Pv [Pq [Pr [Ppar Pother]]]]]]]]]].
        apply (IH v'' q'' r'' out); [| exact H].
        split; [| split; [| split; [| split]]].
        -- left. rewrite Hv. apply in_or_app. left. exact Hnode'.
        -- intros v [Hin | Hin].
           ++ rewrite Hv in Hin. apply in_app_or in Hin. destruct Hin as [Hin | Hin].
              ** apply in_app_or in Hin. destruct Hin as [Hin | [Hin | []]].
                 --- apply Hreach. left. exact Hin.
                 --- subst v. exact Hcur.
              ** destruct (Pv v Hin) as [e [He [Hes _]]]. subst v.
                 apply typed_reach_edge with (w := cur_node); [| exact Hcur].
                 apply Hparent. exact He.
           ++ rewrite Hq', map_app in Hin. apply in_app_or in Hin.
              destruct Hin as [Hin | Hin].
              ** apply Hreach. right. right. exact Hin.
              ** apply in_map_iff in Hin. destruct Hin as [[y o'] [Hy Hin]].
                 simpl in Hy. subst y. destruct (Pq _ Hin) as [e [He [Hxe _]]].
                 inversion Hxe. subst v.
                 apply typed_reach_edge with (w := cur_node); [| exact Hcur].
                 apply Hparent. exact He.
        -- intros p last Hin. rewrite Hr in Hin. apply in_app_or in Hin.
           destruct Hin as [Hin | Hin]; [exact (Hres p last Hin) |].
           destruct (Pr _ Hin) as [e [He [Hpe Hty]]]. inversion Hpe. subst p last.
           destruct (Hparent e He) as [Hne Hedge]. auto.
        -- intros Hnil. rewrite Hr in Hnil. apply app_eq_nil in Hnil.
           destruct Hnil as [Hnil Hnewr]. destruct (Hempty Hnil) as [Hclosed Htypes].
           assert (Hnopar : forall e,
                      In e (unvisited_in_edges gr edge_type (visited ++ [cur_node]) cur_node) ->
                      vp_type gr (e_source e) <> parent_type).
           { intros e He Hty. destruct (Ppar e He Hty) as [Hin _].
             rewrite Hnewr in Hin. destruct Hin. }
           assert (Hnewv : newv = []).
           { destruct newv as [| x newv]; [reflexivity |].
             destruct (Pv x (or_introl eq_refl)) as [e [He [Hes Hty]]].
             exfalso. apply (Hnopar e He). rewrite Hes. exact Hty. }
           subst newv. rewrite app_nil_r in Hv. split.
           ++ intros v u Hin Hedge. rewrite Hv in Hin. apply in_app_or in Hin.
              destruct Hin as [Hin | [Hin | []]].
              ** destruct (Hclosed v u Hin Hedge) as [Hu | [Hu | Hu]].
                 --- left. rewrite Hv. apply in_or_app. left. exact Hu.
                 --- left. rewrite Hv. apply in_or_app. right. left. exact Hu.
                 --- right. rewrite Hq', map_app. apply in_or_app. left. exact Hu.
              ** subst v. destruct Hedge as [e [He1 [He2 [He3 He4]]]].
                 destruct (vertex_in u (visited ++ [cur_node])) eqn:Eu.
                 --- left. rewrite Hv. apply vertex_in_spec. exact Eu.
                 --- apply vertex_in_false in Eu.
                     assert (He : In e (unvisited_in_edges gr edge_type
                                          (visited ++ [cur_node]) cur_node)).
                     { apply in_unvisited_in_edges. rewrite He2. tauto. }
                     destruct (Pother e He (Hnopar e He)) as [Hu | Hu].
                     +++ left. rewrite Hv, <- He2. exact Hu.
                     +++ right. rewrite Hq', map_app. apply in_or_app. right.
                         apply in_map_iff. exists (e_source e, Some cur_node).
                         split; [exact He2 | exact Hu].
           ++ intros v [Hin | Hin].
              ** rewrite Hv in Hin. apply in_app_or in Hin.
                 destruct Hin as [Hin | [Hin | []]].
                 --- apply Htypes. left. exact Hin.
                 --- apply Htypes. right. left. exact Hin.
              ** rewrite Hq', map_app in Hin. apply in_app_or in Hin.
                 destruct Hin as [Hin | Hin].
                 --- apply Htypes. right. right. exact Hin.
                 --- apply in_map_iff in Hin. destruct Hin as [[y o'] [Hy Hin]].
                     simpl in Hy. subst y. destruct (Pq _ Hin) as [e [He [Hxe [Hty _]]]].
                     inversion Hxe. subst v. right. exact Hty.
        -- intros Hof. rewrite Hr, (Hfirst Hof). simpl.
           destruct newr as [| r newr]; [reflexivity |].
           destruct (Pr r (or_introl eq_refl)) as [e [He [_ Hty]]].
           destruct (Ppar e He Hty) as [_ Hc]. rewrite Hof in Hc. discriminate.
Qed.

Lemma get_parent_of_type_sound (fuel : nat) (gr : Graph) (node : Vertex)
  (parent_type edge_type : string) (only_first : bool)
  (res : list (Vertex * Vertex)) :
  get_parent_of_type fuel gr node parent_type edge_type only_first = Ok res ->
  parents_found gr node parent_type edge_type only_first res.
Proof.
  unfold get_parent_of_type.
  apply (parent_loop_sound gr node parent_type edge_type only_first fuel).
  split; [right; exists None, []; reflexivity |].
  split; [intros v [[] | [Hv | []]]; subst v; apply typed_reach_here |].
  split; [intros p last [] |].
  split; [| reflexivity]. intros _. split.
  - intros v u [].
  - intros v [[] | [Hv | []]]. left. symmetry. exact Hv.
Qed.

Lemma get_parent_of_type_returns (gr : Graph) (node : Vertex)
  (parent_type edge_type : string) (only_first : bool) :
  exists fuel res,
    forall fuel', fuel <= fuel' ->
      get_parent_of_type fuel' gr node parent_type edge_type only_first = Ok res.
Proof.
  destruct (parent_loop_returns gr parent_type edge_type only_first (search_space gr node))
    with (u := unvisited (search_space gr node) [])
         (s := stale [] (map fst [(node, @None Vertex)]))
         (visited := @nil Vertex) (queue := [(node, @None Vertex)])
         (res := @nil (Vertex * Vertex)) as [fuel [res Hres]].
  - intros e He. right. apply in_map. exact He.
  - reflexivity.
  - reflexivity.
  - intros v [Hv | []]. left. exact Hv.
  - exists fuel, res. intros fuel' Hle. unfold get_parent_of_type.
    apply (parent_loop_more gr parent_type edge_type only_first fuel); assumption.
Qed.

(** X23. [__get_parent_of_type] returns on every graph. Every pair
    (parent, last) of the result is a vertex of the wanted type other than
    the start node, with a vertex an edge of the wanted type leads to from
    the parent and from which such edges lead on to the start node. The
    result is empty exactly when no vertex of the wanted type other than
    the start node reaches the start node along such edges, and with
    [only_first] it has at most one pair. *)
Theorem get_parent_of_type_spec (gr : Graph) (node : Vertex)
  (parent_type edge_type : string) (only_first : bool) :
  exists fuel res,
    (forall fuel', fuel <= fuel' ->
       get_parent_of_type fuel' gr node parent_type edge_type only_first = Ok res)
    /\ (forall p last,
          In (p, last) res ->
          vp_type gr p = parent_type /\ p <> node
          /\ typed_edge gr edge_type p last /\ typed_reach gr edge_type last node)
    /\ (res = [] <->
        forall p, typed_reach gr edge_type p node -> vp_type gr p = parent_type ->
                  p = node)
    /\ (only_first = true -> List.length res <= 1).
Proof.
  destruct (get_parent_of_type_returns gr node parent_type edge_type only_first)
    as [fuel [res Hres]].
  exists fuel, res. split; [exact Hres |].
  apply (get_parent_of_type_sound fuel gr node parent_type edge_type only_first res).
  apply Hres. apply Nat.le_refl.
Qed.

End Searches.

(** On a cycle of two CUs each is reachable from the other and none from
    itself; the parents of type cu of the CU 0 are found without the
    search running on. *)
Example searches_on_child_cycle :
  TaskSearch.check_reachability 3 Cases.child_cycle 0 0 "child" = Ok false
  /\ TaskSearch.check_reachability 3 Cases.child_cycle 1 0 "child" = Ok true
  /\ TaskSearch.get_parent_of_type 3 Cases.child_cycle 0 "cu" "child" false = Ok [(1, 0)].
Proof. repeat split; vm_compute; reflexivity. Qed.

(** ** [__remove_useless_barrier_suggestions] *)

Section BarrierFilter.
Import GraphTool TaskParallelism TaskSearch Notions.

Lemma split_by_pragma_spec (l : list TaskParallelismInfo) :
  forall sp,
    split_by_pragma l = Ok sp ->
    fst sp = filter taskwait_pragma l
    /\ snd sp = filter (fun s => negb (taskwait_pragma s)) l.
Proof.
  induction l as [| s l IH]; intros sp H; simpl in H.
  - inversion H. split; reflexivity.
  - destruct (pragma s) as [| p0 ps] eqn:Eps; [discriminate |].
    apply bind_ok in H. destruct H as [r [Hr H]]. destruct (IH r Hr) as [H1 H2].
    assert (Htw : taskwait_pragma s = String.eqb p0 "taskwait").
    { unfold taskwait_pragma. rewrite Eps. reflexivity. }
    destruct (String.eqb p0 "taskwait"); inversion H; simpl; rewrite Htw; simpl;
      rewrite H1, H2; split; reflexivity.
Qed.

Lemma split_by_pragma_outcome (l : list TaskParallelismInfo) :
  (exists sp, split_by_pragma l = Ok sp) \/ split_by_pragma l = Raise IndexError.
Proof.
  induction l as [| s l IH]; simpl.
  - left. eexists. reflexivity.
  - destruct (pragma s) as [| p0 ps]; [right; reflexivity |].
    destruct IH as [[sp Hsp] | Hr]; rewrite ?Hsp, ?Hr; simpl.
    + left. eexists. reflexivity.
    + right. reflexivity.
Qed.

Lemma bodies_add_spec (d : list (Vertex * list string)) (parent : Vertex) (x : string)
  (f : Vertex) (line : string) :
  (exists lines, In (f, lines) (bodies_add d parent x) /\ In line lines)
  <-> (exists lines, In (f, lines) d /\ In line lines) \/ (f = parent /\ line = x).
Proof.
  induction d as [| [k l] d IH]; simpl.
  - split.
    + intros [lines [[H | []] Hl]]. inversion H. subst. destruct Hl as [Hl | []].
      right. split; [reflexivity | symmetry; exact Hl].
    + intros [[lines [[] _]] | [Hf Hl]]. subst. exists [x].
      split; left; reflexivity.
  - destruct (Nat.eqb k parent) eqn:E.
    + apply Nat.eqb_eq in E. subst k. split.
      * intros [lines [[H | H] Hl]].
        -- inversion H. subst. apply in_app_or in Hl. destruct Hl as [Hl | [Hl | []]].
           ++ left. exists l. split; [left; reflexivity | exact Hl].
           ++ right. split; [reflexivity | symmetry; exact Hl].
        -- left. exists lines. split; [right; exact H | exact Hl].
      * intros [[lines [[H | H] Hl]] | [Hf Hl]].
        -- inversion H. subst. exists (lines ++ [x]). split; [left; reflexivity |].
           apply in_or_app. left. exact Hl.
        -- exists lines. split; [right; exact H | exact Hl].
        -- subst. exists (l ++ [x]). split; [left; reflexivity |].
           apply in_or_app. right. left. reflexivity.
    + split.
      * intros [lines [[H | H] Hl]].
        -- left. exists lines. split; [left; exact H | exact Hl].
        -- destruct (proj1 IH (ex_intro _ lines (conj H Hl))) as [[l1 [H1 H2]] | Hr].
           ++ left. exists l1. split; [right; exact H1 | exact H2].
           ++ right. exact Hr.
      * intros [[lines [[H | H] Hl]] | Hr].
        -- exists lines. split; [left; exact H | exact Hl].
        -- destruct (proj2 IH (or_introl (ex_intro _ lines (conj H Hl)))) as [l1 [H1 H2]].
           exists l1. split; [right; exact H1 | exact H2].
        -- destruct (proj2 IH (or_intror Hr)) as [l1 [H1 H2]].
           exists l1. split; [right; exact H1 | exact H2].
Qed.

Lemma first_parent_single (fuel : nat) (gr : Graph) (node : Vertex)
  (parent_type edge_type : string) (p last : Vertex) (rest : list (Vertex * Vertex)) :
  get_parent_of_type fuel gr node parent_type edge_type true = Ok ((p, last) :: rest) ->
  rest = [].
Proof.
  intros H. apply get_parent_of_type_sound in H. destruct H as [_ [_ Hlen]].
  specialize (Hlen eq_refl). simpl in Hlen. destruct rest; [reflexivity | simpl in Hlen; lia].
Qed.

Lemma relevant_function_bodies_loop (fuel : nat) (gr : Graph) :
  forall l done d d',
    bodies_of fuel gr done d ->
    for_each l
      (fun d ts =>
         parent <- get_parent_of_type fuel gr (tp_node ts) "func" "child" true ;;
         match parent with
         | [] => Raise IndexError
         | (p, _) :: _ => Ok (bodies_add d p (pragma_line ts))
         end)
      d = Ok d' ->
    bodies_of fuel gr (done ++ l) d'.
Proof.
  induction l as [| t l IH]; intros done d d' Hd H; simpl in H.
  - inversion H. subst d'. rewrite app_nil_r. exact Hd.
  - apply bind_ok in H. destruct H as [d1 [H1 H]].
    apply bind_ok in H1. destruct H1 as [parent [Hparent H1]].
    destruct parent as [| [p last] rest]; [discriminate |].
    pose proof (first_parent_single _ _ _ _ _ _ _ _ Hparent) as Hrest. subst rest.
    inversion H1. subst d1. clear H1.
    replace (done ++ t :: l) with ((done ++ [t]) ++ l)
      by (rewrite <- app_assoc; reflexivity).
    apply (IH (done ++ [t]) (bodies_add d p (pragma_line t)) d'); [| exact H].
    intros f line. rewrite bodies_add_spec, (Hd f line). split.
    + intros [[t0 [last0 [Hin Hrest]]] | [Hf Hline]].
      * exists t0, last0. split; [apply in_or_app; left; exact Hin | exact Hrest].
      * subst f line. exists t, last. split; [apply in_or_app; right; left; reflexivity |].
        split; [reflexivity | exact Hparent].
    + intros [t0 [last0 [Hin [Hline Hp0]]]]. apply in_app_or in Hin.
      destruct Hin as [Hin | [Hin | []]].
      * left. exists t0, last0. auto.
      * subst t0. right. rewrite Hparent in Hp0. inversion Hp0. auto.
Qed.

Lemma keep_taskwait_spec (fuel : nat) (gr : Graph) (bodies : list (Vertex * list string))
  (tws : TaskParallelismInfo) (acc acc' : list TaskParallelismInfo) :
  keep_taskwait fuel gr bodies acc tws = Ok acc' ->
  exists n new,
    after_colon (pragma_line tws) = Ok n
    /\ acc' = acc ++ new
    /\ (forall s, In s new -> s = tws)
    /\ (new <> [] <->
        exists f lines line,
          In (f, lines) bodies /\ In line lines /\ str_le line n = true
          /\ f <> tp_node tws /\ typed_reach gr "child" f (tp_node tws)).
Proof.
  unfold keep_taskwait. intros H. apply bind_ok in H. destruct H as [n [Hn H]].
  exists n. revert acc acc' H.
  induction bodies as [| [f lines] bodies IH]; intros acc acc' H; simpl in H.
  - inversion H. exists []. rewrite app_nil_r.
    split; [exact Hn |]. split; [reflexivity |]. split; [intros s [] |].
    split; [intros Hc; exfalso; apply Hc; reflexivity |].
    intros [f [lines [line [[] _]]]].
  - apply bind_ok in H. destruct H as [acc1 [H1 H]].
    apply bind_ok in H1. destruct H1 as [r [Hr H1]]. simpl in Hr.
    pose proof (check_reachability_sound _ _ _ _ _ _ Hr) as Hsound.
    destruct (IH acc1 acc' H) as [new [_ [Hacc [Hall Hiff]]]].
    inversion H1 as [Hacc1]. clear H1.
    destruct (r && existsb (fun line_number => str_le line_number n) lines) eqn:E.
    + apply andb_true_iff in E. destruct E as [Er Ex]. rewrite Er, Ex in Hacc1.
      exists (tws :: new). split; [exact Hn |].
      split; [rewrite Hacc, <- Hacc1, <- app_assoc; reflexivity |].
      split; [intros s [Hs | Hs]; [symmetry; exact Hs | apply Hall; exact Hs] |].
      split; [| intros _; discriminate]. intros _.
      apply existsb_exists in Ex. destruct Ex as [line [Hline Hle]].
      exists f, lines, line. split; [left; reflexivity |].
      split; [exact Hline |]. split; [exact Hle |]. apply Hsound. exact Er.
    + assert (Hsame : acc1 = acc).
      { rewrite <- Hacc1. destruct r; [| reflexivity]. simpl in E. rewrite E. reflexivity. }
      exists new. split; [exact Hn |]. split; [rewrite Hacc, Hsame; reflexivity |].
      split; [exact Hall |]. rewrite Hiff. split.
      * intros [f0 [lines0 [line [Hin Hrest]]]]. exists f0, lines0, line.
        split; [right; exact Hin | exact Hrest].
      * intros [f0 [lines0 [line [[Hin | Hin] [Hline [Hle Hreach]]]]]].
        -- inversion Hin. subst f0 lines0. exfalso.
           apply andb_false_iff in E. destruct E as [E | E].
           ++ rewrite (proj2 Hsound Hreach) in E. discriminate.
           ++ assert (Hex : existsb (fun line_number => str_le line_number n) lines = true).
              { apply existsb_exists. exists line. auto. }
              rewrite Hex in E. discriminate.
        -- exists f0, lines0, line. auto.
Qed.

Lemma keep_taskwaits_loop (fuel : nat) (gr : Graph) (bodies : list (Vertex * list string)) :
  forall l acc out,
    for_each l (keep_taskwait fuel gr bodies) acc = Ok out ->
    exists kept,
      out = acc ++ kept
      /\ forall s,
           In s kept <->
           In s l
           /\ exists n f lines line,
                after_colon (pragma_line s) = Ok n
                /\ In (f, lines) bodies /\ In line lines /\ str_le line n = true
                /\ f <> tp_node s /\ typed_reach gr "child" f (tp_node s).
Proof.
  induction l as [| x l IH]; intros acc out H; simpl in H.
  - inversion H. exists []. rewrite app_nil_r. split; [reflexivity |].
    intros s. split; [intros [] | intros [[] _]].
  - apply bind_ok in H. destruct H as [acc1 [H1 H]].
    destruct (keep_taskwait_spec _ _ _ _ _ _ H1) as [n [new [Hn [Hacc1 [Hall Hiff]]]]].
    destruct (IH acc1 out H) as [kept [Hout Hkept]].
    exists (new ++ kept). split; [rewrite Hout, Hacc1, <- app_assoc; reflexivity |].
    intros s. rewrite in_app_iff, Hkept. split.
    + intros [Hin | [Hin Hrest]].
      * pose proof (Hall s Hin) as Hs. subst s. split; [left; reflexivity |].
        assert (Hne : new <> []). { intros Hc. rewrite Hc in Hin. destruct Hin. }
        destruct (proj1 Hiff Hne) as [f [lines [line Hrest]]].
        exists n, f, lines, line. split; [exact Hn | exact Hrest].
      * split; [right; exact Hin | exact Hrest].
    + intros [[Hin | Hin] Hrest].
      * subst s. left. destruct Hrest as [n0 [f [lines [line [Hn0 Hrest]]]]].
        rewrite Hn in Hn0. inversion Hn0. subst n0.
        assert (Hne : new <> []).
        { apply Hiff. exists f, lines, line. exact Hrest. }
        destruct new as [| y new]; [exfalso; apply Hne; reflexivity |].
        rewrite <- (Hall y (or_introl eq_refl)). left. reflexivity.
      * right. split; [exact Hin | exact Hrest].
Qed.

(** X24. When [__remove_useless_barrier_suggestions] returns, the list
    it returns starts with the suggestions that are no taskwaits, in their
    order; all that follows are taskwaits of the given list. A taskwait is
    kept exactly when there is a task suggestion whose parent function, as
    [__get_parent_of_type] finds it, is not the CU of the taskwait but has
    child edges leading to it, and whose pragma line (with its file id) is
    at most the line number of the taskwait (without it) as strings. *)
Theorem remove_useless_barrier_suggestions_spec (fuel : nat) (gr : Graph)
  (suggestions_ out : list TaskParallelismInfo) :
  remove_useless_barrier_suggestions fuel gr suggestions_ = Ok out ->
  exists kept,
    out = filter (fun s => negb (taskwait_pragma s)) suggestions_ ++ kept
    /\ forall s,
         In s kept <->
         In s suggestions_ /\ taskwait_pragma s = true
         /\ exists t f last n,
              In t suggestions_ /\ taskwait_pragma t = false
              /\ get_parent_of_type fuel gr (tp_node t) "func" "child" true
                 = Ok [(f, last)]
              /\ f <> tp_node s /\ typed_reach gr "child" f (tp_node s)
              /\ after_colon (pragma_line s) = Ok n
              /\ str_le (pragma_line t) n = true.
Proof.
  unfold remove_useless_barrier_suggestions. intros H.
  apply bind_ok in H. destruct H as [sp [Hsp H]].
  apply bind_ok in H. destruct H as [bodies [Hbodies H]].
  destruct (split_by_pragma_spec _ _ Hsp) as [Htws Htasks].
  rewrite Htws, Htasks in H. rewrite Htasks in Hbodies.
  assert (Hof : bodies_of fuel gr (filter (fun s => negb (taskwait_pragma s)) suggestions_)
                  bodies).
  { apply (relevant_function_bodies_loop fuel gr _ [] [] bodies); [| exact Hbodies].
    intros f line. split.
    - intros [lines [[] _]].
    - intros [t [last [[] _]]]. }
  destruct (keep_taskwaits_loop _ _ _ _ _ _ H) as [kept [Hout Hkept]].
  exists kept. split; [exact Hout |]. intros s. rewrite Hkept, filter_In. split.
  - intros [[Hin Htw] [n [f [lines [line [Hn [Hb [Hline [Hle [Hne Hreach]]]]]]]]]].
    split; [exact Hin |]. split; [exact Htw |].
    destruct (proj1 (Hof f line) (ex_intro _ lines (conj Hb Hline)))
      as [t [last [Ht [Hpl Hparent]]]].
    apply filter_In in Ht. destruct Ht as [Ht Hnot]. apply negb_true_iff in Hnot.
    exists t, f, last, n. rewrite Hpl. auto 10.
  - intros [Hin [Htw [t [f [last [n [Ht [Hnot [Hparent [Hne [Hreach [Hn Hle]]]]]]]]]]]].
    split; [split; assumption |].
    destruct (proj2 (Hof f (pragma_line t))) as [lines [Hb Hline]].
    { exists t, last. split; [| split; [reflexivity | exact Hparent]].
      apply filter_In. split; [exact Ht | apply negb_true_iff; exact Hnot]. }
    exists n, f, lines, (pragma_line t). auto 10.
Qed.

(** The loop over the task suggestions, with enough fuel: it fails with
    IndexError when a task has no function above it, and returns a dict
    otherwise. *)
Lemma relevant_function_bodies_outcome (gr : Graph) (l : list TaskParallelismInfo) :
  exists fuel,
    forall fuel', fuel <= fuel' ->
    forall d,
      ((exists t, In t l /\ no_function_above gr (tp_node t)) ->
       for_each l
         (fun d ts =>
            parent <- get_parent_of_type fuel' gr (tp_node ts) "func" "child" true ;;
            match parent with
            | [] => Raise IndexError
            | (p, _) :: _ => Ok (bodies_add d p (pragma_line ts))
            end)
         d = Raise IndexError)
      /\ ((forall t, In t l -> ~ no_function_above gr (tp_node t)) ->
          exists d',
            for_each l
              (fun d ts =>
                 parent <- get_parent_of_type fuel' gr (tp_node ts) "func" "child" true ;;
                 match parent with
                 | [] => Raise IndexError
                 | (p, _) :: _ => Ok (bodies_add d p (pragma_line ts))
                 end)
              d = Ok d').
Proof.
  induction l as [| t l [fuel_l IH]].
  - exists 0. intros fuel' _ d. split.
    + intros [t [[] _]].
    + intros _. exists d. reflexivity.
  - destruct (get_parent_of_type_returns gr (tp_node t) "func" "child" true)
      as [fuel_t [res Hres]].
    exists (Nat.max fuel_t fuel_l). intros fuel' Hle d.
    assert (Ht : get_parent_of_type fuel' gr (tp_node t) "func" "child" true = Ok res).
    { apply Hres. lia. }
    destruct (get_parent_of_type_sound _ _ _ _ _ _ _ Ht) as [_ [Hempty _]].
    fold (no_function_above gr (tp_node t)) in Hempty.
    simpl. rewrite Ht. simpl. destruct res as [| [p last] rest].
    + split; [reflexivity |]. intros Hall. exfalso.
      apply (Hall t (or_introl eq_refl)). apply Hempty. reflexivity.
    + simpl. assert (Hfuel : fuel_l <= fuel') by lia.
      destruct (IH fuel' Hfuel (bodies_add d p (pragma_line t))) as [IH1 IH2]. split.
      * intros [t0 [[Ht0 | Ht0] Hno]].
        -- subst t0. apply Hempty in Hno. discriminate.
        -- apply IH1. exists t0. auto.
      * intros Hall. apply IH2. intros t0 Ht0. apply Hall. right. exact Ht0.
Qed.

(** X25. [__remove_useless_barrier_suggestions] fails with IndexError
    as soon as one of the task suggestions (a suggestion that is no taskwait)
    is for a CU that has no function above it along child edges: the search
    for the parent returns the empty list and [parent[0][0]] is read. *)
Theorem remove_useless_barrier_suggestions_no_parent (gr : Graph)
  (suggestions_ : list TaskParallelismInfo) (t : TaskParallelismInfo) :
  In t suggestions_ ->
  taskwait_pragma t = false ->
  no_function_above gr (tp_node t) ->
  exists fuel,
    forall fuel', fuel <= fuel' ->
      remove_useless_barrier_suggestions fuel' gr suggestions_ = Raise IndexError.
Proof.
  intros Hin Htw Hno. unfold remove_useless_barrier_suggestions.
  destruct (split_by_pragma_outcome suggestions_) as [[sp Hsp] | Hraise].
  - destruct (split_by_pragma_spec _ _ Hsp) as [_ Htasks].
    destruct (relevant_function_bodies_outcome gr (snd sp)) as [fuel Hfuel].
    exists fuel. intros fuel' Hle. rewrite Hsp. simpl.
    unfold relevant_function_bodies.
    rewrite (proj1 (Hfuel fuel' Hle [])); [reflexivity |].
    exists t. split; [| exact Hno]. rewrite Htasks. apply filter_In.
    split; [exact Hin | apply negb_true_iff; exact Htw].
  - exists 0. intros fuel' _. rewrite Hraise. reflexivity.
Qed.

End BarrierFilter.

Lemma remove_useless_barrier_suggestions_spec_witness :
  exists out,
    TaskSearch.remove_useless_barrier_suggestions 4 Cases.func_two_cus
      Cases.task_and_taskwaits = Ok out
    /\ exists kept,
         out = filter (fun s => negb (Notions.taskwait_pragma s)) Cases.task_and_taskwaits
               ++ kept
         /\ forall s,
              In s kept <->
              In s Cases.task_and_taskwaits /\ Notions.taskwait_pragma s = true
              /\ exists t f last n,
                   In t Cases.task_and_taskwaits /\ Notions.taskwait_pragma t = false
                   /\ TaskSearch.get_parent_of_type 4 Cases.func_two_cus
                        (TaskParallelism.tp_node t) "func" "child" true
                      = Ok [(f, last)]
                   /\ f <> TaskParallelism.tp_node s
                   /\ Notions.typed_reach Cases.func_two_cus "child" f
                        (TaskParallelism.tp_node s)
                   /\ after_colon (TaskParallelism.pragma_line s) = Ok n
                   /\ str_le (TaskParallelism.pragma_line t) n = true.
Proof.
  destruct (TaskSearch.remove_useless_barrier_suggestions 4 Cases.func_two_cus
              Cases.task_and_taskwaits) as [out | e |] eqn:E.
  - exists out. split; [reflexivity |].
    exact (remove_useless_barrier_suggestions_spec 4 Cases.func_two_cus
             Cases.task_and_taskwaits out E).
  - vm_compute in E. discriminate E.
  - vm_compute in E. discriminate E.
Defined.

Lemma typed_reach_last (gr : GraphTool.Graph) (edge_type : string)
  (p v : GraphTool.Vertex) :
  Notions.typed_reach gr edge_type p v ->
  p = v \/ exists u, Notions.typed_edge gr edge_type u v.
Proof.
  intros Hr. induction Hr as [v | u w v He Hr IH].
  - left. reflexivity.
  - right. destruct IH as [Hw | Hex]; [| exact Hex]. subst w. exists u. exact He.
Qed.

Lemma outside_has_no_function : Notions.no_function_above Cases.func_two_cus 3.
Proof.
  intros p Hp _. destruct (typed_reach_last _ _ _ _ Hp) as [Heq | [u [e [He [_ [Ht _]]]]]].
  - exact Heq.
  - cbv in He. destruct He as [He | [He | []]]; subst e; discriminate Ht.
Qed.

Lemma remove_useless_barrier_suggestions_no_parent_witness :
  exists fuel,
    forall fuel', fuel <= fuel' ->
      TaskSearch.remove_useless_barrier_suggestions fuel' Cases.func_two_cus
        Cases.task_outside = Raise IndexError.
Proof.
  apply (remove_useless_barrier_suggestions_no_parent Cases.func_two_cus Cases.task_outside
           (TaskParallelism.mkTaskInfo 3 ["task"] "1:20" "20" None [] [] [])).
  - right. left. reflexivity.
  - reflexivity.
  - exact outside_has_no_function.
Defined.

(** On [func_two_cus] the task of the CU 1 keeps the taskwait of the CU 2;
    the taskwait for the function itself and the one for the CU outside of
    it go. *)
Example remove_useless_on_func_two_cus :
  TaskSearch.remove_useless_barrier_suggestions 4 Cases.func_two_cus
    Cases.task_and_taskwaits
  = Ok [TaskParallelism.mkTaskInfo 1 ["task"] "1:5" "5" None [] [] [];
        TaskParallelism.mkTaskInfo 2 ["taskwait"] "1:9" "9" None [] [] []].
Proof. vm_compute. reflexivity. Qed.

(** ** pattern_detection.py: the dependences between the children of a loop *)

Section OlderDependences.
Import GraphTool PatternDetection Spec Notions.

Lemma subtree_typed (fuel : nat) (gr : Graph) (ty : string) (root : Vertex)
  (l : list Vertex) :
  get_subtree_of_type fuel gr root ty = Ok l ->
  ty <> "*" ->
  forall n, In n l <-> gt_reach gr root n /\ vp_type gr n = ty.
Proof.
  intros H Hty n. rewrite (get_subtree_of_type_spec fuel gr ty root l H n).
  split; intros [Hr Ht]; (split; [exact Hr |]).
  - destruct Ht as [Ht | Ht]; [exact Ht | contradiction].
  - left. exact Ht.
Qed.

Lemma gt_loop_lines_spec (fuel : nat) (gr : Graph) (root_loop : Vertex)
  (loops : list Vertex) (o : string) :
  get_subtree_of_type fuel gr root_loop "2" = Ok loops ->
  In o (map (vp_startsAtLine gr) loops) <-> gt_loop_line gr root_loop o.
Proof.
  intros H. rewrite in_map_iff. unfold gt_loop_line. split.
  - intros [l [Ho Hl]]. exists l.
    apply (subtree_typed fuel gr "2" root_loop loops H) in Hl; [| discriminate]. tauto.
  - intros [l [Hr [Ht Ho]]]. exists l. split; [exact Ho |].
    apply (subtree_typed fuel gr "2" root_loop loops H); [discriminate | tauto].
Qed.

Lemma older_is_loop_index_spec (fuel : nat) (gr : Graph) (root_loop : Vertex)
  (loops cus : list Vertex) (e : Edge) :
  get_subtree_of_type fuel gr root_loop "2" = Ok loops ->
  get_subtree_of_type fuel gr root_loop "0" = Ok cus ->
  PatternDetection.is_loop_index e (map (vp_startsAtLine gr) loops) cus = true
  <-> gt_header_edge gr root_loop e.
Proof.
  intros Hloops Hcus. unfold PatternDetection.is_loop_index, gt_header_edge.
  rewrite !andb_true_iff, String.eqb_eq, str_in_spec, vertex_in_spec,
    (gt_loop_lines_spec fuel gr root_loop loops _ Hloops),
    (subtree_typed fuel gr "0" root_loop cus Hcus); [tauto | discriminate].
Qed.

Lemma older_written_at_spec (gr : Graph) (dep : Edge) (lines : list string) (v : Vertex) :
  PatternDetection.written_at gr dep lines v = true
  <-> exists e,
        In e (GraphTool.edges gr) /\ ep_var dep = ep_var e
        /\ ((e_source e = v /\ (ep_dtype e = "WAR" \/ ep_dtype e = "WAW")
             /\ ~ In (ep_sink e) lines)
            \/ (e_target e = v /\ ep_dtype e = "RAW" /\ ~ In (ep_source e) lines)).
Proof.
  unfold PatternDetection.written_at. rewrite orb_true_iff, !existsb_exists. split.
  - intros [[e [He Hc]] | [e [He Hc]]].
    + apply in_gt_out_edges in He. apply andb_true_iff in Hc. destruct Hc as [Hc Hn].
      apply andb_true_iff in Hc. destruct Hc as [Hd Hv].
      apply orb_true_iff in Hd. rewrite !String.eqb_eq in Hd. apply String.eqb_eq in Hv.
      apply (negb_iff _ _ (str_in_spec _ _)) in Hn.
      exists e. split; [tauto |]. split; [exact Hv |]. left. tauto.
    + apply in_gt_in_edges in He. apply andb_true_iff in Hc. destruct Hc as [Hc Hn].
      apply andb_true_iff in Hc. destruct Hc as [Hd Hv].
      apply String.eqb_eq in Hd. apply String.eqb_eq in Hv.
      apply (negb_iff _ _ (str_in_spec _ _)) in Hn.
      exists e. split; [tauto |]. split; [exact Hv |]. right. tauto.
  - intros [e [He [Hv [[Hs [Hd Hn]] | [Ht [Hd Hn]]]]]].
    + left. exists e. split; [apply in_gt_out_edges; tauto |].
      rewrite !andb_true_iff, orb_true_iff, !String.eqb_eq.
      split; [tauto |]. apply (negb_iff _ _ (str_in_spec _ _)). exact Hn.
    + right. exists e. split; [apply in_gt_in_edges; tauto |].
      rewrite !andb_true_iff, !String.eqb_eq.
      split; [tauto |]. apply (negb_iff _ _ (str_in_spec _ _)). exact Hn.
Qed.

Lemma older_readonly_spec (fuel : nat) (gr : Graph) (dep : Edge) (root_loop : Vertex)
  (ro : bool) :
  PatternDetection.is_readonly_inside_loop_body fuel gr dep root_loop = Ok ro ->
  (ro = false <-> gt_written gr root_loop dep).
Proof.
  unfold PatternDetection.is_readonly_inside_loop_body. intros H.
  apply bind_ok in H. destruct H as [loops [Hloops H]].
  apply bind_ok in H. destruct H as [cus [Hcus H]]. inversion H. clear H.
  rewrite negb_false_iff, existsb_exists. unfold gt_written. split.
  - intros [v [Hv Hw]]. apply older_written_at_spec in Hw.
    destruct Hw as [e [He [Hvar Hcase]]].
    apply (subtree_typed fuel gr "0" root_loop cus Hcus) in Hv; [| discriminate].
    exists v, e. rewrite <- !(gt_loop_lines_spec fuel gr root_loop loops _ Hloops). tauto.
  - intros [v [e [Hr [Ht [He [Hvar Hcase]]]]]].
    rewrite <- !(gt_loop_lines_spec fuel gr root_loop loops _ Hloops) in Hcase.
    exists v. split.
    + apply (subtree_typed fuel gr "0" root_loop cus Hcus); [discriminate | tauto].
    + apply older_written_at_spec. exists e. tauto.
Qed.

Lemma counts_as_dependency_spec (fuel : nat) (gr : Graph) (root_loop : Vertex)
  (loops : list Vertex) (e : Edge) (c : bool) :
  get_subtree_of_type fuel gr root_loop "2" = Ok loops ->
  counts_as_dependency fuel gr (map (vp_startsAtLine gr) loops) root_loop e = Ok c ->
  (c = true <-> gt_dependency gr root_loop e).
Proof.
  intros Hloops. unfold counts_as_dependency, gt_dependency.
  destruct (String.eqb (ep_type e) "dependence" && String.eqb (ep_dtype e) "RAW") eqn:E.
  - apply andb_true_iff in E. rewrite !String.eqb_eq in E. intros H.
    apply bind_ok in H. destruct H as [cus [Hcus H]].
    pose proof (older_is_loop_index_spec fuel gr root_loop loops cus e Hloops Hcus) as Hidx.
    destruct (PatternDetection.is_loop_index e (map (vp_startsAtLine gr) loops) cus).
    + apply bind_ok in H. destruct H as [ro [Hro H]]. inversion H. clear H.
      pose proof (older_readonly_spec fuel gr e root_loop ro Hro) as Hw.
      rewrite negb_true_iff, Hw. split.
      * intros Hwr. split; [tauto |]. split; [tauto |]. intros [_ Hn]. exact (Hn Hwr).
      * intros [_ [_ Hn]]. destruct ro; [| apply Hw; reflexivity].
        exfalso. apply Hn. split; [apply Hidx; reflexivity |].
        intros Hwr. apply Hw in Hwr. discriminate.
    + inversion H. split; [| reflexivity]. intros _.
      split; [tauto |]. split; [tauto |]. intros [Hh _]. apply Hidx in Hh. discriminate.
  - intros H. inversion H. split; [discriminate |]. intros [Ht [Hd _]].
    rewrite Ht, Hd in E. discriminate.
Qed.

Lemma counts_as_dependency_total (fuel : nat) (gr : Graph) (rank : Vertex -> nat)
  (lines : list string) (root_loop : Vertex) (e : Edge) :
  gt_child_ranked gr rank ->
  (forall v, rank v < fuel) ->
  exists c, counts_as_dependency fuel gr lines root_loop e = Ok c.
Proof.
  intros Hrank Hfuel. unfold counts_as_dependency.
  destruct (String.eqb (ep_type e) "dependence" && String.eqb (ep_dtype e) "RAW");
    [| eexists; reflexivity].
  destruct (get_subtree_of_type_total gr rank "0" Hrank fuel root_loop (Hfuel _)) as [cus Hcus].
  destruct (get_subtree_of_type_total gr rank "2" Hrank fuel root_loop (Hfuel _))
    as [loops Hloops].
  rewrite Hcus. simpl. destruct (PatternDetection.is_loop_index e lines cus);
    [| eexists; reflexivity].
  unfold PatternDetection.is_readonly_inside_loop_body. rewrite Hloops, Hcus. simpl.
  eexists. reflexivity.
Qed.

Lemma in_vset_add (s : list Vertex) (v t : Vertex) :
  In t (vset_add s v) <-> In t s \/ v = t.
Proof.
  unfold vset_add. destruct (vertex_in v s) eqn:E.
  - apply vertex_in_spec in E. split; [auto |]. intros [H | H]; [exact H | subst; exact E].
  - rewrite in_app_iff. simpl. tauto.
Qed.

Lemma vset_add_NoDup (s : list Vertex) (v : Vertex) : NoDup s -> NoDup (vset_add s v).
Proof.
  intros H. unfold vset_add. destruct (vertex_in v s) eqn:E; [exact H |].
  apply vertex_in_false in E. apply nodup_snoc; assumption.
Qed.

(** A loop that adds to a set of vertices the ends of the items a test
    lets through. *)
Lemma collect_vertices_spec (A : Type) (f : A -> result bool) (tgt : A -> Vertex)
  (l : list A) :
  forall s r,
    for_each l (fun s x => c <- f x ;; Ok (if c then vset_add s (tgt x) else s)) s = Ok r ->
    (NoDup s -> NoDup r)
    /\ forall t, In t r <-> In t s \/ exists x, In x l /\ f x = Ok true /\ tgt x = t.
Proof.
  induction l as [| x l IH]; intros s r H; simpl in H.
  - inversion H. subst r. split; [auto |]. intros t. split; [auto |].
    intros [Hs | [x [[] _]]]. exact Hs.
  - apply bind_ok in H. destruct H as [s' [Hx H]].
    apply bind_ok in Hx. destruct Hx as [c [Hc Hx]]. inversion Hx. subst s'. clear Hx.
    destruct (IH _ _ H) as [Hnd Hmem]. split.
    + intros Hs. apply Hnd. destruct c; [apply vset_add_NoDup |]; exact Hs.
    + intros t. rewrite Hmem. destruct c.
      * rewrite in_vset_add. split.
        -- intros [[Hs | Hn] | [y [Hy Hrest]]].
           ++ left. exact Hs.
           ++ right. exists x. split; [left; reflexivity | auto].
           ++ right. exists y. split; [right; exact Hy | exact Hrest].
        -- intros [Hs | [y [[Hy | Hy] [Hf Ht]]]].
           ++ left. left. exact Hs.
           ++ subst y. left. right. exact Ht.
           ++ right. exists y. auto.
      * split.
        -- intros [Hs | [y [Hy Hrest]]]; [left; exact Hs |].
           right. exists y. split; [right; exact Hy | exact Hrest].
        -- intros [Hs | [y [[Hy | Hy] [Hf Ht]]]].
           ++ left. exact Hs.
           ++ subst y. rewrite Hc in Hf. discriminate.
           ++ right. exists y. auto.
Qed.

Lemma collect_vertices_total (A : Type) (f : A -> result bool) (tgt : A -> Vertex)
  (l : list A) :
  (forall x, In x l -> exists c, f x = Ok c) ->
  forall s, exists r,
    for_each l (fun s x => c <- f x ;; Ok (if c then vset_add s (tgt x) else s)) s = Ok r.
Proof.
  induction l as [| x l IH]; intros Hf s; simpl.
  - exists s. reflexivity.
  - destruct (Hf x) as [c Hc]; [left; reflexivity |]. rewrite Hc. simpl.
    apply IH. intros y Hy. apply Hf. right. exact Hy.
Qed.

(** The set [get_all_dependencies] of pattern_detection.py returns. *)
Lemma older_dependencies_collected (fuel : nat) (gr : Graph) (rank : Vertex -> nat)
  (node root_loop : Vertex) :
  gt_child_ranked gr rank ->
  (forall v, rank v < fuel) ->
  exists deps,
    PatternDetection.get_all_dependencies fuel gr node root_loop = Ok deps
    /\ NoDup deps
    /\ forall t,
         In t deps <->
         exists v e,
           gt_reach gr node v /\ vp_type gr v = "0"
           /\ In e (GraphTool.edges gr) /\ e_source e = v /\ e_target e = t
           /\ gt_dependency gr root_loop e.
Proof.
  intros Hrank Hfuel. unfold PatternDetection.get_all_dependencies.
  destruct (get_subtree_of_type_total gr rank "0" Hrank fuel node (Hfuel _))
    as [children Hchildren].
  destruct (get_subtree_of_type_total gr rank "2" Hrank fuel root_loop (Hfuel _))
    as [loops Hloops].
  rewrite Hchildren, Hloops. simpl.
  rewrite (for_each_flat_map (GraphTool.out_edges gr)
             (fun dep_set e =>
                c <- counts_as_dependency fuel gr (map (vp_startsAtLine gr) loops)
                       root_loop e ;;
                Ok (if c then vset_add dep_set (e_target e) else dep_set))).
  destruct (collect_vertices_total Edge
              (counts_as_dependency fuel gr (map (vp_startsAtLine gr) loops) root_loop)
              e_target (flat_map (GraphTool.out_edges gr) children)) with (s := @nil Vertex)
    as [deps Hdeps].
  { intros e _. apply (counts_as_dependency_total fuel gr rank); assumption. }
  exists deps. split; [exact Hdeps |].
  destruct (collect_vertices_spec _ _ _ _ _ _ Hdeps) as [Hnd Hmem].
  split; [apply Hnd; constructor |]. intros t. rewrite Hmem. split.
  - intros [[] | [e [He [Hc Ht]]]]. apply in_flat_map in He. destruct He as [v [Hv He]].
    apply in_gt_out_edges in He.
    apply (subtree_typed fuel gr "0" node children Hchildren) in Hv; [| discriminate].
    exists v, e.
    pose proof (proj1 (counts_as_dependency_spec fuel gr root_loop loops e true Hloops Hc)
                  eq_refl) as Hdep.
    tauto.
  - intros [v [e [Hr [Hty [He [Hs [Ht Hdep]]]]]]]. right. exists e.
    split; [| split; [| exact Ht]].
    + apply in_flat_map. exists v. split.
      * apply (subtree_typed fuel gr "0" node children Hchildren); [discriminate | tauto].
      * apply in_gt_out_edges. tauto.
    + destruct (counts_as_dependency_total fuel gr rank (map (vp_startsAtLine gr) loops)
                  root_loop e Hrank Hfuel) as [c Hc].
      rewrite Hc. f_equal.
      apply (counts_as_dependency_spec fuel gr root_loop loops e c Hloops Hc). exact Hdep.
Qed.

(** X26. [PatternDetector.is_depending(v_source, v_target, root_loop)]
    on a graph whose child edges form no cycle: it returns, and it is True
    exactly when a CU (type '0') that is [v_source] or lies below it has an
    out-edge that counts as a dependence and leads to [v_target] itself or
    to a CU below [v_target]. An edge counts when it is a RAW dependence
    edge, unless it is both an edge on a loop index of [root_loop] and on a
    variable that is not written in the loop: one of the two does not
    exclude it. *)
Theorem is_depending_spec (fuel : nat) (gr : Graph) (rank : Vertex -> nat)
  (v_source v_target root_loop : Vertex) :
  gt_child_ranked gr rank ->
  (forall v, rank v < fuel) ->
  exists b,
    is_depending fuel gr v_source v_target root_loop = Ok b
    /\ (b = true <->
        exists v e,
          gt_reach gr v_source v /\ vp_type gr v = "0"
          /\ In e (GraphTool.edges gr) /\ e_source e = v
          /\ ep_type e = "dependence" /\ ep_dtype e = "RAW"
          /\ ~ (gt_header_edge gr root_loop e /\ ~ gt_written gr root_loop e)
          /\ (e_target e = v_target
              \/ (gt_reach gr v_target (e_target e) /\ vp_type gr (e_target e) = "0"))).
Proof.
  intros Hrank Hfuel. unfold is_depending.
  destruct (get_subtree_of_type_total gr rank "0" Hrank fuel v_target (Hfuel _)) as [sub Hsub].
  destruct (older_dependencies_collected fuel gr rank v_source root_loop Hrank Hfuel)
    as [deps [Hdeps [_ Hmem]]].
  rewrite Hsub, Hdeps. simpl. eexists. split; [reflexivity |].
  rewrite existsb_exists. split.
  - intros [t [Ht Hin]]. apply vertex_in_spec in Hin. apply Hmem in Ht.
    destruct Ht as [v [e [Hr [Hty [He [Hs [Het [Hd1 [Hd2 Hd3]]]]]]]]].
    exists v, e. repeat (split; [assumption |]).
    apply in_app_or in Hin. destruct Hin as [Hin | [Hin | []]].
    + right. rewrite Het.
      apply (subtree_typed fuel gr "0" v_target sub Hsub); [discriminate | exact Hin].
    + left. rewrite Het. symmetry. exact Hin.
  - intros [v [e [Hr [Hty [He [Hs [Hd1 [Hd2 [Hd3 Hend]]]]]]]]].
    exists (e_target e). split.
    + apply Hmem. exists v, e. unfold gt_dependency. auto 10.
    + apply vertex_in_spec. apply in_or_app. destruct Hend as [Hend | Hend].
      * right. left. symmetry. exact Hend.
      * left. apply (subtree_typed fuel gr "0" v_target sub Hsub); [discriminate | exact Hend].
Qed.

End OlderDependences.

Lemma gt_loop_with_reads_ranked :
  Spec.gt_child_ranked Examples.gt_loop_with_reads Cases.star_rank.
Proof.
  intros e He Hty. cbv in He.
  repeat (destruct He as [He | He];
          [subst e; first [discriminate Hty | cbv; lia] |]).
  destruct He.
Qed.

Lemma is_depending_spec_witness :
  exists b,
    PatternDetection.is_depending 2 Examples.gt_loop_with_reads 2 1 0 = Ok b
    /\ (b = true <->
        exists v e,
          Spec.gt_reach Examples.gt_loop_with_reads 2 v
          /\ GraphTool.vp_type Examples.gt_loop_with_reads v = "0"
          /\ In e (GraphTool.edges Examples.gt_loop_with_reads)
          /\ GraphTool.e_source e = v
          /\ GraphTool.ep_type e = "dependence" /\ GraphTool.ep_dtype e = "RAW"
          /\ ~ (Notions.gt_header_edge Examples.gt_loop_with_reads 0 e
                /\ ~ Notions.gt_written Examples.gt_loop_with_reads 0 e)
          /\ (GraphTool.e_target e = 1
              \/ (Spec.gt_reach Examples.gt_loop_with_reads 1 (GraphTool.e_target e)
                  /\ GraphTool.vp_type Examples.gt_loop_with_reads (GraphTool.e_target e)
                     = "0"))).
Proof.
  apply (is_depending_spec 2 Examples.gt_loop_with_reads Cases.star_rank 2 1 0).
  - exact gt_loop_with_reads_ranked.
  - exact star_rank_bound.
Defined.

(** On [gt_loop_with_reads] the CU 2 depends on the CU 1, and the CU 1
    on nothing. *)
Example is_depending_on_loop_with_reads :
  PatternDetection.is_depending 2 Examples.gt_loop_with_reads 2 1 0 = Ok true
  /\ PatternDetection.is_depending 2 Examples.gt_loop_with_reads 1 2 0 = Ok false.
Proof. split; vm_compute; reflexivity. Qed.

(** ** pattern_detection.py: the pipeline pass and the do-all pass *)

Section DetectorPasses.
Import GraphTool PatternDetection Spec Notions.

Lemma for_each_ext (A S : Type) (step step' : S -> A -> result S) (l : list A) :
  (forall s x, step s x = step' s x) ->
  forall s, for_each l step s = for_each l step' s.
Proof.
  intros H. induction l as [| x l IH]; intros s; simpl.
  - reflexivity.
  - rewrite H. destruct (step' s x); simpl; auto.
Qed.

Lemma same_structure_refl (gr : Graph) : same_structure gr gr.
Proof. repeat split. Qed.

Lemma is_readonly_ext (fuel : nat) (gr gr' : Graph) (dep : Edge) (root_loop : Vertex) :
  same_structure gr gr' ->
  PatternDetection.is_readonly_inside_loop_body fuel gr' dep root_loop
  = PatternDetection.is_readonly_inside_loop_body fuel gr dep root_loop.
Proof.
  intros [He [Ht [Hs _]]].
  unfold PatternDetection.is_readonly_inside_loop_body, PatternDetection.written_at,
    GraphTool.out_edges, GraphTool.in_edges.
  rewrite (get_subtree_of_type_ext gr gr' "2" He Ht),
    (get_subtree_of_type_ext gr gr' "0" He Ht), He, Hs.
  reflexivity.
Qed.

Lemma counts_as_dependency_ext (fuel : nat) (gr gr' : Graph) (lines : list string)
  (root_loop : Vertex) (e : Edge) :
  same_structure gr gr' ->
  counts_as_dependency fuel gr' lines root_loop e
  = counts_as_dependency fuel gr lines root_loop e.
Proof.
  intros Hsame. pose proof Hsame as [He [Ht _]]. unfold counts_as_dependency.
  rewrite (get_subtree_of_type_ext gr gr' "0" He Ht),
    (is_readonly_ext fuel gr gr' e root_loop Hsame).
  reflexivity.
Qed.

Lemma get_all_dependencies_ext (fuel : nat) (gr gr' : Graph) (node root_loop : Vertex) :
  same_structure gr gr' ->
  PatternDetection.get_all_dependencies fuel gr' node root_loop
  = PatternDetection.get_all_dependencies fuel gr node root_loop.
Proof.
  intros Hsame. pose proof Hsame as [He [Ht [Hs _]]].
  unfold PatternDetection.get_all_dependencies, GraphTool.out_edges.
  rewrite (get_subtree_of_type_ext gr gr' "0" He Ht),
    (get_subtree_of_type_ext gr gr' "2" He Ht), He, Hs.
  destruct (get_subtree_of_type fuel gr node "0") as [children | |]; simpl; try reflexivity.
  destruct (get_subtree_of_type fuel gr root_loop "2") as [loops | |]; simpl;
    try reflexivity.
  apply for_each_ext. intros s v. apply for_each_ext. intros s' e.
  rewrite (counts_as_dependency_ext fuel gr gr' _ root_loop e Hsame). reflexivity.
Qed.

Lemma is_depending_ext (fuel : nat) (gr gr' : Graph) (v_source v_target root_loop : Vertex) :
  same_structure gr gr' ->
  is_depending fuel gr' v_source v_target root_loop
  = is_depending fuel gr v_source v_target root_loop.
Proof.
  intros Hsame. pose proof Hsame as [He [Ht _]]. unfold is_depending.
  rewrite (get_subtree_of_type_ext gr gr' "0" He Ht),
    (get_all_dependencies_ext fuel gr gr' v_source root_loop Hsame).
  reflexivity.
Qed.

(** *** The pipeline pass *)

Lemma detect_pipeline_writes (fuel : nat) (gr : Graph) (root : Vertex) (r : Graph * num) :
  detect_pipeline fuel gr root = Ok r ->
  fst r = gr \/ fst r = set_vp_pipeline gr (upd (vp_pipeline gr) root (-1)%float).
Proof.
  unfold detect_pipeline. intros H.
  match type of H with
  | (if ?c then _ else _) = _ => destruct c
  end.
  - inversion H. right. reflexivity.
  - apply bind_ok in H. destruct H as [gv [_ H]].
    apply bind_ok in H. destruct H as [mw [_ H]].
    destruct (num_eq mw (PyInt 1)); inversion H; left; reflexivity.
Qed.

Lemma detect_pipeline_few_stages (fuel : nat) (gr : Graph) (root : Vertex) :
  List.length (stages gr root) < 2 ->
  detect_pipeline fuel gr root
  = Ok (set_vp_pipeline gr (upd (vp_pipeline gr) root (-1)%float), PyInt 0).
Proof.
  intros H. unfold detect_pipeline. fold (stages gr root).
  rewrite (proj2 (Nat.ltb_lt _ _) H). reflexivity.
Qed.

Lemma stages_ext (gr gr' : Graph) (root : Vertex) :
  same_structure gr gr' -> stages gr' root = stages gr root.
Proof.
  intros [He [Ht [Hs Hz]]].
  unfold stages, is_pipeline_subnode, find_subnodes, GraphTool.out_edges.
  rewrite He, Ht, Hs, Hz. reflexivity.
Qed.

(** The loops of a detector on two graphs of the same structure. *)
Ltac same_loops gr gr' Hsame :=
  repeat match goal with
         | |- context [for_each ?l ?step ?s] =>
             match step with
             | context [gr'] =>
                 let p := eval pattern gr' in step in
                 match p with
                 | ?F _ =>
                     let step0 := eval cbv beta in (F gr) in
                     rewrite (for_each_ext _ _ step step0 l
                                ltac:(intros; cbv beta;
                                      try (apply for_each_ext; intros; cbv beta);
                                      rewrite (is_depending_ext _ gr gr' _ _ _ Hsame);
                                      reflexivity))
                 end
             end
         end.

(** The score does not depend on the flags of the graph. *)
Lemma detect_pipeline_value_ext (fuel : nat) (gr gr' : Graph) (root : Vertex) :
  same_structure gr gr' ->
  (r <- detect_pipeline fuel gr' root ;; Ok (snd r))
  = (r <- detect_pipeline fuel gr root ;; Ok (snd r)).
Proof.
  intros Hsame. unfold detect_pipeline. cbv zeta.
  fold (stages gr' root). fold (stages gr root). rewrite (stages_ext gr gr' root Hsame).
  destruct (Nat.ltb (List.length (stages gr root)) 2); [reflexivity |].
  same_loops gr gr' Hsame.
  match goal with
  | |- _ = ?R =>
      match R with
      | context [for_each ?l ?step (@nil num)] =>
          match goal with
          | |- ?L = _ =>
              match L with
              | context [for_each l ?stepL (@nil num)] => change stepL with step
              end
          end;
          destruct (for_each l step (@nil num))
      end
  end; simpl; try reflexivity.
  match goal with
  | |- _ = ?R =>
      match R with
      | context [for_each ?l ?step (PyInt 1)] =>
          match goal with
          | |- ?L = _ =>
              match L with
              | context [for_each l ?stepL (PyInt 1)] => change stepL with step
              end
          end;
          destruct (for_each l step (PyInt 1))
      end
  end; simpl; try reflexivity.
  match goal with
  | |- context [if ?c then _ else _] => destruct c
  end; reflexivity.
Qed.

Lemma find_vertex_spec (gr : Graph) (prop : Vertex -> string) (val : string) (v : Vertex) :
  In v (find_vertex gr prop val) <-> v < num_vertices gr /\ prop v = val.
Proof.
  unfold find_vertex, vertices. rewrite filter_In, in_seq, String.eqb_eq.
  split; intros [H1 H2]; (split; [lia | exact H2]).
Qed.

Lemma find_vertex_NoDup (gr : Graph) (prop : Vertex -> string) (val : string) :
  NoDup (find_vertex gr prop val).
Proof. unfold find_vertex, vertices. apply NoDup_filter. apply seq_NoDup. Qed.

Lemma pipeline_pass_steps (fuel : nat) (self0 : PatternDetector) :
  forall l s self',
    NoDup l ->
    same_structure (pet self0) (pet s) ->
    for_each l
      (fun self node =>
         r <- detect_pipeline fuel (pet self) node ;;
         Ok (with_pet self
               (set_vp_pipeline (fst r) (upd (vp_pipeline (fst r)) node (to_float (snd r))))))
      s = Ok self' ->
    (forall v, In v l ->
       exists r,
         detect_pipeline fuel (pet self0) v = Ok r
         /\ vp_pipeline (pet self') v = to_float (snd r))
    /\ (forall v, ~ In v l -> vp_pipeline (pet self') v = vp_pipeline (pet s) v).
Proof.
  induction l as [| x l IH]; intros s self' Hnd Hsame H; simpl in H.
  - inversion H. subst self'. split; [intros v [] | reflexivity].
  - apply bind_ok in H. destruct H as [s1 [H1 H]].
    apply bind_ok in H1. destruct H1 as [r [Hr H1]]. inversion H1 as [Hs1]. clear H1.
    inversion Hnd as [| y l' Hx Hl]. subst y l'.
    assert (Hfst : same_structure (pet s) (fst r)
                   /\ forall v, v <> x -> vp_pipeline (fst r) v = vp_pipeline (pet s) v).
    { destruct (detect_pipeline_writes fuel (pet s) x r Hr) as [E | E]; rewrite E.
      - split; [apply same_structure_refl | reflexivity].
      - split; [repeat split |]. intros v Hv. simpl. apply upd_other. exact Hv. }
    destruct Hfst as [Hfst Hother].
    assert (Hsame1 : same_structure (pet self0) (pet s1)).
    { rewrite <- Hs1. simpl. destruct Hsame as [A1 [A2 [A3 A4]]].
      destruct Hfst as [B1 [B2 [B3 B4]]]. repeat split; simpl; congruence. }
    destruct (IH s1 self' Hl Hsame1 H) as [IH1 IH2]. split.
    + intros v [Hv | Hv]; [| apply IH1; exact Hv]. subst v.
      pose proof (detect_pipeline_value_ext fuel (pet self0) (pet s) x Hsame) as Hext.
      rewrite Hr in Hext. simpl in Hext.
      destruct (detect_pipeline fuel (pet self0) x) as [r0 | e |]; simpl in Hext;
        try discriminate.
      exists r0. split; [reflexivity |]. inversion Hext as [Hsnd].
      rewrite (IH2 x Hx), <- Hs1. simpl. rewrite upd_same, Hsnd. reflexivity.
    + intros v Hv. assert (Hne : v <> x). { intros Hc. apply Hv. left. symmetry. exact Hc. }
      rewrite IH2; [| intros Hc; apply Hv; right; exact Hc].
      rewrite <- Hs1. simpl. rewrite upd_other; [| exact Hne]. apply Hother. exact Hne.
Qed.

(** X27. After [__detect_pipeline_loop] every loop vertex (type '2')
    carries the score [__detect_pipeline] returns for it on the graph the
    pass started from, and no other vertex is touched. So the score -1 that
    [__detect_pipeline] writes for a loop with fewer than two stages never
    stays: the caller overwrites it with the returned 0. *)
Theorem pipeline_pass_values (fuel : nat) (self self' : PatternDetector) :
  detect_pipeline_loop fuel self = Ok self' ->
  (forall v,
     v < num_vertices (pet self) -> vp_type (pet self) v = "2" ->
     exists r,
       detect_pipeline fuel (pet self) v = Ok r
       /\ vp_pipeline (pet self') v = to_float (snd r))
  /\ (forall v,
        v < num_vertices (pet self) -> vp_type (pet self) v = "2" ->
        List.length (stages (pet self) v) < 2 ->
        vp_pipeline (pet self') v = 0%float)
  /\ (forall v,
        ~ (v < num_vertices (pet self) /\ vp_type (pet self) v = "2") ->
        vp_pipeline (pet self') v = vp_pipeline (pet self) v).
Proof.
  unfold detect_pipeline_loop. intros H.
  destruct (pipeline_pass_steps fuel self _ self self'
              (find_vertex_NoDup _ _ _) (same_structure_refl _) H) as [H1 H2].
  assert (Hloop : forall v,
             v < num_vertices (pet self) -> vp_type (pet self) v = "2" ->
             exists r,
               detect_pipeline fuel (pet self) v = Ok r
               /\ vp_pipeline (pet self') v = to_float (snd r)).
  { intros v Hv Hty. apply H1. apply find_vertex_spec. auto. }
  split; [exact Hloop |]. split.
  - intros v Hv Hty Hfew. destruct (Hloop v Hv Hty) as [r [Hr Hp]].
    rewrite (detect_pipeline_few_stages fuel (pet self) v Hfew) in Hr.
    inversion Hr as [Hr']. rewrite Hp, <- Hr'. reflexivity.
  - intros v Hv. apply H2. intros Hin. apply Hv. apply find_vertex_spec in Hin. exact Hin.
Qed.

(** *** The do-all pass *)

Lemma detect_do_all_ext (fuel : nat) (gr gr' : Graph) (root : Vertex) :
  same_structure gr gr' ->
  detect_do_all fuel gr' root = detect_do_all fuel gr root.
Proof.
  intros Hsame. pose proof Hsame as [He _].
  unfold detect_do_all, do_all_vector, find_subnodes, GraphTool.out_edges.
  rewrite He. same_loops gr gr' Hsame. reflexivity.
Qed.

Lemma detect_do_all_no_children (fuel : nat) (gr : Graph) (root : Vertex) :
  find_subnodes gr root "child" = [] -> detect_do_all fuel gr root = Ok (PyInt 0).
Proof.
  intros H. unfold detect_do_all, do_all_vector. rewrite H. reflexivity.
Qed.

Lemma above_zero_threshold (t v : float) :
  PrimFloat.leb 0%float t = true -> PrimFloat.ltb t v = true ->
  PrimFloat.eqb v 0%float = false.
Proof.
  rewrite FloatAxioms.leb_spec, FloatAxioms.ltb_spec, FloatAxioms.eqb_spec.
  change (Prim2SF 0%float) with (S754_zero false).
  destruct (Prim2SF t) as [s | s | | s m e], (Prim2SF v) as [s' | s' | | s' m' e'];
    try destruct s; try destruct s'; simpl; intros H1 H2;
    try discriminate; try reflexivity.
Qed.

Lemma not_above_zero (t : float) :
  PrimFloat.leb 0%float t = true -> PrimFloat.ltb t 0%float = false.
Proof.
  rewrite FloatAxioms.leb_spec, FloatAxioms.ltb_spec.
  change (Prim2SF 0%float) with (S754_zero false).
  destruct (Prim2SF t) as [s | s | | s m e];
    try destruct s; simpl; intros H1; try discriminate; try reflexivity.
Qed.

Lemma do_all_pass_steps (fuel : nat) (self0 : PatternDetector) :
  PrimFloat.leb 0%float (do_all_threshold self0) = true ->
  forall l s self',
    same_structure (pet self0) (pet s) ->
    do_all_threshold s = do_all_threshold self0 ->
    for_each l
      (fun self node =>
         val <- detect_do_all fuel (pet self) node ;;
         Ok (if PrimFloat.ltb (do_all_threshold self) (to_float val)
             then with_pet self
                    (set_vp_doAll (pet self)
                       (upd (vp_doAll (pet self)) node (float_truth (to_float val))))
             else self))
      s = Ok self' ->
    forall v,
      vp_doAll (pet self') v = true <->
      vp_doAll (pet s) v = true
      \/ (In v l
          /\ exists val,
               detect_do_all fuel (pet self0) v = Ok val
               /\ PrimFloat.ltb (do_all_threshold self0) (to_float val) = true).
Proof.
  intros Hthr. induction l as [| x l IH]; intros s self' Hsame Ht H v; simpl in H.
  - inversion H. subst self'. split; [auto |]. intros [Hs | [[] _]]. exact Hs.
  - apply bind_ok in H. destruct H as [s1 [H1 H]].
    apply bind_ok in H1. destruct H1 as [val [Hval H1]]. inversion H1 as [Hs1]. clear H1.
    rewrite (detect_do_all_ext fuel (pet self0) (pet s) x Hsame) in Hval.
    rewrite Ht in Hs1.
    destruct (PrimFloat.ltb (do_all_threshold self0) (to_float val)) eqn:E.
    + assert (Hsame1 : same_structure (pet self0) (pet s1)).
      { rewrite <- Hs1. exact Hsame. }
      assert (Ht1 : do_all_threshold s1 = do_all_threshold self0).
      { rewrite <- Hs1. exact Ht. }
      rewrite (IH s1 self' Hsame1 Ht1 H v), <- Hs1. simpl.
      destruct (Nat.eq_dec v x) as [Hv | Hv].
      * subst v. rewrite upd_same. unfold float_truth.
        rewrite (above_zero_threshold _ _ Hthr E). simpl. split; intros _.
        -- right. split; [left; reflexivity |]. exists val. auto.
        -- left. reflexivity.
      * rewrite (upd_other _ _ _ _ Hv). split.
        -- intros [Hs | [Hin Hp]]; [left; exact Hs | right; split; [right; exact Hin | exact Hp]].
        -- intros [Hs | [[Hin | Hin] Hp]].
           ++ left. exact Hs.
           ++ exfalso. apply Hv. symmetry. exact Hin.
           ++ right. auto.
    + subst s1. rewrite (IH s self' Hsame Ht H v). split.
      * intros [Hs | [Hin Hp]]; [left; exact Hs | right; split; [right; exact Hin | exact Hp]].
      * intros [Hs | [[Hin | Hin] Hp]].
        -- left. exact Hs.
        -- subst v. destruct Hp as [val' [Hval' E']]. rewrite Hval in Hval'.
           inversion Hval'. subst val'. rewrite E in E'. discriminate.
        -- right. auto.
Qed.

(** X28. [__detect_do_all_loop] with a threshold that is not negative:
    after the pass a vertex carries the do-all flag exactly when it carried
    it before or it is a loop (type '2') whose score, as [__detect_do_all]
    computes it on the graph the pass started from, exceeds the threshold.
    The pass clears no flag, and it leaves a vertex without children as it
    is: its score is the integer 0. *)
Theorem do_all_pass_flags (fuel : nat) (self self' : PatternDetector) :
  PrimFloat.leb 0%float (do_all_threshold self) = true ->
  detect_do_all_loop fuel self = Ok self' ->
  (forall v,
     vp_doAll (pet self') v = true <->
     vp_doAll (pet self) v = true
     \/ (v < num_vertices (pet self) /\ vp_type (pet self) v = "2"
         /\ exists val,
              detect_do_all fuel (pet self) v = Ok val
              /\ PrimFloat.ltb (do_all_threshold self) (to_float val) = true))
  /\ (forall v,
        find_subnodes (pet self) v "child" = [] ->
        vp_doAll (pet self') v = vp_doAll (pet self) v).
Proof.
  intros Hthr H. unfold detect_do_all_loop in H.
  pose proof (do_all_pass_steps fuel self Hthr _ self self'
                (same_structure_refl _) eq_refl H) as Hsteps.
  assert (Hflags : forall v,
             vp_doAll (pet self') v = true <->
             vp_doAll (pet self) v = true
             \/ (v < num_vertices (pet self) /\ vp_type (pet self) v = "2"
                 /\ exists val,
                      detect_do_all fuel (pet self) v = Ok val
                      /\ PrimFloat.ltb (do_all_threshold self) (to_float val) = true)).
  { intros v. rewrite (Hsteps v), find_vertex_spec. tauto. }
  split; [exact Hflags |].
  intros v Hnone. apply bool_iff_eq. rewrite (Hflags v). split; [| auto].
  intros [Hv | [_ [_ [val [Hval Habove]]]]]; [exact Hv |].
  rewrite (detect_do_all_no_children fuel (pet self) v Hnone) in Hval.
  inversion Hval. subst val. simpl in Habove.
  rewrite (not_above_zero _ Hthr) in Habove. discriminate.
Qed.

End DetectorPasses.

Lemma pipeline_pass_values_witness :
  exists self',
    PatternDetection.detect_pipeline_loop 3 (Examples.gt_loop_nest false) = Ok self'
    /\ (forall v,
          v < GraphTool.num_vertices (PatternDetection.pet (Examples.gt_loop_nest false)) ->
          GraphTool.vp_type (PatternDetection.pet (Examples.gt_loop_nest false)) v = "2" ->
          exists r,
            PatternDetection.detect_pipeline 3
              (PatternDetection.pet (Examples.gt_loop_nest false)) v = Ok r
            /\ GraphTool.vp_pipeline (PatternDetection.pet self') v = to_float (snd r))
    /\ (forall v,
          v < GraphTool.num_vertices (PatternDetection.pet (Examples.gt_loop_nest false)) ->
          GraphTool.vp_type (PatternDetection.pet (Examples.gt_loop_nest false)) v = "2" ->
          List.length (Notions.stages (PatternDetection.pet (Examples.gt_loop_nest false)) v)
          < 2 ->
          GraphTool.vp_pipeline (PatternDetection.pet self') v = 0%float)
    /\ (forall v,
          ~ (v < GraphTool.num_vertices (PatternDetection.pet (Examples.gt_loop_nest false))
             /\ GraphTool.vp_type (PatternDetection.pet (Examples.gt_loop_nest false)) v
                = "2") ->
          GraphTool.vp_pipeline (PatternDetection.pet self') v
          = GraphTool.vp_pipeline (PatternDetection.pet (Examples.gt_loop_nest false)) v).
Proof.
  destruct (PatternDetection.detect_pipeline_loop 3 (Examples.gt_loop_nest false))
    as [self' | e |] eqn:E.
  - exists self'. split; [reflexivity |].
    exact (pipeline_pass_values 3 (Examples.gt_loop_nest false) self' E).
  - vm_compute in E. discriminate E.
  - vm_compute in E. discriminate E.
Defined.

Lemma do_all_pass_flags_witness :
  exists self',
    PatternDetection.detect_do_all_loop 3 (Examples.gt_loop_nest false) = Ok self'
    /\ (forall v,
          GraphTool.vp_doAll (PatternDetection.pet self') v = true <->
          GraphTool.vp_doAll (PatternDetection.pet (Examples.gt_loop_nest false)) v = true
          \/ (v < GraphTool.num_vertices (PatternDetection.pet (Examples.gt_loop_nest false))
              /\ GraphTool.vp_type (PatternDetection.pet (Examples.gt_loop_nest false)) v
                 = "2"
              /\ exists val,
                   PatternDetection.detect_do_all 3
                     (PatternDetection.pet (Examples.gt_loop_nest false)) v = Ok val
                   /\ PrimFloat.ltb
                        (PatternDetection.do_all_threshold (Examples.gt_loop_nest false))
                        (to_float val) = true))
    /\ (forall v,
          GraphTool.find_subnodes (PatternDetection.pet (Examples.gt_loop_nest false)) v
            "child" = [] ->
          GraphTool.vp_doAll (PatternDetection.pet self') v
          = GraphTool.vp_doAll (PatternDetection.pet (Examples.gt_loop_nest false)) v).
Proof.
  destruct (PatternDetection.detect_do_all_loop 3 (Examples.gt_loop_nest false))
    as [self' | e |] eqn:E.
  - exists self'. split; [reflexivity |].
    exact (do_all_pass_flags 3 (Examples.gt_loop_nest false) self' eq_refl E).
  - vm_compute in E. discriminate E.
  - vm_compute in E. discriminate E.
Defined.

(** On the loop nest without flags: each loop has one child only, so the
    pipeline pass leaves the score 0 on both loops, not -1; the do-all pass
    flags both, their only pair of children not depending. *)
Example passes_on_loop_nest :
  (s <- PatternDetection.detect_pipeline_loop 3 (Examples.gt_loop_nest false) ;;
   Ok (map (GraphTool.vp_pipeline (PatternDetection.pet s)) [0; 1; 2]))
  = Ok [0%float; 0%float; 0%float]
  /\ (s <- PatternDetection.detect_do_all_loop 3 (Examples.gt_loop_nest false) ;;
      Ok (map (GraphTool.vp_doAll (PatternDetection.pet s)) [0; 1; 2]))
     = Ok [true; true; false].
Proof. split; vm_compute; reflexivity. Qed.
